(* ===== verification/_CoqProject ===== *)
-Q . S2P
Prelude.v
GoStrings.v
GoNum.v
GoFloat.v
GoTime.v
Utf8.v
Base64.v
GoFmt.v
Json.v
GoURL.v
GoNet.v
GoURLParse.v
GoMime.v
FloatInt.v
GoFlag.v
RateLimit.v
RateLimitSpec.v
Cache.v
Http.v
HttpLaws.v
Digest.v
Handles.v
Bodies.v
GoPath.v
DigestSpec.v
Delay.v
DelaySpec.v
ClientIP.v
ClientIPSpec.v
Converters.v
HeaderFilter.v
GoRand.v
Bin.v
Options.v
Config.v
ConfigSpec.v
Middleware.v
Mix.v
Pipeline.v
Responses.v
Handlers.v
RequestBody.v
Pdf.v
GoTemplate.v
StaticAssets.v
Cookies.v
Samples.v
MixSpec.v
Auth.v
Redirects.v
Images.v
Streams.v
ServeContent.v
StreamsSpec.v
HandlersSpec.v
BodySpec.v
ServeContentSpec.v
PipelineParse.v
PipelineSpec.v
PipelineHandler.v
RedirectsSpec.v
CookiesSpec.v
EtagSpec.v
PdfSpec.v
ImagesSpec.v
RedirectTo.v
MiddlewareSpec.v
Websocket.v
WebsocketSpec.v
Handshake.v
Hijack.v
ServeMux.v
ServeMuxSpec.v
Server.v
EndpointsHandle.v
ServerSpec.v
Main.v
MainSpec.v
ServerRun.v
Concurrent.v
