(* ===== verification/Prelude.v ===== *)
(** * A model of go-httpbin

    go-httpbin is an HTTP server for testing clients.  Its routes answer with what
    they are asked for: a status, a delay, bytes at some pace, a redirect, the
    request itself.  This development models the Go program of [src/httpbin] in Rocq
    and proves what its parts promise.

    ** The program and its model

    The command ([cmd/cmd.go]) reads its configuration, makes a server ([New] in
    [httpbin.go], from the options of [options.go] and the templates of
    [static_assets.go]) and serves until it is told to stop.  A request passes the
    middlewares ([middleware.go], [ratelimit.go], composed by [Handler] in
    [httpbin.go]), is routed to a handler ([handlers.go], [mix.go], [pipeline.go]),
    whose parameters are read by the parsers of [helpers.go] and whose answer goes
    through a stack of response writers.  The echo endpoint of [websocket/websocket.go]
    takes the connection over; [digest/digest.go] checks digest credentials;
    [responses.go] holds the structs that are answered as JSON.

    Handlers are computations in the monad [M] of [Http]: functions from a [World]
    (the request, the writer, the clock, the instant at which the client goes away,
    the random source, the caches, the connection) to an outcome and a [World].  An
    outcome is a value, an error or a panic.  Mutation of the request and of the writer
    is explicit state; loops over time advance the clock; a [select] between a timer and
    the client's context is [Sleep].  Middlewares that keep a state of the server are
    computations in [SM] over [Server] (limiter, semaphore, observations).  What many
    requests or goroutines share is also modelled by step relations: [net_step]
    (requests), [limiter_step] (the limiter and its cleanup), [process_step] (the signal
    handler and the listener), and sequences of operations on the caches.

    A definition has the name of the Go function or method it models; where one function
    is split, the parts are named after what they do, and names that clash get a suffix
    ([CacheHandler], [LinksHandler], [Base64Handler], [BytesHandler],
    [CacheControlHandler], [doImageHandler], [ImageHandler], [Delay_]) or are told apart
    by their file ([Cookies.Cookies], [RedirectTo.RedirectTo], [Pipeline.Pipeline]).

    ** Files

    The language and the standard library, as far as the program uses them:
    - [Prelude]: outcomes, the state monad, 64-bit integers with their wrap-around,
      bytes, orders of iteration over a map, shared tactics and hints;
    - [GoStrings], [GoNum], [GoFloat], [FloatInt], [GoTime], [Utf8], [Base64]:
      strings, integers and floats and their parsers, durations, UTF-8, base64;
    - [GoFmt]: errors and formatting, over the class [GoStd] of library tables that
      are left abstract (which runes are printable, the offset in the error of a
      corrupt base64 input, the conversion of a float that does not fit);
    - [Json], [GoURL], [GoURLParse], [GoNet], [GoMime], [GoPath]: JSON output, URLs and
      queries, [url.Parse], addresses and networks, media types and HTML escaping, laws
      of path cleaning and of trimming;
    - [GoFlag], [GoTemplate], [GoRand], [ServeMux]: command lines, the part of
      [text/template] that the templates use, seeded generators, and the router with its
      patterns, their conflicts and their precedence; [ServeMuxSpec]: which pattern a path
      goes to;
    - [Http]: headers, requests, the server's response writer and the wrappers
      [metaResponseWriter], [headResponseWriter] and [statusOverrideResponseWriter],
      the [World], and the response helpers of [helpers.go].

    The laws of writers:
    - [HttpLaws]: the first final status that is written is the status sent;
    - [Handles]: the class of computations that reach the client through the writer
      only, a step relation [writes] and what it preserves (no body under a
      [headResponseWriter], the byte count of a [metaResponseWriter]);
    - [Bodies]: what [Write] appends once a response is open.

    The components, each with the file of its theorems where there is one:
    - [RateLimit], [RateLimitSpec]: [ratelimit.go], token buckets in float64 and the
      goroutine that cleans them up;
    - [Delay], [DelaySpec]: status codes, durations and ranges ([helpers.go]);
    - [ClientIP], [ClientIPSpec]: [getClientIP], [getURL], [ParseTrustedProxies];
    - [Cache]: the bounded caches and the gradients that are part of their keys;
    - [Converters], [HeaderFilter]: the external image tools, the exclusion patterns over
      the class [Regexp];
    - [Bin], [Options]: the configuration [HTTPBin] ([httpbin.go]) and [options.go];
    - [Config], [ConfigSpec]: [loadConfig] of the command, from flags and variables;
    - [StaticAssets]: embedded files and the pages rendered from them;
    - [Middleware], [MiddlewareSpec]: every middleware and [serverHandler], their
      composition;
    - [Mix], [MixSpec]: [mix.go] and its declarative meaning;
    - [Pipeline], [PipelineParse], [PipelineSpec], [PipelineHandler]: [pipeline.go];
      the handlers of the special terminals are the interface [PipelineTargets];
    - [Responses]: [responses.go];
    - [Handlers], [HandlersSpec]: inspection, status codes, response headers, echo
      and base64, over the class [Runtime] (embedded files, hashes, dates, seeds);
    - [RequestBody], [BodySpec]: bodies as forms, files and JSON, and compressed answers,
      over the class [Codecs];
    - [Cookies], [CookiesSpec]; [RedirectTo]; [Redirects], [RedirectsSpec]: cookies,
      redirects, links, caching, negotiation;
    - [ServeContent], [ServeContentSpec], [EtagSpec]: range and conditional requests,
      [Range] and [ETag], over the class [HttpTime];
    - [Images], [ImagesSpec]; [Pdf], [PdfSpec]: generated images, over the class
      [ImageCodecs], and documents, with their caches;
    - [Digest], [DigestSpec], [Auth]: [digest.go] over the class [Hashes], and the
      authentication handlers;
    - [Streams], [StreamsSpec]: [Drip], [Bytes], [StreamBytes], [Stream], [SSE] and
      the synthetic byte stream;
    - [Handshake], [Hijack]; [Websocket], [WebsocketSpec]: the handlers that take the
      connection over, frames, validation, the server loop;
    - [Server], [EndpointsHandle], [ServerSpec]: the table of routes, the registry of the
      terminals and [New]; every endpoint is [Handles];
    - [Main], [MainSpec]: the command and the lifetime of its process;
    - [ServerRun]: a client that follows the redirects of a whole server;
    - [Concurrent]: requests that are served at once;
    - [Samples]: a concrete server and requests for the witnesses.

    ** What the theorems show

    - The server: [New] makes one whatever the options; every request is observed once
      with the bytes it wrote and its slot is given back, also after a panic; a request
      goes to the handler of the pattern of its path, and one without is refused with 404
      or with 405 and the methods there are; a client that follows a redirect pipeline
      through middleware, router and handler arrives at its destination.
    - Concurrency: the middlewares as a computation for one request are a run of the step
      relation; for every interleaving the semaphore counts what runs, the observer is
      told once of each request, the limiter stays within its bound and nothing waits;
      each request is answered as it would be alone, but for what the limiter, the
      semaphore and the caches tell it; when no more arrive, every schedule ends with all of them
      answered; a process that is told to stop finishes the requests that it has.
    - Pipelines: the parser answers within its fuel, an accepted path prints back to
      itself, the handler validates before it waits or writes and waits for the
      maximum at most, the status override wins unless the terminal flushes first.
    - Mix: the interpreter refines the declarative meaning of its directives.
    - Bodies and cookies: a body can be recovered from its answer, a form that is posted
      comes back, so do cookies.
    - Contents: ranges are the bytes that were asked for, entity tags revalidate;
      documents are well-formed PDF; images are what their parameters say, and the caches
      are transparent and bounded.
    - Streams: the drip writes what it declares in the time it was asked for;
      streamed and plain bytes agree for every chunk size; the synthetic stream
      reads the same through every sequence of buffers.
    - Middlewares: for every router that is [Handles], HEAD responses have no body;
      delays and refusals are as documented; the limiter, in floats, is a counter of tokens
      for requests at whole seconds, and of the requests of an instant exactly the burst
      passes it.
    - Clients: behind trusted proxies the address is the rightmost untrusted one.
    - Authentication: digest credentials are accepted exactly when they are those of
      RFC 2617; markup is escaped under every type that a browser renders, and how
      [/response-headers] escapes it.
    - WebSocket: frames round-trip, validation is that of the protocol, messages stay
      within the limits; when the loop ends, and when it does not.
    - Configuration: what is accepted is well-formed, where each setting comes from, and
      what of it reaches the server.
    - Parsers: exactly which texts are accepted, and what overflows.

    Theorems that exhibit a defect of the code say so in their comment.

    ** Bounds and fuel

    Integers are [Z] with [wrap64] wherever the code computes in int64, so theorems
    carry the ranges in which nothing wraps (a maximum duration below 2^58 or 2^61
    nanoseconds, the latter 73 years; a body of at most 2^40 bytes for ranges).  Fuel is
    the length of what is consumed: the number of segments for the pipeline parser
    ([parse_loop_never_panics]), of bytes for the parsers of durations
    ([dur_loop_never_panics]), white space ([strip_any_done], [fields_loop_fuel]), media types
    ([media_params_fuel]), templates ([lex_fuel]) and entity tags ([tags_match_fuel]), where
    more fuel changes nothing.  The server loop of the websocket is shown to
    end within its input, or not to end.  Lists and strings are otherwise consumed
    structurally.

    ** Not modelled

    Sockets, the log sink, what an external converter computes and the operating system
    are I/O.  The contents of the embedded files, hash functions, compressors, image
    encoders, regular expressions and the formatting of dates are parameters, as are the
    decoders of the standard library whose result the program only passes on (JSON,
    multipart); theorems that need a law of one of them state it in a class.  Sorting is
    [sort.Slice]'s insertion sort up to twelve elements and a parameter above.  Writing
    takes no time, and a handler is one computation: requests interleave where they share
    a state of the server, whose accesses the code makes atomic.  A handler asks a cache and
    fills it in one step, so that two requests never miss the same image at the same time.
    [main] itself only exits with the code of [Main], and the example of instrumentation is
    not part of the program. *)

From Stdlib Require Export ZArith Lia.
From Stdlib Require Export Strings.Byte.
From Stdlib Require Export Strings.Ascii.
From stdpp Require Export base tactics list gmap strings numbers sorting relations.

#[global] Open Scope Z_scope.

(** ** Notations *)

Declare Scope go_scope.
Delimit Scope go_scope with go.

(** ** Tactics and hint databases *)

Create HintDb go.
Create HintDb goarith.
Create Rewrite HintDb go_simpl.

(** [zdiv] turns [/] and [mod] by numerals into equations before [lia]. *)
Ltac zdiv := Z.div_mod_to_equations; lia.

(** Case analysis on the scrutinee of the outermost [match] or [if]. *)
Ltac split_match :=
  match goal with
  | |- context [match ?x with _ => _ end] => destruct x eqn:?
  | H : context [match ?x with _ => _ end] |- _ => destruct x eqn:?
  end.

(** Decide the comparisons of the goal that arithmetic settles. *)
Ltac ztest :=
  repeat match goal with
  | |- context [Z.leb ?a ?b] =>
      first [rewrite (proj2 (Z.leb_le a b)) by lia | rewrite (proj2 (Z.leb_gt a b)) by lia]
  | |- context [Z.ltb ?a ?b] =>
      first [rewrite (proj2 (Z.ltb_lt a b)) by lia | rewrite (proj2 (Z.ltb_ge a b)) by lia]
  | |- context [Z.eqb ?a ?b] =>
      first [rewrite (proj2 (Z.eqb_eq a b)) by lia | rewrite (proj2 (Z.eqb_neq a b)) by lia]
  end.

(** Evaluate a decidable proposition. *)
Ltac by_computation := apply (bool_decide_unpack _); vm_compute; exact I.

(** Turn boolean comparisons in the context into propositions. *)
Ltac reflect_bools :=
  repeat match goal with
  | H : (_ && _)%bool = true |- _ => apply andb_true_iff in H as [? ?]
  | H : (_ || _)%bool = false |- _ => apply orb_false_iff in H as [? ?]
  | H : negb _ = true |- _ => apply negb_true_iff in H
  | H : negb _ = false |- _ => apply negb_false_iff in H
  | H : Z.ltb _ _ = true |- _ => apply Z.ltb_lt in H
  | H : Z.ltb _ _ = false |- _ => apply Z.ltb_ge in H
  | H : Z.leb _ _ = true |- _ => apply Z.leb_le in H
  | H : Z.leb _ _ = false |- _ => apply Z.leb_gt in H
  | H : Z.gtb _ _ = _ |- _ => rewrite Z.gtb_ltb in H
  | H : Z.geb _ _ = _ |- _ => rewrite Z.geb_leb in H
  | H : Z.eqb _ _ = true |- _ => apply Z.eqb_eq in H
  | H : Z.eqb _ _ = false |- _ => apply Z.eqb_neq in H
  | H : String.eqb _ _ = true |- _ => apply String.eqb_eq in H
  | H : String.eqb _ _ = false |- _ => apply String.eqb_neq in H
  end.

(** ** Results of Go computations

    A Go function that returns [(value, error)] yields [Ok] or [Err]; a
    run-time panic is a third outcome that no [if err != nil] catches. *)

Inductive outcome (E A : Type) : Type :=
| Ok (a : A)
| Err (e : E)
| Panic (why : string).
Arguments Ok {E A} _.
Arguments Err {E A} _.
Arguments Panic {E A} _.

#[export] Instance outcome_ret {E} : MRet (outcome E) := λ A a, Ok a.
#[export] Instance outcome_bind {E} : MBind (outcome E) := λ A B f m,
  match m with Ok a => f a | Err e => Err e | Panic w => Panic w end.

#[export] Instance outcome_fmap {E} : FMap (outcome E) := λ A B f m,
  match m with Ok a => Ok (f a) | Err e => Err e | Panic w => Panic w end.

(** Wrapping an error, as [fmt.Errorf("...: %w", err)] does. *)
Definition map_err {E E' A} (f : E → E') (m : outcome E A) : outcome E' A :=
  match m with Ok a => Ok a | Err e => Err (f e) | Panic w => Panic w end.

Definition is_ok {E A} (m : outcome E A) : bool :=
  match m with Ok _ => true | _ => false end.

(** Computations over a mutable state [S]. *)
Definition GoM (S E A : Type) : Type := S → outcome E A * S.

#[export] Instance GoM_ret {S E} : MRet (GoM S E) := λ A a s, (Ok a, s).
#[export] Instance GoM_bind {S E} : MBind (GoM S E) := λ A B f m s,
  match m s with
  | (Ok a, s') => f a s'
  | (Err e, s') => (Err e, s')
  | (Panic w, s') => (Panic w, s')
  end.

Definition throw {S E A} (e : E) : GoM S E A := λ s, (Err e, s).
Definition panic {S E A} (w : string) : GoM S E A := λ s, (Panic w, s).
Definition lift {S E A} (m : outcome E A) : GoM S E A := λ s, (m, s).

Lemma outcome_bind_Ok {E A B} (m : outcome E A) (f : A → outcome E B) b :
  m ≫= f = Ok b ↔ ∃ a, m = Ok a ∧ f a = Ok b.
Proof.
  destruct m; simpl; split; [eauto|by intros (? &[= ->]&?)|done|by intros (?&?&?)|done|by intros (?&?&?)].
Qed.

(** ** Maps *)

(** The order in which Go iterates over a map is not specified: the [n]-th
    permutation of the keys. *)
Definition iteration_order `{Countable K} {A} (n : Z) (m : gmap K A) : list K :=
  let keys := map fst (map_to_list m) in
  let orders := permutations keys in
  default keys (orders !! Z.to_nat (n mod Z.of_nat (length orders))).

Lemma iteration_order_Permutation `{Countable K} {A} n (m : gmap K A) :
  iteration_order n m ≡ₚ map fst (map_to_list m).
Proof.
  unfold iteration_order. set (keys := map fst (map_to_list m)).
  destruct (permutations keys !! _) as [l|] eqn:E; [|done]. cbn.
  apply list_elem_of_lookup_2, permutations_Permutation in E. by symmetry.
Qed.

Lemma iteration_order_elem `{Countable K} {A} n (m : gmap K A) k :
  k ∈ iteration_order n m ↔ is_Some (m !! k).
Proof.
  rewrite iteration_order_Permutation. rewrite list_elem_of_fmap. split.
  - intros ([k' x] & -> & Hk%elem_of_map_to_list). by exists x.
  - intros [x Hk]. exists (k, x). split; [done|]. by apply elem_of_map_to_list.
Qed.

(** ** Transition systems *)

Lemma rtc_preserves {A} (I : A → Prop) (R : relation A) x y :
  (∀ a b, R a b → I a → I b) → rtc R x y → I x → I y.
Proof. intros HR Hr. induction Hr; eauto. Qed.

(** ** Machine integers *)

(** The value of [int64(x)] for a mathematical integer [x]. *)
Definition wrap64 (x : Z) : Z := (x + 2 ^ 63) mod 2 ^ 64 - 2 ^ 63.
(** The value of [uint64(x)]. *)
Definition wrapu64 (x : Z) : Z := x mod 2 ^ 64.

Definition minInt64 : Z := - 2 ^ 63.
Definition maxInt64 : Z := 2 ^ 63 - 1.
Definition in_int64 (x : Z) : Prop := minInt64 ≤ x ≤ maxInt64.

#[export] Instance in_int64_dec x : Decision (in_int64 x).
Proof. unfold in_int64. apply _. Defined.

Lemma wrap64_id x : in_int64 x → wrap64 x = x.
Proof.
  unfold in_int64, minInt64, maxInt64, wrap64. intros H.
  rewrite Z.mod_small; lia.
Qed.

Lemma wrap64_range x : in_int64 (wrap64 x).
Proof.
  unfold in_int64, minInt64, maxInt64, wrap64.
  pose proof (Z.mod_pos_bound (x + 2 ^ 63) (2 ^ 64)). lia.
Qed.

Lemma wrap64_mod x : wrap64 x mod 2 ^ 64 = x mod 2 ^ 64.
Proof.
  unfold wrap64. rewrite Zminus_mod_idemp_l. f_equal. lia.
Qed.

(** Remove the wrap-arounds of the goal that arithmetic shows are not needed. *)
Ltac unwrap64 :=
  repeat match goal with
  | |- context [wrap64 ?x] =>
      rewrite (wrap64_id x) by (unfold in_int64, minInt64, maxInt64 in *; lia)
  end.

#[export] Hint Resolve wrap64_range : go.

(** Ceiling division. *)
Lemma ceil_div x n : 1 ≤ n → 0 ≤ x →
  0 ≤ (x + n - 1) / n ≤ x + n - 1 ∧ x ≤ (x + n - 1) / n * n < x + n.
Proof.
  intros Hn Hx. pose proof (Z.div_mod (x + n - 1) n). pose proof (Z.mod_pos_bound (x + n - 1) n).
  split; [|lia]. split; [apply Z.div_pos; lia|]. apply Z.div_le_upper_bound; nia.
Qed.

(** ** Bytes *)

Abbreviation byte := Byte.byte.

#[export] Instance byte_eq_dec : EqDecision byte := Byte.byte_eq_dec.

Definition byte_Z (b : byte) : Z := Z.of_N (Byte.to_N b).
(** [byte(z)]: the low eight bits. *)
Definition Z_byte (z : Z) : byte :=
  default x00 (Byte.of_N (Z.to_N (z mod 256))).

Lemma byte_Z_range b : 0 ≤ byte_Z b < 256.
Proof. unfold byte_Z. pose proof (Byte.to_N_bounded b). lia. Qed.

Lemma Z_byte_Z b : Z_byte (byte_Z b) = b.
Proof.
  unfold Z_byte. rewrite Z.mod_small by apply byte_Z_range.
  unfold byte_Z. by rewrite N2Z.id, Byte.of_to_N.
Qed.

Lemma byte_Z_byte z : byte_Z (Z_byte z) = z mod 256.
Proof.
  unfold Z_byte. pose proof (Z.mod_pos_bound z 256 eq_refl) as Hz.
  destruct (Byte.of_N (Z.to_N (z mod 256))) as [b|] eqn:E; simpl.
  - unfold byte_Z. apply Byte.to_of_N in E. rewrite E. lia.
  - apply Byte.of_N_None_iff in E. lia.
Qed.

Lemma byte_Z_inj b1 b2 : byte_Z b1 = byte_Z b2 → b1 = b2.
Proof. intros H. by rewrite <- (Z_byte_Z b1), <- (Z_byte_Z b2), H. Qed.

#[export] Hint Resolve byte_Z_range : go.
#[export] Hint Rewrite Z_byte_Z byte_Z_byte : go_simpl.

(** A property of bytes checked on the 256 of them. *)
Definition all_bytes : list byte := map (λ n, Z_byte (Z.of_nat n)) (seq 0 256).

Lemma all_bytes_complete b : b ∈ all_bytes.
Proof.
  unfold all_bytes. apply list_elem_of_In, in_map_iff.
  exists (Z.to_nat (byte_Z b)). pose proof (byte_Z_range b). split.
  - rewrite Z2Nat.id by lia. apply Z_byte_Z.
  - apply in_seq. lia.
Qed.

Lemma forall_byte (P : byte → bool) :
  forallb P all_bytes = true → ∀ b, P b = true.
Proof.
  intros H b. rewrite forallb_forall in H.
  apply H, list_elem_of_In, all_bytes_complete.
Qed.

(** stdpp stops [simpl] from unfolding [String.append]; the models concatenate
    literals, so it is allowed again. *)
#[global] Arguments String.append !_ _ / : simpl nomatch.

(** ** Conversions between [string] and [[]byte] *)

Definition to_bytes (s : string) : list byte := String.list_byte_of_string s.
Definition of_bytes (l : list byte) : string := String.string_of_list_byte l.

Lemma of_to_bytes s : of_bytes (to_bytes s) = s.
Proof. apply String.string_of_list_byte_of_string. Qed.
Lemma to_of_bytes l : to_bytes (of_bytes l) = l.
Proof. apply String.list_byte_of_string_of_list_byte. Qed.

#[export] Hint Rewrite of_to_bytes to_of_bytes : go_simpl.

Definition slen (s : string) : Z := Z.of_nat (String.length s).
Definition blen (l : list byte) : Z := Z.of_nat (length l).

Lemma to_bytes_length s : blen (to_bytes s) = slen s.
Proof.
  unfold blen, slen, to_bytes. f_equal.
  induction s; simpl; [done|]. by f_equal.
Qed.

Lemma to_bytes_cons c s :
  to_bytes (String c s) = byte_of_ascii c :: to_bytes s.
Proof. reflexivity. Qed.

Lemma to_bytes_app s t : to_bytes (s +:+ t) = to_bytes s ++ to_bytes t.
Proof.
  induction s as [|c s IH]; [done|].
  change (String c s +:+ t) with (String c (s +:+ t)). by rewrite !to_bytes_cons, IH.
Qed.

Lemma of_bytes_app a b : of_bytes (a ++ b) = of_bytes a +:+ of_bytes b.
Proof.
  rewrite <- (of_to_bytes (of_bytes a +:+ of_bytes b)). by rewrite to_bytes_app, !to_of_bytes.
Qed.

Lemma of_bytes_length l : slen (of_bytes l) = blen l.
Proof. by rewrite <- to_bytes_length, to_of_bytes. Qed.

(** ** Lists *)

Lemma take_app_exact {A} (l k : list A) n : n = length l → take n (l ++ k) = l.
Proof. intros ->. by rewrite take_app_length. Qed.
Lemma drop_app_exact {A} (l k : list A) n : n = length l → drop n (l ++ k) = k.
Proof. intros ->. by rewrite drop_app_length. Qed.

(** [if err != nil { ... }]: run [h] on an error of [m], [k] on its value. *)
Definition try_ {S E A B} (m : GoM S E A) (h : E → GoM S E B) (k : A → GoM S E B)
    : GoM S E B := λ s,
  match m s with
  | (Ok a, s') => k a s'
  | (Err e, s') => h e s'
  | (Panic w, s') => (Panic w, s')
  end.
