(* ===== verification/GoStrings.v ===== *)
(** * GoStrings: the functions of Go's [strings] and [path] packages in use

    Go strings are byte sequences; they are modelled by [String.string], whose
    characters are bytes.  Separators are single bytes everywhere in the
    program, so [Split], [SplitN] (with a limit of two) and [Cut] take an
    [ascii].  Case mapping is exact for ASCII text and for the non-ASCII runes
    whose mapping is an ASCII letter; other runes are left as they are, which
    no comparison made by the program can observe. *)

From S2P Require Import Prelude.

Definition chr (n : nat) : ascii := Ascii.ascii_of_nat n.
Definition code (c : ascii) : Z := Z.of_N (Ascii.N_of_ascii c).
Definition str1 (c : ascii) : string := String c "".

Definition CR : ascii := chr 13.
Definition LF : ascii := chr 10.

(** ** Searching *)

Definition is_digit (c : ascii) : bool := (48 <=? code c) && (code c <=? 57).

Fixpoint string_forall (p : ascii → bool) (s : string) : bool :=
  match s with "" => true | String c s' => p c && string_forall p s' end.

Definition nonempty (s : string) : bool := negb (String.eqb s "").

Fixpoint contains_char (c : ascii) (s : string) : bool :=
  match s with
  | "" => false
  | String d s' => Ascii.eqb c d || contains_char c s'
  end.

(** [strings.ContainsAny] *)
Fixpoint ContainsAny (s chars : string) : bool :=
  match s with
  | "" => false
  | String d s' => contains_char d chars || ContainsAny s' chars
  end.

Definition HasPrefix (s p : string) : bool := String.prefix p s.

Fixpoint sdrop (n : nat) (s : string) : string :=
  match n, s with
  | S n', String _ s' => sdrop n' s'
  | _, _ => s
  end.

Fixpoint stake (n : nat) (s : string) : string :=
  match n, s with
  | S n', String c s' => String c (stake n' s')
  | _, _ => ""
  end.

Definition HasSuffix (s p : string) : bool :=
  (String.length p <=? String.length s)%nat &&
  String.eqb (sdrop (String.length s - String.length p) s) p.

Definition TrimPrefix (s p : string) : string :=
  if HasPrefix s p then sdrop (String.length p) s else s.

(** [strings.Contains] *)
Fixpoint Contains (s sub : string) : bool :=
  HasPrefix s sub || match s with "" => false | String _ s' => Contains s' sub end.

(** ** Splitting and joining *)

Fixpoint Split (sep : ascii) (s : string) : list string :=
  match s with
  | "" => [""]
  | String c s' =>
      if Ascii.eqb c sep then "" :: Split sep s'
      else match Split sep s' with
           | x :: xs => String c x :: xs
           | [] => [str1 c]
           end
  end.

(** [strings.Cut]: before, after, found. *)
Fixpoint Cut (sep : ascii) (s : string) : string * string * bool :=
  match s with
  | "" => ("", "", false)
  | String c s' =>
      if Ascii.eqb c sep then ("", s', true)
      else let '(a, b, f) := Cut sep s' in (String c a, b, f)
  end.

(** [strings.SplitN(s, sep, 2)] *)
Definition SplitN2 (sep : ascii) (s : string) : list string :=
  match Cut sep s with
  | (a, b, true) => [a; b]
  | (_, _, false) => [s]
  end.

Definition Join (sep : string) (l : list string) : string := String.concat sep l.

(** ** Case mapping *)

Definition lower_ascii (c : ascii) : ascii :=
  let n := code c in
  if (65 <=? n) && (n <=? 90) then chr (Z.to_nat (n + 32)) else c.
Definition upper_ascii (c : ascii) : ascii :=
  let n := code c in
  if (97 <=? n) && (n <=? 122) then chr (Z.to_nat (n - 32)) else c.

(** U+212A (KELVIN SIGN) and U+0130 are the non-ASCII runes whose lower case is
    ASCII; U+0131 and U+017F those whose upper case is. *)
Fixpoint ToLower (s : string) : string :=
  match s with
  | "" => ""
  | String c1 s1 =>
      match s1 with
      | String c2 s2 =>
          if (code c1 =? 0xC4) && (code c2 =? 0xB0) then String "i" (ToLower s2)
          else match s2 with
               | String c3 s3 =>
                   if (code c1 =? 0xE2) && (code c2 =? 0x84) && (code c3 =? 0xAA)
                   then String "k" (ToLower s3)
                   else String (lower_ascii c1) (ToLower s1)
               | "" => String (lower_ascii c1) (ToLower s1)
               end
      | "" => String (lower_ascii c1) ""
      end
  end.

Fixpoint ToUpper (s : string) : string :=
  match s with
  | "" => ""
  | String c1 s1 =>
      match s1 with
      | String c2 s2 =>
          if (code c1 =? 0xC4) && (code c2 =? 0xB1) then String "I" (ToUpper s2)
          else if (code c1 =? 0xC5) && (code c2 =? 0xBF) then String "S" (ToUpper s2)
          else String (upper_ascii c1) (ToUpper s1)
      | "" => String (upper_ascii c1) ""
      end
  end.

(** ** Trimming *)

Fixpoint str_of (l : list nat) : string :=
  match l with [] => "" | n :: l' => String (chr n) (str_of l') end.

(** The UTF-8 encodings of the runes for which [unicode.IsSpace] holds. *)
Definition spaces : list string := map str_of
  [ [9]; [10]; [11]; [12]; [13]; [32];
    [0xC2; 0x85]; [0xC2; 0xA0]; [0xE1; 0x9A; 0x80];
    [0xE2; 0x80; 0x80]; [0xE2; 0x80; 0x81]; [0xE2; 0x80; 0x82];
    [0xE2; 0x80; 0x83]; [0xE2; 0x80; 0x84]; [0xE2; 0x80; 0x85];
    [0xE2; 0x80; 0x86]; [0xE2; 0x80; 0x87]; [0xE2; 0x80; 0x88];
    [0xE2; 0x80; 0x89]; [0xE2; 0x80; 0x8A]; [0xE2; 0x80; 0xA8];
    [0xE2; 0x80; 0xA9]; [0xE2; 0x80; 0xAF]; [0xE2; 0x81; 0x9F];
    [0xE3; 0x80; 0x80] ]%nat.

Fixpoint strip_any (pats : list string) (fuel : nat) (s : string) : string :=
  match fuel with
  | O => s
  | S n => match List.find (HasPrefix s) pats with
           | Some p => strip_any pats n (sdrop (String.length p) s)
           | None => s
           end
  end.

Fixpoint srev_app (s acc : string) : string :=
  match s with "" => acc | String c s' => srev_app s' (String c acc) end.
Definition srev (s : string) : string := srev_app s "".

Definition TrimSpace (s : string) : string :=
  let l := strip_any spaces (String.length s) s in
  srev (strip_any (map srev spaces) (String.length l) (srev l)).

(** [strings.Fields]: the pieces between runs of white space. *)
Fixpoint fields_loop (fuel : nat) (s acc : string) : list string :=
  let flush := if String.eqb acc "" then [] else [srev acc] in
  match fuel with
  | O => flush
  | S n =>
      match s with
      | "" => flush
      | String c s' =>
          match List.find (HasPrefix s) spaces with
          | Some p => flush ++ fields_loop n (sdrop (String.length p) s) ""
          | None => fields_loop n s' (String c acc)
          end
      end
  end.
Definition Fields (s : string) : list string := fields_loop (String.length s) s "".

Example Fields_ex : Fields "  Bearer  abc " = ["Bearer"; "abc"].
Proof. vm_compute. reflexivity. Qed.

(** [strings.Trim] with a single byte as the cut set. *)
Fixpoint TrimLeftChar (c : ascii) (s : string) : string :=
  match s with
  | String d s' => if Ascii.eqb c d then TrimLeftChar c s' else s
  | "" => ""
  end.
Definition TrimChar (c : ascii) (s : string) : string :=
  srev (TrimLeftChar c (srev (TrimLeftChar c s))).

(** [strings.ReplaceAll] of single bytes by the empty string, and
    [strings.NewReplacer] that deletes bytes. *)
Fixpoint RemoveChars (chars s : string) : string :=
  match s with
  | "" => ""
  | String c s' =>
      if contains_char c chars then RemoveChars chars s'
      else String c (RemoveChars chars s')
  end.

(** ** Package [path] *)

Definition clean_step (rooted : bool) (out : list string) (e : string) : list string :=
  if String.eqb e "" || String.eqb e "." then out
  else if String.eqb e ".." then
    match out with
    | x :: out' => if String.eqb x ".." then ".." :: out else out'
    | [] => if rooted then [] else [".."]
    end
  else e :: out.

(** [path.Clean]; [out] holds the path elements in reverse. *)
Definition Clean (p : string) : string :=
  if String.eqb p "" then "." else
  let rooted := HasPrefix p "/" in
  let out := rev (fold_left (clean_step rooted) (Split "/" p) []) in
  match out with
  | [] => if rooted then "/" else "."
  | _ => (if rooted then "/" else "") +:+ Join "/" out
  end.

(** [path.Join] *)
Definition path_Join (l : list string) : string :=
  match List.filter nonempty l with
  | [] => ""
  | l => Clean (Join "/" l)
  end.

(** [path.Ext]: the suffix that starts at the last dot of the last element. *)
Fixpoint ext_scan (r acc : string) : string :=
  match r with
  | "" => ""
  | String c r' =>
      if Ascii.eqb c "/" then ""
      else if Ascii.eqb c "." then String c acc
      else ext_scan r' (String c acc)
  end.
Definition Ext (p : string) : string := ext_scan (srev p) "".

Example Clean_ex1 : Clean "/a/./b/../c//d/" = "/a/c/d". Proof. reflexivity. Qed.
Example Clean_ex2 : Clean "../a/../.." = "../..". Proof. reflexivity. Qed.
Example Ext_ex : Ext "/x.y/photo.tar.gz" = ".gz". Proof. reflexivity. Qed.
Example TrimSpace_ex : TrimSpace "  a b	" = "a b". Proof. reflexivity. Qed.

(** ** Lemmas *)

Lemma sapp_nil_r s : (s +:+ "")%string = s.
Proof. induction s as [|c s IH]; simpl; [done|]. by rewrite IH. Qed.

Lemma sapp_assoc a b c : (a +:+ (b +:+ c) = (a +:+ b) +:+ c)%string.
Proof. induction a as [|x a IH]; simpl; [done|]. by rewrite IH. Qed.

Lemma slen_app a b : slen (a +:+ b) = slen a + slen b.
Proof. unfold slen. induction a; simpl in *; lia. Qed.

Lemma slen_nonneg s : 0 ≤ slen s.
Proof. unfold slen. lia. Qed.

Lemma prefix_app p s : String.prefix p (p +:+ s) = true.
Proof.
  induction p as [|c p IH]; simpl; [by destruct s|].
  destruct (Ascii.ascii_dec c c); [done|congruence].
Qed.

Lemma HasPrefix_cons a s b t :
  HasPrefix (String a s) (String b t) = Ascii.eqb a b && HasPrefix s t.
Proof.
  unfold HasPrefix. cbn [String.prefix].
  destruct (ascii_dec b a) as [->|Hne]; [by rewrite Ascii.eqb_refl|].
  by rewrite (proj2 (Ascii.eqb_neq a b)) by congruence.
Qed.

Lemma contains_char_app c a b :
  contains_char c (a +:+ b) = contains_char c a || contains_char c b.
Proof. induction a; simpl; [done|]. by rewrite IHa, orb_assoc. Qed.

Lemma string_forall_app p a b : string_forall p (a +:+ b) = string_forall p a && string_forall p b.
Proof. induction a; simpl; [done|]. by rewrite IHa, andb_assoc. Qed.

Lemma string_forall_contains p c s :
  string_forall p s = true → p c = false → contains_char c s = false.
Proof.
  induction s as [|d s IH]; [done|]. cbn. intros [Hd Hs]%andb_true_iff Hc.
  rewrite (IH Hs Hc), orb_false_r. apply Ascii.eqb_neq. congruence.
Qed.

Lemma Split_nonempty sep s : Split sep s ≠ [].
Proof.
  destruct s as [|c s]; simpl; [done|].
  destruct (Ascii.eqb c sep); [done|]. by destruct (Split sep s).
Qed.

Lemma Split_no_sep sep s x : x ∈ Split sep s → contains_char sep x = false.
Proof.
  revert x. induction s as [|c s IH]; intros x; simpl.
  - by intros ->%list_elem_of_singleton.
  - destruct (Ascii.eqb c sep) eqn:E.
    + intros [->|Hx]%elem_of_cons; [done|]. by apply IH.
    + assert (Ascii.eqb sep c = false) as E' by (by rewrite Ascii.eqb_sym).
      destruct (Split sep s) as [|y ys] eqn:Es; [by apply Split_nonempty in Es|].
      intros [->|Hx]%elem_of_cons; simpl; [rewrite E'; simpl|]; apply IH; set_solver.
Qed.

Lemma Join_cons sep x y l : Join sep (x :: y :: l) = (x +:+ sep +:+ Join sep (y :: l))%string.
Proof. reflexivity. Qed.

Lemma Join_empty_cons x l : Join "" (x :: l) = (x +:+ Join "" l)%string.
Proof. destruct l; [symmetry; apply sapp_nil_r|done]. Qed.

Lemma Join_empty_app l k : Join "" (l ++ k) = (Join "" l +:+ Join "" k)%string.
Proof.
  induction l as [|x l IH]; [done|].
  by rewrite <- app_comm_cons, !Join_empty_cons, IH, sapp_assoc.
Qed.

(** Joining the parts that [Split] returns gives the string back. *)
Lemma Join_Split sep s : Join (str1 sep) (Split sep s) = s.
Proof.
  induction s as [|c s IH]; [done|]. cbn [Split].
  destruct (Split sep s) as [|y ys] eqn:Es; [by apply Split_nonempty in Es|].
  destruct (Ascii.eqb c sep) eqn:E.
  - apply Ascii.eqb_eq in E as ->. rewrite Join_cons, IH. done.
  - destruct ys as [|z zs].
    + cbn in *. congruence.
    + rewrite Join_cons in *. simpl in *. by rewrite IH.
Qed.

Lemma Split_no_sep_id sep x : contains_char sep x = false → Split sep x = [x].
Proof.
  induction x as [|c x IH]; simpl; [done|]. intros [Hc Hx]%orb_false_iff.
  rewrite Ascii.eqb_sym in Hc. by rewrite Hc, (IH Hx).
Qed.

Lemma Split_app sep x s :
  contains_char sep x = false →
  Split sep (x +:+ str1 sep +:+ s) = x :: Split sep s.
Proof.
  induction x as [|c x IH]; simpl.
  - by rewrite Ascii.eqb_refl.
  - intros [Hc Hx]%orb_false_iff. rewrite Ascii.eqb_sym in Hc. rewrite Hc.
    cbn in IH. by rewrite (IH Hx).
Qed.

Lemma Split_append sep a b : Split sep (a +:+ String sep b) = Split sep a ++ Split sep b.
Proof.
  induction a as [|c a IH]; cbn [String.append Split]; [by rewrite Ascii.eqb_refl|].
  rewrite IH. destruct (Ascii.eqb c sep); [done|].
  destruct (Split sep a) eqn:E; [by apply Split_nonempty in E|done].
Qed.

(** Splitting a joined list of parts that do not hold the separator gives the
    parts back. *)
Lemma Split_Join sep l :
  l ≠ [] → (∀ x, x ∈ l → contains_char sep x = false) →
  Split sep (Join (str1 sep) l) = l.
Proof.
  induction l as [|x l IH]; [done|]. intros _ Hl.
  destruct l as [|y l].
  - simpl. apply Split_no_sep_id, Hl. set_solver.
  - rewrite Join_cons, Split_app by (apply Hl; set_solver).
    f_equal. apply IH; [done|]. intros; apply Hl; set_solver.
Qed.

Lemma Cut_found sep a b :
  contains_char sep a = false → Cut sep (a +:+ String sep b) = (a, b, true).
Proof.
  induction a as [|c a IH]; simpl.
  - by rewrite Ascii.eqb_refl.
  - intros [Hc Ha]%orb_false_iff. rewrite Ascii.eqb_sym in Hc.
    by rewrite Hc, (IH Ha).
Qed.

Lemma Cut_spec sep s :
  match Cut sep s with
  | (a, b, true) => s = (a +:+ String sep b)%string ∧ contains_char sep a = false
  | (a, b, false) => s = a ∧ b = "" ∧ contains_char sep s = false
  end.
Proof.
  induction s as [|c s IH]; simpl; [done|].
  destruct (Ascii.eqb c sep) eqn:E.
  - apply Ascii.eqb_eq in E as ->. done.
  - rewrite Ascii.eqb_sym in E. destruct (Cut sep s) as [[a b] []]; simpl.
    + destruct IH as [-> Ha]. by rewrite E, Ha.
    + destruct IH as (-> & -> & Ha). by rewrite E, Ha.
Qed.

#[export] Hint Rewrite sapp_nil_r slen_app prefix_app contains_char_app : go_simpl.
#[export] Hint Resolve slen_nonneg : goarith.

Lemma sdrop_app a b : sdrop (String.length a) (a +:+ b) = b.
Proof. induction a; simpl; [by destruct b|done]. Qed.

Lemma stake_app a b : stake (String.length a) (a +:+ b) = a.
Proof. induction a; simpl; [by destruct b|]. by f_equal. Qed.

Lemma TrimPrefix_app p s : TrimPrefix (p +:+ s) p = s.
Proof. unfold TrimPrefix, HasPrefix. by rewrite prefix_app, sdrop_app. Qed.

Lemma Cut_not_found sep s : contains_char sep s = false → Cut sep s = (s, "", false).
Proof.
  pose proof (Cut_spec sep s) as H. destruct (Cut sep s) as [[a b] []].
  - destruct H as [-> _]. rewrite contains_char_app. cbn [contains_char].
    by rewrite Ascii.eqb_refl, orb_true_r.
  - by destruct H as (-> & -> & _).
Qed.

Lemma Split_forall p sep s x :
  string_forall p s = true → x ∈ Split sep s → string_forall p x = true.
Proof.
  revert x. induction s as [|c s IH]; intros x; cbn [Split string_forall].
  - by intros _ ->%list_elem_of_singleton.
  - intros [Hc Hs]%andb_true_iff. destruct (Ascii.eqb c sep).
    + intros [->|Hx]%elem_of_cons; [done|]. by apply IH.
    + destruct (Split sep s) as [|y ys]; [|specialize (IH y Hs) as Hy].
      * intros ->%list_elem_of_singleton. cbn. by rewrite Hc.
      * intros [->|Hx]%elem_of_cons; [cbn; rewrite Hc, Hy; set_solver|].
        apply IH; [done|]. set_solver.
Qed.

Lemma string_forall_impl (p q : ascii → bool) s :
  (∀ c, p c = true → q c = true) → string_forall p s = true → string_forall q s = true.
Proof.
  intros Hpq. induction s as [|c s IH]; [done|]. cbn.
  intros [Hc Hs]%andb_true_iff. by rewrite (Hpq c Hc), (IH Hs).
Qed.

Lemma ContainsAny_app cs a b :
  ContainsAny (a +:+ b) cs = ContainsAny a cs || ContainsAny b cs.
Proof. induction a; cbn [String.append ContainsAny]; [done|]. by rewrite IHa, orb_assoc. Qed.

Lemma RemoveChars_none cs s : ContainsAny (RemoveChars cs s) cs = false.
Proof.
  induction s as [|c s IH]; [done|]. cbn [RemoveChars].
  destruct (contains_char c cs) eqn:E; [done|]. cbn [ContainsAny]. by rewrite E, IH.
Qed.

Lemma slength_app a b : String.length (a +:+ b) = (String.length a + String.length b)%nat.
Proof. pose proof (slen_app a b). unfold slen in *. lia. Qed.

Lemma HasSuffix_app a p : HasSuffix (a +:+ p) p = true.
Proof.
  unfold HasSuffix. rewrite slength_app. apply andb_true_iff. split; [apply Nat.leb_le; lia|].
  rewrite Nat.add_sub, sdrop_app. apply String.eqb_refl.
Qed.

(** ** Fuel

    The loops that drop a prefix of the text in each iteration have fuel enough with the
    length of the text: what is left has no more prefix to drop, and more fuel changes
    nothing. *)

Lemma sdrop_length n s : (String.length (sdrop n s) = String.length s - n)%nat.
Proof. revert s. induction n as [|n IH]; intros [|c s]; cbn [sdrop String.length]; [done..|]. by rewrite IH. Qed.

Lemma find_prefix_drop pats s p :
  Forall (λ q, q ≠ "") pats → s ≠ "" → List.find (HasPrefix s) pats = Some p →
  (String.length (sdrop (String.length p) s) < String.length s)%nat.
Proof.
  intros Hp Hs [Hin _]%List.find_some. rewrite sdrop_length.
  rewrite Forall_forall in Hp. specialize (Hp p (proj2 (list_elem_of_In _ _) Hin)).
  destruct p; [done|]. destruct s; [done|]. cbn. lia.
Qed.

Lemma find_prefix_empty pats p : Forall (λ q, q ≠ "") pats → List.find (HasPrefix "") pats ≠ Some p.
Proof.
  intros Hp [Hin Hpre]%List.find_some. rewrite Forall_forall in Hp.
  specialize (Hp p (proj2 (list_elem_of_In _ _) Hin)). by destruct p.
Qed.

Lemma strip_any_shorter pats n s : (String.length (strip_any pats n s) ≤ String.length s)%nat.
Proof.
  revert s. induction n as [|n IH]; intros s; [done|]. cbn [strip_any].
  destruct (List.find _ _) as [p|]; [|done]. etrans; [apply IH|]. rewrite sdrop_length. lia.
Qed.

Lemma strip_any_done pats n s :
  Forall (λ q, q ≠ "") pats → (String.length s ≤ n)%nat → List.find (HasPrefix (strip_any pats n s)) pats = None.
Proof.
  intros Hp. revert s. induction n as [|n IH]; intros s Hn; cbn [strip_any].
  - destruct s; [|cbn in Hn; lia]. destruct (List.find _ _) as [p|] eqn:E; [|done]. by apply find_prefix_empty in E.
  - destruct (List.find (HasPrefix s) pats) as [p|] eqn:E; [|done]. apply IH.
    destruct (decide (s = "")) as [->|Hs]; [by apply find_prefix_empty in E|].
    apply (find_prefix_drop pats s p Hp Hs) in E. lia.
Qed.

Lemma spaces_nonempty : Forall (λ q, q ≠ "") spaces.
Proof. repeat constructor; done. Qed.

Lemma fields_loop_fuel n m s acc :
  (String.length s ≤ n)%nat → (String.length s ≤ m)%nat → fields_loop n s acc = fields_loop m s acc.
Proof.
  revert m s acc. induction n as [|n IH]; intros m s acc Hn Hm.
  - destruct s; [|cbn in Hn; lia]. by destruct m.
  - destruct s as [|c s']; [by destruct m|]. destruct m as [|m]; [cbn in Hm; lia|]. cbn [fields_loop].
    destruct (List.find _ spaces) as [p|] eqn:E.
    + f_equal. apply (find_prefix_drop _ (String c s') p spaces_nonempty ltac:(done)) in E. apply IH; lia.
    + cbn [String.length] in *. apply IH; lia.
Qed.

Lemma srev_length s : String.length (srev s) = String.length s.
Proof.
  assert (∀ s acc, String.length (srev_app s acc) = (String.length s + String.length acc)%nat) as Hs; [|by unfold srev; rewrite Hs, Nat.add_0_r].
  clear s. induction s as [|c s IH]; intros acc; [done|]. cbn [srev_app]. rewrite IH. cbn. lia.
Qed.
