(* ===== verification/GoNum.v ===== *)
(** * GoNum: the integer part of Go's [strconv]

    [Itoa] and the unsigned digit loop of [ParseUint], with [ParseInt] and
    [Atoi] (on a 64-bit platform) on top.  Both errors of [*NumError] are kept
    apart. *)

From S2P Require Import Prelude GoStrings.

Inductive numError := ErrSyntax | ErrRange.
#[export] Instance numError_eq_dec : EqDecision numError.
Proof. solve_decision. Defined.

(** ** Formatting *)

Definition digit_char (d : Z) : ascii := chr (Z.to_nat (48 + d)).

Fixpoint fmt_digits (fuel : nat) (n : Z) (acc : string) : string :=
  let acc' := String (digit_char (n mod 10)) acc in
  match fuel with
  | O => acc'
  | S f => if n <? 10 then acc' else fmt_digits f (n / 10) acc'
  end.

(** Twenty digits hold every unsigned 64-bit value; the fuel is taken from the
    number itself, so that [Itoa] is right for every [Z]. *)
Definition fmt_nat (n : Z) : string := fmt_digits (Z.to_nat (Z.log2 n)) n "".
Definition Itoa (n : Z) : string :=
  if n <? 0 then String "-" (fmt_nat (- n)) else fmt_nat n.

(** ** Parsing *)

Definition digit_val (c : ascii) : option Z :=
  let n := code c in
  if (48 <=? n) && (n <=? 57) then Some (n - 48) else None.

(** The digits of [ParseUint] in bases up to 16. *)
Definition hex_val (c : ascii) : option Z :=
  let n := code c in
  if (48 <=? n) && (n <=? 57) then Some (n - 48)
  else if (97 <=? n) && (n <=? 102) then Some (n - 87)
  else if (65 <=? n) && (n <=? 70) then Some (n - 55)
  else None.

Fixpoint uint_loop (digit : ascii → option Z) (base maxVal n : Z) (s : string)
    : outcome numError Z :=
  match s with
  | "" => Ok n
  | String c s' =>
      match digit c with
      | None => Err ErrSyntax
      | Some d =>
          let n1 := n * base + d in
          if maxVal <? n1 then Err ErrRange
          else uint_loop digit base maxVal n1 s'
      end
  end.

Definition ParseUint10 (bits : Z) (s : string) : outcome numError Z :=
  if String.eqb s "" then Err ErrSyntax
  else uint_loop digit_val 10 (2 ^ bits - 1) 0 s.

(** [strconv.ParseUint(s, 16, bits)] *)
Definition ParseUint16 (bits : Z) (s : string) : outcome numError Z :=
  if String.eqb s "" then Err ErrSyntax
  else uint_loop hex_val 16 (2 ^ bits - 1) 0 s.

Definition split_sign (s : string) : bool * string :=
  match s with
  | String c s' =>
      if Ascii.eqb c "-" then (true, s')
      else if Ascii.eqb c "+" then (false, s')
      else (false, s)
  | "" => (false, "")
  end.

(** [strconv.ParseInt(s, 10, bits)] *)
Definition ParseInt (bits : Z) (s : string) : outcome numError Z :=
  if String.eqb s "" then Err ErrSyntax else
  let '(neg, u) := split_sign s in
  match ParseUint10 bits u with
  | Ok un =>
      let cutoff := 2 ^ (bits - 1) in
      if negb neg && (cutoff <=? un) then Err ErrRange
      else if neg && (cutoff <? un) then Err ErrRange
      else Ok (if neg then - un else un)
  | Err e => Err e
  | Panic w => Panic w
  end.

(** [strconv.Atoi]: [int] has 64 bits. *)
Definition Atoi (s : string) : outcome numError Z := ParseInt 64 s.

Example Atoi_ex1 : Atoi "-0042" = Ok (-42). Proof. reflexivity. Qed.
Example Atoi_ex2 : Atoi "9223372036854775808" = Err ErrRange. Proof. reflexivity. Qed.
Example Atoi_ex3 : Atoi "1_0" = Err ErrSyntax. Proof. reflexivity. Qed.
Example Itoa_ex : Itoa (-9223372036854775808) = "-9223372036854775808".
Proof. reflexivity. Qed.

(** ** Lemmas *)

Lemma code_chr n : (n < 256)%nat → code (chr n) = Z.of_nat n.
Proof.
  intros H. unfold code, chr.
  replace (Z.of_N (Ascii.N_of_ascii (Ascii.ascii_of_nat n)))
    with (Z.of_nat (Ascii.nat_of_ascii (Ascii.ascii_of_nat n)))
    by (unfold Ascii.nat_of_ascii; lia).
  by rewrite Ascii.nat_ascii_embedding.
Qed.

Lemma code_digit_char d : 0 ≤ d < 10 → code (digit_char d) = 48 + d.
Proof. intros H. unfold digit_char. rewrite code_chr; lia. Qed.

Lemma digit_val_char d : 0 ≤ d < 10 → digit_val (digit_char d) = Some d.
Proof.
  intros H. unfold digit_val. rewrite code_digit_char by done.
  replace (48 <=? 48 + d) with true by lia.
  replace (48 + d <=? 57) with true by lia. simpl. f_equal. lia.
Qed.

Lemma digit_val_range c d : digit_val c = Some d → 0 ≤ d < 10.
Proof.
  unfold digit_val. destruct (_ && _) eqn:E; [|done].
  reflect_bools. intros [= <-]. lia.
Qed.

(** The digit loop over the digits of [n], started from [m]. *)
Lemma uint_loop_fmt fuel maxVal n m acc :
  0 ≤ m → 0 ≤ n < 2 ^ Z.of_nat (S fuel) →
  ∃ k, 0 < k ∧
  (m * k + n ≤ maxVal →
   uint_loop digit_val 10 maxVal m (fmt_digits fuel n acc)
   = uint_loop digit_val 10 maxVal (m * k + n) acc).
Proof.
  revert n acc. induction fuel as [|fuel IH]; intros n acc Hm Hn; cbn [fmt_digits].
  - exists 10. split; [lia|]. intros Hle. cbn [uint_loop].
    change (2 ^ Z.of_nat 1) with 2 in Hn.
    rewrite Z.mod_small, digit_val_char by lia. cbn zeta.
    by replace (maxVal <? m * 10 + n) with false by lia.
  - destruct (n <? 10) eqn:E; reflect_bools.
    + exists 10. split; [lia|]. intros Hle. cbn [uint_loop].
      rewrite Z.mod_small, digit_val_char by lia. cbn zeta.
      by replace (maxVal <? m * 10 + n) with false by lia.
    + destruct (IH (n / 10) (String (digit_char (n mod 10)) acc)) as (k & Hk & IHk);
        [done| |].
      { rewrite Nat2Z.inj_succ, Z.pow_succ_r in Hn by lia. zdiv. }
      exists (k * 10). split; [lia|]. intros Hle.
      assert (n = 10 * (n / 10) + n mod 10) as Hdm by (apply Z.div_mod; lia).
      pose proof (Z.mod_pos_bound n 10 eq_refl).
      rewrite IHk by lia. cbn [uint_loop]. rewrite digit_val_char by lia. cbn zeta.
      replace ((m * k + n / 10) * 10 + n mod 10) with (m * (k * 10) + n) by lia.
      by replace (maxVal <? m * (k * 10) + n) with false by lia.
Qed.

Lemma fmt_digits_nonempty fuel n acc : fmt_digits fuel n acc ≠ "".
Proof.
  revert n acc. induction fuel as [|fuel IH]; intros n acc; simpl; [done|].
  destruct (n <? 10); [done|]. apply IH.
Qed.

Lemma ParseUint10_fmt bits n :
  0 ≤ n < 2 ^ bits → ParseUint10 bits (fmt_nat n) = Ok n.
Proof.
  intros Hn. unfold ParseUint10, fmt_nat.
  destruct (String.eqb_spec (fmt_digits (Z.to_nat (Z.log2 n)) n "") "") as [E|_].
  { by apply fmt_digits_nonempty in E. }
  destruct (uint_loop_fmt (Z.to_nat (Z.log2 n)) (2 ^ bits - 1) n 0 "") as (k & _ & Hk).
  - done.
  - destruct (decide (n = 0)) as [->|]; [simpl; lia|].
    pose proof (Z.log2_spec n). pose proof (Z.log2_nonneg n).
    replace (Z.of_nat (S (Z.to_nat (Z.log2 n)))) with (Z.succ (Z.log2 n)) by lia. lia.
  - rewrite Hk by lia. done.
Qed.

Lemma fmt_digits_head fuel n acc :
  0 ≤ n → ∃ d s, 0 ≤ d < 10 ∧ fmt_digits fuel n acc = String (digit_char d) s.
Proof.
  revert n acc. induction fuel as [|fuel IH]; intros n acc Hn; cbn [fmt_digits].
  - exists (n mod 10), acc. split; [zdiv|done].
  - destruct (n <? 10) eqn:E; [exists (n mod 10), acc; split; [zdiv|done]|].
    apply IH. zdiv.
Qed.

Lemma split_sign_fmt n : 0 ≤ n → split_sign (fmt_nat n) = (false, fmt_nat n).
Proof.
  intros Hn. unfold fmt_nat.
  destruct (fmt_digits_head (Z.to_nat (Z.log2 n)) n "" Hn) as (d & s & Hd & ->).
  unfold split_sign.
  destruct (Ascii.eqb_spec (digit_char d) "-") as [E|_].
  { apply (f_equal code) in E. rewrite code_digit_char in E by done.
    change (code "-") with 45 in E. lia. }
  destruct (Ascii.eqb_spec (digit_char d) "+") as [E|_]; [|done].
  apply (f_equal code) in E. rewrite code_digit_char in E by done.
  change (code "+") with 43 in E. lia.
Qed.

(** Formatting then parsing gives back every [int]. *)
Lemma Atoi_Itoa n : in_int64 n → Atoi (Itoa n) = Ok n.
Proof.
  unfold in_int64, minInt64, maxInt64. intros Hn. unfold Atoi, ParseInt, Itoa.
  destruct (n <? 0) eqn:Eneg; reflect_bools.
  - change (String.eqb (String "-" (fmt_nat (- n))) "") with false.
    change (split_sign (String "-" (fmt_nat (- n)))) with (true, fmt_nat (- n)).
    cbn iota beta. rewrite ParseUint10_fmt by lia. simpl negb. cbn [andb].
    change (2 ^ (64 - 1)) with 9223372036854775808.
    replace (9223372036854775808 <? - n) with false by lia.
    f_equal. lia.
  - destruct (String.eqb_spec (fmt_nat n) "") as [E|_].
    { by apply fmt_digits_nonempty in E. }
    rewrite split_sign_fmt, ParseUint10_fmt by lia. simpl negb. cbn [andb].
    change (2 ^ (64 - 1)) with 9223372036854775808.
    by replace (9223372036854775808 <=? n) with false by lia.
Qed.

(** Every value [ParseInt] returns fits in the requested width. *)
Lemma uint_loop_range digit base maxVal n s v :
  0 ≤ base → 0 ≤ n ≤ maxVal → (∀ c d, digit c = Some d → 0 ≤ d) →
  uint_loop digit base maxVal n s = Ok v → 0 ≤ v ≤ maxVal.
Proof.
  intros Hb Hn Hd. revert n Hn. induction s as [|c s IH]; intros n Hn; simpl.
  - intros [= <-]. done.
  - destruct (digit c) as [d|] eqn:E; [|done]. apply Hd in E.
    destruct (maxVal <? n * base + d) eqn:E'; [done|]. reflect_bools.
    apply IH. nia.
Qed.

Lemma ParseInt_range bits s v :
  1 ≤ bits → ParseInt bits s = Ok v → - 2 ^ (bits - 1) ≤ v < 2 ^ (bits - 1).
Proof.
  intros Hb. unfold ParseInt, ParseUint10.
  destruct (String.eqb s ""); [done|]. destruct (split_sign s) as [neg u].
  destruct (String.eqb u ""); [done|].
  destruct (uint_loop _ _ _ _ _) as [un| |] eqn:E; [|done|done].
  assert (0 < 2 ^ (bits - 1)) by (apply Z.pow_pos_nonneg; lia).
  apply uint_loop_range in E; [|lia| |intros c d Hc; apply digit_val_range in Hc; lia].
  - destruct neg; simpl; destruct (_ : bool) eqn:E1; try done; reflect_bools;
      intros [= <-]; lia.
  - pose proof (Z.pow_pos_nonneg 2 bits). lia.
Qed.

Lemma Atoi_range s v : Atoi s = Ok v → in_int64 v.
Proof.
  intros H%ParseInt_range; [|lia].
  unfold in_int64, minInt64, maxInt64. change (64 - 1) with 63 in H. lia.
Qed.

#[export] Hint Resolve Atoi_range : go.
#[export] Hint Rewrite Atoi_Itoa using (unfold in_int64, minInt64, maxInt64 in *; lia) : go_simpl.

(** The decimal text of a natural number is made of digits. *)
Lemma fmt_digits_digits fuel n acc :
  0 ≤ n → string_forall is_digit acc = true → string_forall is_digit (fmt_digits fuel n acc) = true.
Proof.
  revert n acc. induction fuel as [|fuel IH]; intros n acc Hn Hacc; cbn [fmt_digits].
  all: assert (string_forall is_digit (String (digit_char (n mod 10)) acc) = true) as H
    by (cbn; rewrite Hacc, andb_true_r; unfold is_digit; rewrite code_digit_char by zdiv;
        apply andb_true_iff; split; apply Z.leb_le; zdiv).
  - done.
  - destruct (n <? 10); [done|]. apply IH; [zdiv|done].
Qed.

Lemma Itoa_digits n : 0 ≤ n → Itoa n ≠ "" ∧ string_forall is_digit (Itoa n) = true.
Proof.
  intros Hn. unfold Itoa. destruct (n <? 0) eqn:E; reflect_bools; [lia|].
  split; [apply fmt_digits_nonempty|by apply fmt_digits_digits].
Qed.

Lemma uint_loop_never_panics digit base maxVal n s w : uint_loop digit base maxVal n s ≠ Panic w.
Proof.
  revert n. induction s as [|c s IH]; intros n; cbn [uint_loop]; [done|].
  destruct (digit c); [|done]. by destruct (maxVal <? _); [|apply IH].
Qed.

Lemma ParseInt_never_panics bits s w : ParseInt bits s ≠ Panic w.
Proof.
  unfold ParseInt, ParseUint10. destruct (String.eqb s ""); [done|].
  destruct (split_sign s) as [neg u]. destruct (String.eqb u ""); [done|].
  destruct (uint_loop _ _ _ _ _) eqn:E; [by repeat case_match|done|].
  by apply uint_loop_never_panics in E.
Qed.

Lemma Atoi_never_panics s w : Atoi s ≠ Panic w.
Proof. apply ParseInt_never_panics. Qed.

(** Numbers have few digits. *)
Lemma fmt_digits_length fuel k n acc :
  1 ≤ k → 0 ≤ n < 10 ^ k → slen (fmt_digits fuel n acc) ≤ k + slen acc.
Proof.
  revert k n acc. induction fuel as [|fuel IH]; intros k n acc Hk Hn; cbn [fmt_digits].
  - unfold slen in *. cbn. lia.
  - destruct (n <? 10) eqn:E; reflect_bools; [unfold slen in *; cbn; lia|].
    assert (2 ≤ k) by (destruct (decide (k = 1)) as [->|]; lia).
    assert (0 ≤ n / 10 < 10 ^ (k - 1)) as Hn'.
    { replace (10 ^ k) with (10 * 10 ^ (k - 1)) in Hn by (rewrite <- Z.pow_succ_r by lia; f_equal; lia).
      zdiv. }
    specialize (IH (k - 1) (n / 10) (String (digit_char (n mod 10)) acc) ltac:(lia) Hn').
    unfold slen in *. cbn in IH. lia.
Qed.

Lemma Itoa_length k n : 1 ≤ k → 0 ≤ n < 10 ^ k → slen (Itoa n) ≤ k.
Proof.
  intros Hk Hn. unfold Itoa. ztest. unfold fmt_nat.
  etransitivity; [by apply fmt_digits_length|]. unfold slen. cbn. lia.
Qed.

Lemma Itoa_length_int64 n : in_int64 n → slen (Itoa n) ≤ 20.
Proof.
  unfold in_int64, minInt64, maxInt64. intros Hn. unfold Itoa. destruct (n <? 0) eqn:E; reflect_bools.
  - change (slen (String "-" (fmt_nat (- n)))) with (Z.of_nat (S (String.length (fmt_nat (- n))))).
    assert (slen (fmt_nat (- n)) ≤ 19 + slen "") as Hl by (apply fmt_digits_length; lia).
    unfold slen in *. cbn in Hl. lia.
  - assert (slen (fmt_nat n) ≤ 19 + slen "") as Hl by (apply fmt_digits_length; lia).
    unfold slen in *. cbn in Hl. lia.
Qed.

(** Zeros on the left do not change a number. *)
Fixpoint zeros (n : nat) : string := match n with O => "" | S n => String "0" (zeros n) end.

Lemma zeros_length n : slen (zeros n) = Z.of_nat n.
Proof. unfold slen. induction n as [|n IH]; cbn [zeros String.length]; lia. Qed.

Lemma uint_loop_zeros maxVal n s :
  0 ≤ maxVal → uint_loop digit_val 10 maxVal 0 (zeros n +:+ s) = uint_loop digit_val 10 maxVal 0 s.
Proof.
  intros Hm. induction n as [|n IH]; [done|]. cbn [zeros String.append uint_loop].
  change (digit_val "0") with (Some 0). cbn zeta iota. by ztest.
Qed.

Lemma Atoi_zeros k n : in_int64 n → 0 ≤ n → Atoi (zeros k +:+ Itoa n) = Ok n.
Proof.
  intros Hn H0. destruct k as [|k]; [by apply Atoi_Itoa|]. pose proof (Atoi_Itoa n Hn) as E.
  unfold Atoi, ParseInt in *. unfold Itoa in *. replace (n <? 0) with false in * by lia.
  destruct (String.eqb (fmt_nat n) "") eqn:E0; [done|]. rewrite split_sign_fmt in E by done.
  cbn [zeros String.append]. change (String.eqb (String _ _) "") with false.
  change (split_sign (String "0" (zeros k +:+ fmt_nat n))) with (false, zeros (S k) +:+ fmt_nat n).
  unfold ParseUint10 in *. rewrite E0 in E. change (String.eqb (zeros (S k) +:+ fmt_nat n) "") with false.
  by rewrite uint_loop_zeros.
Qed.
