(* ===== verification/GoFloat.v ===== *)
(** * GoFloat: Go's [float64] and [strconv.ParseFloat]

    A [float64] is an IEEE 754 binary64 value, modelled by the executable
    specification of the Standard Library ([SpecFloat], with [prec = 53] and
    [emax = 1024]); no primitive floats and no axioms are involved.

    The conversion of an out-of-range or NaN [float64] to an integer is
    implementation-defined in Go.  [float_to_int64] takes the value the
    platform produces as an argument. *)

From Stdlib Require Export Floats.SpecFloat.
From S2P Require Import Prelude GoStrings GoNum.

Abbreviation float64 := spec_float.

Definition fadd : float64 → float64 → float64 := SFadd 53 1024.
Definition fsub : float64 → float64 → float64 := SFsub 53 1024.
Definition fmul : float64 → float64 → float64 := SFmul 53 1024.
Definition fdiv : float64 → float64 → float64 := SFdiv 53 1024.
Definition fltb : float64 → float64 → bool := SFltb.

(** [float64(z)] for an integer [z]. *)
Definition of_Z (z : Z) : float64 := binary_normalize 53 1024 z 0 false.

Definition fzero : float64 := S754_zero false.
Definition fone : float64 := of_Z 1.

(** The integer part, truncated toward zero. *)
Definition ftrunc (x : float64) : option Z :=
  match x with
  | S754_zero _ => Some 0
  | S754_finite s m e =>
      let a := if 0 <=? e then Zpos m * 2 ^ e else Zpos m / 2 ^ (- e) in
      Some (if s then - a else a)
  | _ => None
  end.

(** [int64(x)] on a platform that yields [oob] for the values that do not fit. *)
Definition float_to_int64 (oob : Z) (x : float64) : Z :=
  match ftrunc x with
  | Some z => if decide (in_int64 z) then z else oob
  | None => oob
  end.

(** ** ParseFloat *)

Definition mant_digit (hex : bool) (c : ascii) : option Z :=
  if hex then hex_val c else digit_val c.

(** The mantissa loop of [readFloat]: the digits read so far as an integer, the
    number of them after the dot, and the flags the loop keeps. *)
Record mant := Mant {
  m_val : Z; m_frac : Z; m_dot : bool; m_digits : bool; m_under : bool }.

Fixpoint read_mant (hex : bool) (s : string) (a : mant) : mant * string :=
  match s with
  | "" => (a, "")
  | String c s' =>
      if Ascii.eqb c "_" then
        read_mant hex s' (Mant (m_val a) (m_frac a) (m_dot a) (m_digits a) true)
      else if Ascii.eqb c "." then
        if m_dot a then (a, s)
        else read_mant hex s' (Mant (m_val a) (m_frac a) true (m_digits a) (m_under a))
      else match mant_digit hex c with
           | Some d =>
               read_mant hex s'
                 (Mant (m_val a * (if hex then 16 else 10) + d)
                       (if m_dot a then m_frac a + 1 else m_frac a)
                       (m_dot a) true (m_under a))
           | None => (a, s)
           end
  end.

(** The digits of an exponent: the value stops growing at 10000. *)
Fixpoint read_exp (s : string) (e : Z) (under : bool) : Z * bool * string :=
  match s with
  | "" => (e, under, "")
  | String c s' =>
      if Ascii.eqb c "_" then read_exp s' e true
      else match digit_val c with
           | Some d => read_exp s' (if e <? 10000 then e * 10 + d else e) under
           | None => (e, under, s)
           end
  end.

Fixpoint under_loop (hex : bool) (s : string) (saw : ascii) : bool :=
  match s with
  | "" => negb (Ascii.eqb saw "_")
  | String c s' =>
      if match mant_digit hex c with Some _ => true | None => false end
      then under_loop hex s' "0"
      else if Ascii.eqb c "_" then Ascii.eqb saw "0" && under_loop hex s' "_"
      else if Ascii.eqb saw "_" then false
      else under_loop hex s' "!"
  end.

Definition base_prefix (s : string) : option ascii :=
  match s with
  | String z (String x _) =>
      let l := lower_ascii x in
      if Ascii.eqb z "0" && (Ascii.eqb l "b" || Ascii.eqb l "o" || Ascii.eqb l "x")
      then Some l else None
  | _ => None
  end.

Definition underscoreOK (s : string) : bool :=
  let u := snd (split_sign s) in
  match base_prefix u with
  | Some l => under_loop (Ascii.eqb l "x") (sdrop 2 u) "0"
  | None => under_loop false u "^"
  end.

(** The value [(-1)^neg * m * base^exp], correctly rounded; [None] when it
    overflows. *)
Definition num_digits (m : Z) : Z := slen (fmt_nat m).

Definition check_finite (x : float64) : option float64 :=
  match x with S754_infinity _ => None | _ => Some x end.

Definition round_dec (neg : bool) (m exp : Z) : option float64 :=
  if m =? 0 then Some (S754_zero neg) else
  let dp := num_digits m + exp in
  if 310 <? dp then None
  else if dp <? -330 then Some (S754_zero neg)
  else
    let sm := if neg then - m else m in
    if 0 <=? exp then check_finite (binary_normalize 53 1024 (sm * 10 ^ exp) 0 neg)
    else match sm, 10 ^ (- exp) with
         | Zpos p, Zpos q => check_finite (fdiv (S754_finite false p 0) (S754_finite false q 0))
         | Zneg p, Zpos q => check_finite (fdiv (S754_finite true p 0) (S754_finite false q 0))
         | _, _ => Some (S754_zero neg)
         end.

Definition round_hex (neg : bool) (m exp : Z) : option float64 :=
  if m =? 0 then Some (S754_zero neg)
  else check_finite (binary_normalize 53 1024 (if neg then - m else m) exp neg).

(** [readFloat] on the whole of [s] followed by the rounding of [atof64]. *)
Definition read_float (s : string) : outcome numError float64 :=
  let '(neg, u) := split_sign s in
  let hex := match u with
             | String z (String x (String _ _)) =>
                 Ascii.eqb z "0" && Ascii.eqb (lower_ascii x) "x"
             | _ => false
             end in
  let body := if hex then sdrop 2 u else u in
  let '(a, r) := read_mant hex body (Mant 0 0 false false false) in
  if negb (m_digits a) then Err ErrSyntax else
  let finish (e : Z) (under : bool) (r : string) : outcome numError float64 :=
    if under && negb (underscoreOK s) then Err ErrSyntax
    else if negb (String.eqb r "") then Err ErrSyntax
    else match (if hex then round_hex neg (m_val a) (e - 4 * m_frac a)
                else round_dec neg (m_val a) (e - m_frac a)) with
         | Some x => Ok x
         | None => Err ErrRange
         end in
  match r with
  | String c r' =>
      if Ascii.eqb (lower_ascii c) (if hex then "p" else "e") then
        let '(eneg, er) := split_sign r' in
        match er with
        | String d _ =>
            if is_digit d then
              let '(e, under, rest) := read_exp er 0 (m_under a) in
              finish (if eneg then - e else e) under rest
            else Err ErrSyntax
        | "" => Err ErrSyntax
        end
      else if hex then Err ErrSyntax
      else finish 0 (m_under a) r
  | "" => if hex then Err ErrSyntax else finish 0 (m_under a) ""
  end.

Fixpoint lower_ascii_str (s : string) : string :=
  match s with "" => "" | String c s' => String (lower_ascii c) (lower_ascii_str s') end.

(** [strconv.ParseFloat(s, 64)] *)
Definition ParseFloat (s : string) : outcome numError float64 :=
  let '(neg, u) := split_sign s in
  let l := lower_ascii_str u in
  if String.eqb l "inf" || String.eqb l "infinity" then Ok (S754_infinity neg)
  else if String.eqb (lower_ascii_str s) "nan" then Ok S754_nan
  else read_float s.

Example ParseFloat_ex1 : ParseFloat "0.5" = Ok (fdiv fone (of_Z 2)).
Proof. reflexivity. Qed.
Example ParseFloat_ex2 : ParseFloat "1e400" = Err ErrRange.
Proof. reflexivity. Qed.
Example ParseFloat_ex3 : ParseFloat "-0x1p-2" = Ok (fdiv (of_Z (-1)) (of_Z 4)).
Proof. reflexivity. Qed.
Example ParseFloat_ex4 : ParseFloat ".e1" = Err ErrSyntax.
Proof. reflexivity. Qed.
Example ParseFloat_ex5 : ParseFloat "0.1" = Ok (S754_finite false 7205759403792794 (-56)).
Proof. reflexivity. Qed.
Example ParseFloat_ex6 : ParseFloat "1_0.5" = Ok (fdiv (of_Z 21) (of_Z 2)).
Proof. reflexivity. Qed.

Lemma ParseFloat_never_panics s w : ParseFloat s ≠ Panic w.
Proof. unfold ParseFloat, read_float. repeat case_match; done. Qed.
