(* ===== verification/GoTime.v ===== *)
(** * GoTime: [time.Duration] and [time.ParseDuration]

    A [Duration] is an [int64] count of nanoseconds, modelled by [Z] with the
    wrap-around of [int64] written out by the code that needs it.  Instants are
    nanoseconds since an arbitrary origin. *)

From S2P Require Import Prelude GoStrings GoNum GoFloat.

Definition Nanosecond : Z := 1.
Definition Microsecond : Z := 1000.
Definition Millisecond : Z := 1000000.
Definition Second : Z := 1000000000.
Definition Minute : Z := 60 * Second.
Definition Hour : Z := 60 * Minute.

(** [d.Seconds()] *)
Definition Seconds (d : Z) : float64 :=
  fadd (of_Z (Z.quot d Second)) (fdiv (of_Z (Z.rem d Second)) (of_Z 1000000000)).

(** ** ParseDuration *)

Inductive durError :=
| DurInvalid (orig : string)
| DurMissingUnit (orig : string)
| DurUnknownUnit (u orig : string).

(** The fuel-free loops of the parser: leading digits with overflow checks. *)
Fixpoint leadingInt (s : string) (x : Z) : option (Z * string) :=
  match s with
  | "" => Some (x, "")
  | String c s' =>
      match digit_val c with
      | None => Some (x, s)
      | Some d =>
          if 2 ^ 63 / 10 <? x then None
          else let x' := x * 10 + d in
               if 2 ^ 63 <? x' then None else leadingInt s' x'
      end
  end.

Fixpoint leadingFraction (s : string) (x : Z) (scale : float64) (overflow : bool)
    : Z * float64 * string :=
  match s with
  | "" => (x, scale, "")
  | String c s' =>
      match digit_val c with
      | None => (x, scale, s)
      | Some d =>
          if overflow then leadingFraction s' x scale true
          else if (2 ^ 63 - 1) / 10 <? x then leadingFraction s' x scale true
          else let y := x * 10 + d in
               if 2 ^ 63 <? y then leadingFraction s' x scale true
               else leadingFraction s' y (fmul scale (of_Z 10)) false
      end
  end.

Fixpoint take_unit (s : string) : string * string :=
  match s with
  | "" => ("", "")
  | String c s' =>
      if Ascii.eqb c "." || is_digit c then ("", s)
      else let '(u, r) := take_unit s' in (String c u, r)
  end.

Definition micro1 : string := str_of [0xC2; 0xB5; 115]%nat.
Definition micro2 : string := str_of [0xCE; 0xBC; 115]%nat.

Definition unitMap (u : string) : option Z :=
  if String.eqb u "ns" then Some Nanosecond
  else if String.eqb u "us" then Some Microsecond
  else if String.eqb u micro1 then Some Microsecond
  else if String.eqb u micro2 then Some Microsecond
  else if String.eqb u "ms" then Some Millisecond
  else if String.eqb u "s" then Some Second
  else if String.eqb u "m" then Some Minute
  else if String.eqb u "h" then Some Hour
  else None.

(** [uint64(x)] for the non-negative finite values the parser produces. *)
Definition float_to_uint64 (x : float64) : Z :=
  match ftrunc x with Some z => wrapu64 z | None => 0 end.

(** One component (number and unit): the value in nanoseconds and the rest. *)
Definition dur_component (orig s : string) : outcome durError (Z * string) :=
  match s with
  | "" => Err (DurInvalid orig)
  | String c _ =>
      if negb (Ascii.eqb c "." || is_digit c) then Err (DurInvalid orig) else
      match leadingInt s 0 with
      | None => Err (DurInvalid orig)
      | Some (v, s1) =>
          let pre := negb (slen s =? slen s1) in
          let '(f, scale, s2, post) :=
            match s1 with
            | String c1 s1' =>
                if Ascii.eqb c1 "." then
                  let '(f, scale, s2) := leadingFraction s1' 0 fone false in
                  (f, scale, s2, negb (slen s1' =? slen s2))
                else (0, fone, s1, false)
            | "" => (0, fone, s1, false)
            end in
          if negb pre && negb post then Err (DurInvalid orig) else
          let '(u, s3) := take_unit s2 in
          if String.eqb u "" then Err (DurMissingUnit orig) else
          match unitMap u with
          | None => Err (DurUnknownUnit u orig)
          | Some unit =>
              if 2 ^ 63 / unit <? v then Err (DurInvalid orig) else
              let v1 := v * unit in
              let v2 := if 0 <? f
                        then v1 + float_to_uint64 (fmul (of_Z f) (fdiv (of_Z unit) scale))
                        else v1 in
              if 2 ^ 63 <? v2 then Err (DurInvalid orig) else Ok (v2, s3)
          end
      end
  end.

(** The loop over the components; each one consumes at least one byte, so the
    length of the string is enough fuel ([dur_loop_never_panics]).  The sum is a uint64,
    which wraps around. *)
Fixpoint dur_loop (fuel : nat) (orig s : string) (d : Z) : outcome durError Z :=
  if String.eqb s "" then Ok d else
  match fuel with
  | O => Panic "out of fuel"
  | S n =>
      match dur_component orig s with
      | Ok (v, s') =>
          let d' := wrapu64 (d + v) in
          if 2 ^ 63 <? d' then Err (DurInvalid orig) else dur_loop n orig s' d'
      | Err e => Err e
      | Panic w => Panic w
      end
  end.

Definition ParseDuration (orig : string) : outcome durError Z :=
  let '(neg, s) := split_sign orig in
  if String.eqb s "0" then Ok 0
  else if String.eqb s "" then Err (DurInvalid orig)
  else match dur_loop (String.length s) orig s 0 with
       | Ok d =>
           if neg then Ok (- d)
           else if maxInt64 <? d then Err (DurInvalid orig) else Ok d
       | Err e => Err e
       | Panic w => Panic w
       end.

Example ParseDuration_ex1 : ParseDuration "1h15m30.918s" = Ok 4530918000000.
Proof. reflexivity. Qed.
Example ParseDuration_ex2 : ParseDuration "-1.5ms" = Ok (-1500000).
Proof. reflexivity. Qed.
Example ParseDuration_ex3 : ParseDuration "5" = Err (DurMissingUnit "5").
Proof. reflexivity. Qed.
Example ParseDuration_ex4 : ParseDuration "9223372036854775808ns" = Err (DurInvalid "9223372036854775808ns").
Proof. reflexivity. Qed.

Example ParseDuration_wraps :
  ParseDuration "9223372036854775808ns9223372036854775808ns" = Ok 0.
Proof. reflexivity. Qed.

(** ** Range of the result *)

Lemma leadingInt_nonneg s x v r : 0 ≤ x → leadingInt s x = Some (v, r) → 0 ≤ v.
Proof.
  revert x. induction s as [|c s IH]; intros x Hx; simpl.
  - intros [= <- <-]. done.
  - destruct (digit_val c) as [d|] eqn:E.
    + apply digit_val_range in E. destruct (_ <? x); [done|].
      destruct (_ <? _); [done|]. apply IH. lia.
    + intros [= <- <-]. done.
Qed.

Lemma unitMap_pos u k : unitMap u = Some k → 0 < k.
Proof.
  unfold unitMap. repeat (destruct (String.eqb _ _); [by intros [= <-]|]). done.
Qed.

Lemma float_to_uint64_range x : 0 ≤ float_to_uint64 x < 2 ^ 64.
Proof.
  unfold float_to_uint64, wrapu64. destruct (ftrunc x); [|lia].
  apply Z.mod_pos_bound. lia.
Qed.

Lemma dur_component_range orig s v r :
  dur_component orig s = Ok (v, r) → 0 ≤ v ≤ 2 ^ 63.
Proof.
  unfold dur_component. destruct s as [|c s0]; [done|].
  destruct (negb _); [done|].
  destruct (leadingInt _ 0) as [[v0 s1]|] eqn:Ei; [|done].
  apply leadingInt_nonneg in Ei; [|lia].
  destruct (match s1 with "" => _ | _ => _ end) as [[[f scale] s2] post].
  destruct (_ && _); [done|]. destruct (take_unit s2) as [u s3].
  destruct (String.eqb u ""); [done|].
  destruct (unitMap u) as [k|] eqn:Eu; [|done]. apply unitMap_pos in Eu.
  destruct (_ <? v0); [done|].
  destruct (2 ^ 63 <? _) eqn:E; [done|]. reflect_bools. intros [= <- <-].
  pose proof (float_to_uint64_range (fmul (of_Z f) (fdiv (of_Z k) scale))).
  destruct (0 <? f); nia.
Qed.

Lemma dur_loop_range fuel orig s d v :
  0 ≤ d ≤ 2 ^ 63 → dur_loop fuel orig s d = Ok v → 0 ≤ v ≤ 2 ^ 63.
Proof.
  revert s d. induction fuel as [|n IH]; intros s d Hd; simpl.
  - destruct (String.eqb s ""); [by intros [= <-]|done].
  - destruct (String.eqb s ""); [by intros [= <-]|].
    destruct (dur_component orig s) as [[v0 s']| |] eqn:E; [|done|done].
    apply dur_component_range in E.
    destruct (2 ^ 63 <? wrapu64 (d + v0)) eqn:E'; [done|]. reflect_bools. apply IH.
    unfold wrapu64 in *. zdiv.
Qed.

Lemma ParseDuration_range s d : ParseDuration s = Ok d → in_int64 d.
Proof.
  unfold ParseDuration, in_int64, minInt64, maxInt64.
  destruct (split_sign s) as [neg u].
  destruct (String.eqb u "0"); [intros [= <-]; lia|].
  destruct (String.eqb u ""); [done|].
  destruct (dur_loop _ _ _ _) as [v| |] eqn:E; [|done|done].
  apply dur_loop_range in E; [|lia]. destruct neg.
  - intros [= <-]. lia.
  - destruct (_ <? v) eqn:E'; [done|]. reflect_bools. intros [= <-]. lia.
Qed.

#[export] Hint Resolve ParseDuration_range : go.

(** ** No panics *)

(** *** The fuel is enough: a component that parses is not empty *)

Lemma leadingInt_shorter s x v r :
  leadingInt s x = Some (v, r) → (String.length r ≤ String.length s)%nat.
Proof.
  revert x. induction s as [|c s IH]; intros x; simpl; [by intros [= <- <-]|].
  destruct (digit_val c); [|by intros [= <- <-]].
  destruct (_ <? x); [done|]. destruct (2 ^ 63 <? _); [done|].
  intros E%IH. lia.
Qed.

Lemma leadingFraction_shorter s x sc o f sc' r :
  leadingFraction s x sc o = (f, sc', r) → (String.length r ≤ String.length s)%nat.
Proof.
  revert x sc o. induction s as [|c s IH]; intros x sc o; simpl; [by intros [= <- <- <-]|].
  destruct (digit_val c); [|by intros [= <- <- <-]].
  repeat case_match; intros E%IH; lia.
Qed.

Lemma take_unit_shorter s u r :
  take_unit s = (u, r) → u ≠ "" → (String.length r < String.length s)%nat.
Proof.
  revert u. induction s as [|c s IH]; intros u; simpl; [by intros [= <- <-]|].
  destruct (_ || _); [by intros [= <- <-]|].
  destruct (take_unit s) as [u' r'] eqn:E. intros [= <- <-] _.
  destruct (String.eqb_spec u' "") as [->|Hne]; [|specialize (IH u' eq_refl Hne); lia].
  clear IH. destruct s as [|c' s']; simpl in E; [injection E as <-; simpl; lia|].
  destruct (_ || _); [injection E as <-; simpl; lia|]. by destruct (take_unit s').
Qed.

Lemma dur_component_shorter orig s v r :
  dur_component orig s = Ok (v, r) → (String.length r < String.length s)%nat.
Proof.
  unfold dur_component. destruct s as [|c s0] eqn:Es; [done|]. rewrite <- Es. clear Es.
  destruct (negb _); [done|].
  destruct (leadingInt s 0) as [[v0 s1]|] eqn:Ei; [|done]. apply leadingInt_shorter in Ei.
  destruct (match s1 with "" => _ | _ => _ end) as [[[f scale] s2] post] eqn:Ef.
  assert (String.length s2 ≤ String.length s1)%nat as Hs2.
  { destruct s1 as [|c1 s1']; [by injection Ef as _ _ <- _|].
    destruct (Ascii.eqb c1 "."); [|by injection Ef as _ _ <- _].
    destruct (leadingFraction s1' 0 fone false) as [[f' scale'] s2'] eqn:El. injection Ef as <- <- <- <-.
    apply leadingFraction_shorter in El. cbn. lia. }
  destruct (_ && _); [done|]. destruct (take_unit s2) as [u s3] eqn:Eu.
  destruct (String.eqb_spec u ""); [done|]. apply take_unit_shorter in Eu; [|done].
  destruct (unitMap u) as [k|]; [|done]. destruct (_ <? v0); [done|]. destruct (2 ^ 63 <? _); [done|].
  intros [= _ <-]. lia.
Qed.

Lemma dur_component_never_panics orig s w : dur_component orig s ≠ Panic w.
Proof. unfold dur_component. repeat case_match; done. Qed.

Lemma dur_loop_never_panics fuel orig s d w : (String.length s ≤ fuel)%nat → dur_loop fuel orig s d ≠ Panic w.
Proof.
  revert s d. induction fuel as [|n IH]; intros s d Hs; cbn [dur_loop].
  - by destruct s; [|cbn in Hs; lia].
  - destruct (String.eqb s ""); [done|].
    destruct (dur_component orig s) as [[v s']| |] eqn:E; [|done|].
    + apply dur_component_shorter in E. destruct (2 ^ 63 <? wrapu64 (d + v)); [done|]. apply IH. lia.
    + by apply dur_component_never_panics in E.
Qed.

Lemma ParseDuration_never_panics s w : ParseDuration s ≠ Panic w.
Proof.
  unfold ParseDuration. repeat case_match; try done.
  intros [= ->]. by eapply dur_loop_never_panics.
Qed.

