(* ===== verification/Utf8.v ===== *)
(** * Utf8: [unicode/utf8.Valid]

    The table-driven check of Go's standard library, on [[]byte].  The accept
    ranges of the second byte exclude overlong forms, surrogates and code
    points above U+10FFFF. *)

From S2P Require Import Prelude.

Definition in_range (b : byte) (lo hi : Z) : bool :=
  (lo <=? byte_Z b) && (byte_Z b <=? hi).
Definition is_cont (b : byte) : bool := in_range b 0x80 0xBF.

(** The range of the second byte, by first byte. *)
Definition accept3 (b0 b1 : byte) : bool :=
  if byte_Z b0 =? 0xE0 then in_range b1 0xA0 0xBF
  else if byte_Z b0 =? 0xED then in_range b1 0x80 0x9F
  else is_cont b1.
Definition accept4 (b0 b1 : byte) : bool :=
  if byte_Z b0 =? 0xF0 then in_range b1 0x90 0xBF
  else if byte_Z b0 =? 0xF4 then in_range b1 0x80 0x8F
  else is_cont b1.

Fixpoint utf8_Valid (l : list byte) : bool :=
  match l with
  | [] => true
  | b0 :: r0 =>
      if byte_Z b0 <? 0x80 then utf8_Valid r0
      else if in_range b0 0xC2 0xDF then
        match r0 with
        | b1 :: r1 => is_cont b1 && utf8_Valid r1
        | _ => false
        end
      else if in_range b0 0xE0 0xEF then
        match r0 with
        | b1 :: b2 :: r2 => accept3 b0 b1 && is_cont b2 && utf8_Valid r2
        | _ => false
        end
      else if in_range b0 0xF0 0xF4 then
        match r0 with
        | b1 :: b2 :: b3 :: r3 =>
            accept4 b0 b1 && is_cont b2 && is_cont b3 && utf8_Valid r3
        | _ => false
        end
      else false
  end.

(** A valid text followed by [k] is valid exactly when [k] is. *)
Lemma utf8_Valid_app l k :
  utf8_Valid l = true → utf8_Valid (l ++ k) = utf8_Valid k.
Proof.
  remember (length l) as n eqn:En. revert l En.
  induction n as [n IH] using lt_wf_ind. intros l ->.
  destruct l as [|b0 r0]; [done|]. cbn [utf8_Valid app].
  destruct (byte_Z b0 <? 0x80); [apply (IH (length r0)); simpl; lia|].
  destruct (in_range b0 0xC2 0xDF).
  { destruct r0 as [|b1 r1]; [done|]. cbn [app].
    intros [-> H]%andb_true_iff. apply (IH (length r1)); simpl; auto; lia. }
  destruct (in_range b0 0xE0 0xEF).
  { destruct r0 as [|b1 [|b2 r2]]; [done|done|]. cbn [app].
    intros [[-> ->]%andb_true_iff H]%andb_true_iff.
    apply (IH (length r2)); simpl; auto; lia. }
  destruct (in_range b0 0xF0 0xF4); [|done].
  destruct r0 as [|b1 [|b2 [|b3 r3]]]; [done|done|done|]. cbn [app].
  intros [[[-> ->]%andb_true_iff ->]%andb_true_iff H]%andb_true_iff.
  apply (IH (length r3)); simpl; auto; lia.
Qed.

(** ASCII text is valid. *)
Lemma utf8_Valid_ascii l :
  Forall (λ b, byte_Z b < 0x80) l → utf8_Valid l = true.
Proof.
  induction 1 as [|b l Hb _ IH]; [done|]. cbn [utf8_Valid].
  by replace (byte_Z b <? 0x80) with true by lia.
Qed.

Example utf8_ex1 : utf8_Valid (to_bytes (String.String (Ascii.ascii_of_nat 0xC3) (String.String (Ascii.ascii_of_nat 0xA9) ""))) = true.
Proof. reflexivity. Qed.
Example utf8_surrogate : utf8_Valid (map Z_byte [0xED; 0xA0; 0x80]) = false.
Proof. reflexivity. Qed.
