(* ===== verification/Base64.v ===== *)
(** * Base64: Go's [encoding/base64]

    The four encodings the program uses: the URL-safe and the standard alphabet,
    each with and without padding.  Decoding skips carriage returns and line
    feeds and ignores the unused low bits of the last group, as the non-strict
    Go decoders do; the position that a [CorruptInputError] carries is left
    out. *)

From S2P Require Import Prelude GoStrings.

Record Encoding := { url_alphabet : bool; padded : bool }.
Definition URLEncoding : Encoding := {| url_alphabet := true; padded := true |}.
Definition RawURLEncoding : Encoding := {| url_alphabet := true; padded := false |}.
Definition StdEncoding : Encoding := {| url_alphabet := false; padded := true |}.
Definition RawStdEncoding : Encoding := {| url_alphabet := false; padded := false |}.

Inductive base64Error := CorruptInputError.

Definition enc_char (url : bool) (v : Z) : ascii :=
  if v <? 26 then chr (Z.to_nat (65 + v))
  else if v <? 52 then chr (Z.to_nat (71 + v))
  else if v <? 62 then chr (Z.to_nat (v - 4))
  else if v =? 62 then (if url then "-" else "+")%char
  else (if url then "_" else "/")%char.

Definition dec_char (url : bool) (c : ascii) : option Z :=
  let n := code c in
  if (65 <=? n) && (n <=? 90) then Some (n - 65)
  else if (97 <=? n) && (n <=? 122) then Some (n - 71)
  else if (48 <=? n) && (n <=? 57) then Some (n + 4)
  else if Ascii.eqb c (if url then "-" else "+")%char then Some 62
  else if Ascii.eqb c (if url then "_" else "/")%char then Some 63
  else None.

(** Character [i] (from the left) of a 24-bit group. *)
Definition sextet (i v : Z) : Z := v / 2 ^ (18 - 6 * i) mod 64.
Definition group (b0 b1 b2 : Z) : Z := b0 * 65536 + b1 * 256 + b2.

Section Codec.
Context (enc : Encoding).
Let ec (i v : Z) : ascii := enc_char (url_alphabet enc) (sextet i v).
Let padding (n : nat) : string := if padded enc then str_of (repeat 61%nat n) else "".

Fixpoint EncodeToString (l : list byte) : string :=
  match l with
  | b0 :: b1 :: b2 :: r =>
      let v := group (byte_Z b0) (byte_Z b1) (byte_Z b2) in
      String (ec 0 v) (String (ec 1 v) (String (ec 2 v) (String (ec 3 v) (EncodeToString r))))
  | [b0; b1] =>
      let v := group (byte_Z b0) (byte_Z b1) 0 in
      String (ec 0 v) (String (ec 1 v) (String (ec 2 v) (padding 1)))
  | [b0] =>
      let v := group (byte_Z b0) 0 0 in
      String (ec 0 v) (String (ec 1 v) (padding 2))
  | [] => ""
  end.

Let dc (c : ascii) : option Z := dec_char (url_alphabet enc) c.
Let ungroup (d0 d1 d2 d3 : Z) : Z := d0 * 2 ^ 18 + d1 * 2 ^ 12 + d2 * 2 ^ 6 + d3.
Let out (k v : Z) : byte := Z_byte (v / 2 ^ (16 - 8 * k)).
Let is_pad (c : ascii) : bool := padded enc && Ascii.eqb c "=".

Fixpoint decode_clean (s : string) : option (list byte) :=
  match s with
  | "" => Some []
  | String c0 (String c1 r) =>
      d0 ← dc c0; d1 ← dc c1;
      match r with
      | "" => if padded enc then None else Some [out 0 (ungroup d0 d1 0 0)]
      | String c2 r2 =>
          if is_pad c2 then
            match r2 with
            | String c3 "" => if is_pad c3 then Some [out 0 (ungroup d0 d1 0 0)] else None
            | _ => None
            end
          else
            d2 ← dc c2;
            match r2 with
            | "" => if padded enc then None
                    else let v := ungroup d0 d1 d2 0 in Some [out 0 v; out 1 v]
            | String c3 r3 =>
                if is_pad c3 then
                  match r3 with
                  | "" => let v := ungroup d0 d1 d2 0 in Some [out 0 v; out 1 v]
                  | _ => None
                  end
                else
                  d3 ← dc c3;
                  let v := ungroup d0 d1 d2 d3 in
                  rest ← decode_clean r3;
                  Some (out 0 v :: out 1 v :: out 2 v :: rest)
            end
      end
  | _ => None
  end.

Definition DecodeString (s : string) : outcome base64Error (list byte) :=
  match decode_clean (RemoveChars (String CR (String LF "")) s) with
  | Some l => Ok l
  | None => Err CorruptInputError
  end.
End Codec.

Example Encode_ex : EncodeToString StdEncoding (to_bytes "hello?") = "aGVsbG8/".
Proof. reflexivity. Qed.
Example Decode_ex : DecodeString URLEncoding "SGVsbG8=" = Ok (to_bytes "Hello").
Proof. reflexivity. Qed.

(** ** The round trip *)

Definition sextets : list Z := map Z.of_nat (seq 0 64).

Lemma forall_sextet (P : Z → bool) v :
  forallb P sextets = true → 0 ≤ v < 64 → P v = true.
Proof.
  intros H Hv. rewrite forallb_forall in H. apply H.
  unfold sextets. apply in_map_iff. exists (Z.to_nat v).
  split; [lia|]. apply in_seq. lia.
Qed.

Lemma dec_enc_char url v : 0 ≤ v < 64 → dec_char url (enc_char url v) = Some v.
Proof.
  intros Hv.
  apply (forall_sextet (λ v, bool_decide (dec_char url (enc_char url v) = Some v))) in Hv.
  - by apply bool_decide_eq_true in Hv.
  - destruct url; vm_compute; reflexivity.
Qed.

(** The characters of the alphabets are neither padding nor line breaks. *)
Lemma enc_char_plain url v :
  0 ≤ v < 64 →
  Ascii.eqb (enc_char url v) "=" = false ∧
  contains_char (enc_char url v) (String CR (String LF "")) = false.
Proof.
  intros Hv.
  apply (forall_sextet (λ v, negb (Ascii.eqb (enc_char url v) "=") &&
     negb (contains_char (enc_char url v) (String CR (String LF ""))))) in Hv.
  - apply andb_true_iff in Hv as [?%negb_true_iff ?%negb_true_iff]. done.
  - destruct url; vm_compute; reflexivity.
Qed.

Lemma sextet_range i v : 0 ≤ sextet i v < 64.
Proof. unfold sextet. apply Z.mod_pos_bound. lia. Qed.

#[local] Hint Resolve sextet_range : core.

Lemma ungroup_sextets v :
  0 ≤ v < 2 ^ 24 →
  sextet 0 v * 2 ^ 18 + sextet 1 v * 2 ^ 12 + sextet 2 v * 2 ^ 6 + sextet 3 v = v.
Proof.
  intros Hv. unfold sextet.
  change (18 - 6 * 0) with 18. change (18 - 6 * 1) with 12.
  change (18 - 6 * 2) with 6. change (18 - 6 * 3) with 0. zdiv.
Qed.

(** The low sextets of a group whose low bytes are zero. *)
Lemma sextet3_zero b0 b1 : sextet 3 (group b0 b1 0) = 0.
Proof. unfold sextet, group. change (18 - 6 * 3) with 0. zdiv. Qed.
Lemma sextet2_zero b0 : sextet 2 (group b0 0 0) = 0.
Proof. unfold sextet, group. change (18 - 6 * 2) with 6. zdiv. Qed.

Lemma group_range b0 b1 b2 :
  0 ≤ b0 < 256 → 0 ≤ b1 < 256 → 0 ≤ b2 < 256 → 0 ≤ group b0 b1 b2 < 2 ^ 24.
Proof. unfold group. lia. Qed.

Lemma group_bytes b0 b1 b2 :
  let v := group (byte_Z b0) (byte_Z b1) (byte_Z b2) in
  Z_byte (v / 2 ^ (16 - 8 * 0)) = b0 ∧
  Z_byte (v / 2 ^ (16 - 8 * 1)) = b1 ∧
  Z_byte (v / 2 ^ (16 - 8 * 2)) = b2.
Proof.
  pose proof (byte_Z_range b0). pose proof (byte_Z_range b1).
  pose proof (byte_Z_range b2).
  change (16 - 8 * 0) with 16. change (16 - 8 * 1) with 8. change (16 - 8 * 2) with 0.
  cbn zeta. unfold group.
  repeat split; apply byte_Z_inj; rewrite byte_Z_byte; zdiv.
Qed.

(** Induction over a list three elements at a time. *)
Lemma list_ind3 {A} (P : list A → Prop) :
  P [] → (∀ a, P [a]) → (∀ a b, P [a; b]) →
  (∀ a b c l, P l → P (a :: b :: c :: l)) → ∀ l, P l.
Proof.
  intros H0 H1 H2 H3 l.
  remember (length l) as n eqn:En. revert l En.
  induction n as [n IH] using lt_wf_ind. intros [|a [|b [|c l]]] ->; auto.
  apply H3, (IH (length l)); simpl; lia.
Qed.

Section RoundTrip.
Context (enc : Encoding).

Lemma RemoveChars_Encode l :
  RemoveChars (String CR (String LF "")) (EncodeToString enc l) = EncodeToString enc l.
Proof.
  induction l using list_ind3; cbn [EncodeToString RemoveChars]; cbn zeta;
    rewrite ?(proj2 (enc_char_plain _ _ (sextet_range _ _))); [done| | |by rewrite IHl];
    by destruct (padded enc).
Qed.

Lemma decode_clean_Encode l : decode_clean enc (EncodeToString enc l) = Some l.
Proof.
  induction l as [|b0|b0 b1|b0 b1 b2 l IH] using list_ind3;
    cbn [EncodeToString decode_clean]; cbn zeta; [done| | |];
    rewrite ?dec_enc_char by done; cbn [mbind option_bind];
    rewrite ?(proj1 (enc_char_plain _ _ (sextet_range _ _))).
  - destruct (group_bytes b0 x00 x00) as (H0 & _).
    change (byte_Z x00) with 0 in H0.
    pose proof (ungroup_sextets (group (byte_Z b0) 0 0)) as Hu.
    rewrite sextet2_zero, sextet3_zero in Hu.
    destruct (padded enc) eqn:Ep; cbn; rewrite ?Ep; cbn; do 2 f_equal;
      rewrite Hu by (apply group_range; auto with go; lia); apply H0.
  - destruct (group_bytes b0 b1 x00) as (H0 & H1 & _).
    change (byte_Z x00) with 0 in H0, H1.
    pose proof (ungroup_sextets (group (byte_Z b0) (byte_Z b1) 0)) as Hu.
    rewrite sextet3_zero in Hu.
    destruct (padded enc) eqn:Ep; cbn; rewrite ?Ep; cbn; rewrite ?dec_enc_char by done; cbn;
      rewrite ?Ep, Hu by (apply group_range; auto with go; lia);
      by rewrite H0, H1.
  - destruct (group_bytes b0 b1 b2) as (H0 & H1 & H2).
    rewrite !andb_false_r, ?dec_enc_char by done. cbn.
    rewrite ?dec_enc_char by done. cbn.
    rewrite IH, ungroup_sextets by (apply group_range; auto with go; lia).
    cbn. by rewrite H0, H1, H2.
Qed.

(** Every encoding decodes its own output. *)
Lemma DecodeString_EncodeToString l : DecodeString enc (EncodeToString enc l) = Ok l.
Proof. unfold DecodeString. by rewrite RemoveChars_Encode, decode_clean_Encode. Qed.
End RoundTrip.

#[export] Hint Rewrite DecodeString_EncodeToString : go_simpl.

(** What is encoded is ASCII without commas. *)
Definition text_char (c : ascii) : bool := (code c <? 0x80) && negb (Ascii.eqb c ",").

Lemma enc_char_text url v : 0 ≤ v < 64 → text_char (enc_char url v) = true.
Proof.
  intros Hv. apply (forall_sextet (λ v, text_char (enc_char url v))) in Hv; [done|].
  destruct url; vm_compute; reflexivity.
Qed.

Lemma EncodeToString_text enc l : string_forall text_char (EncodeToString enc l) = true.
Proof.
  induction l using list_ind3; cbn [EncodeToString string_forall]; cbn zeta;
    rewrite ?enc_char_text by apply sextet_range; [done| | |by rewrite IHl];
    by destruct (padded enc).
Qed.
