(* ===== verification/GoFmt.v ===== *)
(** * GoFmt: error values and the part of [fmt] that renders them

    An error made by [errors.New] or [fmt.Errorf] is kept as its text or as its
    format and arguments, so that the model of a function shows which of its
    error returns is taken; [Error] renders it as [err.Error()] does.  The verbs
    are the ones the program uses.  Two tables of the standard library are not
    written out and are a parameter ([GoStd]): which non-ASCII runes are
    printable, and the input offset in the text of a [CorruptInputError].  So is
    what the language leaves to the implementation: the value of [int64(x)] for a
    float that is not in range. *)

From S2P Require Import Prelude GoStrings GoNum GoFloat GoTime Utf8 Base64.

Class GoStd := {
  IsPrint : Z → bool;                                (* runes from U+0080 *)
  corruptOffset : Encoding → string → Z;
  floatOob : float64 → Z;
}.

(** ** Runes of a string *)

(** A rune with its encoding, or a byte that does not start one. *)
Inductive rune := Rune (r : Z) (enc : list byte) | BadByte (b : byte).

Fixpoint runes (l : list byte) : list rune :=
  match l with
  | [] => []
  | b0 :: r0 =>
      let v0 := byte_Z b0 in
      if v0 <? 0x80 then Rune v0 [b0] :: runes r0
      else if in_range b0 0xC2 0xDF then
        match r0 with
        | b1 :: r1 =>
            if is_cont b1
            then Rune ((v0 - 0xC0) * 64 + (byte_Z b1 - 0x80)) [b0; b1] :: runes r1
            else BadByte b0 :: runes r0
        | _ => BadByte b0 :: runes r0
        end
      else if in_range b0 0xE0 0xEF then
        match r0 with
        | b1 :: b2 :: r2 =>
            if accept3 b0 b1 && is_cont b2
            then Rune (((v0 - 0xE0) * 64 + (byte_Z b1 - 0x80)) * 64 + (byte_Z b2 - 0x80))
                   [b0; b1; b2] :: runes r2
            else BadByte b0 :: runes r0
        | _ => BadByte b0 :: runes r0
        end
      else if in_range b0 0xF0 0xF4 then
        match r0 with
        | b1 :: b2 :: b3 :: r3 =>
            if accept4 b0 b1 && is_cont b2 && is_cont b3
            then Rune ((((v0 - 0xF0) * 64 + (byte_Z b1 - 0x80)) * 64 + (byte_Z b2 - 0x80)) * 64
                       + (byte_Z b3 - 0x80)) [b0; b1; b2; b3] :: runes r3
            else BadByte b0 :: runes r0
        | _ => BadByte b0 :: runes r0
        end
      else BadByte b0 :: runes r0
  end.

Definition hex_digit (d : Z) : ascii :=
  if d <? 10 then chr (Z.to_nat (48 + d)) else chr (Z.to_nat (87 + d)).
Fixpoint hex_n (n : nat) (z : Z) : string :=
  match n with
  | O => ""
  | S n' => hex_n n' (z / 16) +:+ str1 (hex_digit (z mod 16))
  end.

(** ** [strconv.Quote] *)

Definition isPrint `{GoStd} (r : Z) : bool :=
  if r <? 0x80 then (0x20 <=? r) && (r <=? 0x7e) else IsPrint r.

Definition quote_rune `{GoStd} (u : rune) : string :=
  match u with
  | BadByte b => "\x" +:+ hex_n 2 (byte_Z b)
  | Rune r enc =>
      if (r =? 34) || (r =? 92) then "\" +:+ of_bytes enc
      else if isPrint r then of_bytes enc
      else if r =? 7 then "\a" else if r =? 8 then "\b" else if r =? 12 then "\f"
      else if r =? 10 then "\n" else if r =? 13 then "\r" else if r =? 9 then "\t"
      else if r =? 11 then "\v"
      else if (r <? 32) || (r =? 127) then "\x" +:+ hex_n 2 r
      else if r <? 0x10000 then "\u" +:+ hex_n 4 r
      else "\U" +:+ hex_n 8 r
  end.

Definition DQUOTE : string := str1 (chr 34).

Definition Quote `{GoStd} (s : string) : string :=
  DQUOTE +:+ Join "" (map quote_rune (runes (to_bytes s))) +:+ DQUOTE.

(** ** [Duration.String] *)

(** The last [prec] decimal digits of [v] as a fraction without trailing zeros. *)
Fixpoint fmtFrac (prec : nat) (v : Z) (print : bool) (acc : string) : string :=
  match prec with
  | O => if print then String "." acc else acc
  | S p =>
      let d := v mod 10 in
      let print := print || negb (d =? 0) in
      fmtFrac p (v / 10) print (if print then String (digit_char d) acc else acc)
  end.

Definition fmtUnit (prec : nat) (u : Z) (unit : string) : string :=
  fmt_nat (u / 10 ^ Z.of_nat prec) +:+ fmtFrac prec u false unit.

Definition DurationString (d : Z) : string :=
  let u := Z.abs d in
  let s :=
    if u =? 0 then "0s"
    else if u <? Microsecond then fmtUnit 0 u "ns"
    else if u <? Millisecond then fmtUnit 3 u (str_of [0xC2; 0xB5; 115]%nat)
    else if u <? Second then fmtUnit 6 u "ms"
    else
      let secs := u / 1000000000 in
      let frac := fmtFrac 9 u false "s" in
      let s0 := fmt_nat (secs mod 60) +:+ frac in
      let mins := secs / 60 in
      if 0 <? mins then
        let s1 := fmt_nat (mins mod 60) +:+ "m" +:+ s0 in
        let hours := mins / 60 in
        if 0 <? hours then fmt_nat hours +:+ "h" +:+ s1 else s1
      else s0 in
  if d <? 0 then "-" +:+ s else s.

Example DurationString_ex1 : DurationString 1500000000 = "1.5s". Proof. reflexivity. Qed.
Example DurationString_ex2 : DurationString 10000000000 = "10s". Proof. reflexivity. Qed.
Example DurationString_ex3 : DurationString (90 * Minute) = "1h30m0s". Proof. reflexivity. Qed.
Example DurationString_ex4 : DurationString (-2500000) = "-2.5ms". Proof. reflexivity. Qed.

(** ** Errors *)

Inductive gerror :=
| New (text : string)
| Errorf (format : string) (args : list farg)
| NumError (func input : string) (e : numError)
| DurError (e : durError)
| CorruptInput (enc : Encoding) (input : string)
with farg :=
| AStr (s : string)
| AInt (z : Z)
| ADur (d : Z)
| AErr (e : gerror)
| ANilErr.

Definition badVerb (c : ascii) (what : string) : string :=
  "%!" +:+ str1 c +:+ "(" +:+ what +:+ ")".

Definition is_text_verb (c : ascii) : bool := contains_char c "svw".

(** [Sprintf f args], an argument being the function from its verb to its text. *)
Fixpoint Sprintf (f : string) (args : list (ascii → string)) : string :=
  match f with
  | "" => ""
  | String c f' =>
      match f' with
      | String v f'' =>
          if Ascii.eqb c "%" then
            if Ascii.eqb v "%" then String "%" (Sprintf f'' args)
            else match args with
                 | a :: args' => a v +:+ Sprintf f'' args'
                 | [] => "%!" +:+ str1 v +:+ "(MISSING)" +:+ Sprintf f'' []
                 end
          else String c (Sprintf f' args)
      | "" => if Ascii.eqb c "%" then "%!(NOVERB)" else str1 c
      end
  end.

(** The quoting of package [time], byte by byte. *)
Definition timeQuote (s : string) : string :=
  DQUOTE +:+ Join "" (map (λ b,
    let v := byte_Z b in
    if (0x80 <=? v) || (v <? 0x20) then "\x" +:+ hex_n 2 v
    else if (v =? 34) || (v =? 92) then "\" +:+ of_bytes [b]
    else of_bytes [b]) (to_bytes s)) +:+ DQUOTE.

(** The text of a [*durError]. *)
Definition durErrorText (e : durError) : string :=
  match e with
  | DurInvalid o => "time: invalid duration " +:+ timeQuote o
  | DurMissingUnit o => "time: missing unit in duration " +:+ timeQuote o
  | DurUnknownUnit u o =>
      "time: unknown unit " +:+ timeQuote u +:+ " in duration " +:+ timeQuote o
  end.

Section Errors.
Context `{GoStd}.

Definition verb_string (s : string) (c : ascii) : string :=
  if is_text_verb c then s else if Ascii.eqb c "q" then Quote s
  else badVerb c ("string=" +:+ s).
Definition verb_int (z : Z) (c : ascii) : string :=
  if contains_char c "dv" then Itoa z else badVerb c ("int=" +:+ Itoa z).
Definition verb_duration (d : Z) (c : ascii) : string :=
  if is_text_verb c then DurationString d else if Ascii.eqb c "d" then Itoa d
  else badVerb c ("time.Duration=" +:+ DurationString d).
Definition verb_nil (c : ascii) : string :=
  if Ascii.eqb c "v" then "<nil>" else badVerb c "<nil>".

(** [err.Error()] *)
Fixpoint Error (e : gerror) : string :=
  match e with
  | New t => t
  | Errorf f args =>
      Sprintf f (map (λ a,
        match a with
        | AStr s => verb_string s
        | AInt z => verb_int z
        | ADur d => verb_duration d
        | AErr e' => λ c, if is_text_verb c then Error e' else badVerb c (Error e')
        | ANilErr => verb_nil
        end) args)
  | NumError f i ErrSyntax => "strconv." +:+ f +:+ ": parsing " +:+ Quote i +:+ ": invalid syntax"
  | NumError f i ErrRange =>
      "strconv." +:+ f +:+ ": parsing " +:+ Quote i +:+ ": value out of range"
  | DurError e => durErrorText e
  | CorruptInput enc i => "illegal base64 data at input byte " +:+ Itoa (corruptOffset enc i)
  end.
End Errors.

(** [strconv.Atoi] and the like with their [*NumError]. *)
Definition numErr {A} (fn input : string) (m : outcome numError A) : outcome gerror A :=
  map_err (NumError fn input) m.
Definition AtoiE (s : string) : outcome gerror Z := numErr "Atoi" s (Atoi s).
Definition ParseIntE (s : string) : outcome gerror Z := numErr "ParseInt" s (ParseInt 64 s).
Definition ParseFloatE (s : string) : outcome gerror float64 :=
  numErr "ParseFloat" s (ParseFloat s).

(** A standard library whose tables are plain ASCII, on a machine whose float
    conversion saturates to the least integer, for the examples. *)
Definition ascii_std : GoStd :=
  {| IsPrint := λ _, false; corruptOffset := λ _ _, 0; floatOob := λ _, minInt64 |}.

(** ** [%.2f] of a [float64]: exact decimal, ties to even *)

Definition div_half_even (n d : Z) : Z :=
  let q := n / d in
  let r := n mod d in
  if 2 * r <? d then q else if d <? 2 * r then q + 1
  else if Z.even q then q else q + 1.

Definition scaled (x : float64) (k : Z) : Z :=
  match x with
  | S754_finite s m e =>
      let v := if 0 <=? e then Z.pos m * 2 ^ e * k else div_half_even (Z.pos m * k) (2 ^ (- e)) in
      if s then - v else v
  | _ => 0
  end.

Fixpoint pad_left (n : nat) (z : Z) : string :=
  match n with
  | O => ""
  | S n' => pad_left n' (z / 10) +:+ str1 (digit_char (z mod 10))
  end.

Definition float_sign (x : float64) : bool :=
  match x with
  | S754_zero s | S754_infinity s | S754_finite s _ _ => s
  | S754_nan => false
  end.

(** [fmt.Sprintf("%.<p>f", x)] *)
Definition FormatFixed (p : nat) (x : float64) : string :=
  match x with
  | S754_nan => "NaN"
  | S754_infinity false => "+Inf"
  | S754_infinity true => "-Inf"
  | _ =>
      let v := Z.abs (scaled x (10 ^ Z.of_nat p)) in
      (if float_sign x then "-" else "") +:+ fmt_nat (v / 10 ^ Z.of_nat p)
      +:+ (if (p =? 0)%nat then "" else "." +:+ pad_left p (v mod 10 ^ Z.of_nat p))
  end.

Example FormatFixed_ex : FormatFixed 2 (fmul (Seconds 1234567890) (of_Z 1000)) = "1234.57".
Proof. reflexivity. Qed.

Example Error_ex :
  Error (H := ascii_std) (Errorf "invalid status code: %d: %w" [AInt 7; AErr (New "x y")])
  = "invalid status code: 7: x y".
Proof. reflexivity. Qed.
