(* ===== verification/Json.v ===== *)
(** * Json: the output of [encoding/json] as [mustMarshalJSON] sets it up

    Values are trees whose object fields are in output order (struct order, or
    sorted keys for a map); [Encode] is [Encoder.Encode] with HTML escaping
    off and an indent of two spaces. *)

From S2P Require Import Prelude GoStrings GoNum Utf8 GoFmt.

Inductive json :=
| JNull
| JBool (b : bool)
| JInt (z : Z)
| JNum (text : string)          (* a decoded float64, by its text *)
| JStr (s : string)
| JArr (l : list json)
| JObj (fields : list (string * json)).

Definition json_rune (u : rune) : string :=
  match u with
  | BadByte _ => "\ufffd"
  | Rune r enc =>
      if (r =? 34) || (r =? 92) then "\" +:+ of_bytes enc
      else if r =? 8 then "\b" else if r =? 12 then "\f" else if r =? 10 then "\n"
      else if r =? 13 then "\r" else if r =? 9 then "\t"
      else if r <? 32 then "\u" +:+ hex_n 4 r
      else if (r =? 0x2028) || (r =? 0x2029) then "\u" +:+ hex_n 4 r
      else of_bytes enc
  end.

Definition json_string (s : string) : string :=
  DQUOTE +:+ Join "" (map json_rune (runes (to_bytes s))) +:+ DQUOTE.

Definition newline (depth : nat) : string :=
  str1 LF +:+ Join "" (repeat "  " depth).

Definition enclose (l r : string) (depth : nat) (items : list string) : string :=
  match items with
  | [] => l +:+ r
  | _ => l +:+ newline (S depth) +:+ Join ("," +:+ newline (S depth)) items
         +:+ newline depth +:+ r
  end.

Fixpoint render (depth : nat) (v : json) : string :=
  match v with
  | JNull => "null"
  | JBool true => "true"
  | JBool false => "false"
  | JInt z => Itoa z
  | JNum t => t
  | JStr s => json_string s
  | JArr l => enclose "[" "]" depth (map (render (S depth)) l)
  | JObj fs =>
      enclose "{" "}" depth
        (map (λ kv, json_string kv.1 +:+ ": " +:+ render (S depth) kv.2) fs)
  end.

Definition Encode (v : json) : string := render 0 v +:+ str1 LF.

(** [json.Marshal]: compact, with HTML escaping on. *)
Definition json_rune_html (u : rune) : string :=
  match u with
  | Rune r enc =>
      if (r =? 60) || (r =? 62) || (r =? 38) then "\u" +:+ hex_n 4 r else json_rune u
  | _ => json_rune u
  end.

Definition json_string_html (s : string) : string :=
  DQUOTE +:+ Join "" (map json_rune_html (runes (to_bytes s))) +:+ DQUOTE.

Fixpoint Marshal (v : json) : string :=
  match v with
  | JNull => "null"
  | JBool true => "true"
  | JBool false => "false"
  | JInt z => Itoa z
  | JNum t => t
  | JStr s => json_string_html s
  | JArr l => "[" +:+ Join "," (map Marshal l) +:+ "]"
  | JObj fs =>
      "{" +:+ Join "," (map (λ kv, json_string_html kv.1 +:+ ":" +:+ Marshal kv.2) fs) +:+ "}"
  end.

(** A map with string keys: sorted by key. *)
Definition key_le (x y : string) : Prop := String.leb x y = true.
#[export] Instance key_le_dec x y : Decision (key_le x y).
Proof. unfold key_le. apply _. Defined.
#[export] Instance key_le_total : Total key_le.
Proof. intros x y. apply String.leb_total. Qed.
#[export] Instance key_le_antisymm : AntiSymm (=) key_le.
Proof. intros x y. apply String.leb_antisym. Qed.
#[export] Instance key_le_trans : Transitive key_le.
Proof.
  unfold key_le, String.leb. intros x. induction x as [|a x IH]; intros [|b y] [|c z]; try done.
  cbn [String.compare]. unfold Ascii.compare. specialize (IH y z).
  destruct (N.compare_spec (Ascii.N_of_ascii a) (Ascii.N_of_ascii b)) as [E1|E1|E1];
    destruct (N.compare_spec (Ascii.N_of_ascii b) (Ascii.N_of_ascii c)) as [E2|E2|E2]; try done;
    destruct (N.compare_spec (Ascii.N_of_ascii a) (Ascii.N_of_ascii c)) as [E3|E3|E3];
    solve [done|exact IH|lia].
Qed.

Definition sorted_keys {A} (m : gmap string A) : list string :=
  merge_sort key_le (map fst (map_to_list m)).

Definition json_map {A} (f : A → json) (m : gmap string A) : json :=
  JObj (omap (λ k, v ← m !! k; mret (k, f v)) (sorted_keys m)).

Example Json_Encode_ex :
  Encode (JObj [("a", JArr [JInt 1; JBool true]); ("b", JStr "x"); ("c", JObj [])])
  = Join (str1 LF) ["{"; "  " +:+ DQUOTE +:+ "a" +:+ DQUOTE +:+ ": ["; "    1,"; "    true"; "  ],";
      "  " +:+ DQUOTE +:+ "b" +:+ DQUOTE +:+ ": " +:+ DQUOTE +:+ "x" +:+ DQUOTE +:+ ",";
      "  " +:+ DQUOTE +:+ "c" +:+ DQUOTE +:+ ": {}"; "}"; ""].
Proof. vm_compute. reflexivity. Qed.

(** ** Reading the output

    A client's reader of strings, arrays and objects, by the grammar of RFC 8259: enough
    for the fields of an answer before a field that is looked up. *)

(** The UTF-8 encoding of a code point of the basic plane. *)
Definition utf8_encode (r : Z) : list byte :=
  if r <? 0x80 then [Z_byte r]
  else if r <? 0x800 then [Z_byte (0xC0 + r / 64); Z_byte (0x80 + r mod 64)]
  else [Z_byte (0xE0 + r / 4096); Z_byte (0x80 + r / 64 mod 64); Z_byte (0x80 + r mod 64)].

Definition hex4 (a b c d : ascii) : option Z :=
  a ← hex_val a; b ← hex_val b; c ← hex_val c; d ← hex_val d;
  Some (((a * 16 + b) * 16 + c) * 16 + d).

(** The character after a backslash. *)
Definition unescape_char (c : ascii) : option ascii :=
  let n := code c in
  if (n =? 34) || (n =? 92) || (n =? 47) then Some c
  else if n =? 98 then Some (chr 8) else if n =? 102 then Some (chr 12) else if n =? 110 then Some (chr 10)
  else if n =? 114 then Some (chr 13) else if n =? 116 then Some (chr 9) else None.

Definition prepend (t : string) (r : option (string * string)) : option (string * string) :=
  '(u, k) ← r; Some (t +:+ u, k).

(** A string after its first quote: its bytes and what follows the last quote. *)
Fixpoint read_string (s : string) : option (string * string) :=
  match s with
  | "" => None
  | String c s1 =>
      if code c =? 34 then Some ("", s1)
      else if code c =? 92 then
        match s1 with
        | String d s2 =>
            if code d =? 117 then
              match s2 with
              | String x1 (String x2 (String x3 (String x4 s3))) =>
                  r ← hex4 x1 x2 x3 x4; prepend (of_bytes (utf8_encode r)) (read_string s3)
              | _ => None
              end
            else x ← unescape_char d; prepend (str1 x) (read_string s2)
        | "" => None
        end
      else if code c <? 32 then None
      else prepend (str1 c) (read_string s1)
  end.

Fixpoint skip_space (s : string) : string :=
  match s with
  | String c s' => if bool_decide (code c ∈ [32; 9; 10; 13]) then skip_space s' else s
  | "" => ""
  end.

(** [item], [,], ..., up to the closing character. *)
Fixpoint read_items {A} (item : string → option (A * string)) (close : ascii) (fuel : nat) (s : string)
    : option (list A * string) :=
  match fuel with
  | O => None
  | S n =>
      '(x, s) ← item (skip_space s);
      match skip_space s with
      | String c s =>
          if Ascii.eqb c close then Some ([x], s)
          else if Ascii.eqb c "," then '(xs, s) ← read_items item close n s; Some (x :: xs, s) else None
      | "" => None
      end
  end.
Definition read_list {A} (item : string → option (A * string)) (close : ascii) (s : string)
    : option (list A * string) :=
  match skip_space s with
  | String c s' => if Ascii.eqb c close then Some ([], s') else read_items item close (S (String.length s)) s
  | "" => None
  end.

(** The name of a field, the colon and its value. *)
Definition read_field {A} (value : string → option (A * string)) (s : string) : option (string * A * string) :=
  match s with
  | String c s =>
      if code c =? 34 then
        '(name, s) ← read_string s;
        match skip_space s with
        | String c s => if Ascii.eqb c ":" then '(v, s) ← value (skip_space s); Some (name, v, s) else None
        | "" => None
        end
      else None
  | "" => None
  end.

(** A value that is nested in at most [depth] others. *)
Fixpoint read_value (depth : nat) (s : string) : option (json * string) :=
  match depth, s with
  | S d, String c s =>
      if code c =? 34 then '(t, k) ← read_string s; Some (JStr t, k)
      else if Ascii.eqb c "[" then '(l, k) ← read_list (read_value d) "]" s; Some (JArr l, k)
      else if Ascii.eqb c "{" then '(l, k) ← read_list (read_field (read_value d)) "}" s; Some (JObj l, k)
      else None
  | _, _ => None
  end.

(** The value of the first field [name] of an object: what comes after it is not read. *)
Fixpoint find_field (fuel : nat) (name s : string) : option json :=
  match fuel with
  | O => None
  | S n =>
      '(field, v, s) ← read_field (read_value 100) (skip_space s);
      if String.eqb field name then Some v
      else match skip_space s with
           | String c s => if Ascii.eqb c "," then find_field n name s else None
           | "" => None
           end
  end.
Definition field_of (name text : string) : option json :=
  match skip_space text with
  | String c s => if Ascii.eqb c "{" then find_field (String.length text) name s else None
  | "" => None
  end.

(** Bytes that are not UTF-8 do not survive: each is read as U+FFFD. *)
Definition rune_text (u : rune) : string :=
  match u with Rune _ enc => of_bytes enc | BadByte _ => of_bytes [xef; xbf; xbd] end.
Definition replaced (s : string) : string := Join "" (map rune_text (runes (to_bytes s))).

Example field_of_ex :
  field_of "b" (Encode (JObj [("a", JArr [JStr (str1 LF); JObj [("c", JStr DQUOTE)]]); ("b", JStr "x\y"); ("c", JNull)]))
  = Some (JStr "x\y").
Proof. vm_compute. reflexivity. Qed.

(** *** What is read is what was written *)

Definition rune_wf (u : rune) : Prop :=
  match u with
  | BadByte _ => True
  | Rune r enc =>
      (∃ b, enc = [b] ∧ r = byte_Z b ∧ r < 0x80) ∨
      (0x80 ≤ r ∧ Forall (λ b, 0x80 ≤ byte_Z b) enc ∧ (r = 0x2028 ∨ r = 0x2029 → enc = utf8_encode r))
  end.

Lemma in_range_iff b lo hi : in_range b lo hi = true ↔ lo ≤ byte_Z b ≤ hi.
Proof. unfold in_range. rewrite andb_true_iff, !Z.leb_le. done. Qed.

Lemma accept3_range b0 b1 :
  accept3 b0 b1 = true → 0x80 ≤ byte_Z b1 ≤ 0xBF ∧ (byte_Z b0 = 0xE0 → 0xA0 ≤ byte_Z b1).
Proof.
  unfold accept3, is_cont. destruct (byte_Z b0 =? 0xE0) eqn:E; [|destruct (byte_Z b0 =? 0xED)];
    rewrite in_range_iff; reflect_bools; lia.
Qed.
Lemma accept4_range b0 b1 :
  accept4 b0 b1 = true → 0x80 ≤ byte_Z b1 ≤ 0xBF ∧ (byte_Z b0 = 0xF0 → 0x90 ≤ byte_Z b1).
Proof.
  unfold accept4, is_cont. destruct (byte_Z b0 =? 0xF0) eqn:E; [|destruct (byte_Z b0 =? 0xF4)];
    rewrite in_range_iff; reflect_bools; lia.
Qed.

Lemma list_len_ind {A} (P : list A → Prop) :
  (∀ l, (∀ k, (length k < length l)%nat → P k) → P l) → ∀ l, P l.
Proof. intros Hi l. apply (induction_ltof1 _ (@length A)). exact Hi. Qed.

(** Split the test of a condition of [runes], with what it says of the bytes. *)
Ltac rune_test :=
  match goal with
  | |- context [if ?c then _ else _] => destruct c eqn:?
  end; repeat match goal with
  | E : _ && _ = true |- _ => apply andb_true_iff in E as [? ?]
  | E : in_range _ _ _ = true |- _ => rewrite in_range_iff in E
  | E : is_cont _ = true |- _ => unfold is_cont in E
  | E : accept3 _ _ = true |- _ => apply accept3_range in E as [? ?]
  | E : accept4 _ _ = true |- _ => apply accept4_range in E as [? ?]
  | E : (_ <? _) = _ |- _ => progress reflect_bools
  end.

Lemma byte_eq b z : byte_Z b = z → b = Z_byte z.
Proof. intros <-. symmetry. apply Z_byte_Z. Qed.

Lemma runes_wf l : Forall rune_wf (runes l).
Proof.
  induction l as [[|b0 l] IH] using list_len_ind; [constructor|]. cbn [runes].
  assert (∀ k, (length k ≤ length l)%nat → Forall rune_wf (runes k)) as Hk by (intros k Hk; apply IH; cbn; lia).
  rune_test; [|rune_test; [|rune_test; [|rune_test]]].
  1: { constructor; [left; by exists b0|by apply Hk]. }
  4: by constructor; [|apply Hk].
  all: destruct l as [|b1 l]; [by constructor; [|apply Hk]|].
  2,3: destruct l as [|b2 l]; [by constructor; [|apply Hk]|].
  3: destruct l as [|b3 l]; [by constructor; [|apply Hk]|].
  all: rune_test; constructor; [right|apply Hk; cbn; lia|done|by apply Hk].
  - split; [lia|]. split; [repeat constructor; lia|]. lia.
  - split; [lia|]. split; [repeat constructor; lia|].
    intros [Hr|Hr]; rewrite Hr, (byte_eq b0 0xE2), (byte_eq b1 0x80) by lia;
      [rewrite (byte_eq b2 0xA8) by lia|rewrite (byte_eq b2 0xA9) by lia]; reflexivity.
  - split; [lia|]. split; [repeat constructor; lia|]. lia.
Qed.

(** Valid text is read as it is. *)
Lemma rune_texts_valid l :
  utf8_Valid l = true → Join "" (map rune_text (runes l)) = of_bytes l.
Proof.
  induction l as [[|b0 l] IH] using list_len_ind; [done|]. cbn [runes utf8_Valid].
  assert (∀ m k, (length k ≤ length l)%nat → l = m ++ k → utf8_Valid k = true →
    Join "" (map rune_text (Rune 0 (b0 :: m) :: runes k)) = of_bytes (b0 :: l)) as Hk.
  { intros m k Hlen -> Hv. cbn [map rune_text]. rewrite Join_empty_cons, IH by (cbn; first [done|lia]).
    by rewrite <- of_bytes_app. }
  rune_test; [|rune_test; [|rune_test; [|rune_test; [|done]]]].
  1: { by apply (Hk []). }
  all: destruct l as [|b1 l]; [done|].
  2,3: destruct l as [|b2 l]; [done|].
  3: destruct l as [|b3 l]; [done|].
  all: intros Hv; repeat match type of Hv with _ && _ = true => apply andb_true_iff in Hv as [? Hv] end.
  all: repeat match goal with E : ?c = true |- _ => rewrite E; clear E end; cbn [andb].
  - apply (Hk [b1]); [cbn; lia|done|done].
  - apply (Hk [b1; b2]); [cbn; lia|done|done].
  - apply (Hk [b1; b2; b3]); [cbn; lia|done|done].
Qed.

(** A text that starts with ASCII is read apart from what stands before it. *)
Lemma runes_app_ascii l a k :
  byte_Z a < 0x80 → runes (l ++ a :: k) = runes l ++ runes (a :: k).
Proof.
  intros Ha. remember (a :: k) as t eqn:Et.
  induction l as [[|b0 l] IH] using list_len_ind; [done|].
  assert (∀ j, (length j ≤ length l)%nat → runes (j ++ t) = runes j ++ runes t) as Hj
    by (intros j Hlen; apply IH; cbn; lia).
  assert (∀ b, (is_cont a, accept3 b a, accept4 b a) = (false, false, false)) as Hc.
  { intros b. unfold accept3, accept4, is_cont, in_range.
    assert ((0x80 <=? byte_Z a, 0xA0 <=? byte_Z a, 0x90 <=? byte_Z a) = (false, false, false)) as [= -> -> ->]
      by (by ztest).
    destruct (byte_Z b =? 0xE0), (byte_Z b =? 0xED), (byte_Z b =? 0xF0), (byte_Z b =? 0xF4); done. }
  cbn [app runes]. rune_test; [|rune_test; [|rune_test; [|rune_test]]].
  1,5: by cbn [app]; rewrite Hj.
  all: specialize (Hc b0); injection Hc as Hc2 Hc3 Hc4.
  all: destruct l as [|b1 l]; cbn [app];
    [rewrite Et; cbv beta iota; rewrite ?Hc2, ?Hc3, ?Hc4; cbn [andb]; rewrite <- Et; repeat case_match; done|].
  2,3: destruct l as [|b2 l]; cbn [app];
    [rewrite Et; cbv beta iota; rewrite ?Hc2, ?andb_false_r; cbn [andb]; rewrite <- Et;
     pose proof (Hj [b1] ltac:(cbn; lia)) as E1; cbn [app] in E1; repeat case_match; cbn [app]; by rewrite <- ?E1|].
  3: destruct l as [|b3 l]; cbn [app];
    [rewrite Et; cbv beta iota; rewrite ?Hc2, ?andb_false_r; cbn [andb]; rewrite <- Et;
     pose proof (Hj [b1; b2] ltac:(cbn; lia)) as E1; cbn [app] in E1; repeat case_match; cbn [app]; by rewrite <- ?E1|].
  - rune_test; cbn [app]; f_equal; [apply (Hj l)|apply (Hj (b1 :: l))]; cbn; lia.
  - rune_test; cbn [app]; f_equal; [apply (Hj l)|apply (Hj (b1 :: b2 :: l))]; cbn; lia.
  - rune_test; cbn [app]; f_equal; [apply (Hj l)|apply (Hj (b1 :: b2 :: b3 :: l))]; cbn; lia.
Qed.

Lemma replaced_valid s : utf8_Valid (to_bytes s) = true → replaced s = s.
Proof. intros Hv. unfold replaced. by rewrite rune_texts_valid, of_to_bytes. Qed.

Lemma code_byte b : code (ascii_of_byte b) = byte_Z b.
Proof. by destruct b. Qed.
Lemma byte_code c : byte_Z (byte_of_ascii c) = code c.
Proof. rewrite <- code_byte. by rewrite ascii_of_byte_of_ascii. Qed.

Lemma replaced_app s c t :
  code c < 0x80 → replaced (s +:+ String c t) = replaced s +:+ replaced (String c t).
Proof.
  intros Hc. unfold replaced. rewrite to_bytes_app, to_bytes_cons, runes_app_ascii by (by rewrite byte_code).
  by rewrite map_app, Join_empty_app.
Qed.

Lemma replaced_cons c t : code c < 0x80 → replaced (String c t) = String c (replaced t).
Proof.
  intros Hc. unfold replaced. rewrite to_bytes_cons. cbn [runes]. rewrite byte_code. ztest.
  cbn [map rune_text]. rewrite Join_empty_cons. cbn. by rewrite ascii_of_byte_of_ascii.
Qed.

(** Reading a string. *)
Lemma read_plain l k r :
  Forall (λ b, 0x80 ≤ byte_Z b) l → read_string k = Some r →
  read_string (of_bytes l +:+ k) = prepend (of_bytes l) (Some r).
Proof.
  intros Hl Hk. induction Hl as [|b l Hb _ IH]; [by change (of_bytes [] +:+ k) with k; rewrite Hk; destruct r|].
  change (of_bytes (b :: l) +:+ k) with (String (ascii_of_byte b) (of_bytes l +:+ k)). cbn [read_string].
  rewrite code_byte. ztest. rewrite IH. by destruct r.
Qed.

Lemma read_rune u k r :
  rune_wf u → read_string k = Some r → read_string (json_rune u +:+ k) = prepend (rune_text u) (Some r).
Proof.
  intros Hu Hk. destruct u as [c enc|b]; [|cbn -[prepend]; by rewrite Hk].
  destruct Hu as [(b & -> & -> & Hb)|(Hc & Henc & Hls)].
  - revert Hb. destruct b; intros Hb; try (exfalso; revert Hb; by apply Z.le_ngt);
      cbn -[prepend]; by rewrite Hk.
  - unfold json_rune. ztest. destruct ((c =? 0x2028) || (c =? 0x2029)) eqn:E.
    + apply orb_true_iff in E as [E|E]; reflect_bools; subst c; rewrite Hls by auto;
        cbn -[prepend]; by rewrite Hk.
    + by apply read_plain.
Qed.

Lemma read_json_string s k :
  read_string (Join "" (map json_rune (runes (to_bytes s))) +:+ DQUOTE +:+ k) = Some (replaced s, k).
Proof.
  unfold replaced. pose proof (runes_wf (to_bytes s)) as Hw. induction Hw as [|u l Hu _ IH]; [done|].
  cbn [map]. rewrite !Join_empty_cons, <- sapp_assoc. by rewrite (read_rune _ _ _ Hu IH).
Qed.

Lemma skip_newline d s : skip_space (newline d +:+ s) = skip_space s.
Proof.
  unfold newline. change (skip_space ((str1 LF +:+ ?t) +:+ s)) with (skip_space (t +:+ s)).
  induction d as [|d IH]; [done|]. cbn [repeat]. rewrite Join_empty_cons, <- sapp_assoc. exact IH.
Qed.

(** How the text of a value begins. *)
Definition opening (t : string) : Prop := ∃ c t', t = String c t' ∧ code c ∈ [34; 91; 123].

Lemma opening_skip t k : opening t → skip_space (t +:+ k) = t +:+ k.
Proof.
  intros (c & t' & -> & Hc). change (String c t' +:+ k) with (String c (t' +:+ k)). cbn [skip_space].
  rewrite bool_decide_false; [done|]. rewrite !elem_of_cons, elem_of_nil in *. lia.
Qed.

Section Lists.
Context {A : Type} (item : string → option (A * string)) (close : ascii) (Hclose : code close ∈ [93; 125]).

Definition item_reads (p : string * A) : Prop :=
  opening p.1 ∧ ∀ k, item (p.1 +:+ k) = Some (p.2, k).

Lemma close_plain k : skip_space (String close k) = String close k.
Proof. cbn [skip_space]. rewrite bool_decide_false; [done|]. rewrite !elem_of_cons, elem_of_nil in *. lia. Qed.

Lemma close_differs c : code c ∉ [93; 125] → Ascii.eqb c close = false.
Proof. intros Hc. apply Ascii.eqb_neq. intros ->. by apply Hc. Qed.

Lemma read_items_texts d d' l n k :
  Forall item_reads l → l ≠ [] → (length l ≤ n)%nat →
  read_items item close n (newline d +:+ Join ("," +:+ newline d) (map fst l) +:+ newline d' +:+ String close k)
  = Some (map snd l, k).
Proof.
  intros Hl. revert n. induction Hl as [|[t a] l [Ht Hi] Hl IH]; intros n Hne Hn; [done|].
  destruct n as [|n]; [cbn in Hn; lia|]. cbn [read_items]. rewrite skip_newline. cbn [fst snd] in *. destruct l as [|p l].
  - cbn [map Join String.concat fst]. rewrite opening_skip, Hi by done. cbn [mbind option_bind].
    rewrite skip_newline, close_plain. by rewrite Ascii.eqb_refl.
  - cbn [map fst]. rewrite Join_cons, <- sapp_assoc, opening_skip, Hi by done. cbn [mbind option_bind].
    change (fst p :: map fst l) with (map fst (p :: l)). remember ("," +:+ newline d) as sep eqn:Es.
    rewrite <- !sapp_assoc. rewrite Es at 1. rewrite <- sapp_assoc.
    change ("," +:+ newline d +:+ ?x) with (String "," (newline d +:+ x)).
    change (skip_space (String "," ?x)) with (String "," x). cbv iota beta.
    rewrite close_differs by (rewrite !elem_of_cons, elem_of_nil; vm_compute; intuition discriminate).
    cbn [Ascii.eqb Bool.eqb]. rewrite IH; [done|done|cbn in *; lia].
Qed.

Lemma Join_length_ge sep l : sep ≠ "" → (length l ≤ S (String.length (Join sep l)))%nat.
Proof.
  intros Hs. induction l as [|x [|y l] IH]; [cbn; lia..|]. rewrite Join_cons, !slength_app.
  cbn [length] in *. destruct sep; [done|]. cbn [String.length]. lia.
Qed.

Lemma read_list_texts open d l k :
  Forall item_reads l →
  ∃ rest, enclose (str1 open) (str1 close) d (map fst l) +:+ k = String open rest ∧
    read_list item close rest = Some (map snd l, k).
Proof.
  intros Hl. destruct l as [|p l].
  { exists (String close k). split; [done|]. unfold read_list. by rewrite close_plain, Ascii.eqb_refl. }
  eexists. split.
  { unfold enclose. cbn [map]. rewrite <- !sapp_assoc. reflexivity. }
  change (fst p :: map fst l) with (map fst (p :: l)). change (str1 close +:+ k) with (String close k).
  unfold read_list. rewrite read_items_texts; [|done|done|].
  - rewrite skip_newline. inversion Hl as [|? ? [(c & t & Ep & Hc) _] _]; subst.
    pose proof (opening_skip (fst p)) as Ho. cbn [map].
    destruct l as [|q l]; cbn [map]; [|rewrite Join_cons, <- sapp_assoc]; cbn [Join String.concat];
      rewrite Ho by (by exists c, t); rewrite Ep; cbn [String.append];
      rewrite close_differs; [done| |done|]; revert Hc; rewrite !elem_of_cons, elem_of_nil; lia.
  - rewrite !slength_app. pose proof (Join_length_ge ("," +:+ newline (S d)) (map fst (p :: l)) ltac:(done)) as Hg.
    rewrite length_map in Hg. lia.
Qed.
End Lists.

(** [v] is read as [w], at any depth of the output, when [n] levels can be read. *)
Definition read_as (n : nat) (v w : json) : Prop :=
  ∀ d, opening (render d v) ∧ ∀ k, read_value n (render d v +:+ k) = Some (w, k).

Lemma reads_str n s : read_as (S n) (JStr s) (JStr (replaced s)).
Proof.
  intros d. split; [eexists _, _; split; [reflexivity|by left]|]. intros k. cbn [render]. unfold json_string.
  rewrite <- !sapp_assoc. change (DQUOTE +:+ ?x) with (String (chr 34) x) at 1. cbn [read_value].
  change (code (chr 34) =? 34) with true. cbn iota. by rewrite read_json_string.
Qed.

Lemma Forall2_pairs {A B C} (P : A → B → Prop) (f : A → C) (Q : C * B → Prop) l l' :
  Forall2 P l l' → (∀ a b, P a b → Q (f a, b)) → ∃ ps, map fst ps = map f l ∧ map snd ps = l' ∧ Forall Q ps.
Proof.
  intros Hl Hq. exists (zip (map f l) l'). induction Hl as [|a b l l' Hab _ (E1 & E2 & Hf)]; [done|].
  cbn. rewrite E1, E2. split; [done|]. split; [done|]. constructor; auto.
Qed.

Lemma reads_arr n l l' : Forall2 (read_as n) l l' → read_as (S n) (JArr l) (JArr l').
Proof.
  intros Hl d. cbn [render]. split.
  { destruct l; eexists _, _; (split; [reflexivity|by right; left]). }
  intros k. destruct (Forall2_pairs (read_as n) (render (S d)) (item_reads (read_value n)) l l' Hl)
    as (ps & <- & <- & Hps); [intros a b Hab; apply (Hab (S d))|].
  destruct (read_list_texts (read_value n) "]" ltac:(by left) "[" d ps k Hps) as (rest & E & Hr).
  unfold str1 in E. rewrite E. cbn [read_value]. change (code "[" =? 34) with false. cbn. by rewrite Hr.
Qed.

Definition field_text (d : nat) (kv : string * json) : string := json_string kv.1 +:+ ": " +:+ render d kv.2.
Definition field_reads (n : nat) (kv kw : string * json) : Prop := kw.1 = replaced kv.1 ∧ read_as n kv.2 kw.2.

Lemma read_field_text n d kv kw k :
  field_reads n kv kw → read_field (read_value n) (field_text d kv +:+ k) = Some (kw, k).
Proof.
  destruct kw as [name w]. intros [E Hv]. cbn in E. subst name. destruct (Hv d) as [Ho Hr]. unfold field_text, json_string.
  rewrite <- !sapp_assoc. change (DQUOTE +:+ ?x) with (String (chr 34) x) at 1. cbn [read_field].
  change (code (chr 34) =? 34) with true. cbn iota. rewrite read_json_string. cbn [mbind option_bind].
  change (": " +:+ ?x) with (String ":" (" " +:+ x)). change (skip_space (String ":" ?x)) with (String ":" x).
  cbn [Ascii.eqb Bool.eqb]. change (skip_space (" " +:+ ?x)) with (skip_space x). by rewrite opening_skip, Hr.
Qed.

Lemma opening_field d kv : opening (field_text d kv).
Proof. eexists _, _. split; [reflexivity|by left]. Qed.

Lemma reads_obj n fs fs' : Forall2 (field_reads n) fs fs' → read_as (S n) (JObj fs) (JObj fs').
Proof.
  intros Hl d. cbn [render]. change (λ kv, json_string kv.1 +:+ ": " +:+ render (S d) kv.2) with (field_text (S d)). split.
  { destruct fs; eexists _, _; (split; [reflexivity|by right; right; left]). }
  intros k. destruct (Forall2_pairs (field_reads n) (field_text (S d)) (item_reads (read_field (read_value n))) fs fs' Hl)
    as (ps & <- & <- & Hps).
  { intros a b Hab. split; [apply opening_field|]. intros k'. by apply read_field_text. }
  destruct (read_list_texts (read_field (read_value n)) "}" ltac:(by right; left) "{" d ps k Hps) as (rest & E & Hr).
  unfold str1 in E. rewrite E. cbn [read_value]. change (code "{" =? 34) with false. cbn. by rewrite Hr.
Qed.

Lemma Join_head sep x l : ∃ t, Join sep (x :: l) = x +:+ t.
Proof. destruct l as [|y l]; [exists ""; by rewrite sapp_nil_r|]. rewrite Join_cons. by eexists. Qed.

Lemma find_field_texts n d d' before kw name v w after k :
  Forall2 (field_reads 100) before kw → Forall (λ p, p.1 ≠ name) kw → field_reads 100 (name, v) (name, w) →
  (length before < n)%nat →
  find_field n name (newline d' +:+ Join ("," +:+ newline d') (map (field_text d) (before ++ (name, v) :: after)) +:+ k)
  = Some w.
Proof.
  intros Hb. revert n. induction Hb as [|a b before kw Hab _ IH]; intros n Hkw Hv Hn;
    (destruct n as [|n]; [cbn in Hn; lia|]); cbn [app map find_field].
  - destruct (Join_head ("," +:+ newline d') (field_text d (name, v)) (map (field_text d) after)) as [t ->].
    rewrite skip_newline, <- sapp_assoc, opening_skip by apply opening_field.
    rewrite (read_field_text 100 d (name, v) (name, w)) by done. cbn. by rewrite String.eqb_refl.
  - apply Forall_cons in Hkw as [Hne Hkw].
    destruct (before ++ (name, v) :: after) as [|y l] eqn:Eb; [by destruct before|]. cbn [map]. rewrite Join_cons.
    change (field_text d y :: map (field_text d) l) with (map (field_text d) (y :: l)) in *.
    rewrite skip_newline. remember ("," +:+ newline d') as sep eqn:Es.
    rewrite <- !sapp_assoc, opening_skip by apply opening_field.
    rewrite (read_field_text 100 d a b) by done. destruct b as [bn bw]. cbn [mbind option_bind fst] in *.
    apply String.eqb_neq in Hne. rewrite Hne, Es at 1. rewrite <- sapp_assoc.
    change ("," +:+ newline d' +:+ ?x) with (String "," (newline d' +:+ x)).
    change (skip_space (String "," ?x)) with (String "," x). cbn [Ascii.eqb Bool.eqb].
    apply IH; [done|done|cbn in Hn; lia].
Qed.

(** A client finds a field of an object that is encoded, after fields that it can read. *)
Lemma field_of_Encode before kw name v w after :
  Forall2 (field_reads 100) before kw → Forall (λ p, p.1 ≠ name) kw → field_reads 100 (name, v) (name, w) →
  field_of name (Encode (JObj (before ++ (name, v) :: after))) = Some w.
Proof.
  intros Hb Hkw Hv. unfold field_of, Encode. cbn [render].
  change (λ kv, json_string kv.1 +:+ ": " +:+ render 1 kv.2) with (field_text 1). unfold enclose.
  destruct (map (field_text 1) (before ++ (name, v) :: after)) as [|x l] eqn:Em; [by destruct before|].
  rewrite <- Em. clear Em. set (texts := map _ _).
  change (("{" +:+ ?x) +:+ ?y) with (String "{" (x +:+ y)). change (skip_space (String "{" ?x)) with (String "{" x).
  cbn [Ascii.eqb Bool.eqb]. rewrite <- !sapp_assoc. apply (find_field_texts _ _ 1 before kw name v w after); [done..|].
  change (String.length (String "{" ?x)) with (S (String.length x)). rewrite !slength_app.
  pose proof (Join_length_ge ("," +:+ newline 1) texts ltac:(done)) as Hg.
  unfold texts in Hg at 1. rewrite length_map, length_app in Hg. cbn [length] in Hg.
  fold texts. lia.
Qed.
