(* ===== verification/GoURL.v ===== *)
(** * GoURL: query strings and URLs of [net/url]

    [Values] are maps from keys to the list of their values.  [ParseQuery] is
    what [u.Query()] returns (malformed pairs are dropped); [Values_Encode] writes
    the keys in order.  [Url] has the fields [getURL] copies. *)

From S2P Require Import Prelude GoStrings GoNum GoFmt Json.

(** ** Percent encoding *)

Inductive encoding := encodePath | encodeHost | encodeUserPassword | encodeQueryComponent
  | encodeFragment.

Definition is_alnum (c : ascii) : bool :=
  let n := code c in
  ((48 <=? n) && (n <=? 57)) || ((65 <=? n) && (n <=? 90)) || ((97 <=? n) && (n <=? 122)).

Definition host_plain : string := "!$&'()*+,;=:[]<>" +:+ str1 (chr 34).

Definition shouldEscape (c : ascii) (mode : encoding) : bool :=
  if is_alnum c then false
  else if match mode with encodeHost => contains_char c host_plain | _ => false end then false
  else if contains_char c "-_.~" then false
  else if contains_char c "$&+,/:;=?@" then
    match mode with
    | encodePath => Ascii.eqb c "?"
    | encodeUserPassword => contains_char c "@/?:"
    | encodeQueryComponent => true
    | encodeFragment => false
    | encodeHost => true
    end
  else match mode with encodeFragment => negb (contains_char c "!()*") | _ => true end.

Definition upper_hex (d : Z) : ascii :=
  if d <? 10 then chr (Z.to_nat (48 + d)) else chr (Z.to_nat (55 + d)).

Fixpoint escape (s : string) (mode : encoding) : string :=
  match s with
  | "" => ""
  | String c s' =>
      if shouldEscape c mode then
        match mode with
        | encodeQueryComponent =>
            if Ascii.eqb c " " then String "+" (escape s' mode)
            else String "%" (String (upper_hex (code c / 16))
                   (String (upper_hex (code c mod 16)) (escape s' mode)))
        | _ => String "%" (String (upper_hex (code c / 16))
                 (String (upper_hex (code c mod 16)) (escape s' mode)))
        end
      else String c (escape s' mode)
  end.

(** [unescape] for the modes without restrictions on the plain bytes; [plus] is
    for query components.  [None] is an [EscapeError]. *)
Fixpoint unescape (plus : bool) (s : string) : option string :=
  match s with
  | "" => Some ""
  | String c s' =>
      if Ascii.eqb c "%" then
        match s' with
        | String a (String b s'') =>
            match hex_val a, hex_val b with
            | Some x, Some y =>
                r ← unescape plus s''; Some (String (chr (Z.to_nat (x * 16 + y))) r)
            | _, _ => None
            end
        | _ => None
        end
      else r ← unescape plus s';
           Some (String (if plus && Ascii.eqb c "+" then " "%char else c) r)
  end.

Definition QueryEscape (s : string) : string := escape s encodeQueryComponent.
Definition QueryUnescape (s : string) : option string := unescape true s.

(** ** Values *)

Abbreviation values := (gmap string (list string)).

Definition Values_Get (k : string) (v : values) : string :=
  match v !! k with Some (x :: _) => x | _ => "" end.

Definition Values_Set (k x : string) (v : values) : values := <[k := [x]]> v.
Definition Values_Add (k x : string) (v : values) : values :=
  <[k := default [] (v !! k) ++ [x]]> v.

Definition parse_pair (m : values) (piece : string) : values :=
  if contains_char ";" piece then m
  else if String.eqb piece "" then m
  else
    let '(k, x, _) := Cut "=" piece in
    match QueryUnescape k, QueryUnescape x with
    | Some k', Some x' => Values_Add k' x' m
    | _, _ => m
    end.

Definition ParseQuery (q : string) : values := fold_left parse_pair (Split "&" q) ∅.

(** The first escape that does not decode, as [EscapeError] shows it. *)
Fixpoint bad_escape (s : string) : string :=
  match s with
  | "" => ""
  | String c s' =>
      if Ascii.eqb c "%" then
        match s' with
        | String a (String b s'') =>
            match hex_val a, hex_val b with
            | Some _, Some _ => bad_escape s''
            | _, _ => stake 3 s
            end
        | _ => s
        end
      else bad_escape s'
  end.
Definition EscapeError (s : string) : gerror := Errorf "invalid URL escape %q" [AStr (bad_escape s)].

(** The error that [url.ParseQuery] returns: the last complaint about a semicolon, or
    else the first escape that does not decode. *)
Definition pair_error (err : option gerror) (piece : string) : option gerror :=
  if contains_char ";" piece then Some (New "invalid semicolon separator in query")
  else if String.eqb piece "" then err
  else
    let '(k, x, _) := Cut "=" piece in
    match err, QueryUnescape k, QueryUnescape x with
    | None, None, _ => Some (EscapeError k)
    | None, _, None => Some (EscapeError x)
    | _, _, _ => err
    end.
Definition ParseQuery_error (q : string) : option gerror := fold_left pair_error (Split "&" q) None.

Definition encode_pairs (k : string) (xs : list string) : list string :=
  map (λ x, QueryEscape k +:+ "=" +:+ QueryEscape x) xs.

Definition Values_Encode (v : values) : string :=
  Join "&" (concat (map (λ k, encode_pairs k (default [] (v !! k))) (sorted_keys v))).

(** ** URLs *)

Record Url := MkUrl {
  Scheme : string;
  Opaque : string;
  User : option string;        (* the encoded user information *)
  UHost : string;
  Path : string;
  RawPath : string;
  ForceQuery : bool;
  RawQuery : string;
  Fragment : string;
  RawFragment : string;
  OmitHost : bool;             (* no empty host, as in scheme:/path *)
}.

Definition Query (u : Url) : values := ParseQuery (RawQuery u).

Definition set_Path (p : string) (u : Url) : Url :=
  MkUrl (Scheme u) (Opaque u) (User u) (UHost u) p (RawPath u) (ForceQuery u) (RawQuery u)
    (Fragment u) (RawFragment u) (OmitHost u).
Definition set_RawQuery (q : string) (u : Url) : Url :=
  MkUrl (Scheme u) (Opaque u) (User u) (UHost u) (Path u) (RawPath u) (ForceQuery u) q
    (Fragment u) (RawFragment u) (OmitHost u).

Definition valid_encoded_char (mode : encoding) (c : ascii) : bool :=
  contains_char c "!$&'()*+,;=:@[]%" || negb (shouldEscape c mode).

Definition EscapedPath (u : Url) : string :=
  if negb (String.eqb (RawPath u) "") && string_forall (valid_encoded_char encodePath) (RawPath u)
     && bool_decide (unescape false (RawPath u) = Some (Path u))
  then RawPath u
  else if String.eqb (Path u) "*" then "*" else escape (Path u) encodePath.

Definition EscapedFragment (u : Url) : string :=
  if negb (String.eqb (RawFragment u) "") && string_forall (valid_encoded_char encodeFragment) (RawFragment u)
     && bool_decide (unescape false (RawFragment u) = Some (Fragment u))
  then RawFragment u else escape (Fragment u) encodeFragment.

(** [u.String()] *)
Definition Url_String (u : Url) : string :=
  let scheme := if nonempty (Scheme u) then Scheme u +:+ ":" else "" in
  let rest :=
    if nonempty (Opaque u) then Opaque u
    else
      let user := match User u with Some _ => true | None => false end in
      let auth :=
        if OmitHost u && negb (nonempty (UHost u)) && negb user then ""
        else if nonempty (Scheme u) || nonempty (UHost u) || user then
          (if nonempty (UHost u) || nonempty (Path u) || user then "//" else "")
          +:+ match User u with Some ui => ui +:+ "@" | None => "" end
          +:+ escape (UHost u) encodeHost
        else "" in
      let path := EscapedPath u in
      let slash := if nonempty path && negb (HasPrefix path "/") && nonempty (UHost u)
                   then "/" else "" in
      let head := scheme +:+ auth +:+ slash in
      let dot := if String.eqb head "" && contains_char ":" (Cut "/" path).1.1 then "./" else "" in
      auth +:+ slash +:+ dot +:+ path in
  scheme +:+ rest
  +:+ (if ForceQuery u || nonempty (RawQuery u) then "?" +:+ RawQuery u else "")
  +:+ (if nonempty (Fragment u) then "#" +:+ EscapedFragment u else "").

(** [u.RequestURI()] *)
Definition RequestURI (u : Url) : string :=
  let result :=
    if nonempty (Opaque u)
    then (if HasPrefix (Opaque u) "//" then Scheme u +:+ ":" +:+ Opaque u else Opaque u)
    else let p := EscapedPath u in if nonempty p then p else "/" in
  if ForceQuery u || nonempty (RawQuery u) then result +:+ "?" +:+ RawQuery u else result.

Example Encode_ex1 :
  Values_Encode (ParseQuery "b=2&a=x+y&b=%41&bad=%zz&;=1") = "a=x+y&b=2&b=A".
Proof. vm_compute. reflexivity. Qed.
Example Url_ex1 :
  Url_String (MkUrl "http" "" None "h:80" "/a b" "" false "q=1" "" "" false) = "http://h:80/a%20b?q=1".
Proof. vm_compute. reflexivity. Qed.

(** ** Laws *)

Definition escape1 (c : ascii) : string := escape (str1 c) encodeQueryComponent.

Lemma QueryEscape_cons c s : QueryEscape (String c s) = escape1 c +:+ QueryEscape s.
Proof.
  unfold QueryEscape, escape1, str1. cbn [escape].
  destruct (shouldEscape c encodeQueryComponent); [|done].
  by destruct (Ascii.eqb c " ").
Qed.

Lemma forall_ascii (P : ascii → bool) :
  forallb P (map (λ n, chr n) (seq 0 256)) = true → ∀ c, P c = true.
Proof.
  intros H c. rewrite forallb_forall in H. apply H, in_map_iff.
  exists (Ascii.nat_of_ascii c). split; [apply Ascii.ascii_nat_embedding|].
  apply in_seq. pose proof (Ascii.nat_ascii_bounded c). lia.
Qed.

Lemma unescape_escape1 c r :
  unescape true (escape1 c +:+ r) = x ← unescape true r; Some (String c x).
Proof.
  destruct c as [[] [] [] [] [] [] [] []]; reflexivity.
Qed.

Lemma QueryUnescape_QueryEscape s : QueryUnescape (QueryEscape s) = Some s.
Proof.
  unfold QueryUnescape. induction s as [|c s IH]; [done|].
  by rewrite QueryEscape_cons, unescape_escape1, IH.
Qed.

Lemma QueryEscape_plain sep s :
  sep ∈ ["&"; "="; ";"]%char → contains_char sep (QueryEscape s) = false.
Proof.
  intros Hs. induction s as [|c s IH]; [done|].
  rewrite QueryEscape_cons, contains_char_app, IH, orb_false_r.
  assert (∀ c, forallb (λ x, negb (contains_char x (escape1 c))) ["&"; "="; ";"]%char = true) as H.
  { apply forall_ascii. vm_compute. done. }
  specialize (H c). rewrite forallb_forall in H. apply negb_true_iff, H.
  by apply list_elem_of_In.
Qed.

Lemma parse_pair_encoded m k x :
  parse_pair m (QueryEscape k +:+ "=" +:+ QueryEscape x) = Values_Add k x m.
Proof.
  unfold parse_pair. rewrite !contains_char_app, !QueryEscape_plain by set_solver.
  cbn [contains_char orb].
  replace (String.eqb _ "") with false by (by destruct (QueryEscape k)).
  change ("=" +:+ QueryEscape x) with (String "=" (QueryEscape x)).
  rewrite (Cut_found "=" (QueryEscape k) (QueryEscape x)) by (apply QueryEscape_plain; set_solver).
  by rewrite !QueryUnescape_QueryEscape.
Qed.

Lemma fold_pairs k xs ys m :
  default [] (m !! k) = ys → (m !! k = None → xs ≠ []) →
  fold_left parse_pair (encode_pairs k xs) m = <[k := ys ++ xs]> m.
Proof.
  revert ys m. induction xs as [|x xs IH]; intros ys m Hm Hx; cbn [encode_pairs map fold_left].
  - rewrite app_nil_r. destruct (m !! k) as [zs|] eqn:E; [|by destruct Hx].
    simpl in Hm. subst zs. by rewrite insert_id.
  - rewrite parse_pair_encoded. unfold Values_Add. rewrite Hm.
    unfold encode_pairs in IH. rewrite (IH (ys ++ [x])) by (rewrite lookup_insert_eq; done).
    by rewrite insert_insert_eq, <- app_assoc.
Qed.

Lemma fold_keys (v : values) ks m :
  NoDup ks → (∀ k, k ∈ ks → m !! k = None ∧ ∃ x xs, v !! k = Some (x :: xs)) →
  ∀ k, fold_left parse_pair (concat (map (λ k, encode_pairs k (default [] (v !! k))) ks)) m !! k
       = if decide (k ∈ ks) then v !! k else m !! k.
Proof.
  intros Hnd. revert m. induction Hnd as [|k0 ks Hk0 Hnd IH]; intros m Hks k; cbn [map concat].
  - done.
  - destruct (Hks k0) as [Hm (x & xs & Hv)]; [set_solver|]. rewrite Hv. cbn [default].
    rewrite fold_left_app, (fold_pairs k0 (x :: xs) []) by (rewrite ?Hm; done).
    rewrite IH.
    + destruct (decide (k = k0)) as [->|Hne].
      * rewrite decide_False by done. rewrite decide_True by set_solver.
        by rewrite lookup_insert_eq.
      * rewrite lookup_insert_ne by done.
        apply decide_ext. rewrite elem_of_cons. naive_solver.
    + intros k' Hk'. destruct (Hks k') as [Hm' Hv']; [set_solver|]. split; [|done].
      rewrite lookup_insert_ne; [done|]. by intros <-.
Qed.

Lemma sorted_keys_elem {A} (m : gmap string A) k : k ∈ sorted_keys m ↔ is_Some (m !! k).
Proof.
  unfold sorted_keys. rewrite (merge_sort_Permutation key_le (map fst (map_to_list m))).
  rewrite list_elem_of_fmap. split.
  - intros ([k' x] & -> & H%elem_of_map_to_list). by exists x.
  - intros [x Hx]. exists (k, x). split; [done|]. by apply elem_of_map_to_list.
Qed.

Lemma sorted_keys_NoDup {A} (m : gmap string A) : NoDup (sorted_keys m).
Proof.
  unfold sorted_keys. rewrite (merge_sort_Permutation key_le (map fst (map_to_list m))).
  apply NoDup_fst_map_to_list.
Qed.

Lemma Encode_pieces (v : values) (P : string → Prop) :
  (∀ k x, P (QueryEscape k +:+ "=" +:+ QueryEscape x)) →
  Forall P (concat (map (λ k, encode_pairs k (default [] (v !! k))) (sorted_keys v))).
Proof.
  intros HP. apply Forall_concat, Forall_forall. intros l (k & -> & _)%list_elem_of_fmap.
  apply Forall_forall. by intros y (x & -> & _)%list_elem_of_fmap.
Qed.

Lemma Split_Encode (v : values) :
  Split "&" (Values_Encode v) =
    match concat (map (λ k, encode_pairs k (default [] (v !! k))) (sorted_keys v)) with
    | [] => [""] | pieces => pieces end.
Proof.
  unfold Values_Encode. pose proof (Encode_pieces v (λ x, contains_char "&" x = false)) as HP.
  destruct (concat _) as [|y ys]; [done|]. change (Join "&") with (Join (str1 "&")).
  apply Split_Join; [done|]. apply Forall_forall, HP. intros k x.
  by rewrite !contains_char_app, !QueryEscape_plain by set_solver.
Qed.

Lemma pair_error_encoded k x : pair_error None (QueryEscape k +:+ "=" +:+ QueryEscape x) = None.
Proof.
  unfold pair_error. rewrite !contains_char_app, !QueryEscape_plain by set_solver.
  cbn [contains_char orb].
  replace (String.eqb _ "") with false by (by destruct (QueryEscape k)).
  change ("=" +:+ QueryEscape x) with (String "=" (QueryEscape x)).
  rewrite (Cut_found "=" (QueryEscape k) (QueryEscape x)) by (apply QueryEscape_plain; set_solver).
  by rewrite !QueryUnescape_QueryEscape.
Qed.

Lemma ParseQuery_error_Encode (v : values) : ParseQuery_error (Values_Encode v) = None.
Proof.
  unfold ParseQuery_error. rewrite Split_Encode.
  pose proof (Encode_pieces v (λ x, pair_error None x = None) pair_error_encoded) as HP.
  destruct (concat _) as [|y ys]; [done|].
  induction HP as [|z zs Hz _ IH]; [done|]. cbn [fold_left]. by rewrite Hz.
Qed.

(** Decoding an encoded query gives the values back. *)
Lemma ParseQuery_Encode (v : values) :
  (∀ k, v !! k ≠ Some []) → ParseQuery (Values_Encode v) = v.
Proof.
  intros Hv. apply map_eq. intros k. unfold ParseQuery, Values_Encode.
  set (pieces := concat _).
  assert (fold_left parse_pair pieces ∅ !! k = v !! k) as Hfold.
  { unfold pieces. rewrite fold_keys; [|apply sorted_keys_NoDup|].
    - case_decide as H; [done|]. rewrite lookup_empty, sorted_keys_elem in *.
      by apply eq_None_not_Some in H.
    - intros k' Hk'. split; [done|]. apply sorted_keys_elem in Hk' as [[|x xs] Hx]; [|eauto].
      by destruct (Hv k'). }
  change (Join "&" pieces) with (Values_Encode v). rewrite Split_Encode. fold pieces.
  by destruct pieces.
Qed.

Lemma Values_Add_nonempty k x (m : values) :
  (∀ j, m !! j ≠ Some []) → ∀ j, Values_Add k x m !! j ≠ Some [].
Proof.
  intros H j. unfold Values_Add. destruct (decide (k = j)) as [->|Hne].
  - rewrite lookup_insert_eq. intros [= E]. by apply app_eq_nil in E as [_ ?].
  - rewrite lookup_insert_ne by done. apply H.
Qed.

