(* ===== verification/GoNet.v ===== *)
(** * GoNet: the addresses of package [net]

    [ParseIP] (through [netip.ParseAddr]), [ParseCIDR], [IPNet.Contains],
    [IP.String] and [SplitHostPort].  An address is in the form that [To4] gives:
    a 32-bit IPv4 address, or a 128-bit address that is not IPv4-mapped. *)

From S2P Require Import Prelude GoStrings GoNum GoFmt.

Inductive IP := V4 (a : Z) | V6 (a : Z).
#[export] Instance IP_eq_dec : EqDecision IP.
Proof. solve_decision. Defined.

Definition of_128 (a : Z) : IP :=
  if a / 2 ^ 32 =? 0xFFFF then V4 (a mod 2 ^ 32) else V6 a.

(** ** Parsing *)

(** A decimal octet: one to three digits, no leading zero, at most 255. *)
Definition parse_octet (s : string) : option Z :=
  if (slen s =? 0) || (3 <? slen s) then None
  else if (1 <? slen s) && HasPrefix s "0" then None
  else match ParseUint10 8 s with Ok v => Some v | _ => None end.

Definition parseIPv4 (s : string) : option Z :=
  match Split "." s with
  | [a; b; c; d] =>
      x ← parse_octet a; y ← parse_octet b; z ← parse_octet c; w ← parse_octet d;
      Some (((x * 256 + y) * 256 + z) * 256 + w)
  | _ => None
  end.

(** The hex digits at the front of [s]: their number, value and the rest. *)
Fixpoint hex_run (s : string) (n : Z) (acc : Z) : Z * Z * string :=
  match s with
  | "" => (n, acc, "")
  | String c s' =>
      match hex_val c with
      | Some d => hex_run s' (n + 1) (acc * 16 + d)
      | None => (n, acc, s)
      end
  end.

(** The loop of [parseIPv6]: the 16-bit groups read so far, where the ellipsis
    is, and the rest of the text.  Eight groups fill the address. *)
Fixpoint groups_loop (fuel : nat) (s : string) (gs : list Z) (ellipsis : option nat)
    : option (list Z * option nat) :=
  match fuel with
  | O => if String.eqb s "" then Some (gs, ellipsis) else None
  | S f =>
      let '(off, acc, r) := hex_run s 0 0 in
      if (off =? 0) || (4 <? off) then None else
      if HasPrefix r "." then
        if match ellipsis with None => negb (length gs =? 6)%nat | Some _ => false end then None
        else if (6 <? length gs)%nat then None
        else v ← parseIPv4 s; Some (gs ++ [v / 65536; v mod 65536], ellipsis)
      else
        let gs' := gs ++ [acc] in
        match r with
        | "" => Some (gs', ellipsis)
        | String c r' =>
            if negb (Ascii.eqb c ":") || String.eqb r' "" then None
            else if HasPrefix r' ":" then
              match ellipsis with
              | Some _ => None
              | None =>
                  let r'' := sdrop 1 r' in
                  if String.eqb r'' "" then Some (gs', Some (length gs'))
                  else groups_loop f r'' gs' (Some (length gs'))
              end
            else groups_loop f r' gs' ellipsis
        end
  end.

Definition expand (gs : list Z) (ellipsis : option nat) : option (list Z) :=
  match ellipsis with
  | Some e =>
      if (length gs <? 8)%nat
      then Some (take e gs ++ repeat 0 (8 - length gs) ++ drop e gs)
      else None
  | None => if (length gs =? 8)%nat then Some gs else None
  end.

Definition of_groups (gs : list Z) : Z := fold_left (λ a g, a * 65536 + g) gs 0.

Definition parseIPv6 (s : string) : option Z :=
  if HasPrefix s "::" then
    let s' := sdrop 2 s in
    if String.eqb s' "" then Some 0
    else '(gs, e) ← groups_loop 8 s' [] (Some O); of_groups <$> expand gs e
  else '(gs, e) ← groups_loop 8 s [] None; of_groups <$> expand gs e.

(** The first of the characters that decide the kind of an address. *)
Fixpoint addr_kind (s : string) : option ascii :=
  match s with
  | "" => None
  | String c s' => if contains_char c ".:%" then Some c else addr_kind s'
  end.

(** [netip.ParseAddr] without a zone: 32 or 128 bits, with their number. *)
Definition ParseAddr (s : string) : option (Z * Z) :=
  if contains_char "%" s then None
  else match addr_kind s with
       | Some c => if Ascii.eqb c "." then v ← parseIPv4 s; Some (v, 32)
                   else v ← parseIPv6 s; Some (v, 128)
       | None => None
       end.

Definition ParseIP (s : string) : option IP :=
  '(v, bits) ← ParseAddr s;
  Some (if bits =? 32 then V4 v else of_128 v).

(** ** Networks *)

Record IPNet := MkIPNet { nIP : IP; prefixLen : Z }.

Definition mask_to (bits n a : Z) : Z := a / 2 ^ (bits - n) * 2 ^ (bits - n).

Definition Contains_IP (n : IPNet) (ip : IP) : bool :=
  match nIP n, ip with
  | V4 a, V4 b => mask_to 32 (prefixLen n) a =? mask_to 32 (prefixLen n) b
  | V6 a, V6 b => mask_to 128 (prefixLen n) a =? mask_to 128 (prefixLen n) b
  | _, _ => false
  end.

(** The decimal text of a mask length: digits only, below 0xFFFFFF. *)
Definition dtoi (s : string) : option Z :=
  match uint_loop digit_val 10 0xFFFFFE 0 s with
  | Ok v => if String.eqb s "" then None else Some v
  | _ => None
  end.

Definition ParseCIDR (s : string) : option IPNet :=
  match Cut "/" s with
  | (addr, mask, true) =>
      '(v, bits) ← ParseAddr addr;
      n ← dtoi mask;
      if bits <? n then None
      else if bits =? 32 then Some (MkIPNet (V4 (mask_to 32 n v)) n)
      else match of_128 (mask_to 128 n v) with
           | V4 a => Some (MkIPNet (V4 a) (n - 96))
           | V6 a => Some (MkIPNet (V6 a) n)
           end
  | _ => None
  end.

(** ** Printing *)

Definition dotted (a : Z) : string :=
  Join "." (map (λ i, Itoa (a / 2 ^ (8 * i) mod 256)) [3; 2; 1; 0]).

Definition groups_of (a : Z) : list Z :=
  map (λ i, a / 2 ^ (16 * i) mod 65536) [7; 6; 5; 4; 3; 2; 1; 0].

Fixpoint hex_trim (n : nat) (z : Z) : string :=
  match n with
  | O => str1 (hex_digit (z mod 16))
  | S n' => if z <? 16 then str1 (hex_digit z) else hex_trim n' (z / 16) +:+ str1 (hex_digit (z mod 16))
  end.

Fixpoint zero_run (gs : list Z) : nat :=
  match gs with
  | g :: gs' => if g =? 0 then S (zero_run gs') else O
  | [] => O
  end.

(** The first longest run of at least two zero groups: start and length. *)
Fixpoint best_run (i : nat) (gs : list Z) (best : nat * nat) : nat * nat :=
  match gs with
  | [] => best
  | _ :: gs' =>
      let l := zero_run gs in
      best_run (S i) gs'
        (if (2 <=? l)%nat && (snd best <? l)%nat then (i, l) else best)
  end.

Definition IPv6String (a : Z) : string :=
  let gs := groups_of a in
  let hex l := Join ":" (map (hex_trim 3) l) in
  match best_run 0 gs (O, O) with
  | (_, O) => hex gs
  | (i, l) => hex (take i gs) +:+ "::" +:+ hex (drop (i + l) gs)
  end.

Definition IPString (ip : IP) : string :=
  match ip with V4 a => dotted a | V6 a => IPv6String a end.

(** ** SplitHostPort *)

Fixpoint index_from (i : Z) (c : ascii) (s : string) : Z :=
  match s with
  | "" => -1
  | String d s' => if Ascii.eqb d c then i else index_from (i + 1) c s'
  end.
Definition IndexByte (s : string) (c : ascii) : Z := index_from 0 c s.
Definition LastIndexByte (s : string) (c : ascii) : Z :=
  let j := IndexByte (srev s) c in
  if j <? 0 then -1 else slen s - 1 - j.

(** The host and port, or [None] for an [*AddrError]. *)
Definition SplitHostPort (hp : string) : option (string * string) :=
  let i := LastIndexByte hp ":" in
  if i <? 0 then None else
  let port := sdrop (Z.to_nat (i + 1)) hp in
  if HasPrefix hp "[" then
    let e := IndexByte hp "]" in
    if (e <? 0) || negb (e + 1 =? i) then None
    else if contains_char "[" (sdrop 1 hp) || contains_char "]" (sdrop (Z.to_nat (e + 1)) hp)
    then None
    else Some (stake (Z.to_nat (e - 1)) (sdrop 1 hp), port)
  else
    let host := stake (Z.to_nat i) hp in
    if contains_char ":" host || contains_char "[" hp || contains_char "]" hp then None
    else Some (host, port).

Example ParseIP_ex1 : ParseIP "10.1.2.3" = Some (V4 0x0A010203). Proof. reflexivity. Qed.
Example ParseIP_ex2 : ParseIP "::ffff:10.1.2.3" = Some (V4 0x0A010203). Proof. reflexivity. Qed.
Example ParseIP_ex3 : ParseIP "2001:db8::1" = Some (V6 0x20010db8000000000000000000000001).
Proof. reflexivity. Qed.
Example ParseIP_ex4 : ParseIP "01.2.3.4" = None. Proof. reflexivity. Qed.
Example ParseIP_ex5 : ParseIP "1:2:3:4:5:6:7::8" = None. Proof. reflexivity. Qed.
Example ParseCIDR_ex : ParseCIDR "10.9.8.7/8" = Some (MkIPNet (V4 0x0A000000) 8).
Proof. reflexivity. Qed.
Example IPString_ex : IPString (V6 0x20010db8000000000000000000000000) = "2001:db8::".
Proof. reflexivity. Qed.
Example SplitHostPort_ex : SplitHostPort "[::1]:80" = Some ("::1", "80"). Proof. reflexivity. Qed.
