(* ===== verification/GoMime.v ===== *)
(** * GoMime: media types and HTML escaping

    The part of package [mime] that decides whether a [Content-Type] parses, and
    [html.EscapeString]. *)

From S2P Require Import Prelude GoStrings GoNum GoFmt.

(** ** [html.EscapeString] *)

Definition html_char (c : ascii) : string :=
  let n := code c in
  if n =? 38 then "&amp;" else if n =? 39 then "&#39;" else if n =? 60 then "&lt;"
  else if n =? 62 then "&gt;" else if n =? 34 then "&#34;" else str1 c.

Fixpoint EscapeString (s : string) : string :=
  match s with "" => "" | String c s' => html_char c +:+ EscapeString s' end.

(** ** [mime.ParseMediaType] *)

Definition isTSpecial (c : ascii) : bool :=
  contains_char c ("()<>@,;:\/[]?=" +:+ str1 (chr 34)).
Definition isTokenChar (c : ascii) : bool :=
  (32 <? code c) && (code c <? 127) && negb (isTSpecial c).

Fixpoint consumeToken (v : string) : string * string :=
  match v with
  | "" => ("", "")
  | String c v' =>
      if isTokenChar c then let '(t, rest) := consumeToken v' in (String c t, rest)
      else ("", v)
  end.

(** The loop over a quoted string, after its opening quote: the text and what
    follows the closing quote. *)
Fixpoint quoted (v acc : string) : option (string * string) :=
  match v with
  | "" => None
  | String c v' =>
      if code c =? 34 then Some (srev acc, v')
      else
        let plain := if Ascii.eqb c CR || Ascii.eqb c LF then None else quoted v' (String c acc) in
        match v' with
        | String d v'' =>
            if (code c =? 92) && isTSpecial d then quoted v'' (String d acc) else plain
        | "" => plain
        end
  end.

Definition consumeValue (v : string) : string * string :=
  match v with
  | "" => ("", "")
  | String c v' =>
      if code c =? 34 then default ("", v) (quoted v' "") else consumeToken v
  end.

Definition TrimLeftSpace (s : string) : string := strip_any spaces (String.length s) s.

(** A parameter: its name, its value and the rest; [None] when there is none. *)
Definition consumeMediaParam (v : string) : option (string * string * string) :=
  match TrimLeftSpace v with
  | String ";" rest =>
      let '(param, rest) := consumeToken (TrimLeftSpace rest) in
      let param := ToLower param in
      if String.eqb param "" then None else
      match TrimLeftSpace rest with
      | String "=" rest =>
          let rest := TrimLeftSpace rest in
          let '(val, rest2) := consumeValue rest in
          if String.eqb val "" && String.eqb rest2 rest then None
          else Some (param, val, rest2)
      | _ => None
      end
  | _ => None
  end.

Definition checkMediaType (s : string) : bool :=
  let '(typ, rest) := consumeToken s in
  if String.eqb typ "" then false else
  match rest with
  | "" => true
  | String "/" rest =>
      let '(subtype, rest) := consumeToken rest in
      negb (String.eqb subtype "") && String.eqb rest ""
  | _ => false
  end.

(** The loop over the parameters: whether they parse.  A parameter consumes at least
    one byte, so the length of the text is enough fuel. *)
Fixpoint media_params (fuel : nat) (seen : gmap string string) (v : string) : bool :=
  match fuel with
  | O => true
  | S n =>
      let v := TrimLeftSpace v in
      if String.eqb v "" then true else
      match consumeMediaParam v with
      | None => String.eqb (TrimSpace v) ";"
      | Some (key, val, rest) =>
          match seen !! key with
          | Some val' => if String.eqb val val' then media_params n seen rest else false
          | None => media_params n (<[key := val]> seen) rest
          end
      end
  end.

(** The media type; [None] stands for an error. *)
Definition ParseMediaType (v : string) : option string :=
  let '(base, _, _) := Cut ";" v in
  let mediatype := TrimSpace (ToLower base) in
  if negb (checkMediaType mediatype) then None
  else
    let params := sdrop (String.length base) v in
    if media_params (S (String.length params)) ∅ params then Some mediatype else None.

(** The media type that is returned with an error: that of a valid type with invalid
    parameters, unless a parameter is repeated with another value. *)
Fixpoint media_params_error (fuel : nat) (seen : gmap string string) (v : string) : option (bool * gerror) :=
  match fuel with
  | O => None
  | S n =>
      let v := TrimLeftSpace v in
      if String.eqb v "" then None else
      match consumeMediaParam v with
      | None => if String.eqb (TrimSpace v) ";" then None
                else Some (true, New "mime: invalid media parameter")
      | Some (key, val, rest) =>
          match seen !! key with
          | Some val' => if String.eqb val val' then media_params_error n seen rest
                         else Some (false, New "mime: duplicate parameter name")
          | None => media_params_error n (<[key := val]> seen) rest
          end
      end
  end.

Lemma media_params_error_iff fuel seen v : media_params fuel seen v = negb (bool_decide (is_Some (media_params_error fuel seen v))).
Proof.
  revert seen v. induction fuel as [|n IH]; intros seen v; [done|]. cbn [media_params media_params_error].
  destruct (String.eqb _ ""); [done|]. destruct (consumeMediaParam _) as [[[key val] rest]|].
  - destruct (seen !! key) as [val'|]; [destruct (String.eqb val val'); [apply IH|done]|apply IH].
  - by destruct (String.eqb _ ";").
Qed.

Example ParseMediaType_ex1 :
  map ParseMediaType ["Text/HTML; charset=utf-8"; "text/plain;"; "a/b; c"; "text/plain; a=1; a=2"; "x y"]
  = [Some "text/html"; Some "text/plain"; None; None; None].
Proof. vm_compute. reflexivity. Qed.
Example ParseMediaType_ex2 :
  ParseMediaType ("text/plain; a=" +:+ str1 (chr 34) +:+ "b;c" +:+ str1 (chr 34)) = Some "text/plain".
Proof. vm_compute. reflexivity. Qed.

(** *** The fuel is enough: a parameter is not empty *)

Lemma consumeToken_shorter v t rest : consumeToken v = (t, rest) → (String.length rest ≤ String.length v)%nat.
Proof.
  revert t. induction v as [|c v IH]; intros t; cbn [consumeToken]; [by intros [= _ <-]|].
  destruct (isTokenChar c); [|by intros [= _ <-]]. destruct (consumeToken v) as [t' r'] eqn:E. intros [= _ <-].
  specialize (IH t' eq_refl). cbn. lia.
Qed.

Lemma quoted_shorter v acc t rest : quoted v acc = Some (t, rest) → (String.length rest ≤ String.length v)%nat.
Proof.
  remember (String.length v) as n eqn:En. assert (String.length v ≤ n)%nat as Hn by lia. clear En.
  revert v acc Hn. induction n as [|n IH]; intros [|c v] acc Hn; cbn [quoted]; try done; [cbn in Hn; lia|].
  cbn [String.length] in Hn. destruct (code c =? 34); [intros [= _ <-]; lia|].
  assert (∀ acc, (if Ascii.eqb c CR || Ascii.eqb c LF then None else quoted v acc) = Some (t, rest) →
    (String.length rest ≤ S n)%nat) as Hplain.
  { intros acc'. destruct (_ || _); [done|]. intros E%IH; lia. }
  destruct v as [|d v]; [apply Hplain|]. destruct (_ && isTSpecial d); [|apply Hplain].
  cbn [String.length] in Hn. intros E%IH; lia.
Qed.

Lemma consumeValue_shorter v t rest : consumeValue v = (t, rest) → (String.length rest ≤ String.length v)%nat.
Proof.
  destruct v as [|c v]; cbn [consumeValue]; [by intros [= _ <-]|]. destruct (code c =? 34); [|apply consumeToken_shorter].
  destruct (quoted v "") as [[t' r']|] eqn:E; cbn [default]; intros [= _ <-]; [|done].
  apply quoted_shorter in E. cbn. lia.
Qed.

Lemma TrimLeftSpace_shorter s : (String.length (TrimLeftSpace s) ≤ String.length s)%nat.
Proof. apply strip_any_shorter. Qed.

Lemma consumeMediaParam_shorter v key val rest :
  consumeMediaParam v = Some (key, val, rest) → (String.length rest < String.length v)%nat.
Proof.
  unfold consumeMediaParam. pose proof (TrimLeftSpace_shorter v) as H1.
  destruct (TrimLeftSpace v) as [|c r1]; [done|]. cbn [String.length] in H1.
  destruct (decide (c = ";"%char)) as [->|Hc]; [|by destruct c as [[] [] [] [] [] [] [] []]].
  destruct (consumeToken (TrimLeftSpace r1)) as [param r2] eqn:E1. apply consumeToken_shorter in E1.
  pose proof (TrimLeftSpace_shorter r1) as H2. pose proof (TrimLeftSpace_shorter r2) as H3.
  destruct (String.eqb (ToLower param) ""); [done|]. destruct (TrimLeftSpace r2) as [|d r3]; [done|].
  destruct (decide (d = "="%char)) as [->|Hd]; [|by destruct d as [[] [] [] [] [] [] [] []]].
  destruct (consumeValue (TrimLeftSpace r3)) as [val' r4] eqn:E2. apply consumeValue_shorter in E2.
  pose proof (TrimLeftSpace_shorter r3) as H4. cbn [String.length] in H3.
  destruct (_ && _); [done|]. intros [= _ _ <-]. lia.
Qed.

Lemma media_params_fuel n m seen v :
  (String.length v < n)%nat → (String.length v < m)%nat → media_params n seen v = media_params m seen v.
Proof.
  revert m seen v. induction n as [|n IH]; intros m seen v Hn Hm; [lia|]. destruct m as [|m]; [lia|]. cbn [media_params].
  destruct (String.eqb _ ""); [done|]. destruct (consumeMediaParam _) as [[[key val] rest]|] eqn:E; [|done].
  apply consumeMediaParam_shorter in E. pose proof (TrimLeftSpace_shorter v).
  destruct (seen !! key) as [val'|]; [destruct (String.eqb val val'); [|done]|]; apply IH; lia.
Qed.

Lemma media_params_error_fuel n m seen v :
  (String.length v < n)%nat → (String.length v < m)%nat → media_params_error n seen v = media_params_error m seen v.
Proof.
  revert m seen v. induction n as [|n IH]; intros m seen v Hn Hm; [lia|]. destruct m as [|m]; [lia|]. cbn [media_params_error].
  destruct (String.eqb _ ""); [done|]. destruct (consumeMediaParam _) as [[[key val] rest]|] eqn:E; [|done].
  apply consumeMediaParam_shorter in E. pose proof (TrimLeftSpace_shorter v).
  destruct (seen !! key) as [val'|]; [destruct (String.eqb val val'); [|done]|]; apply IH; lia.
Qed.

(** ** Laws *)

(** The bytes that could start markup or end an attribute. *)
Definition markup : string := "<>'" +:+ str1 (chr 34).

Lemma html_char_safe c : ContainsAny (html_char c) markup = false.
Proof.
  unfold html_char. destruct c as [[] [] [] [] [] [] [] []]; reflexivity.
Qed.

Lemma EscapeString_safe s : ContainsAny (EscapeString s) markup = false.
Proof.
  induction s as [|c s IH]; [done|]. cbn [EscapeString].
  by rewrite ContainsAny_app, html_char_safe, IH.
Qed.
