(* ===== verification/FloatInt.v ===== *)
(** * FloatInt: integers below 2^53 are exact in [float64]

    Conversion, sums, differences and comparisons of such integers are those of
    the integers. *)

From S2P Require Import Prelude GoStrings GoNum GoFloat.

(** ** Shifts and digits *)

Lemma iter_xO m d : Zpos (Pos.iter xO m d) = Zpos m * 2 ^ Zpos d.
Proof.
  induction d as [|d IH] using Pos.peano_ind; [cbn; lia|].
  rewrite Pos.iter_succ, Pos2Z.inj_succ, Z.pow_succ_r by lia.
  change (Zpos (Pos.iter xO m d)~0) with (2 * Zpos (Pos.iter xO m d)). lia.
Qed.

Lemma digits2_spec m : 2 ^ (Zpos (digits2_pos m) - 1) ≤ Zpos m < 2 ^ Zpos (digits2_pos m).
Proof.
  induction m as [m IH|m IH|]; cbn [digits2_pos]; [| |by cbn];
    rewrite Pos2Z.inj_succ, Z.sub_1_r, Z.pred_succ, Z.pow_succ_r by lia;
    rewrite <- (Z.succ_pred (Zpos (digits2_pos m))) in IH |- *;
    rewrite Z.pow_succ_r in IH |- * by lia; rewrite Z.sub_1_r, Z.pred_succ in IH;
    change (Zpos m~1) with (2 * Zpos m + 1) || change (Zpos m~0) with (2 * Zpos m); lia.
Qed.

Lemma digits2_unique m d :
  0 < d → 2 ^ (d - 1) ≤ Zpos m < 2 ^ d → Zpos (digits2_pos m) = d.
Proof.
  intros Hd Hm. pose proof (digits2_spec m) as Hs. set (k := Zpos (digits2_pos m)) in *.
  destruct (Z.lt_trichotomy k d) as [H|[H|H]]; [|done|]; exfalso.
  - assert (2 ^ k ≤ 2 ^ (d - 1)) by (apply Z.pow_le_mono_r; lia). lia.
  - assert (2 ^ d ≤ 2 ^ (k - 1)) by (apply Z.pow_le_mono_r; lia). lia.
Qed.

Lemma iter_pos_eq {A} (f : A → A) n x : iter_pos f n x = Pos.iter f x n.
Proof.
  revert x. induction n as [n IH|n IH|]; intros x; cbn [iter_pos Pos.iter]; rewrite ?IH; [|done..].
  by rewrite <- !Pos.iter_swap.
Qed.

Lemma shr_exact q k :
  iter_pos shr_1 k (Build_shr_record (Zpos (Pos.iter xO q k)) false false)
  = Build_shr_record (Zpos q) false false.
Proof.
  rewrite iter_pos_eq. revert q. induction k as [|k IH] using Pos.peano_ind; intros q; [done|].
  rewrite (Pos.iter_succ k _ xO q), Pos.iter_succ_r. apply IH.
Qed.

Lemma iter_xO_eq m m' d : Zpos m' = Zpos m * 2 ^ Zpos d → Pos.iter xO m d = m'.
Proof. intros H. apply Pos2Z.inj. by rewrite iter_xO. Qed.

(** ** Rounding to a mantissa of 53 bits *)

Lemma fexp_53 e : -1074 ≤ e → fexp 53 1024 (53 + e) = e.
Proof. unfold fexp, emin. lia. Qed.

Lemma aux_canonical m e :
  Zpos (digits2_pos m) = 53 → -1074 ≤ e ≤ 971 →
  binary_round_aux 53 1024 false (Zpos m) e loc_Exact = S754_finite false m e.
Proof.
  intros Hd He. unfold binary_round_aux, shr_fexp, Zdigits2. rewrite Hd, fexp_53 by lia.
  rewrite Z.sub_diag. cbn [shr shr_record_of_loc shr_m loc_of_shr_record round_nearest_even].
  rewrite Hd, fexp_53, Z.sub_diag by lia. cbn [shr shr_record_of_loc shr_m].
  by replace (e <=? 1024 - 53) with true by lia.
Qed.

(** A value [m * 2^e] that equals [m' * 2^e'] with a 53-bit [m'] is rounded to it. *)
Lemma round_canonical m e m' e' k :
  Zpos (digits2_pos m') = 53 → -1074 ≤ e' ≤ 971 → 0 ≤ k →
  (e = e' + k ∧ Zpos m' = Zpos m * 2 ^ k) ∨ (e' = e + k ∧ Zpos m = Zpos m' * 2 ^ k) →
  binary_round 53 1024 false m e = S754_finite false m' e'.
Proof.
  intros Hd He Hk Hval. unfold binary_round. pose proof (digits2_spec m') as Hm'. rewrite Hd in Hm'.
  destruct Hval as [[-> Hm]|[-> Hm]].
  - assert (0 ≤ 53 - k) as Hk53.
    { destruct (decide (k ≤ 53)); [lia|]. assert (2 ^ 54 ≤ 2 ^ k) by (apply Z.pow_le_mono_r; lia). nia. }
    assert (53 - k ≠ 0) by (intros E; replace k with 53 in * by lia; nia).
    assert (Zpos (digits2_pos m) = 53 - k) as Hdm.
    { apply digits2_unique; [lia|].
      assert (2 ^ (53 - k) = 2 * 2 ^ (53 - k - 1)) as E1
        by (rewrite <- Z.pow_succ_r by lia; f_equal; lia).
      assert (2 ^ (53 - 1) = 2 ^ (53 - k - 1) * 2 ^ k) as E2
        by (rewrite <- Z.pow_add_r by lia; f_equal; lia).
      assert (2 ^ 53 = 2 * (2 ^ (53 - k - 1) * 2 ^ k)) as E3 by lia.
      rewrite E1. rewrite E2, E3, Hm in Hm'. pose proof (Z.pow_pos_nonneg 2 k ltac:(lia) Hk). nia. }
    rewrite Hdm. replace (53 - k + (e' + k)) with (53 + e') by lia. rewrite fexp_53 by lia.
    unfold shl_align. replace (e' - (e' + k)) with (- k) by lia.
    destruct k as [|k|k]; [| |lia].
    + change (- 0) with 0. cbn iota. replace m with m' by lia. rewrite Z.add_0_r. by apply aux_canonical.
    + change (- Zpos k) with (Zneg k). cbn iota.
      change (PosDef.Pos.iter xO m k) with (Pos.iter xO m k).
      rewrite (iter_xO_eq m m' k) by done. by apply aux_canonical.
  - assert (Zpos (digits2_pos m) = 53 + k) as Hdm.
    { apply digits2_unique; [lia|]. replace (53 + k - 1) with (53 - 1 + k) by lia.
      rewrite !Z.pow_add_r by lia. rewrite Hm. pose proof (Z.pow_pos_nonneg 2 k ltac:(lia) Hk). nia. }
    rewrite Hdm. replace (53 + k + e) with (53 + (e + k)) by lia. rewrite fexp_53 by lia.
    unfold shl_align. replace (e + k - e) with k by lia. destruct k as [|k|k]; [| |lia].
    + rewrite Z.add_0_r in *. replace m with m' by lia. by apply aux_canonical.
    + unfold binary_round_aux, shr_fexp at 1, Zdigits2 at 1. rewrite Hdm.
      replace (53 + Zpos k + e) with (53 + (e + Zpos k)) by lia. rewrite fexp_53 by lia.
      replace (e + Zpos k - e) with (Zpos k) by lia.
      cbn [shr shr_record_of_loc]. rewrite <- (iter_xO_eq m' m k) by done. rewrite shr_exact.
      cbn [shr_m loc_of_shr_record round_nearest_even].
      unfold shr_fexp, Zdigits2. rewrite Hd, fexp_53, Z.sub_diag by lia. cbn [shr shr_record_of_loc shr_m].
      by replace (e + Zpos k <=? 1024 - 53) with true by lia.
Qed.

(** ** Integers *)

Definition dig (p : positive) : Z := Zpos (digits2_pos p).
Definition canon (p : positive) : positive := Z.to_pos (Zpos p * 2 ^ (53 - dig p)).

Lemma canon_Z p : dig p ≤ 53 → Zpos (canon p) = Zpos p * 2 ^ (53 - dig p).
Proof.
  intros Hp. unfold canon. rewrite Z2Pos.id; [done|].
  pose proof (Z.pow_pos_nonneg 2 (53 - dig p)). lia.
Qed.

Lemma canon_digits p : dig p ≤ 53 → Zpos (digits2_pos (canon p)) = 53.
Proof.
  intros Hp. apply digits2_unique; [lia|]. rewrite canon_Z by done.
  pose proof (digits2_spec p) as Hs. fold (dig p) in Hs.
  assert (1 ≤ dig p) by (unfold dig; lia).
  assert (2 ^ (53 - 1) = 2 ^ (dig p - 1) * 2 ^ (53 - dig p)) as E1
    by (rewrite <- Z.pow_add_r by lia; f_equal; lia).
  assert (2 ^ 53 = 2 ^ dig p * 2 ^ (53 - dig p)) as E2
    by (rewrite <- Z.pow_add_r by lia; f_equal; lia).
  rewrite E1, E2. pose proof (Z.pow_pos_nonneg 2 (53 - dig p) ltac:(lia) ltac:(lia)). nia.
Qed.

Lemma dig_bound p n : Zpos p < 2 ^ n → 0 ≤ n → dig p ≤ n.
Proof.
  intros Hp Hn. pose proof (digits2_spec p) as [Hs _]. fold (dig p) in Hs.
  assert (1 ≤ dig p) by (unfold dig; lia).
  destruct (Z.le_gt_cases (dig p) n) as [|Hgt]; [done|exfalso].
  assert (2 ^ n ≤ 2 ^ (dig p - 1)) by (apply Z.pow_le_mono_r; lia). lia.
Qed.

(** Every way to write the integer rounds to the same float. *)
Lemma round_scaled p m k :
  Zpos p < 2 ^ 53 → 0 ≤ k → Zpos m = Zpos p * 2 ^ k →
  binary_round 53 1024 false m (- k) = S754_finite false (canon p) (dig p - 53).
Proof.
  intros Hp Hk Hm. pose proof (dig_bound p 53 Hp ltac:(lia)) as Hd.
  assert (1 ≤ dig p) by (unfold dig; lia).
  destruct (Z.le_ge_cases (dig p - 53) (- k)) as [Hle|Hle].
  - apply (round_canonical m (- k) _ _ (- k - (dig p - 53))); [by apply canon_digits|lia..|].
    left. split; [lia|]. rewrite canon_Z, Hm by done. rewrite <- Z.mul_assoc, <- Z.pow_add_r by lia.
    do 2 f_equal. lia.
  - apply (round_canonical m (- k) _ _ (dig p - 53 + k)); [by apply canon_digits|lia..|].
    right. split; [lia|]. rewrite canon_Z, Hm by done. rewrite <- Z.mul_assoc, <- Z.pow_add_r by lia.
    do 2 f_equal. lia.
Qed.

Lemma of_Z_pos p :
  Zpos p < 2 ^ 53 → of_Z (Zpos p) = S754_finite false (canon p) (dig p - 53).
Proof.
  intros Hp. unfold of_Z, binary_normalize. apply (round_scaled p p 0); [done|lia|lia].
Qed.

(** The aligned mantissa at a smaller exponent. *)
Lemma shl_align_canon p ez :
  dig p ≤ 53 → ez ≤ dig p - 53 →
  Zpos (shl_align (canon p) (dig p - 53) ez).1 = Zpos p * 2 ^ (- ez).
Proof.
  intros Hd He. unfold shl_align. assert (1 ≤ dig p) by (unfold dig; lia).
  destruct (ez - (dig p - 53)) as [|k|k] eqn:E; [|lia|]; cbn [fst].
  - rewrite canon_Z by done. do 2 f_equal. lia.
  - change (PosDef.Pos.iter xO (canon p) k) with (Pos.iter xO (canon p) k).
    rewrite iter_xO, canon_Z by done. rewrite <- Z.mul_assoc, <- Z.pow_add_r by lia.
    do 2 f_equal. lia.
Qed.

Lemma fsub_of_Z a b : 0 ≤ b ≤ a → a < 2 ^ 53 → fsub (of_Z a) (of_Z b) = of_Z (a - b).
Proof.
  intros Hb Ha. destruct b as [|b|b]; [|..|lia].
  { rewrite Z.sub_0_r. destruct a as [|a|a]; [done| |lia]. by rewrite of_Z_pos. }
  destruct a as [|a|a]; [lia| |lia]. rewrite !of_Z_pos by lia. unfold fsub, SFsub.
  cbn [cond_Zopp].
  pose proof (dig_bound a 53 Ha ltac:(lia)). pose proof (dig_bound b 53 ltac:(lia) ltac:(lia)).
  set (ez := Z.min (dig a - 53) (dig b - 53)).
  rewrite !shl_align_canon by (done || unfold ez; lia).
  rewrite <- Z.mul_sub_distr_r. assert (0 ≤ - ez) as Hez by (unfold ez; lia).
  pose proof (Z.pow_pos_nonneg 2 (- ez) ltac:(lia) Hez).
  destruct (Zpos a - Zpos b) as [|c|c] eqn:Ec; [done| |lia].
  rewrite of_Z_pos by lia. replace ez with (- - ez) at 2 by lia.
  destruct (Zpos c * 2 ^ (- ez)) as [|m|m] eqn:Em; [lia| |lia].
  unfold binary_normalize. apply round_scaled; lia.
Qed.

Lemma pos_compare_cont m1 m2 : Pos.compare_cont Eq m1 m2 = (Zpos m1 ?= Zpos m2).
Proof. done. Qed.

Lemma dig_mono a b : Zpos a ≤ Zpos b → dig a ≤ dig b.
Proof.
  intros H. pose proof (digits2_spec b) as [_ Hb]. apply dig_bound; [|unfold dig; lia].
  unfold dig. lia.
Qed.

Lemma fltb_of_Z a b :
  0 ≤ a < 2 ^ 53 → 0 ≤ b < 2 ^ 53 → fltb (of_Z a) (of_Z b) = (a <? b).
Proof.
  intros Ha Hb. destruct a as [|a|a]; [| |lia]; destruct b as [|b|b]; try lia.
  - done.
  - by rewrite of_Z_pos by lia.
  - by rewrite of_Z_pos by lia.
  - rewrite !of_Z_pos by lia. unfold fltb, SFltb, SFcompare. rewrite pos_compare_cont.
    pose proof (dig_bound a 53 ltac:(lia) ltac:(lia)). pose proof (dig_bound b 53 ltac:(lia) ltac:(lia)).
    destruct (Z.compare_spec (dig a - 53) (dig b - 53)) as [E|E|E].
    + rewrite !canon_Z by lia. replace (dig b) with (dig a) by lia.
      pose proof (Z.pow_pos_nonneg 2 (53 - dig a) ltac:(lia) ltac:(lia)).
      destruct (Z.compare_spec (Zpos a * 2 ^ (53 - dig a)) (Zpos b * 2 ^ (53 - dig a)));
        symmetry; [apply Z.ltb_ge|apply Z.ltb_lt|apply Z.ltb_ge]; nia.
    + symmetry. apply Z.ltb_lt. destruct (Z.lt_ge_cases (Zpos a) (Zpos b)) as [|Hge]; [done|].
      apply dig_mono in Hge. lia.
    + symmetry. apply Z.ltb_ge. destruct (Z.le_gt_cases (Zpos b) (Zpos a)) as [|Hlt]; [done|].
      pose proof (dig_mono a b ltac:(lia)). lia.
Qed.

(** A zero of either sign changes no integer. *)
Lemma fadd_of_Z_zero z s : 0 ≤ z < 2 ^ 53 → fadd (of_Z z) (S754_zero s) = of_Z z.
Proof.
  intros Hz. destruct z as [|p|p]; [by destruct s| |lia]. by rewrite of_Z_pos by lia.
Qed.

Lemma fadd_of_Z a b : 0 ≤ a → 0 ≤ b → a + b < 2 ^ 53 → fadd (of_Z a) (of_Z b) = of_Z (a + b).
Proof.
  intros Ha Hb Hab. destruct a as [|a|a]; [| |lia].
  { rewrite Z.add_0_l. destruct b as [|b|b]; [done| |lia]. by rewrite (of_Z_pos b) by lia. }
  destruct b as [|b|b]; [|..|lia].
  { rewrite Z.add_0_r. by rewrite (of_Z_pos a) by lia. }
  rewrite !of_Z_pos by lia. unfold fadd, SFadd. cbn [cond_Zopp].
  pose proof (dig_bound a 53 ltac:(lia) ltac:(lia)). pose proof (dig_bound b 53 ltac:(lia) ltac:(lia)).
  set (ez := Z.min (dig a - 53) (dig b - 53)).
  rewrite !shl_align_canon by (done || unfold ez; lia).
  rewrite <- Z.mul_add_distr_r. assert (0 ≤ - ez) as Hez by (unfold ez; lia).
  pose proof (Z.pow_pos_nonneg 2 (- ez) ltac:(lia) Hez).
  change (Zpos a + Zpos b) with (Zpos (a + b)) in *. rewrite of_Z_pos by lia. replace ez with (- - ez) at 2 by lia.
  destruct (Zpos (a + b) * 2 ^ (- ez)) as [|m|m] eqn:Em; [lia| |lia].
  unfold binary_normalize. apply round_scaled; lia.
Qed.

(** A mantissa that is wide enough is not widened. *)
Lemma round_wide m e :
  53 ≤ dig m → -1074 ≤ e →
  binary_round 53 1024 false m e = binary_round_aux 53 1024 false (Zpos m) e loc_Exact.
Proof.
  intros Hd He. unfold binary_round. fold (dig m). replace (dig m + e) with (53 + (e + (dig m - 53))) by lia.
  rewrite fexp_53 by lia. unfold shl_align. by destruct (e + (dig m - 53) - e) as [|k|k] eqn:E; [| |lia].
Qed.

Lemma fmul_of_Z a b : 0 ≤ a → 0 ≤ b → a < 2 ^ 53 → b < 2 ^ 53 → a * b < 2 ^ 53 → fmul (of_Z a) (of_Z b) = of_Z (a * b).
Proof.
  intros Ha Hb Ha' Hb' Hab. destruct a as [|a|a]; [| |lia].
  { destruct b as [|b|b]; [done| |lia]. by rewrite (of_Z_pos b) by lia. }
  destruct b as [|b|b]; [|..|lia].
  { rewrite Z.mul_0_r. by rewrite (of_Z_pos a) by lia. }
  change (Zpos a * Zpos b) with (Zpos (a * b)) in *. rewrite !of_Z_pos by lia. unfold fmul, SFmul. cbn [xorb].
  pose proof (dig_bound a 53 Ha' ltac:(lia)). pose proof (dig_bound b 53 Hb' ltac:(lia)).
  pose proof (canon_Z a ltac:(lia)) as Ea. pose proof (canon_Z b ltac:(lia)) as Eb.
  assert (1 ≤ dig a ∧ 1 ≤ dig b) by (unfold dig; lia).
  assert (Zpos (canon a * canon b) = Zpos (a * b) * 2 ^ (106 - dig a - dig b)) as Em.
  { rewrite !Pos2Z.inj_mul, Ea, Eb. replace (106 - dig a - dig b) with ((53 - dig a) + (53 - dig b)) by lia.
    rewrite Z.pow_add_r by lia. ring. }
  rewrite <- round_wide.
  - replace (dig a - 53 + (dig b - 53)) with (- (106 - dig a - dig b)) by lia. apply round_scaled; [done|lia|done].
  - transitivity (dig (canon a)); [by unfold dig at 1; rewrite canon_digits|]. apply dig_mono. rewrite Pos2Z.inj_mul. nia.
  - lia.
Qed.
