(* ===== verification/GoFlag.v ===== *)
(** * GoFlag: package [flag], and integers in every base

    A flag set over a structure [C]: each flag writes one field.  [Parse] is the
    method of a [FlagSet] made with [ContinueOnError]; the text that it prints
    besides is not modelled, because the program discards it. *)

From S2P Require Import Prelude GoStrings GoNum GoFloat GoTime GoFmt.

(** ** [strconv.ParseInt(s, 0, bits)] *)

Definition digit_in (base : Z) (c : ascii) : option Z :=
  let l := code (lower_ascii c) in
  let d := if is_digit c then code c - 48
           else if (97 <=? l) && (l <=? 122) then l - 87 else 36 in
  if d <? base then Some d else None.

(** The base of a text, and its digits after the prefix. *)
Definition base_of (s : string) : Z * string :=
  match s with
  | String z s1 =>
      if negb (Ascii.eqb z "0") then (10, s)
      else match s1 with
           | String b (String _ _ as s2) =>
               let b := lower_ascii b in
               if Ascii.eqb b "b" then (2, s2)
               else if Ascii.eqb b "o" then (8, s2)
               else if Ascii.eqb b "x" then (16, s2) else (8, s1)
           | _ => (8, s1)
           end
  | "" => (10, s)
  end.

Definition ParseUint0 (bits : Z) (s : string) : outcome numError Z :=
  if String.eqb s "" then Err ErrSyntax else
  let '(base, digits) := base_of s in
  n ← uint_loop (digit_in base) base (2 ^ bits - 1) 0 (RemoveChars "_" digits);
  if contains_char "_" digits && negb (underscoreOK s) then Err ErrSyntax else Ok n.

Definition ParseInt0 (bits : Z) (s : string) : outcome numError Z :=
  if String.eqb s "" then Err ErrSyntax else
  let '(neg, u) := split_sign s in
  un ← ParseUint0 bits u;
  let cutoff := 2 ^ (bits - 1) in
  if negb neg && (cutoff <=? un) then Err ErrRange
  else if neg && (cutoff <? un) then Err ErrRange
  else Ok (if neg then - un else un).

Example ParseInt0_ex1 : map (ParseInt0 64) ["0x_1F"; "-0b101"; "017"; "1_000"; "0"]
  = [Ok 31; Ok (-5); Ok 15; Ok 1000; Ok 0].
Proof. reflexivity. Qed.
Example ParseInt0_ex2 : map (ParseInt0 64) ["08"; "1__0"; "_1"; "0x"; "9223372036854775808"; "--1"]
  = [Err ErrSyntax; Err ErrSyntax; Err ErrSyntax; Err ErrSyntax; Err ErrRange; Err ErrSyntax].
Proof. reflexivity. Qed.

Definition ParseBool (s : string) : option bool :=
  if bool_decide (s ∈ ["1"; "t"; "T"; "true"; "TRUE"; "True"]) then Some true
  else if bool_decide (s ∈ ["0"; "f"; "F"; "false"; "FALSE"; "False"]) then Some false
  else None.

(** ** Flags *)

Inductive variable (C : Type) :=
| BoolVar (set : bool → C → C) (value : bool)
| IntVar (set : Z → C → C) (value : Z)                 (* [int] and [int64] *)
| DurationVar (set : Z → C → C) (value : Z)
| Float64Var (set : float64 → C → C) (value : float64)
| StringVar (set : string → C → C) (value : string).
Arguments BoolVar {C}. Arguments IntVar {C}. Arguments DurationVar {C}.
Arguments Float64Var {C}. Arguments StringVar {C}.

Record Flag (C : Type) := MkFlag { flag_name : string; flag_var : variable C; flag_usage : string }.
Arguments MkFlag {C}. Arguments flag_name {C}. Arguments flag_var {C}. Arguments flag_usage {C}.

Section Flags.
Context {C : Type}.
Implicit Types (fs : list (Flag C)) (c : C).

(** Declaring a flag gives its variable the default value. *)
Definition flag_default (f : Flag C) (c : C) : C :=
  match flag_var f with
  | BoolVar set v => set v c
  | IntVar set v => set v c
  | DurationVar set v => set v c
  | Float64Var set v => set v c
  | StringVar set v => set v c
  end.
Definition declare_flags fs (c : C) : C := fold_left (λ c f, flag_default f c) fs c.

Definition errParse : gerror := New "parse error".
Definition flagNumError (e : numError) : gerror :=
  match e with ErrSyntax => errParse | ErrRange => New "value out of range" end.

(** [flag.Value.Set] *)
Definition flag_Set (v : variable C) (s : string) (c : C) : outcome gerror C :=
  match v with
  | BoolVar set _ => match ParseBool s with Some b => Ok (set b c) | None => Err errParse end
  | IntVar set _ => n ← map_err flagNumError (ParseInt0 64 s); Ok (set n c)
  | DurationVar set _ => d ← map_err (λ _, errParse) (ParseDuration s); Ok (set d c)
  | Float64Var set _ => x ← map_err flagNumError (ParseFloat s); Ok (set x c)
  | StringVar set _ => Ok (set s c)
  end.

Definition is_bool (v : variable C) : bool := match v with BoolVar _ _ => true | _ => false end.

Inductive flagError := ErrHelp | FlagFailed (e : gerror).

Definition lookup_flag fs (name : string) : option (Flag C) :=
  find (λ f, String.eqb (flag_name f) name) fs.

Definition starts_with (p : ascii → bool) (s : string) : bool :=
  match s with String c _ => p c | "" => false end.

(** [FlagSet.Parse]: flags are read up to the first argument that is not one. *)
Fixpoint Parse fs (args : list string) (c : C) : outcome flagError C :=
  match args with
  | [] => Ok c
  | s :: rest =>
      if (slen s <? 2) || negb (HasPrefix s "-") then Ok c
      else if String.eqb s "--" then Ok c
      else
        let name := if HasPrefix s "--" then sdrop 2 s else sdrop 1 s in
        if starts_with (λ a, Ascii.eqb a "-" || Ascii.eqb a "=") name
        then Err (FlagFailed (Errorf "bad flag syntax: %s" [AStr s]))
        else
          let '(name, value, hasValue) := Cut "=" name in
          match lookup_flag fs name with
          | None =>
              if String.eqb name "help" || String.eqb name "h" then Err ErrHelp
              else Err (FlagFailed (Errorf "flag provided but not defined: -%s" [AStr name]))
          | Some f =>
              let bad e := FlagFailed (Errorf "invalid value %q for flag -%s: %v"
                                         [AStr value; AStr name; AErr e]) in
              if is_bool (flag_var f) then
                c' ← map_err (λ e, FlagFailed (Errorf "invalid boolean value %q for -%s: %v"
                                                 [AStr value; AStr name; AErr e]))
                       (flag_Set (flag_var f) (if hasValue then value else "true") c);
                Parse fs rest c'
              else if hasValue then
                c' ← map_err bad (flag_Set (flag_var f) value c);
                Parse fs rest c'
              else match rest with
                   | [] => Err (FlagFailed (Errorf "flag needs an argument: -%s" [AStr name]))
                   | value :: rest =>
                       c' ← map_err (λ e, FlagFailed (Errorf "invalid value %q for flag -%s: %v"
                                                        [AStr value; AStr name; AErr e]))
                              (flag_Set (flag_var f) value c);
                       Parse fs rest c'
                   end
          end
  end.

(** An invariant of the structure that every flag keeps is kept by [Parse]. *)
Lemma Parse_preserves (I : C → Prop) fs args c c' :
  (∀ f s c c', f ∈ fs → flag_Set (flag_var f) s c = Ok c' → I c → I c') →
  Parse fs args c = Ok c' → I c → I c'.
Proof.
  intros Hset. revert c. induction args as [args IH] using (induction_ltof1 _ length).
  unfold ltof in IH. destruct args as [|s rest]; intros c; cbn [Parse]; [by intros [= ->]|].
  destruct (_ || _); [by intros [= ->]|]. destruct (String.eqb s "--"); [by intros [= ->]|].
  destruct (starts_with _ _); [done|]. destruct (Cut "=" _) as [[name value] hv].
  destruct (lookup_flag fs name) as [f|] eqn:Hf; [|by destruct (_ || _)].
  assert (∀ (b : gerror → flagError) v r, (length r < length (s :: rest))%nat →
    (c1 ← map_err b (flag_Set (flag_var f) v c); Parse fs r c1) = Ok c' → I c → I c') as Hone.
  { intros b v r Hr (c1 & E1 & E)%outcome_bind_Ok Hc. apply (IH r Hr c1 E).
    destruct (flag_Set (flag_var f) v c) eqn:E2; [|done..]. injection E1 as <-.
    eapply Hset, Hc; [|exact E2]. apply list_elem_of_In. by eapply find_some. }
  destruct (is_bool _); [by apply Hone; cbn; lia|].
  destruct hv; [by apply Hone; cbn; lia|]. destruct rest as [|v rest]; [done|].
  apply (Hone _ v rest). cbn. lia.
Qed.

(** ** Usage *)

Context `{GoStd}.

(** [FormatFloat(x, 'g', -1, 64)] for the whole numbers that are defaults here. *)
Definition formatG (x : float64) : string :=
  match ftrunc x with Some n => Itoa n | None => "" end.

Definition isZeroValue (v : variable C) : bool :=
  match v with
  | BoolVar _ b => negb b
  | IntVar _ n | DurationVar _ n => n =? 0
  | Float64Var _ x => SFeqb x fzero
  | StringVar _ s => String.eqb s ""
  end.
Definition defValue (v : variable C) : string :=
  match v with
  | BoolVar _ b => if b then "true" else "false"
  | IntVar _ n => Itoa n
  | DurationVar _ d => DurationString d
  | Float64Var _ x => formatG x
  | StringVar _ s => Quote s
  end.
(** [UnquoteUsage], for usages without back quotes. *)
Definition typeName (v : variable C) : string :=
  match v with
  | BoolVar _ _ => ""
  | IntVar _ _ => "int"
  | DurationVar _ _ => "duration"
  | Float64Var _ _ => "float"
  | StringVar _ _ => "string"
  end.

Definition flag_line (f : Flag C) : string :=
  let name := typeName (flag_var f) in
  let head := "  -" +:+ flag_name f +:+ (if nonempty name then " " +:+ name else "") in
  head +:+ (if slen head <=? 4 then str1 (chr 9) else str1 LF +:+ "    " +:+ str1 (chr 9))
    +:+ flag_usage f
    +:+ (if isZeroValue (flag_var f) then "" else " (default " +:+ defValue (flag_var f) +:+ ")")
    +:+ str1 LF.

Definition flag_le (f g : Flag C) : Prop := String.leb (flag_name f) (flag_name g) = true.
#[export] Instance flag_le_dec : RelDecision flag_le.
Proof. intros f g. unfold flag_le. apply _. Defined.

(** [VisitAll] goes through the flags in the order of their names. *)
Definition Usage (name : string) fs : string :=
  "Usage of " +:+ name +:+ ":" +:+ str1 LF +:+ Join "" (map flag_line (merge_sort flag_le fs)).
End Flags.
