(* ===== verification/RateLimit.v ===== *)
(** * RateLimit: the per-IP token buckets

    Models [ratelimit.go].  Instants are integers of nanoseconds and tokens are
    [float64].  The map of buckets is a [gmap]; the order in which Go iterates
    over it is an argument of the operations whose result depends on it.  The
    mutex makes each operation atomic; requests and the background cleanup interleave
    as the steps of [limiter_step]. *)

From S2P Require Import Prelude GoStrings GoNum GoFloat GoTime GoFmt GoNet.

Record RateLimiterConfig := MkRateLimiterConfig {
  Rate : float64;
  Burst : Z;
  MaxTrackedIPs : Z;
  EntryLifetime : Z;
  CleanupInterval : Z;
  UseSubnets : bool;
}.

Record tokenBucket := MkTokenBucket {
  tokens : float64;
  maxTokens : float64;
  refillRate : float64;
  lastRefill : Z;
}.

(** [now.Sub(t)]: a difference that does not fit saturates. *)
Definition time_Sub (now t : Z) : Z := Z.max minInt64 (Z.min maxInt64 (now - t)).

Definition bucket_allow (b : tokenBucket) (now : Z) : bool * tokenBucket :=
  let elapsed := Seconds (time_Sub now (lastRefill b)) in
  let t := fadd (tokens b) (fmul elapsed (refillRate b)) in
  let t := if fltb (maxTokens b) t then maxTokens b else t in
  if fltb t fone then (false, MkTokenBucket t (maxTokens b) (refillRate b) now)
  else (true, MkTokenBucket (fsub t fone) (maxTokens b) (refillRate b) now).

Record rateLimitEntry := MkRateLimitEntry {
  bucket : tokenBucket;
  lastSeen : Z;
}.

Record ipRateLimiter := MkIPRateLimiter {
  rate : float64;
  burst : float64;
  buckets : gmap string rateLimitEntry;
  maxEntries : Z;
  entryLifetime : Z;
}.

Definition newIPRateLimiter (cfg : RateLimiterConfig) : ipRateLimiter :=
  MkIPRateLimiter (Rate cfg) (of_Z (Burst cfg)) ∅ (MaxTrackedIPs cfg) (EntryLifetime cfg).

Definition set_buckets (m : gmap string rateLimitEntry) (rl : ipRateLimiter) : ipRateLimiter :=
  MkIPRateLimiter (rate rl) (burst rl) m (maxEntries rl) (entryLifetime rl).

Definition entries (rl : ipRateLimiter) : Z := Z.of_nat (size (buckets rl)).

Definition evictExpiredLocked (now : Z) (rl : ipRateLimiter) : ipRateLimiter :=
  let cutoff := now + wrap64 (- entryLifetime rl) in
  set_buckets (filter (λ kv, ¬ lastSeen kv.2 < cutoff) (buckets rl)) rl.

(** The loop of [evictOldestLocked] over the keys in iteration order. *)
Fixpoint oldest (m : gmap string rateLimitEntry) (order : list string)
    (best : option (string * Z)) : option (string * Z) :=
  match order with
  | [] => best
  | k :: order' =>
      match m !! k with
      | None => oldest m order' best
      | Some e =>
          let better := match best with
                        | None => true
                        | Some (_, t) => lastSeen e <? t
                        end in
          oldest m order' (if better then Some (k, lastSeen e) else best)
      end
  end.

Definition evictOldestLocked (order : list string) (rl : ipRateLimiter) : ipRateLimiter :=
  let oldestKey := match oldest (buckets rl) order None with Some (k, _) => k | None => "" end in
  if String.eqb oldestKey "" then rl else set_buckets (delete oldestKey (buckets rl)) rl.

Definition makeRoom (now : Z) (order : list string) (rl : ipRateLimiter) : ipRateLimiter :=
  let rl := if maxEntries rl <=? entries rl then evictExpiredLocked now rl else rl in
  if maxEntries rl <=? entries rl then evictOldestLocked order rl else rl.

Definition allow (order : list string) (key : string) (now : Z) (rl : ipRateLimiter)
    : bool * ipRateLimiter :=
  match buckets rl !! key with
  | None =>
      let rl := makeRoom now order rl in
      let entry := MkRateLimitEntry
        (MkTokenBucket (fsub (burst rl) fone) (burst rl) (rate rl) now) now in
      (true, set_buckets (<[key := entry]> (buckets rl)) rl)
  | Some e =>
      let '(ok, b) := bucket_allow (bucket e) now in
      (ok, set_buckets (<[key := MkRateLimitEntry b now]> (buckets rl)) rl)
  end.

(** ** The limiter and its cleanup

    The goroutine of [startCleanup]: a ticker puts a tick into a channel that holds one, in
    which a tick that is not received in time is lost; for every tick the expired entries
    go, until the channel [done] is closed. *)

(** The order in which a map is iterated holds all its keys. *)
Definition covers {A} (order : list string) (m : gmap string A) : Prop :=
  ∀ k, is_Some (m !! k) → k ∈ order.

Record limiterState := MkLimiterState {
  limiter : ipRateLimiter;
  clock : Z;
  ticker : option Z;          (* the next tick, while the goroutine runs *)
  tickC : bool;
}.

(** [served]: the keys of the requests. *)
Inductive limiter_step (interval : Z) (served : string → Prop) : limiterState → limiterState → Prop :=
| request_step order key s :
    served key → covers order (buckets (limiter s)) →
    limiter_step interval served s
      (MkLimiterState (allow order key (clock s) (limiter s)).2 (clock s) (ticker s) (tickC s))
| clock_step d s :
    0 < d → limiter_step interval served s (MkLimiterState (limiter s) (clock s + d) (ticker s) (tickC s))
| tick_step next s :
    ticker s = Some next → next ≤ clock s →
    limiter_step interval served s (MkLimiterState (limiter s) (clock s) (Some (next + interval)) true)
| cleanup_step s :
    ticker s ≠ None → tickC s = true →
    limiter_step interval served s
      (MkLimiterState (evictExpiredLocked (clock s) (limiter s)) (clock s) (ticker s) false)
| stop_step s :
    limiter_step interval served s (MkLimiterState (limiter s) (clock s) None (tickC s)).

Definition startCleanup (cfg : RateLimiterConfig) (now : Z) : option Z :=
  if 0 <? CleanupInterval cfg then Some (now + CleanupInterval cfg) else None.

Definition started (cfg : RateLimiterConfig) (now : Z) : limiterState :=
  MkLimiterState (newIPRateLimiter cfg) now (startCleanup cfg now) false.

(** The key of an address: itself, or its /24 or /64 network. *)
Definition normalizeIPForRateLimit (rawIP : string) (useSubnets : bool) : string :=
  if negb useSubnets then rawIP
  else match ParseIP rawIP with
       | None => rawIP
       | Some (V4 a) => IPString (V4 (mask_to 32 24 a)) +:+ "/24"
       | Some (V6 a) => IPString (of_128 (mask_to 128 64 a)) +:+ "/64"
       end.
