(* ===== verification/RateLimitSpec.v ===== *)
(** * RateLimitSpec: what the rate limiter promises

    The number of tracked addresses is bounded, unless the empty key is among
    them; and of the requests of one instant exactly the burst is allowed. *)

From S2P Require Import Prelude GoStrings GoNum GoFloat GoTime GoFmt GoNet FloatInt RateLimit.

(** ** Tracked entries *)

(** The loop finds a key of the map when there is one in the order. *)
Lemma oldest_in m order best k t :
  oldest m order best = Some (k, t) →
  best = Some (k, t) ∨ (∃ e, m !! k = Some e ∧ lastSeen e = t).
Proof.
  revert best. induction order as [|k' order IH]; intros best; cbn [oldest]; [by left|].
  destruct (m !! k') as [e|] eqn:E; [|apply IH].
  intros H%IH. destruct H as [H|H]; [|by right].
  destruct best as [[kb tb]|]; [destruct (lastSeen e <? tb)|]; try by left.
  all: injection H as -> <-; right; eauto.
Qed.

Lemma oldest_Some m order best :
  (is_Some best ∨ ∃ k, k ∈ order ∧ is_Some (m !! k)) → is_Some (oldest m order best).
Proof.
  revert best. induction order as [|k' order IH]; intros best; cbn [oldest].
  - intros [?|(k & H & _)]; [done|]. by apply elem_of_nil in H.
  - intros H. destruct (m !! k') as [e|] eqn:E; apply IH.
    + left. destruct best as [[kb tb]|]; [by destruct (lastSeen e <? tb)|done].
    + destruct H as [?|(k & [->|Hk]%elem_of_cons & Hm)]; [by left| |right; eauto].
      rewrite E in Hm. by destruct Hm.
Qed.

Lemma evictOldest_room order rl :
  covers order (buckets rl) → buckets rl !! "" = None → 1 ≤ entries rl →
  entries (evictOldestLocked order rl) = entries rl - 1.
Proof.
  intros Hc He Hn. unfold evictOldestLocked.
  assert (is_Some (oldest (buckets rl) order None)) as [[k t] Hk].
  { apply oldest_Some. right. destruct (decide (buckets rl = ∅)) as [E|E].
    - unfold entries in Hn. rewrite E in Hn. done.
    - apply map_choose in E as (k & e & Hk). exists k. split; [|by eexists]. apply Hc. by eexists. }
  rewrite Hk. apply oldest_in in Hk as [|(e & Hk & _)]; [done|].
  destruct (String.eqb_spec k "") as [->|_]; [congruence|].
  unfold entries in *. cbn [buckets set_buckets]. rewrite map_size_delete_Some by done. lia.
Qed.

Definition no_empty_key (rl : ipRateLimiter) : Prop := buckets rl !! "" = None.

(** The cleanup only removes. *)
Lemma evictExpired_bounds now rl :
  let rl' := evictExpiredLocked now rl in
  entries rl' ≤ entries rl ∧ maxEntries rl' = maxEntries rl ∧ (no_empty_key rl → no_empty_key rl').
Proof.
  intros rl'. assert (buckets rl' ⊆ buckets rl) as Hsub by apply map_filter_subseteq.
  split; [|split; [done|]].
  - apply map_subseteq_size in Hsub. unfold entries. lia.
  - intros Hk. apply eq_None_not_Some. intros [e He]. unfold no_empty_key in Hk.
    by rewrite (lookup_weaken _ _ _ _ He Hsub) in Hk.
Qed.

Lemma makeRoom_spec now order rl :
  covers order (buckets rl) → no_empty_key rl → 1 ≤ maxEntries rl → entries rl ≤ maxEntries rl →
  let rl' := makeRoom now order rl in
  entries rl' ≤ maxEntries rl' - 1 ∧ maxEntries rl' = maxEntries rl ∧ no_empty_key rl'.
Proof.
  intros Hc He Hm Hn. unfold makeRoom. destruct (maxEntries rl <=? entries rl) eqn:E1; reflect_bools.
  - set (rl1 := evictExpiredLocked now rl).
    assert (buckets rl1 ⊆ buckets rl) as Hsub by apply map_filter_subseteq.
    assert (entries rl1 ≤ entries rl) as Hle by (unfold entries; apply map_subseteq_size in Hsub; lia).
    assert (no_empty_key rl1) as He1.
    { apply eq_None_not_Some. intros [e Hs]. unfold no_empty_key in He.
      rewrite (lookup_weaken _ _ _ _ Hs Hsub) in He. done. }
    assert (maxEntries rl1 = maxEntries rl) as Hm1 by done.
    destruct (maxEntries rl1 <=? entries rl1) eqn:E2; reflect_bools.
    + assert (covers order (buckets rl1)) as Hc1.
      { intros k [e Hk]. apply Hc. exists e. by eapply lookup_weaken. }
      assert (maxEntries (evictOldestLocked order rl1) = maxEntries rl) as Hm2
        by (unfold evictOldestLocked; by destruct (String.eqb _ "")).
      cbn zeta. rewrite Hm2, evictOldest_room by (done || lia). split; [lia|]. split; [done|].
      unfold evictOldestLocked. destruct (String.eqb _ ""); [done|].
      unfold no_empty_key. cbn [buckets set_buckets]. apply eq_None_not_Some.
      rewrite lookup_delete_is_Some. intros [_ [e H]]. unfold no_empty_key in He1. by rewrite H in He1.
    + cbn zeta. split; [lia|]. by split.
  - destruct (maxEntries rl <=? entries rl) eqn:E2; reflect_bools; [lia|]. cbn zeta. split; [lia|].
    by split.
Qed.

Lemma allow_bounded order key now rl :
  covers order (buckets rl) → no_empty_key rl → key ≠ "" →
  1 ≤ maxEntries rl → entries rl ≤ maxEntries rl →
  let rl' := (allow order key now rl).2 in
  entries rl' ≤ maxEntries rl' ∧ maxEntries rl' = maxEntries rl ∧ no_empty_key rl'.
Proof.
  intros Hc He Hk Hm Hn. unfold allow. destruct (buckets rl !! key) as [e|] eqn:E.
  - destruct (bucket_allow (bucket e) now) as [ok b]. cbn [snd].
    unfold entries, no_empty_key. cbn [buckets maxEntries set_buckets].
    rewrite map_size_insert_Some by done. split; [done|]. split; [done|].
    by rewrite lookup_insert_ne.
  - destruct (makeRoom_spec now order rl Hc He Hm Hn) as (H1 & H2 & H3). cbn zeta.
    set (rl1 := makeRoom now order rl) in *. cbn [snd].
    unfold entries, no_empty_key in *. cbn [buckets maxEntries set_buckets].
    rewrite lookup_insert_ne by done. split; [|by split].
    rewrite map_size_insert. destruct (buckets rl1 !! key); unfold id; lia.
Qed.

(** ** Requests and cleanups *)

Definition seen_before (t : Z) (rl : ipRateLimiter) : Prop := map_Forall (λ _ e, lastSeen e ≤ t) (buckets rl).

Lemma seen_subset t rl m : m ⊆ buckets rl → seen_before t rl → seen_before t (set_buckets m rl).
Proof. intros Hm Hs k e Hk. apply (Hs k). by eapply lookup_weaken. Qed.

Lemma makeRoom_subset now order rl : buckets (makeRoom now order rl) ⊆ buckets rl.
Proof.
  assert (∀ rl1, buckets (evictOldestLocked order rl1) ⊆ buckets rl1) as Ho.
  { intros rl1. unfold evictOldestLocked. destruct (String.eqb _ ""); [done|]. apply delete_subseteq. }
  assert (∀ rl1, buckets (evictExpiredLocked now rl1) ⊆ buckets rl1) as He by (intros; apply map_filter_subseteq).
  unfold makeRoom. destruct (maxEntries rl <=? entries rl).
  - destruct (_ <=? _); [etrans; [apply Ho|apply He]|apply He].
  - destruct (_ <=? _); [apply Ho|done].
Qed.

Lemma allow_seen order key now rl : seen_before now rl → seen_before now (allow order key now rl).2.
Proof.
  intros Hs. unfold allow. destruct (buckets rl !! key) as [e|].
  - destruct (bucket_allow _ _). apply map_Forall_insert_2; [|done]. cbn. lia.
  - apply map_Forall_insert_2; [cbn; lia|]. apply (seen_subset now rl); [apply makeRoom_subset|done].
Qed.

Lemma allow_lifetime order key now rl : entryLifetime (allow order key now rl).2 = entryLifetime rl.
Proof.
  unfold allow. destruct (buckets rl !! key); [by destruct (bucket_allow _ _)|].
  unfold makeRoom. destruct (maxEntries rl <=? entries rl); destruct (_ <=? _); cbn; try done;
    unfold evictOldestLocked; by destruct (String.eqb _ "").
Qed.

(** A cleanup removes exactly the entries that were not seen within the lifetime. *)
Lemma evictExpired_exactly now rl k e :
  0 ≤ entryLifetime rl ≤ maxInt64 →
  buckets (evictExpiredLocked now rl) !! k = Some e ↔
  buckets rl !! k = Some e ∧ now - entryLifetime rl ≤ lastSeen e.
Proof.
  intros Hl. cbn [evictExpiredLocked buckets set_buckets]. rewrite map_lookup_filter_Some. cbn [snd].
  rewrite wrap64_id by (unfold in_int64, minInt64, maxInt64 in *; lia).
  split; intros [??]; split; (done || lia).
Qed.

Record limiter_ok (cfg : RateLimiterConfig) (s : limiterState) : Prop := {
  lok_bound : entries (limiter s) ≤ maxEntries (limiter s);
  lok_max : maxEntries (limiter s) = MaxTrackedIPs cfg;
  lok_key : no_empty_key (limiter s);
  lok_seen : seen_before (clock s) (limiter s);
  lok_life : entryLifetime (limiter s) = EntryLifetime cfg;
}.

Lemma limiter_step_ok cfg served s s' :
  1 ≤ MaxTrackedIPs cfg → ¬ served "" → limiter_step (CleanupInterval cfg) served s s' →
  limiter_ok cfg s → limiter_ok cfg s'.
Proof.
  intros Hmax Hserved Hstep [Hb Hm Hk Hs Hl].
  destruct Hstep as [order key s Hkey Hc|d s Hd|next s Hn Ht|s Hr Ht|s]; try by split.
  - destruct (allow_bounded order key (clock s) (limiter s)) as (H1 & H2 & H3); [done|done| |by rewrite Hm|done|].
    { intros ->. by apply Hserved. }
    split; cbn [limiter clock]; [done|by rewrite H2|done|by apply allow_seen|by rewrite allow_lifetime].
  - split; cbn [limiter clock]; try done. intros k e He. specialize (Hs k e He). cbn in *. lia.
  - destruct (evictExpired_bounds (clock s) (limiter s)) as (H1 & H2 & H3).
    split; cbn [limiter clock]; [lia|by rewrite H2|by apply H3|apply seen_subset, Hs; apply map_filter_subseteq|done].
Qed.

(** (C17) However requests, ticks and cleanups interleave from the start of a limiter, it
    tracks at most the configured number of addresses, as long as no request has the empty
    key; and a cleanup removes exactly the entries that were not seen for the lifetime, so
    that it resets the bucket of no address that is active. *)
Theorem limiter_bounded cfg served now s :
  1 ≤ MaxTrackedIPs cfg → ¬ served "" → 0 ≤ EntryLifetime cfg ≤ maxInt64 →
  rtc (limiter_step (CleanupInterval cfg) served) (started cfg now) s →
  entries (limiter s) ≤ MaxTrackedIPs cfg ∧
  ∀ k e, buckets (evictExpiredLocked (clock s) (limiter s)) !! k = Some e ↔
         buckets (limiter s) !! k = Some e ∧ clock s - lastSeen e ≤ EntryLifetime cfg.
Proof.
  intros Hmax Hserved Hl Hsteps.
  assert (limiter_ok cfg s) as [Hb Hm _ _ Hlife].
  { eapply (rtc_preserves (limiter_ok cfg)); [|exact Hsteps|].
    - intros s1 s2 H12. by eapply limiter_step_ok.
    - split; [change (0 ≤ MaxTrackedIPs cfg); lia|done|done|apply map_Forall_empty|done]. }
  split; [lia|]. intros k e. rewrite evictExpired_exactly by lia. rewrite Hlife. split; intros [??]; split; (done || lia).
Qed.

(** The empty key is the oldest, and nothing has expired. *)
Definition empty_key_oldest (now : Z) (rl : ipRateLimiter) : Prop :=
  ∃ e0, buckets rl !! "" = Some e0 ∧
    (∀ k e, buckets rl !! k = Some e → k ≠ "" → lastSeen e0 < lastSeen e) ∧
    (∀ k e, buckets rl !! k = Some e → now + wrap64 (- entryLifetime rl) ≤ lastSeen e).

Lemma evictExpired_none now rl :
  (∀ k e, buckets rl !! k = Some e → now + wrap64 (- entryLifetime rl) ≤ lastSeen e) →
  evictExpiredLocked now rl = rl.
Proof.
  intros H. unfold evictExpiredLocked. destruct rl as [r b m mx el]. unfold set_buckets. cbn in *.
  f_equal. apply map_filter_id. intros k e Hk. specialize (H k e Hk). cbn. lia.
Qed.

Lemma oldest_empty m order e0 best :
  m !! "" = Some e0 → (∀ k e, m !! k = Some e → k ≠ "" → lastSeen e0 < lastSeen e) →
  (best = Some ("", lastSeen e0) ∨
   "" ∈ order ∧ ∀ k t, best = Some (k, t) → lastSeen e0 < t) →
  oldest m order best = Some ("", lastSeen e0).
Proof.
  intros H0 Hmin. revert best. induction order as [|k order IH]; intros best Hb; cbn [oldest].
  - destruct Hb as [->|[Hb _]]; [done|by apply elem_of_nil in Hb].
  - destruct (m !! k) as [e|] eqn:E.
    + apply IH. destruct (decide (k = "")) as [->|Hk].
      * left. rewrite H0 in E. injection E as <-. destruct Hb as [->|[_ Hb]].
        -- by rewrite Z.ltb_irrefl.
        -- destruct best as [[kb tb]|]; [|done]. specialize (Hb kb tb eq_refl). by ztest.
      * specialize (Hmin k e E Hk). destruct Hb as [->|[Hin Hb]].
        -- left. by ztest.
        -- right. apply elem_of_cons in Hin as [|Hin]; [done|]. split; [done|].
           intros k' t'. destruct best as [[kb tb]|]; [|by intros [= _ <-]].
           specialize (Hb kb tb eq_refl). destruct (lastSeen e <? tb); intros [= _ <-]; lia.
    + apply IH. destruct Hb as [Hb|[Hin Hb]]; [by left|right; split; [|done]].
      apply elem_of_cons in Hin as [<-|Hin]; [|done]. congruence.
Qed.

(** The empty key breaks the bound.  It stands for a client whose address is
    empty, which X-Forwarded-For: "," gives when no proxies are configured.  Once
    its entry is the oldest one, nothing is ever evicted: every new key adds an
    entry, however many there are. *)
Theorem empty_key_leaks order key now rl :
  covers order (buckets rl) → empty_key_oldest now rl → buckets rl !! key = None →
  let rl' := (allow order key now rl).2 in
  entries rl' = entries rl + 1 ∧ (lastSeen <$> buckets rl' !! "") = (lastSeen <$> buckets rl !! "").
Proof.
  intros Hc (e0 & H0 & Hmin & Hexp) Hk.
  assert (makeRoom now order rl = rl) as Hroom.
  { unfold makeRoom. rewrite evictExpired_none by done.
    destruct (maxEntries rl <=? entries rl) eqn:E; [|by rewrite E]. rewrite E.
    unfold evictOldestLocked. rewrite (oldest_empty _ _ e0); [done..|].
    right. split; [|done]. apply Hc. by exists e0. }
  unfold allow. rewrite Hk, Hroom. cbn zeta. cbn [snd]. unfold entries. cbn [buckets set_buckets].
  rewrite map_size_insert_None by done. split; [lia|].
  rewrite lookup_insert_ne; [done|]. intros ->. congruence.
Qed.

(** ** The burst *)

Definition finite_rate (x : float64) : Prop :=
  match x with S754_zero _ | S754_finite _ _ _ => True | _ => False end.

Lemma bucket_same_instant (t B : Z) r now :
  0 ≤ t ≤ B → B < 2 ^ 53 → finite_rate r →
  bucket_allow (MkTokenBucket (of_Z t) (of_Z B) r now) now
  = (1 <=? t, MkTokenBucket (of_Z (if 1 <=? t then t - 1 else t)) (of_Z B) r now).
Proof.
  intros Ht HB Hr. unfold bucket_allow. cbn [tokens maxTokens refillRate lastRefill].
  replace (time_Sub now now) with 0 by (unfold time_Sub, minInt64, maxInt64; lia).
  change (Seconds 0) with (S754_zero false).
  assert (∃ s, fmul (S754_zero false) r = S754_zero s) as [s ->]
    by (destruct r; try done; eexists; reflexivity).
  rewrite fadd_of_Z_zero by lia. rewrite fltb_of_Z by lia. ztest.
  change fone with (of_Z 1). rewrite fltb_of_Z by lia.
  destruct (Z.ltb_spec t 1); ztest; [done|]. by rewrite fsub_of_Z by lia.
Qed.

(** The bucket of [key] after a request at the instant [now]: [t] of [B] tokens are left. *)
Definition holds_tokens (key : string) (now t B : Z) (rl : ipRateLimiter) : Prop :=
  buckets rl !! key = Some (MkRateLimitEntry (MkTokenBucket (of_Z t) (of_Z B) (rate rl) now) now).

Lemma allow_known order key last t B now rl ok b :
  holds_tokens key last t B rl → bucket_allow (MkTokenBucket (of_Z t) (of_Z B) (rate rl) last) now = (ok, b) →
  allow order key now rl = (ok, set_buckets (<[key := MkRateLimitEntry b now]> (buckets rl)) rl).
Proof. intros Hk Hb. unfold allow. rewrite Hk. cbn [bucket]. by rewrite Hb. Qed.

(** A new client has the whole burst. *)
Definition new_client (key : string) (B : Z) (rl : ipRateLimiter) : Prop :=
  burst rl = of_Z B ∧ buckets rl !! key = None.

Lemma allow_first order key now rl (B : Z) :
  new_client key B rl → 1 ≤ B < 2 ^ 53 →
  let '(ok, rl') := allow order key now rl in ok = true ∧ holds_tokens key now (B - 1) B rl' ∧ rate rl' = rate rl.
Proof.
  intros [Hb Hk] HB. unfold allow. rewrite Hk. set (rl1 := makeRoom now order rl).
  assert (burst rl1 = burst rl ∧ rate rl1 = rate rl) as [Hb1 Hr1].
  { unfold rl1, makeRoom, evictOldestLocked. by repeat case_match. }
  split; [done|]. split; [|done]. unfold holds_tokens. cbn [buckets set_buckets rate].
  rewrite lookup_insert_eq, Hb1, Hb. change fone with (of_Z 1). by rewrite fsub_of_Z by lia.
Qed.

(** *** At one instant *)

Definition may_ask (key : string) (now t B : Z) (rl : ipRateLimiter) : Prop :=
  finite_rate (rate rl) ∧ (holds_tokens key now t B rl ∨ t = B ∧ new_client key B rl).

Lemma allow_same_instant order key now t B rl :
  may_ask key now t B rl → 0 ≤ t ≤ B → 1 ≤ B < 2 ^ 53 →
  let '(ok, rl') := allow order key now rl in
  ok = (1 <=? t) ∧ may_ask key now (if 1 <=? t then t - 1 else t) B rl'.
Proof.
  intros [Hr [Hh|[-> Hn]]] Ht HB.
  - rewrite (allow_known order key now t B now rl _ _ Hh (bucket_same_instant t B _ now Ht ltac:(lia) Hr)).
    split; [done|]. split; [done|]. left. unfold holds_tokens. cbn [buckets set_buckets rate]. by rewrite lookup_insert_eq.
  - pose proof (allow_first order key now rl B Hn HB) as Ha.
    destruct (allow order key now rl) as [ok rl']. destruct Ha as (-> & Ha & E). ztest. split; [done|].
    split; [by rewrite E|by left].
Qed.

(** *** At whole seconds *)

(** [t] tokens of [B], [k] seconds later, at a rate of [R] in a second. *)
Definition refilled (R B t k : Z) : Z := Z.min B (t + k * R).

Lemma Seconds_whole k : 0 ≤ k < 2 ^ 53 → Seconds (k * Second) = of_Z k.
Proof.
  intros Hk. unfold Seconds. change Second with 1000000000. rewrite Z.quot_mul, Z.rem_mul by lia.
  change (fdiv (of_Z 0) (of_Z 1000000000)) with (S754_zero false). by apply fadd_of_Z_zero.
Qed.

Lemma bucket_whole_seconds t B R last k :
  0 ≤ t ≤ B → 0 ≤ R < 2 ^ 53 → 0 ≤ k → k * Second ≤ maxInt64 → B + k * R < 2 ^ 53 →
  bucket_allow (MkTokenBucket (of_Z t) (of_Z B) (of_Z R) last) (last + k * Second)
  = (let n := refilled R B t k in
     (1 <=? n, MkTokenBucket (of_Z (if 1 <=? n then n - 1 else n)) (of_Z B) (of_Z R) (last + k * Second))).
Proof.
  intros Ht HR Hk Hmax HB. unfold bucket_allow. cbn [tokens maxTokens refillRate lastRefill].
  assert (0 ≤ k < 2 ^ 53) as Hk53 by (unfold Second, maxInt64 in *; lia).
  replace (time_Sub (last + k * Second) last) with (k * Second) by (unfold time_Sub, minInt64, maxInt64, Second in *; lia).
  assert (0 ≤ k * R) as HkR by nia.
  rewrite Seconds_whole, fmul_of_Z, fadd_of_Z, fltb_of_Z by lia. change fone with (of_Z 1). unfold refilled.
  destruct (Z.ltb_spec B (t + k * R)).
  - rewrite Z.min_l, fltb_of_Z by lia. destruct (Z.ltb_spec B 1); ztest; [done|]. by rewrite fsub_of_Z by lia.
  - rewrite Z.min_r, fltb_of_Z by lia. destruct (Z.ltb_spec (t + k * R) 1); ztest; [done|]. by rewrite fsub_of_Z by lia.
Qed.

Definition may_ask_at (key : string) (last t R B : Z) (rl : ipRateLimiter) : Prop :=
  rate rl = of_Z R ∧ (holds_tokens key last t B rl ∨ t = B ∧ new_client key B rl).

Lemma allow_whole_seconds order key last t R B k rl :
  may_ask_at key last t R B rl → 0 ≤ t ≤ B → 1 ≤ B → 0 ≤ R < 2 ^ 53 → 0 ≤ k → k * Second ≤ maxInt64 → B + k * R < 2 ^ 53 →
  let '(ok, rl') := allow order key (last + k * Second) rl in
  let n := refilled R B t k in
  ok = (1 <=? n) ∧ may_ask_at key (last + k * Second) (if 1 <=? n then n - 1 else n) R B rl'.
Proof.
  intros [Hr Hc] Ht HB1 HR Hk Hmax HB. pose proof (bucket_whole_seconds t B R last k Ht HR Hk Hmax HB) as Hb. cbv zeta in Hb |- *.
  destruct Hc as [Hh|[-> Hn]].
  - rewrite <- Hr in Hb at 1. rewrite (allow_known order key last t B _ rl _ _ Hh Hb).
    split; [done|]. split; [done|]. left. unfold holds_tokens. cbn [buckets set_buckets rate]. by rewrite lookup_insert_eq, Hr.
  - assert (refilled R B B k = B) as -> by (unfold refilled; nia). ztest.
    pose proof (allow_first order key (last + k * Second) rl B Hn ltac:(nia)) as Ha.
    destruct (allow order key _ rl) as [ok rl']. destruct Ha as (-> & Ha & E). split; [done|]. split; [by rewrite E|by left].
Qed.

(** ** Witnesses *)

Definition sample_limiter (l : list (string * Z)) : ipRateLimiter :=
  MkIPRateLimiter (of_Z 10) (of_Z 3)
    (list_to_map (map (λ kt, (kt.1, MkRateLimitEntry
      (MkTokenBucket (of_Z 1) (of_Z 3) (of_Z 10) kt.2) kt.2)) l)) 2 (60 * Second).

Lemma limiter_bounded_witness :
  let cfg := MkRateLimiterConfig (of_Z 10) 3 1 (60 * Second) (30 * Second) false in
  ∃ s, rtc (limiter_step (30 * Second) (λ k, k ≠ "")) (started cfg 0) s ∧
    clock s = 30 * Second ∧ entries (limiter s) = 1 ∧ entries (limiter s) ≤ MaxTrackedIPs cfg.
Proof.
  intros cfg. set (rl := (allow [] "a" 0 (newIPRateLimiter cfg)).2).
  set (s := MkLimiterState (evictExpiredLocked (30 * Second) rl) (30 * Second) (Some (60 * Second)) false).
  exists s. assert (rtc (limiter_step (30 * Second) (λ k, k ≠ "")) (started cfg 0) s) as Hs.
  { eapply rtc_l; [apply (request_step _ _ [] "a"); [done|by intros k [? [=]]]|].
    eapply rtc_l; [by apply (clock_step _ _ (30 * Second))|].
    eapply rtc_l; [by apply (tick_step _ _ (30 * Second))|].
    apply rtc_once. by apply (cleanup_step (30 * Second) _ (MkLimiterState rl (30 * Second) (Some (60 * Second)) true)). }
  split; [exact Hs|]. split; [reflexivity|]. split; [by vm_compute|].
  apply (limiter_bounded cfg (λ k, k ≠ "") 0 s); [discriminate|intros Hk; exact (Hk eq_refl)|split; discriminate|exact Hs].
Defined.

Lemma empty_key_leaks_witness :
  entries (allow ["b"; ""] "c" 10 (sample_limiter [("", 5); ("b", 7)])).2 = 3.
Proof.
  apply (empty_key_leaks ["b"; ""] "c" 10 (sample_limiter [("", 5); ("b", 7)])).
  - intros k [e Hk]. apply elem_of_list_to_map_2 in Hk. cbn in Hk. set_solver.
  - eexists. split; [reflexivity|].
    split; intros k e Hk; apply elem_of_list_to_map_2 in Hk; cbn in Hk;
      repeat (apply elem_of_cons in Hk as [[= -> ->]|Hk]; [vm_compute; congruence|]);
      by apply elem_of_nil in Hk.
  - reflexivity.
Defined.
