(* ===== verification/Cache.v ===== *)
(** * Cache: the bounded cache, and the gradients that key it

    [boundedCache], [parseHexColor] and [parseGradientConfig] of [helpers.go].  The
    mutex makes [get] and [put] atomic; the order of iteration over the map, in which
    [put] evicts, is an argument. *)

From S2P Require Import Prelude GoStrings GoNum GoFmt GoURL.

Section Cache.
Context {K V : Type} `{Countable K}.

Record boundedCache := MkBoundedCache {
  c_entries : gmap K V;
  c_maxSize : Z;
}.

Definition newBoundedCache (maxSize : Z) : boundedCache := MkBoundedCache ∅ maxSize.

Definition cache_get (key : K) (c : boundedCache) : option V := c_entries c !! key.

(** The loop that deletes the first key of the iteration. *)
Definition evict_first (order : list K) (m : gmap K V) : gmap K V :=
  match order with [] => m | k :: _ => delete k m end.

Definition cache_put (order : list K) (key : K) (entry : V) (c : boundedCache) : boundedCache :=
  let m := if c_maxSize c <=? Z.of_nat (size (c_entries c))
           then evict_first order (c_entries c) else c_entries c in
  MkBoundedCache (<[key := entry]> m) (c_maxSize c).

(** An order of iteration: every key once. *)
Definition iterates (order : list K) (m : gmap K V) : Prop := order ≡ₚ map fst (map_to_list m).

Lemma evict_first_size order m :
  iterates order m → Z.of_nat (size (evict_first order m)) = Z.max 0 (Z.of_nat (size m) - 1).
Proof.
  unfold iterates. intros Ho. destruct order as [|k order]; cbn [evict_first].
  - apply Permutation_nil_l in Ho. symmetry in Ho. apply fmap_nil_inv, map_to_list_empty_iff in Ho as ->.
    rewrite map_size_empty. lia.
  - assert (is_Some (m !! k)) as [v Hv].
    { assert (k ∈ map fst (map_to_list m)) as Hk by (rewrite <- Ho; set_solver).
      apply list_elem_of_fmap in Hk as ([k' v] & -> & Hk). exists v. by apply elem_of_map_to_list. }
    rewrite map_size_delete, Hv. cbn. assert (size m ≠ 0)%nat; [|lia].
    intros Hz. apply map_size_empty_inv in Hz as ->. by rewrite lookup_empty in Hv.
Qed.

(** [put] keeps the bound, holds the new entry, and otherwise only forgets. *)
Lemma cache_put_spec order key entry c :
  iterates order (c_entries c) → Z.of_nat (size (c_entries c)) ≤ Z.max 1 (c_maxSize c) →
  let c' := cache_put order key entry c in
  Z.of_nat (size (c_entries c')) ≤ Z.max 1 (c_maxSize c') ∧ cache_get key c' = Some entry ∧
  ∀ k v, k ≠ key → cache_get k c' = Some v → cache_get k c = Some v.
Proof.
  intros Ho Hn c'. subst c'. unfold cache_put, cache_get. cbn [c_entries c_maxSize].
  set (m := if _ <=? _ then _ else _).
  assert (Z.of_nat (size m) ≤ Z.max 0 (c_maxSize c - 1) ∧ ∀ k v, m !! k = Some v → c_entries c !! k = Some v)
    as [Hm Hsub].
  { unfold m. destruct (c_maxSize c <=? _) eqn:E; reflect_bools.
    - split; [rewrite evict_first_size by done; lia|]. intros k v. unfold evict_first.
      destruct order; [done|]. by intros [_ ?]%lookup_delete_Some.
    - split; [lia|done]. }
  split; [|split; [by rewrite lookup_insert_eq|]].
  - destruct (m !! key) eqn:E; [rewrite map_size_insert_Some by done|rewrite map_size_insert_None by done]; lia.
  - intros k v Hk. rewrite lookup_insert_ne by done. apply Hsub.
Qed.

(** ** Runs *)

(** What requests do to a cache; [put] evicts in any order of iteration. *)
Inductive cache_op := OpGet (key : K) | OpPut (order : list K) (key : K) (entry : V).

Definition cache_exec (o : cache_op) (c : boundedCache) : boundedCache :=
  match o with OpGet _ => c | OpPut order key entry => cache_put order key entry c end.

Definition cache_run (ops : list cache_op) (c : boundedCache) : boundedCache :=
  fold_left (λ c o, cache_exec o c) ops c.

(** The orders are orders of iteration over the maps they are used on. *)
Fixpoint well_ordered (ops : list cache_op) (c : boundedCache) : Prop :=
  match ops with
  | [] => True
  | o :: ops =>
      match o with OpPut order _ _ => iterates order (c_entries c) | _ => True end ∧
      well_ordered ops (cache_exec o c)
  end.

(** The last entry that the operations put under a key. *)
Fixpoint last_put (ops : list cache_op) (key : K) (prev : option V) : option V :=
  match ops with
  | [] => prev
  | OpGet _ :: ops => last_put ops key prev
  | OpPut _ k e :: ops => last_put ops key (if decide (k = key) then Some e else prev)
  end.

(** The cache is within its bound and holds nothing but latest entries. *)
Definition cache_ok (latest : K → option V) (c : boundedCache) : Prop :=
  Z.of_nat (size (c_entries c)) ≤ Z.max 1 (c_maxSize c) ∧
  ∀ k v, cache_get k c = Some v → latest k = Some v.

Lemma cache_run_ok ops latest c :
  well_ordered ops c → cache_ok latest c →
  cache_ok (λ k, last_put ops k (latest k)) (cache_run ops c).
Proof.
  revert latest c. induction ops as [|[k|order k e] ops IH]; intros latest c Hw Hc; [done| |].
  - apply (IH latest c); [apply Hw|done].
  - destruct Hw as [Ho Hw], Hc as [Hn Hl].
    destruct (cache_put_spec order k e c Ho Hn) as (H1 & H2 & H3).
    apply (IH (λ k', if decide (k = k') then Some e else latest k') _ Hw). split; [done|].
    intros k' v Hv. cbn [cache_exec] in Hv. case_decide as Hk; [subst k'; congruence|].
    by apply Hl, (H3 k' v).
Qed.

(** (C40) Whatever requests do to a fresh cache, and in whatever order [put] evicts, it
    holds at most its maximal number of entries (one, if the maximum is below), and a
    hit is the entry that was put last under that key. *)
Theorem cache_hits maxSize ops :
  well_ordered ops (newBoundedCache maxSize) →
  let c := cache_run ops (newBoundedCache maxSize) in
  Z.of_nat (size (c_entries c)) ≤ Z.max 1 maxSize ∧
  ∀ k v, cache_get k c = Some v → last_put ops k None = Some v.
Proof.
  intros Hw c.
  assert (∀ c0, c_maxSize (cache_run ops c0) = c_maxSize c0) as Hm.
  { clear. induction ops as [|[]]; intros c0; [done| |]; cbn; [done|]. unfold cache_run in *. by rewrite IHops. }
  destruct (cache_run_ok ops (λ _, None) (newBoundedCache maxSize) Hw) as [H1 H2].
  { split; [cbn [c_entries newBoundedCache c_maxSize]; rewrite map_size_empty; lia|]. intros k v. unfold cache_get. cbn. by rewrite lookup_empty. }
  rewrite Hm in H1. by split.
Qed.
End Cache.
Arguments boundedCache K V {_ _}.

(** ** Gradients *)

Definition color : Type := Z * Z * Z.

Record gradientConfig := MkGradientConfig {
  g_Name : string;
  g_Color1 : color;
  g_Color2 : color;
  g_Noise : Z;
}.

#[export] Instance gradientConfig_eq_dec : EqDecision gradientConfig.
Proof. solve_decision. Defined.

#[export] Instance gradientConfig_countable : Countable gradientConfig.
Proof.
  refine (inj_countable' (λ g, (g_Name g, g_Color1 g, g_Color2 g, g_Noise g))
    (λ '(n, c1, c2, k), MkGradientConfig n c1 c2 k) _). by intros [].
Defined.

Definition gradientPresets (name : string) : option gradientConfig :=
  let preset c1 c2 n := Some (MkGradientConfig name c1 c2 n) in
  if String.eqb name "warm" then preset (0xFF, 0x45, 0x00) (0xFF, 0xD7, 0x00) 48
  else if String.eqb name "cool" then preset (0x00, 0x66, 0xCC) (0x00, 0xCC, 0xFF) 48
  else if String.eqb name "sunset" then preset (0xFF, 0x63, 0x47) (0x4B, 0x00, 0x82) 32
  else if String.eqb name "forest" then preset (0x22, 0x8B, 0x22) (0x00, 0x64, 0x00) 40
  else if String.eqb name "ocean" then preset (0x00, 0x77, 0xBE) (0x20, 0xB2, 0xAA) 56
  else if String.eqb name "grayscale" then preset (0x80, 0x80, 0x80) (0x20, 0x20, 0x20) 32
  else if String.eqb name "neon" then preset (0xFF, 0x00, 0xFF) (0x00, 0xFF, 0x00) 72
  else None.

Definition defaultGradient : gradientConfig := MkGradientConfig "default" (0, 0, 0) (0, 0, 0) 64.

Section Gradient.
Context `{GoStd}.

Definition hex_pair (s : string) (i : nat) : outcome gerror Z :=
  let piece := stake 2 (sdrop (2 * i) s) in
  map_err (λ e, Errorf "invalid hex color %q: %w" [AStr s; AErr e])
    (numErr "ParseUint" piece (ParseUint16 8 piece)).

Definition parseHexColor (s : string) : outcome gerror color :=
  let s := TrimPrefix s "#" in
  if negb (slen s =? 6) then Err (Errorf "invalid hex color %q: must be 6 hex digits" [AStr s])
  else
    r ← hex_pair s 0; g ← hex_pair s 1; b ← hex_pair s 2;
    Ok (r, g, b).

Definition with_noise (noiseStr : string) (grad : gradientConfig) : outcome gerror gradientConfig :=
  if nonempty noiseStr then
    let bad := Err (Errorf "invalid noise value %q: must be 0-255" [AStr noiseStr]) in
    match Atoi noiseStr with
    | Ok n => if (n <? 0) || (255 <? n) then bad
              else Ok (MkGradientConfig (g_Name grad) (g_Color1 grad) (g_Color2 grad) n)
    | _ => bad
    end
  else Ok grad.

Definition parseGradientConfig (params : values) : outcome gerror gradientConfig :=
  let preset := Values_Get "gradient" params in
  let c1 := Values_Get "color1" params in
  let c2 := Values_Get "color2" params in
  if nonempty preset && (nonempty c1 || nonempty c2)
  then Err (Errorf "cannot combine gradient preset with color1/color2" [])
  else
    grad ←
      (if nonempty preset then
         if String.eqb preset "default" then Ok defaultGradient
         else match gradientPresets preset with
              | Some p => Ok p
              | None => Err (Errorf "unknown gradient preset: %q" [AStr preset])
              end
       else if nonempty c1 || nonempty c2 then
         if negb (nonempty c1) || negb (nonempty c2)
         then Err (Errorf "both color1 and color2 are required for custom gradients" [])
         else
           color1 ← parseHexColor c1;
           color2 ← parseHexColor c2;
           Ok (MkGradientConfig "" color1 color2 64)
       else Ok defaultGradient);
    with_noise (Values_Get "noise" params) grad.
End Gradient.

(** ** The caches of images and documents *)

Record imageCacheKey := MkImageCacheKey {
  ik_format : string;
  ik_targetSize : Z;
  ik_grad : gradientConfig;
}.

#[export] Instance imageCacheKey_eq_dec : EqDecision imageCacheKey.
Proof. solve_decision. Defined.
#[export] Instance imageCacheKey_countable : Countable imageCacheKey.
Proof.
  refine (inj_countable' (λ k, (ik_format k, ik_targetSize k, ik_grad k))
    (λ '(f, n, g), MkImageCacheKey f n g) _). by intros [].
Defined.

Record imageCacheEntry := MkImageCacheEntry {
  ie_data : string;
  ie_contentType : string;
  ie_etag : string;
}.

Record pdfCacheKey := MkPdfCacheKey {
  pk_pages : Z;
  pk_size : string;
  pk_seed : Z;
}.

#[export] Instance pdfCacheKey_eq_dec : EqDecision pdfCacheKey.
Proof. solve_decision. Defined.
#[export] Instance pdfCacheKey_countable : Countable pdfCacheKey.
Proof.
  refine (inj_countable' (λ k, (pk_pages k, pk_size k, pk_seed k))
    (λ '(n, s, d), MkPdfCacheKey n s d) _). by intros [].
Defined.

Record pdfCacheEntry := MkPdfCacheEntry { pe_data : string }.

Definition imageCache : Type := boundedCache imageCacheKey imageCacheEntry.
Definition pdfCache : Type := boundedCache pdfCacheKey pdfCacheEntry.
Definition newImageCache (maxSize : Z) : imageCache := newBoundedCache maxSize.
Definition newPDFCache (maxSize : Z) : pdfCache := newBoundedCache maxSize.

(** The caches of a server, shared by its requests. *)
Record Caches := MkCaches { c_images : imageCache; c_documents : pdfCache }.

Example parseGradientConfig_ex :
  parseGradientConfig (ParseQuery "color1=%23ff0010&color2=00FF0a&noise=7")
  = Ok (MkGradientConfig "" (255, 0, 16) (0, 255, 10) 7).
Proof. vm_compute. reflexivity. Qed.

Lemma cache_hits_witness :
  let ops := [OpPut [] "a" 1; OpPut ["a"] "b" 2; OpGet "b"] in
  well_ordered ops (newBoundedCache 1) ∧
  Z.of_nat (size (c_entries (cache_run ops (newBoundedCache 1)))) ≤ 1 ∧
  cache_get "b" (cache_run ops (newBoundedCache 1)) = Some 2.
Proof.
  intros ops.
  assert (well_ordered ops (newBoundedCache 1)) as Hw.
  { unfold well_ordered, iterates. repeat split; vm_compute; reflexivity. }
  split; [exact Hw|]. destruct (cache_hits 1 ops Hw) as [H1 _].
  split; [exact H1|vm_compute; reflexivity].
Defined.
