(* ===== verification/Http.v ===== *)
(** * Http: requests, response writers and the world of a handler

    The server side of [net/http] that the handlers use: canonical header keys,
    the request, and the response writer.  A [writer] is the server's writer
    ([Base]) under the wrappers of [middleware.go] and [pipeline.go].  Handlers
    are computations in [M], over a [World] that holds the request, the writer,
    the clock, the instant at which the client goes away and the stream of random
    numbers.  A panic is an outcome of its own. *)

From S2P Require Import Prelude GoStrings GoNum GoFmt Json GoURL Cache.

(** ** Headers *)

Abbreviation headers := (gmap string (list string)).

Definition header_byte_ok (c : ascii) : bool :=
  is_alnum c || contains_char c "!#$%&'*+-.^_`|~".

Fixpoint canonical (up : bool) (s : string) : string :=
  match s with
  | "" => ""
  | String c s' =>
      String (if up then upper_ascii c else lower_ascii c) (canonical (Ascii.eqb c "-") s')
  end.

Definition CanonicalHeaderKey (s : string) : string :=
  if string_forall header_byte_ok s then canonical true s else s.

Definition Header_Get (k : string) (h : headers) : string :=
  match h !! CanonicalHeaderKey k with Some (x :: _) => x | _ => "" end.
Definition Header_Set (k v : string) (h : headers) : headers :=
  <[CanonicalHeaderKey k := [v]]> h.
Definition Header_Add (k v : string) (h : headers) : headers :=
  <[CanonicalHeaderKey k := default [] (h !! CanonicalHeaderKey k) ++ [v]]> h.
Definition Header_Del (k : string) (h : headers) : headers :=
  delete (CanonicalHeaderKey k) h.

(** ** Requests *)

Record Request := MkRequest {
  Method : string;
  URL : Url;
  RequestURI_ : string;            (* the unmodified request target *)
  RHeader : headers;
  Host : string;
  RemoteAddr : string;
  TLS : bool;
  TransferEncoding : list string;
  Body : string;
  BodyEnd : option gerror;         (* what a read reports after the body; None is EOF *)
  PathValues : gmap string string;
}.

Definition set_URL (u : Url) (r : Request) : Request :=
  MkRequest (Method r) u (RequestURI_ r) (RHeader r) (Host r) (RemoteAddr r) (TLS r) (TransferEncoding r)
    (Body r) (BodyEnd r) (PathValues r).
Definition set_RHeader (h : headers) (r : Request) : Request :=
  MkRequest (Method r) (URL r) (RequestURI_ r) h (Host r) (RemoteAddr r) (TLS r) (TransferEncoding r)
    (Body r) (BodyEnd r) (PathValues r).
Definition set_Body (b : string) (e : option gerror) (r : Request) : Request :=
  MkRequest (Method r) (URL r) (RequestURI_ r) (RHeader r) (Host r) (RemoteAddr r) (TLS r)
    (TransferEncoding r) b e (PathValues r).
Definition SetPathValue (k v : string) (r : Request) : Request :=
  MkRequest (Method r) (URL r) (RequestURI_ r) (RHeader r) (Host r) (RemoteAddr r) (TLS r)
    (TransferEncoding r) (Body r) (BodyEnd r) (<[k := v]> (PathValues r)).
Definition PathValue (k : string) (r : Request) : string := default "" (PathValues r !! k).

(** ** The server's response writer *)

Record response := MkResponse {
  rHeader : headers;                  (* the map [Header()] returns *)
  infos : list (Z * headers);         (* informational responses sent *)
  rStatus : option Z;                 (* set once the header is written *)
  sentHeader : headers;               (* the snapshot taken then *)
  contentLength : option Z;
  rBody : string;
}.

Definition new_response : response := MkResponse ∅ [] None ∅ None "".

Definition informational (code : Z) : bool :=
  (100 <=? code) && (code <=? 199) && negb (code =? 101).

Definition declared_length (h : headers) : option Z :=
  match ParseInt 64 (Header_Get "Content-Length" h) with
  | Ok n => if 0 <=? n then Some n else None
  | _ => None
  end.

Definition base_WriteHeader (code : Z) (r : response) : outcome gerror response :=
  match rStatus r with
  | Some _ => Ok r
  | None =>
      if (code <? 100) || (999 <? code)
      then Panic ("invalid WriteHeader code " +:+ Itoa code)
      else if informational code then
        Ok (MkResponse (rHeader r) (infos r ++ [(code, rHeader r)]) None (sentHeader r)
              (contentLength r) (rBody r))
      else
        let h := match declared_length (rHeader r) with
                 | Some _ => rHeader r
                 | None => Header_Del "Content-Length" (rHeader r)
                 end in
        Ok (MkResponse h (infos r) (Some code) h (declared_length h) (rBody r))
  end.

Definition bodyAllowed (code : Z) : bool :=
  negb (((100 <=? code) && (code <=? 199)) || (code =? 204) || (code =? 304)).

(** The header that an implicit [WriteHeader(200)] sends. *)
Definition ensure_header (r : response) : response :=
  match base_WriteHeader 200 r with Ok r' => r' | _ => r end.

(** [Write]: the number of bytes accepted, and the writer.  A body that the
    status forbids or that is longer than the declared length is refused.  [net/http]
    counts the refused bytes too, so that every write after them is refused; here a later
    write that still fits the declared length is accepted. *)
Definition base_Write (s : string) (r : response) : Z * response :=
  let r := ensure_header r in
  let code := default 200 (rStatus r) in
  let fits := match contentLength r with
              | Some n => slen (rBody r) + slen s <=? n
              | None => true
              end in
  if bodyAllowed code && fits
  then (slen s, MkResponse (rHeader r) (infos r) (rStatus r) (sentHeader r)
                  (contentLength r) (rBody r +:+ s))
  else (0, r).

(** ** Wrappers *)

Inductive writer :=
| Base (r : response)
| MetaRW (w : writer) (status size : Z)
| HeadRW (w : writer) (status size : Z)
| OverrideRW (w : writer) (statusOverride : Z) (headersDone : bool).

Fixpoint base (w : writer) : response :=
  match w with
  | Base r => r
  | MetaRW w _ _ | HeadRW w _ _ | OverrideRW w _ _ => base w
  end.

Fixpoint set_header (f : headers → headers) (w : writer) : writer :=
  match w with
  | Base r => Base (MkResponse (f (rHeader r)) (infos r) (rStatus r) (sentHeader r)
                      (contentLength r) (rBody r))
  | MetaRW w s n => MetaRW (set_header f w) s n
  | HeadRW w s n => HeadRW (set_header f w) s n
  | OverrideRW w c d => OverrideRW (set_header f w) c d
  end.

Fixpoint w_WriteHeader (code : Z) (w : writer) : outcome gerror writer :=
  match w with
  | Base r => r' ← base_WriteHeader code r; Ok (Base r')
  | MetaRW w _ n => w' ← w_WriteHeader code w; Ok (MetaRW w' code n)
  | HeadRW w _ n => w' ← w_WriteHeader code w; Ok (HeadRW w' code n)
  | OverrideRW w c d =>
      if d then Ok (OverrideRW w c d)
      else w' ← w_WriteHeader c w; Ok (OverrideRW w' c true)
  end.

(** [WriteHeader] with the code [pre], if there is one, and then [Write]: the
    override wrapper calls both methods of the writer it wraps. *)
Fixpoint w_HeaderWrite (pre : option Z) (s : string) (w : writer)
    : outcome gerror (Z * writer) :=
  match w with
  | Base r =>
      r' ← match pre with Some c => base_WriteHeader c r | None => Ok r end;
      let '(n, r'') := base_Write s r' in Ok (n, Base r'')
  | MetaRW w st size =>
      '(n, w') ← w_HeaderWrite pre s w;
      Ok (n, MetaRW w' (default st pre) (wrap64 (size + n)))
  | HeadRW w st size =>
      w' ← match pre with Some c => w_WriteHeader c w | None => Ok w end;
      Ok (slen s, HeadRW w' (default st pre) size)
  | OverrideRW w c d =>
      '(n, w') ← w_HeaderWrite (if d then None else Some c) s w;
      Ok (n, OverrideRW w' c true)
  end.

Definition w_Write (s : string) (w : writer) : outcome gerror (Z * writer) :=
  w_HeaderWrite None s w.

Lemma w_HeaderWrite_spec c s w :
  w_HeaderWrite (Some c) s w = w' ← w_WriteHeader c w; w_Write s w'.
Proof.
  revert c. induction w as [r|w IH st size|w IH st size|w IH c' d]; intros c;
    unfold w_Write; cbn [w_HeaderWrite w_WriteHeader].
  - by destruct (base_WriteHeader c r).
  - rewrite IH. by destruct (w_WriteHeader c w).
  - by destruct (w_WriteHeader c w).
  - destruct d; [done|]. rewrite IH. by destruct (w_WriteHeader c' w).
Qed.

Fixpoint w_Flush (w : writer) : writer :=
  match w with
  | Base r => Base (ensure_header r)
  | MetaRW w s n => MetaRW (w_Flush w) s n
  | HeadRW w s n => HeadRW (w_Flush w) s n
  | OverrideRW w c d => OverrideRW (w_Flush w) c d
  end.

(** The writer inside the outermost wrapper. *)
Definition unwrap (w : writer) : writer :=
  match w with
  | Base r => Base r
  | MetaRW w _ _ | HeadRW w _ _ | OverrideRW w _ _ => w
  end.

(** ** The connection *)

(** What becomes of the connection of a request: one of HTTP/2 cannot be taken over; one
    that the server keeps can, and then it ends after some bytes, with a reset or not, or
    it is served as a websocket with the limits on the duration, the size of a fragment
    and the size of a message.  No handler writes a response after that. *)
Inductive transport :=
| Multiplexed
| Kept
| Closed (raw : string) (reset : bool)
| Upgraded (maxDuration maxFragmentSize maxMessageSize : Z).

(** ** The world *)

Record World := MkWorld {
  req : Request;
  wr : writer;
  now : Z;                  (* nanoseconds *)
  gone : option Z;          (* when the client's context is cancelled *)
  rnd : nat → Z;            (* the random source *)
  rndi : nat;               (* draws so far *)
  caches : Caches;          (* shared with the other requests of the server *)
  link : transport;         (* the connection of the request *)
}.

Definition set_req (r : Request) (s : World) : World :=
  MkWorld r (wr s) (now s) (gone s) (rnd s) (rndi s) (caches s) (link s).
Definition set_wr (w : writer) (s : World) : World :=
  MkWorld (req s) w (now s) (gone s) (rnd s) (rndi s) (caches s) (link s).
Definition set_now (t : Z) (s : World) : World :=
  MkWorld (req s) (wr s) t (gone s) (rnd s) (rndi s) (caches s) (link s).

Definition set_caches (c : Caches) (s : World) : World :=
  MkWorld (req s) (wr s) (now s) (gone s) (rnd s) (rndi s) c (link s).
Definition set_link (l : transport) (s : World) : World :=
  MkWorld (req s) (wr s) (now s) (gone s) (rnd s) (rndi s) (caches s) l.

Abbreviation M := (GoM World gerror).
Abbreviation HandlerFunc := (M unit).

Definition get_req : M Request := λ s, (Ok (req s), s).
Definition modify_req (f : Request → Request) : M unit := λ s,
  (Ok tt, set_req (f (req s)) s).
Definition get_header : M headers := λ s, (Ok (rHeader (base (wr s))), s).

Definition header_op (f : headers → headers) : M unit := λ s,
  (Ok tt, set_wr (set_header f (wr s)) s).
Definition SetHeader (k v : string) : M unit := header_op (Header_Set k v).
Definition AddHeader (k v : string) : M unit := header_op (Header_Add k v).

Definition WriteHeader (code : Z) : M unit := λ s,
  match w_WriteHeader code (wr s) with
  | Ok w => (Ok tt, set_wr w s)
  | Err e => (Err e, s)
  | Panic p => (Panic p, s)
  end.

(** [w.Write(b)], its result ignored as the handlers do. *)
Definition Write (b : string) : M unit := λ s,
  match w_Write b (wr s) with
  | Ok (_, w) => (Ok tt, set_wr w s)
  | Err e => (Err e, s)
  | Panic p => (Panic p, s)
  end.

Definition Flush : M unit := λ s, (Ok tt, set_wr (w_Flush (wr s)) s).

(** [select { case <-time.After(d): true; case <-r.Context().Done(): false }]
    for [0 < d]; of two events at the same instant the timer wins. *)
Definition Sleep (d : Z) : M bool := λ s,
  match gone s with
  | Some t =>
      if t <? now s + d then (Ok false, set_now (Z.max (now s) t) s)
      else (Ok true, set_now (now s + d) s)
  | None => (Ok true, set_now (now s + d) s)
  end.

(** [rand.Int63n(n)], which panics unless [0 < n]. *)
Definition Int63n (n : Z) : M Z := λ s,
  if n <=? 0 then (Panic "invalid argument to Int63n", s)
  else (Ok (rnd s (rndi s) mod n),
        MkWorld (req s) (wr s) (now s) (gone s) (rnd s) (S (rndi s)) (caches s) (link s)).

(** Run [m] on a wrapper of the writer: [h(&Wrapper{w}, r)]. *)
Definition with_writer (f : writer → writer) (m : M unit) : M unit := λ s,
  let '(o, s') := m (set_wr (f (wr s)) s) in (o, set_wr (unwrap (wr s')) s').

(** ** [http.StatusText] *)

Definition StatusText (code : Z) : string :=
  match code with
  | 100 => "Continue" | 101 => "Switching Protocols" | 102 => "Processing"
  | 103 => "Early Hints" | 200 => "OK" | 201 => "Created" | 202 => "Accepted"
  | 203 => "Non-Authoritative Information" | 204 => "No Content" | 205 => "Reset Content"
  | 206 => "Partial Content" | 207 => "Multi-Status" | 208 => "Already Reported"
  | 226 => "IM Used" | 300 => "Multiple Choices" | 301 => "Moved Permanently"
  | 302 => "Found" | 303 => "See Other" | 304 => "Not Modified" | 305 => "Use Proxy"
  | 307 => "Temporary Redirect" | 308 => "Permanent Redirect" | 400 => "Bad Request"
  | 401 => "Unauthorized" | 402 => "Payment Required" | 403 => "Forbidden"
  | 404 => "Not Found" | 405 => "Method Not Allowed" | 406 => "Not Acceptable"
  | 407 => "Proxy Authentication Required" | 408 => "Request Timeout" | 409 => "Conflict"
  | 410 => "Gone" | 411 => "Length Required" | 412 => "Precondition Failed"
  | 413 => "Request Entity Too Large" | 414 => "Request URI Too Long"
  | 415 => "Unsupported Media Type" | 416 => "Requested Range Not Satisfiable"
  | 417 => "Expectation Failed" | 418 => "I'm a teapot" | 421 => "Misdirected Request"
  | 422 => "Unprocessable Entity" | 423 => "Locked" | 424 => "Failed Dependency"
  | 425 => "Too Early" | 426 => "Upgrade Required" | 428 => "Precondition Required"
  | 429 => "Too Many Requests" | 431 => "Request Header Fields Too Large"
  | 451 => "Unavailable For Legal Reasons" | 500 => "Internal Server Error"
  | 501 => "Not Implemented" | 502 => "Bad Gateway" | 503 => "Service Unavailable"
  | 504 => "Gateway Timeout" | 505 => "HTTP Version Not Supported"
  | 506 => "Variant Also Negotiates" | 507 => "Insufficient Storage"
  | 508 => "Loop Detected" | 510 => "Not Extended"
  | 511 => "Network Authentication Required"
  | _ => ""
  end.

(** ** The response helpers of [helpers.go] *)

Definition binaryContentType : string := "application/octet-stream".
Definition htmlContentType : string := "text/html; charset=utf-8".
Definition jsonContentType : string := "application/json; charset=utf-8".
Definition sseContentType : string := "text/event-stream; charset=utf-8".
Definition textContentType : string := "text/plain; charset=utf-8".

Definition writeResponse (status : Z) (contentType body : string) : M unit :=
  _ ← SetHeader "Content-Type" contentType;
  _ ← WriteHeader status;
  Write body.

Definition writeHTML (body : string) (status : Z) : M unit :=
  writeResponse status htmlContentType body.

(** The values the program encodes always can be: [Encode] does not fail. *)
Definition mustMarshalJSON (v : json) : M unit := Write (Encode v).

Definition writeJSON (status : Z) (v : json) : M unit :=
  _ ← SetHeader "Content-Type" jsonContentType;
  _ ← WriteHeader status;
  mustMarshalJSON v.

Definition errorRespnose (code : Z) (detail : string) : json :=
  JObj ([("status_code", JInt code); ("error", JStr (StatusText code))]
        ++ if nonempty detail then [("detail", JStr detail)] else []).

Definition writeError `{GoStd} (code : Z) (err : option gerror) : M unit :=
  writeJSON code (errorRespnose code (match err with Some e => Error e | None => "" end)).

(** [http.Error] *)
Definition http_Error (error : string) (code : Z) : M unit :=
  _ ← header_op (Header_Del "Content-Length");
  _ ← SetHeader "Content-Type" textContentType;
  _ ← SetHeader "X-Content-Type-Options" "nosniff";
  _ ← WriteHeader code;
  Write (error +:+ str1 LF).
