(* ===== verification/HttpLaws.v ===== *)
(** * HttpLaws: how response writers behave

    A writer without a status override is transparent: the first final status
    that is written is the status of the response, whatever follows. *)

From S2P Require Import Prelude GoStrings GoNum GoFmt Json GoURL Http.

Definition status (w : writer) : option Z := rStatus (base w).

Fixpoint transparent (w : writer) : Prop :=
  match w with
  | Base _ => True
  | MetaRW w _ _ | HeadRW w _ _ => transparent w
  | OverrideRW _ _ _ => False
  end.

(** A status code that ends the header: not informational, and one that
    [WriteHeader] accepts. *)
Definition final (code : Z) : Prop := 100 ≤ code ≤ 999 ∧ informational code = false.

Lemma final_200 code : 200 ≤ code ≤ 999 → final code.
Proof. intros H. split; [lia|]. unfold informational. by ztest. Qed.

Lemma base_WriteHeader_final code r :
  final code → rStatus r = None →
  ∃ r', base_WriteHeader code r = Ok r' ∧ rStatus r' = Some code.
Proof.
  intros [Hc Hi] Hr. unfold base_WriteHeader. rewrite Hr, Hi. ztest. cbn [orb]. eauto.
Qed.

Lemma base_WriteHeader_sent code r c : rStatus r = Some c → base_WriteHeader code r = Ok r.
Proof. intros Hr. unfold base_WriteHeader. by rewrite Hr. Qed.

Lemma ensure_header_sent r c : rStatus r = Some c → ensure_header r = r.
Proof. intros H. unfold ensure_header. by rewrite (base_WriteHeader_sent _ _ c). Qed.

Lemma ensure_header_fresh r : rStatus r = None → rStatus (ensure_header r) = Some 200.
Proof.
  intros H. unfold ensure_header.
  destruct (base_WriteHeader_final 200 r) as (r' & -> & Hr'); [by apply final_200|done|done].
Qed.

Lemma base_Write_status b r :
  rStatus (base_Write b r).2 = rStatus (ensure_header r).
Proof. unfold base_Write. by destruct (_ && _). Qed.

Lemma set_header_status f w : status (set_header f w) = status w.
Proof. unfold status. induction w; simpl; done. Qed.

Lemma set_header_transparent f w : transparent (set_header f w) ↔ transparent w.
Proof. induction w; simpl; done. Qed.

Lemma w_WriteHeader_final code w :
  final code → transparent w → status w = None →
  ∃ w', w_WriteHeader code w = Ok w' ∧ status w' = Some code ∧ transparent w'.
Proof.
  unfold status. intros Hc. induction w as [r|w IH st n|w IH st n|]; cbn; intros Ht Hs; [| | |done].
  - destruct (base_WriteHeader_final code r Hc Hs) as (r' & -> & Hr'). by eexists.
  - destruct (IH Ht Hs) as (w' & -> & Hw & Ht'). by eexists.
  - destruct (IH Ht Hs) as (w' & -> & Hw & Ht'). by eexists.
Qed.

Lemma w_WriteHeader_sent code w c :
  transparent w → status w = Some c →
  ∃ w', w_WriteHeader code w = Ok w' ∧ status w' = Some c ∧ transparent w'.
Proof.
  unfold status. induction w as [r|w IH st n|w IH st n|]; cbn; intros Ht Hs; [| | |done].
  - rewrite (base_WriteHeader_sent code r c Hs). by eexists.
  - destruct (IH Ht Hs) as (w' & -> & Hw & Ht'). by eexists.
  - destruct (IH Ht Hs) as (w' & -> & Hw & Ht'). by eexists.
Qed.

Lemma w_Write_sent b w c :
  transparent w → status w = Some c →
  ∃ n w', w_Write b w = Ok (n, w') ∧ status w' = Some c ∧ transparent w'.
Proof.
  unfold status, w_Write. induction w as [r|w IH st n|w IH st n|]; cbn; intros Ht Hs; [| |by eauto|done].
  - destruct (base_Write b r) as [n r'] eqn:E. exists n, (Base r'). split; [done|]. split; [|done].
    cbn. pose proof (base_Write_status b r) as H. rewrite E in H. cbn in H.
    by rewrite H, (ensure_header_sent r c).
  - destruct (IH Ht Hs) as (k & w' & -> & Hw & Ht'). by eexists _, _.
Qed.

Lemma w_Flush_sent w c :
  transparent w → status w = Some c → status (w_Flush w) = Some c ∧ transparent (w_Flush w).
Proof.
  unfold status. induction w as [r| | |]; cbn; intros Ht Hs; [|auto|auto|done].
  by rewrite (ensure_header_sent r c).
Qed.

Lemma w_Flush_fresh w :
  transparent w → status w = None → status (w_Flush w) = Some 200 ∧ transparent (w_Flush w).
Proof.
  unfold status. induction w as [r| | |]; cbn; intros Ht Hs; [|auto|auto|done].
  by rewrite ensure_header_fresh.
Qed.

(** ** Status of the response helpers *)

(** A state whose response has not started. *)
Definition fresh (s : World) : Prop := transparent (wr s) ∧ status (wr s) = None.

(** [s'] differs from [s] in the response only, which has the status [code]. *)
Record answered (code : Z) (s s' : World) : Prop := {
  ans_status : status (wr s') = Some code;
  ans_transparent : transparent (wr s');
  ans_now : now s' = now s;
  ans_req : req s' = req s;
  ans_link : link s' = link s;
}.

Lemma SetHeader_run k v s : SetHeader k v s = (Ok tt, set_wr (set_header (Header_Set k v) (wr s)) s).
Proof. done. Qed.

Lemma fresh_header f s : fresh s → fresh (set_wr (set_header f (wr s)) s).
Proof. intros [Ht Hs]. split; cbn; [by apply set_header_transparent|by rewrite set_header_status]. Qed.

(** A computation that only sets headers. *)
Definition header_only (m : M unit) : Prop :=
  ∀ s, ∃ f, m s = (Ok tt, set_wr (set_header f (wr s)) s).

Lemma SetHeader_only k v : header_only (SetHeader k v).
Proof. intros s. by eexists. Qed.

Lemma set_header_id w : set_header id w = w.
Proof. induction w as [[]| | |]; simpl; unfold id in *; congruence. Qed.

Lemma set_header_compose f g w : set_header g (set_header f w) = set_header (g ∘ f) w.
Proof. induction w as [[]| | |]; simpl; congruence. Qed.

Lemma set_wr_id s : set_wr (wr s) s = s.
Proof. by destruct s. Qed.

Lemma mret_header_only : header_only (mret tt).
Proof. intros s. exists id. by rewrite set_header_id, set_wr_id. Qed.

Lemma bind_header_only m (k : unit → M unit) :
  header_only m → header_only (k tt) → header_only (m ≫= k).
Proof.
  intros Hm Hk s. destruct (Hm s) as [f E]. unfold mbind, GoM_bind. rewrite E.
  destruct (Hk (set_wr (set_header f (wr s)) s)) as [g E']. rewrite E'. cbn.
  rewrite set_header_compose. by eexists.
Qed.

#[export] Hint Resolve SetHeader_only mret_header_only bind_header_only : go.

Lemma writeJSON_fresh code v s :
  final code → fresh s → ∃ s', writeJSON code v s = (Ok tt, s') ∧ answered code s s'.
Proof.
  intros Hc Hf. unfold writeJSON, mbind, GoM_bind. rewrite SetHeader_run.
  destruct (fresh_header (Header_Set "Content-Type" jsonContentType) s Hf) as [Ht Hs].
  set (s1 := set_wr _ s) in *. unfold WriteHeader.
  destruct (w_WriteHeader_final code (wr s1) Hc Ht Hs) as (w1 & -> & Hw1 & Ht1).
  unfold mustMarshalJSON, Write. cbn [wr set_wr].
  destruct (w_Write_sent (Encode v) w1 code Ht1 Hw1) as (n & w2 & -> & Hw2 & Ht2).
  eexists. split; [done|]. by split.
Qed.

Lemma writeError_fresh `{GoStd} code e s :
  final code → fresh s → ∃ s', writeError code e s = (Ok tt, s') ∧ answered code s s'.
Proof. apply writeJSON_fresh. Qed.

(** ** Waiting *)

(** Time has passed, and random numbers were drawn; the rest is as before. *)
Record waited (t : Z) (s s' : World) : Prop := {
  wait_wr : wr s' = wr s;
  wait_req : req s' = req s;
  wait_gone : gone s' = gone s;
  wait_rnd : rnd s' = rnd s;
  wait_now : now s' = now s + t;
}.

Lemma Sleep_ok d s :
  0 < d → ∃ b s' t, Sleep d s = (Ok b, s') ∧ waited t s s' ∧ 0 ≤ t ≤ d ∧ (b = true ↔ t = d).
Proof.
  intros Hd. unfold Sleep. destruct (gone s) as [g|] eqn:E.
  - destruct (g <? now s + d) eqn:E1; reflect_bools.
    + exists false, (set_now (Z.max (now s) g) s), (Z.max (now s) g - now s).
      split; [done|]. split; [split; cbn; done || lia|]. split; [lia|]. split; [done|lia].
    + exists true, (set_now (now s + d) s), d. split; [done|].
      split; [by split|]. by split; [lia|].
  - exists true, (set_now (now s + d) s), d. split; [done|].
    split; [by split|]. by split; [lia|].
Qed.

Lemma waited_trans t1 t2 s1 s2 s3 : waited t1 s1 s2 → waited t2 s2 s3 → waited (t1 + t2) s1 s3.
Proof. intros [? ? ? ? H1] [? ? ? ? H2]. split; try congruence. lia. Qed.

(** ** The header that is sent *)

Definition sent (w : writer) : headers := sentHeader (base w).

Lemma w_WriteHeader_base c w w1 :
  transparent w → w_WriteHeader c w = Ok w1 → base_WriteHeader c (base w) = Ok (base w1).
Proof.
  revert w1. induction w as [r|w IH st n|w IH st n|]; cbn; intros w1 Ht; [| | |done].
  - by intros (r1 & -> & [= <-])%outcome_bind_Ok.
  - intros (w' & E & [= <-])%outcome_bind_Ok. exact (IH _ Ht E).
  - intros (w' & E & [= <-])%outcome_bind_Ok. exact (IH _ Ht E).
Qed.

Lemma base_Write_sent b r c : rStatus r = Some c → sentHeader (base_Write b r).2 = sentHeader r.
Proof. intros H. unfold base_Write. rewrite (ensure_header_sent _ c H). by destruct (_ && _). Qed.

Lemma w_Write_header b w c n w1 :
  transparent w → status w = Some c → w_Write b w = Ok (n, w1) → sent w1 = sent w.
Proof.
  unfold sent, status, w_Write. revert n w1.
  induction w as [r|w IH st z|w IH st z|]; cbn; intros n w1 Ht Hs; [| | |done].
  - destruct (base_Write b r) as [k r1] eqn:E. intros [= _ <-]. cbn.
    rewrite <- (base_Write_sent b r c Hs). by rewrite E.
  - intros ([k w'] & E & [= _ <-])%outcome_bind_Ok. exact (IH _ _ Ht Hs E).
  - by intros [= _ <-].
Qed.

Lemma base_WriteHeader_header c r r1 k :
  final c → rStatus r = None → base_WriteHeader c r = Ok r1 →
  CanonicalHeaderKey k ≠ CanonicalHeaderKey "Content-Length" →
  Header_Get k (sentHeader r1) = Header_Get k (rHeader r).
Proof.
  intros [Hc Hi] Hr. unfold base_WriteHeader. rewrite Hr, Hi. ztest. cbn [orb].
  intros [= <-] Hk. cbn [sentHeader]. destruct (declared_length (rHeader r)); [done|].
  unfold Header_Get, Header_Del. by rewrite lookup_delete_ne.
Qed.

Lemma Header_Get_Set_ne k k' v h :
  CanonicalHeaderKey k ≠ CanonicalHeaderKey k' → Header_Get k (Header_Set k' v h) = Header_Get k h.
Proof. intros Hk. unfold Header_Get, Header_Set. by rewrite lookup_insert_ne. Qed.

Lemma Header_Get_Del_ne k k' hs :
  CanonicalHeaderKey k ≠ CanonicalHeaderKey k' → Header_Get k (Header_Del k' hs) = Header_Get k hs.
Proof. intros Hk. unfold Header_Get, Header_Del. by rewrite lookup_delete_ne. Qed.

Lemma Header_Get_Set k v h : Header_Get k (Header_Set k v h) = v.
Proof. unfold Header_Get, Header_Set. by rewrite lookup_insert_eq. Qed.

Lemma rHeader_set_header f w : rHeader (base (set_header f w)) = f (rHeader (base w)).
Proof. induction w; simpl; done. Qed.

(** An error response keeps the headers that were set before it. *)
Lemma writeResponse_header code ct b s s' k :
  final code → fresh s → writeResponse code ct b s = (Ok tt, s') →
  CanonicalHeaderKey k ≠ CanonicalHeaderKey "Content-Length" →
  CanonicalHeaderKey k ≠ CanonicalHeaderKey "Content-Type" →
  Header_Get k (sent (wr s')) = Header_Get k (rHeader (base (wr s))).
Proof.
  intros Hc Hf E Hk Hk'. revert E. unfold writeResponse, mbind, GoM_bind. rewrite SetHeader_run.
  destruct (fresh_header (Header_Set "Content-Type" ct) s Hf) as [Ht Hs].
  set (s1 := set_wr _ s) in *. unfold WriteHeader.
  destruct (w_WriteHeader_final code (wr s1) Hc Ht Hs) as (w1 & E1 & Hw1 & Ht1). rewrite E1.
  unfold Write. cbn [wr set_wr].
  destruct (w_Write_sent b w1 code Ht1 Hw1) as (n & w2 & E2 & Hw2 & Ht2). rewrite E2.
  intros [= <-]. cbn [wr set_wr]. rewrite (w_Write_header _ _ _ _ _ Ht1 Hw1 E2).
  apply w_WriteHeader_base in E1; [|done]. unfold sent.
  rewrite (base_WriteHeader_header _ _ _ k Hc Hs E1 Hk). unfold s1. cbn [wr set_wr].
  rewrite rHeader_set_header. by apply Header_Get_Set_ne.
Qed.

Lemma writeJSON_header code v s s' k :
  final code → fresh s → writeJSON code v s = (Ok tt, s') →
  CanonicalHeaderKey k ≠ CanonicalHeaderKey "Content-Length" →
  CanonicalHeaderKey k ≠ CanonicalHeaderKey "Content-Type" →
  Header_Get k (sent (wr s')) = Header_Get k (rHeader (base (wr s))).
Proof. apply writeResponse_header. Qed.
