(* ===== verification/Digest.v ===== *)
(** * Digest: HTTP digest authentication

    Models [digest/digest.go].  The hash functions are the class [Hashes]; random
    bytes and the text of the clock are arguments of [Challenge]. *)

From S2P Require Import Prelude GoStrings GoNum GoFmt Http.

Class Hashes := {
  md5_Sum : list byte → list byte;
  sha256_Sum256 : list byte → list byte;
}.

Inductive digestAlgorithm := MD5 | SHA256.

Definition algorithm_String (a : digestAlgorithm) : string :=
  match a with MD5 => "MD5" | SHA256 => "SHA-256" end.

(** [fmt.Sprintf("%x", b)] *)
Fixpoint hex_bytes (l : list byte) : string :=
  match l with [] => "" | b :: l' => hex_n 2 (byte_Z b) +:+ hex_bytes l' end.

(** [strings.SplitN(s, sep, 2)], as its first piece and the second one. *)
Definition SplitN2_pair (sep : ascii) (s : string) : string * option string :=
  match Cut sep s with
  | (a, b, true) => (a, Some b)
  | (a, _, false) => (a, None)
  end.

Definition quote1 : string := DQUOTE.

(** [val[1 : len(val)-1]], which panics on a single quote. *)
Definition strip_quotes (val : string) : outcome gerror string :=
  if HasPrefix val quote1 && HasSuffix val quote1 then
    if slen val <? 2 then Panic "runtime error: slice bounds out of range [1:0]"
    else Ok (stake (String.length val - 2) (sdrop 1 val))
  else Ok val.

Definition dict_pair (res : gmap string string) (p : string)
    : outcome gerror (gmap string string) :=
  let '(first, second) := SplitN2_pair "=" (TrimSpace p) in
  let key := TrimSpace first in
  if slen key =? 0 then Ok res
  else
    val ← match second with Some v => strip_quotes (TrimSpace v) | None => Ok "" end;
    Ok (<[key := val]> res).

Fixpoint dict_pairs (res : gmap string string) (pairs : list string)
    : outcome gerror (gmap string string) :=
  match pairs with
  | [] => Ok res
  | p :: pairs' => res' ← dict_pair res p; dict_pairs res' pairs'
  end.

Definition parseDictHeader (value : string) : outcome gerror (gmap string string) :=
  dict_pairs ∅ (Split "," value).

Record authorization := MkAuthorization {
  a_algorithm : digestAlgorithm;
  a_cnonce : string;
  a_nc : string;
  a_nonce : string;
  a_opaque : string;
  a_qop : string;
  a_realm : string;
  a_response : string;
  a_uri : string;
  a_username : string;
}.

Definition authorization_of (auth : gmap string string) : authorization :=
  let get k := default "" (auth !! k) in
  MkAuthorization (if String.eqb (ToLower (get "algorithm")) "sha-256" then SHA256 else MD5)
    (get "cnonce") (get "nc") (get "nonce") (get "opaque") (get "qop") (get "realm")
    (get "response") (get "uri") (get "username").

Definition parseAuthorizationHeader (value : string) : outcome gerror (option authorization) :=
  if String.eqb value "" then Ok None
  else match SplitN2_pair " " value with
       | (part0, Some authInfo) =>
           if negb (String.eqb part0 "Digest") then Ok None
           else auth ← parseDictHeader authInfo; Ok (Some (authorization_of auth))
       | (_, None) => Ok None
       end.

Definition sanitizeRealm (realm : string) : string := RemoveChars "," (RemoveChars quote1 realm).

Section Digest.
Context `{Hashes}.

Definition hash (data : string) (a : digestAlgorithm) : string :=
  hex_bytes (match a with
             | SHA256 => sha256_Sum256 (to_bytes data)
             | MD5 => md5_Sum (to_bytes data)
             end).

Definition makeHA1 (realm username password : string) (a : digestAlgorithm) : string :=
  hash (username +:+ ":" +:+ realm +:+ ":" +:+ password) a.

Definition makeHA2 (auth : authorization) (method uri : string) : string :=
  hash (method +:+ ":" +:+ uri) (a_algorithm auth).

Definition response (auth : authorization) (password method uri : string) : string :=
  let ha1 := makeHA1 (a_realm auth) (a_username auth) password (a_algorithm auth) in
  let ha2 := makeHA2 auth method uri in
  let r :=
    if String.eqb (a_qop auth) "auth" || String.eqb (a_qop auth) "auth-int"
    then ha1 +:+ ":" +:+ a_nonce auth +:+ ":" +:+ a_nc auth +:+ ":" +:+ a_cnonce auth +:+ ":"
         +:+ a_qop auth +:+ ":" +:+ ha2
    else ha1 +:+ ":" +:+ a_nonce auth +:+ ":" +:+ ha2 in
  hash r (a_algorithm auth).

(** [compare] is a constant-time comparison: its value is equality. *)
Definition compare (x y : string) : bool := String.eqb x y.

Definition Check (r : Request) (username password : string) : outcome gerror bool :=
  auth ← parseAuthorizationHeader (Header_Get "Authorization" (RHeader r));
  match auth with
  | None => Ok false
  | Some auth =>
      if negb (String.eqb (a_username auth) username) then Ok false
      else Ok (compare (a_response auth) (response auth password (Method r) (RequestURI_ r)))
  end.

(** [entropy] are the 32 random bytes, [clock] is [time.Now().String()]. *)
Definition Challenge `{GoStd} (entropy : list byte) (clock : string) (realm : string)
    (a : digestAlgorithm) : string :=
  let opaque := hash (of_bytes (take 16 entropy)) MD5 in
  let nonce := hash (clock +:+ ":" +:+ hex_bytes (take 15 (drop 16 entropy))) MD5 in
  "Digest qop=auth, realm=" +:+ Quote (sanitizeRealm realm) +:+ ", algorithm="
    +:+ algorithm_String a +:+ ", nonce=" +:+ nonce +:+ ", opaque=" +:+ opaque.
End Digest.

(** Hash functions that keep their input, for the examples. *)
Definition identity_hashes : Hashes := {| md5_Sum := id; sha256_Sum256 := id |}.
