(* ===== verification/Handles.v ===== *)
(** * Handles: what a handler can do to its response

    Whatever a handler computes, it reaches the client through the methods of its
    [ResponseWriter] only.  [writes] is the step relation of these calls and
    [Handles m] says that [m] is such a handler; the tactic [handler] follows the
    combinators and finds the instances of what they call.  A theorem about
    a middleware that holds for every [Handles] handler needs no look at it. *)

From S2P Require Import Prelude GoStrings GoNum GoFmt Json GoURL Http HttpLaws.

(** The calls on a writer; [w_override] and [w_head] are those made through a
    [statusOverrideResponseWriter] and a [headResponseWriter]. *)
Inductive writes : writer → writer → Prop :=
| w_done w : writes w w
| w_header f w w' : writes (set_header f w) w' → writes w w'
| w_status c w w1 w' : w_WriteHeader c w = Ok w1 → writes w1 w' → writes w w'
| w_body b w n w1 w' : w_Write b w = Ok (n, w1) → writes w1 w' → writes w w'
| w_flush w w' : writes (w_Flush w) w' → writes w w'
| w_override c w w1 d w' :
    writes (OverrideRW w c false) (OverrideRW w1 c d) → writes w1 w' → writes w w'
| w_head w w1 st n w' :
    writes (HeadRW w 0 0) (HeadRW w1 st n) → writes w1 w' → writes w w'.

#[export] Instance writes_refl : Reflexive writes := w_done.
#[export] Instance writes_trans : Transitive writes.
Proof.
  intros w1 w2 w3 H12. induction H12; intros ?; [done|..].
  - eapply w_header; eauto.
  - eapply w_status; eauto.
  - eapply w_body; eauto.
  - eapply w_flush; eauto.
  - eapply w_override; eauto.
  - eapply w_head; eauto.
Qed.

(** The stack of wrappers stays the same. *)
Fixpoint same_shape (w w' : writer) : Prop :=
  match w, w' with
  | Base _, Base _ => True
  | MetaRW w _ _, MetaRW w' _ _ | HeadRW w _ _, HeadRW w' _ _ => same_shape w w'
  | OverrideRW w c _, OverrideRW w' c' _ => c = c' ∧ same_shape w w'
  | _, _ => False
  end.

#[export] Instance same_shape_refl : Reflexive same_shape.
Proof. intros w. induction w; simpl; auto. Qed.

#[export] Instance same_shape_trans : Transitive same_shape.
Proof.
  intros w1. induction w1; intros [] []; simpl; try done; eauto.
  intros [-> ?] [-> ?]. eauto.
Qed.

Lemma set_header_shape f w : same_shape w (set_header f w).
Proof. induction w; simpl; auto. Qed.

Lemma w_WriteHeader_shape c w w1 : w_WriteHeader c w = Ok w1 → same_shape w w1.
Proof.
  revert c w1. induction w as [r|w IH ? ?|w IH ? ?|w IH c' d]; intros c w1; cbn.
  - destruct (base_WriteHeader c r); [|done..]. by intros [= <-].
  - intros (w' & E & [= <-])%outcome_bind_Ok. by apply (IH c).
  - intros (w' & E & [= <-])%outcome_bind_Ok. by apply (IH c).
  - destruct d; [by intros [= <-]|].
    intros (w' & E & [= <-])%outcome_bind_Ok. split; [done|]. by apply (IH c').
Qed.

Lemma w_HeaderWrite_shape pre b w n w1 : w_HeaderWrite pre b w = Ok (n, w1) → same_shape w w1.
Proof.
  revert pre n w1. induction w as [r|w IH ? ?|w IH ? ?|w IH c' d]; intros pre n w1; cbn.
  - intros (r' & _ & E)%outcome_bind_Ok. destruct (base_Write b r'). by injection E as _ <-.
  - intros ([k w'] & E & [= _ <-])%outcome_bind_Ok. by apply (IH pre k).
  - intros (w' & E & [= _ <-])%outcome_bind_Ok.
    destruct pre; [by apply w_WriteHeader_shape in E|by injection E as <-].
  - intros ([k w'] & E & [= _ <-])%outcome_bind_Ok. split; [done|]. by apply (IH _ k) in E.
Qed.

Lemma w_Flush_shape w : same_shape w (w_Flush w).
Proof. induction w; simpl; auto. Qed.

Lemma writes_shape w w' : writes w w' → same_shape w w'.
Proof.
  induction 1 as [w|f w w' _ IH|c w w1 w' E _ IH|b w n w1 w' E _ IH|w w' _ IH|c w w1 d w' _ IH1 _ IH2|w w1 st n w' _ IH1 _ IH2].
  - done.
  - etrans; [apply set_header_shape|done].
  - etrans; [by apply w_WriteHeader_shape in E|done].
  - etrans; [by apply w_HeaderWrite_shape in E|done].
  - etrans; [apply w_Flush_shape|done].
  - etrans; [apply IH1|done].
  - etrans; [apply IH1|done].
Qed.

(** ** Handlers *)

Class Handles {A} (m : M A) : Prop := handles s : writes (wr s) (wr (m s).2).

#[export] Instance Handles_ret {A} (a : A) : Handles (mret a).
Proof. by intros s. Qed.
#[export] Instance Handles_throw {A} e : Handles (throw e : M A).
Proof. by intros s. Qed.
#[export] Instance Handles_panic {A} p : Handles (panic p : M A).
Proof. by intros s. Qed.
#[export] Instance Handles_lift {A} (o : outcome gerror A) : Handles (lift o).
Proof. by intros s. Qed.
#[export] Instance Handles_get_req : Handles get_req.
Proof. by intros s. Qed.
#[export] Instance Handles_get_header : Handles get_header.
Proof. by intros s. Qed.
#[export] Instance Handles_modify_req f : Handles (modify_req f).
Proof. by intros s. Qed.
#[export] Instance Handles_header_op f : Handles (header_op f).
Proof. intros s. eapply w_header. cbn. reflexivity. Qed.
#[export] Instance Handles_SetHeader k v : Handles (SetHeader k v) := Handles_header_op _.
#[export] Instance Handles_AddHeader k v : Handles (AddHeader k v) := Handles_header_op _.

#[export] Instance Handles_WriteHeader c : Handles (WriteHeader c).
Proof.
  intros s. unfold WriteHeader. destruct (w_WriteHeader c (wr s)) eqn:E; [|done..].
  eapply w_status; [exact E|]. reflexivity.
Qed.

#[export] Instance Handles_Write b : Handles (Write b).
Proof.
  intros s. unfold Write. destruct (w_Write b (wr s)) as [[n w]| |] eqn:E; [|done..].
  eapply w_body; [exact E|]. reflexivity.
Qed.

#[export] Instance Handles_Flush : Handles Flush.
Proof. intros s. eapply w_flush. cbn. reflexivity. Qed.
#[export] Instance Handles_Sleep d : Handles (Sleep d).
Proof. intros s. unfold Sleep. by repeat case_match. Qed.
#[export] Instance Handles_Int63n n : Handles (Int63n n).
Proof. intros s. unfold Int63n. by case_match. Qed.

Lemma Handles_bind {A B} (m : M A) (k : A → M B) :
  Handles m → (∀ a, Handles (k a)) → Handles (m ≫= k).
Proof.
  intros Hm Hk s. unfold mbind, GoM_bind. pose proof (Hm s) as H1.
  destruct (m s) as [[a| |] s1]; [|done..]. etrans; [exact H1|apply Hk].
Qed.

Lemma Handles_try {A B} (m : M A) h (k : A → M B) :
  Handles m → (∀ e, Handles (h e)) → (∀ a, Handles (k a)) → Handles (try_ m h k).
Proof.
  intros Hm Hh Hk s. unfold try_. pose proof (Hm s) as H1.
  destruct (m s) as [[a|e|] s1]; [| |done]; (etrans; [exact H1|]); [apply Hk|apply Hh].
Qed.

Lemma Handles_override c m :
  Handles m → Handles (with_writer (λ w, OverrideRW w c false) m).
Proof.
  intros Hm s. unfold with_writer. pose proof (Hm (set_wr (OverrideRW (wr s) c false) s)) as H.
  destruct (m _) as [o s1]. cbn [snd wr set_wr] in *.
  pose proof (writes_shape _ _ H) as Hs. destruct (wr s1) as [| | |w1 c1 d]; try done.
  destruct Hs as [<- _]. by eapply w_override.
Qed.

Lemma Handles_head m : Handles m → Handles (with_writer (λ w, HeadRW w 0 0) m).
Proof.
  intros Hm s. unfold with_writer. pose proof (Hm (set_wr (HeadRW (wr s) 0 0) s)) as H.
  destruct (m _) as [o s1]. cbn [snd wr set_wr] in *.
  pose proof (writes_shape _ _ H) as Hs. destruct (wr s1) as [| |w1 st n|]; try done.
  by eapply w_head.
Qed.

(** Instance search does not look inside of computations. *)
#[export] Typeclasses Opaque mret throw panic lift get_req get_header modify_req header_op SetHeader
  AddHeader WriteHeader Write Flush Sleep Int63n with_writer try_ writeResponse writeHTML
  mustMarshalJSON writeJSON writeError http_Error.

(** Check a handler whose definition is unfolded: the combinators and the matches
    are taken apart, and the calls that are left are handlers by instance search. *)
Ltac handler :=
  repeat first
    [ progress intros
    | lazymatch goal with
      | |- Handles (_ ≫= _) => apply Handles_bind
      | |- Handles (try_ _ _ _) => apply Handles_try
      | |- Handles (with_writer _ _) => first [apply Handles_override | apply Handles_head]
      | |- Handles (match ?x with _ => _ end) => destruct x eqn:?
      | |- Handles (let x := _ in _) => cbv zeta
      end ];
  try typeclasses eauto.

#[export] Instance Handles_writeResponse c t b : Handles (writeResponse c t b).
Proof. unfold writeResponse. handler. Qed.
#[export] Instance Handles_writeHTML b c : Handles (writeHTML b c).
Proof. unfold writeHTML. handler. Qed.
#[export] Instance Handles_mustMarshalJSON v : Handles (mustMarshalJSON v).
Proof. unfold mustMarshalJSON. handler. Qed.
#[export] Instance Handles_writeJSON c v : Handles (writeJSON c v).
Proof. unfold writeJSON. handler. Qed.
#[export] Instance Handles_writeError `{GoStd} c e : Handles (writeError c e).
Proof. unfold writeError. handler. Qed.
#[export] Instance Handles_http_Error e c : Handles (http_Error e c).
Proof. unfold http_Error. handler. Qed.

(** ** What every handler preserves *)

(** Nothing reaches the body through a [headResponseWriter]. *)
Fixpoint headed (w : writer) : Prop :=
  match w with
  | Base _ => False
  | HeadRW _ _ _ => True
  | MetaRW w _ _ | OverrideRW w _ _ => headed w
  end.

Definition body (w : writer) : string := rBody (base w).

Lemma set_header_body f w : body (set_header f w) = body w.
Proof. unfold body. induction w; simpl; done. Qed.

Lemma base_WriteHeader_body c r r1 : base_WriteHeader c r = Ok r1 → rBody r1 = rBody r.
Proof.
  unfold base_WriteHeader. destruct (rStatus r); [by intros [= <-]|].
  destruct (_ || _); [done|]. by destruct (informational c); intros [= <-].
Qed.

Lemma ensure_header_body r : rBody (ensure_header r) = rBody r.
Proof.
  unfold ensure_header. destruct (base_WriteHeader 200 r) eqn:E; [|done..].
  by apply base_WriteHeader_body in E.
Qed.

Lemma w_WriteHeader_body c w w1 : w_WriteHeader c w = Ok w1 → body w1 = body w.
Proof.
  unfold body. revert c w1. induction w as [r|w IH ? ?|w IH ? ?|w IH c' d]; intros c w1; cbn.
  - intros (r1 & E & [= <-])%outcome_bind_Ok. exact (base_WriteHeader_body _ _ _ E).
  - intros (w' & E & [= <-])%outcome_bind_Ok. exact (IH _ _ E).
  - intros (w' & E & [= <-])%outcome_bind_Ok. exact (IH _ _ E).
  - destruct d; [by intros [= <-]|].
    intros (w' & E & [= <-])%outcome_bind_Ok. exact (IH _ _ E).
Qed.

Lemma w_HeaderWrite_headed pre b w n w1 :
  headed w → w_HeaderWrite pre b w = Ok (n, w1) → body w1 = body w.
Proof.
  unfold body. revert pre n w1. induction w as [r|w IH ? ?|w IH ? ?|w IH c' d]; intros pre n w1 Hw; cbn.
  - done.
  - intros ([k w'] & E & [= _ <-])%outcome_bind_Ok. exact (IH _ _ _ Hw E).
  - intros (w' & E & [= _ <-])%outcome_bind_Ok.
    destruct pre; [exact (w_WriteHeader_body _ _ _ E)|by injection E as <-].
  - intros ([k w'] & E & [= _ <-])%outcome_bind_Ok. exact (IH _ _ _ Hw E).
Qed.

Lemma w_Flush_body w : body (w_Flush w) = body w.
Proof. unfold body. induction w; cbn; [apply ensure_header_body|done..]. Qed.

Lemma same_shape_headed w w' : same_shape w w' → headed w ↔ headed w'.
Proof. revert w'. induction w; intros []; simpl; try done; auto. intros [_ ?]. auto. Qed.

Lemma writes_headed w w' : writes w w' → headed w → body w' = body w.
Proof.
  induction 1 as [w|f w w' _ IH|c w w1 w' E _ IH|b w n w1 w' E _ IH|w w' _ IH|c w w1 d w' H IH1 _ IH2|w w1 st n w' H IH1 _ IH2];
    intros Hw.
  - done.
  - rewrite IH; [apply set_header_body|]. by apply (same_shape_headed _ _ (set_header_shape f w)).
  - rewrite IH; [by apply w_WriteHeader_body in E|].
    by apply (same_shape_headed _ _ (w_WriteHeader_shape _ _ _ E)).
  - rewrite IH; [by apply w_HeaderWrite_headed in E|].
    by apply (same_shape_headed _ _ (w_HeaderWrite_shape _ _ _ _ _ E)).
  - rewrite IH; [apply w_Flush_body|]. by apply (same_shape_headed _ _ (w_Flush_shape w)).
  - rewrite IH2; [by apply IH1|]. by apply (same_shape_headed _ _ (writes_shape _ _ H)).
  - pose proof (IH1 I) as Hb. rewrite IH2; [exact Hb|].
    pose proof (writes_shape _ _ H) as Hs. by apply (same_shape_headed w w1 Hs).
Qed.

(** A [metaResponseWriter] directly over the server's writer counts the bytes of the
    body: the difference, modulo [2 ^ 64], never changes. *)
Fixpoint meter (w : writer) : Z :=
  match w with
  | Base _ => 0
  | MetaRW (Base r) _ n => (n - slen (rBody r)) mod 2 ^ 64
  | MetaRW w _ _ | HeadRW w _ _ | OverrideRW w _ _ => meter w
  end.

Lemma meter_MetaRW w w' st st' n :
  same_shape w w' → body w = body w' → meter w = meter w' →
  meter (MetaRW w st n) = meter (MetaRW w' st' n).
Proof. intros Hs Hb Hm. destruct w, w'; simpl in *; try done. unfold body in Hb. cbn in Hb. by rewrite Hb. Qed.

Lemma set_header_meter f w : meter (set_header f w) = meter w.
Proof.
  induction w as [r|w IH st n|w IH st n|w IH c d]; [done| |exact IH..].
  change (meter (MetaRW (set_header f w) st n) = meter (MetaRW w st n)). symmetry.
  apply meter_MetaRW; [apply set_header_shape|by rewrite set_header_body|done].
Qed.

Lemma w_Flush_meter w : meter (w_Flush w) = meter w.
Proof.
  induction w as [r|w IH st n|w IH st n|w IH c d]; [done| |exact IH..].
  change (meter (MetaRW (w_Flush w) st n) = meter (MetaRW w st n)). symmetry.
  apply meter_MetaRW; [apply w_Flush_shape|by rewrite w_Flush_body|done].
Qed.

Lemma w_WriteHeader_meter c w w1 : w_WriteHeader c w = Ok w1 → meter w1 = meter w.
Proof.
  revert c w1. induction w as [r|w IH st n|w IH st n|w IH c' d]; intros c w1; cbn [w_WriteHeader].
  - by intros (r1 & E & [= <-])%outcome_bind_Ok.
  - intros (w' & E & [= <-])%outcome_bind_Ok. symmetry. apply meter_MetaRW.
    + by eapply w_WriteHeader_shape.
    + symmetry. by eapply w_WriteHeader_body.
    + symmetry. exact (IH _ _ E).
  - intros (w' & E & [= <-])%outcome_bind_Ok. exact (IH _ _ E).
  - destruct d; [by intros [= <-]|].
    intros (w' & E & [= <-])%outcome_bind_Ok. exact (IH _ _ E).
Qed.

Lemma base_Write_counts b r n r1 : base_Write b r = (n, r1) → slen (rBody r1) = slen (rBody r) + n.
Proof.
  unfold base_Write. rewrite <- (ensure_header_body r).
  destruct (_ && _); intros [= <- <-]; cbn [rBody]; [by rewrite slen_app|lia].
Qed.

Lemma w_HeaderWrite_meter pre b w n w1 : w_HeaderWrite pre b w = Ok (n, w1) → meter w1 = meter w.
Proof.
  revert pre n w1. induction w as [r|w IH st z|w IH st z|w IH c' d]; intros pre n w1; cbn [w_HeaderWrite].
  - intros (r' & _ & E)%outcome_bind_Ok. destruct (base_Write b r'). by injection E as _ <-.
  - intros ([k w'] & E & [= _ <-])%outcome_bind_Ok. pose proof (IH _ _ _ E) as Hm.
    destruct w as [r| | |]; [|by destruct w'; apply w_HeaderWrite_shape in E..].
    cbn [w_HeaderWrite] in E. apply outcome_bind_Ok in E as (r1 & Hr & E).
    destruct (base_Write b r1) as [k' r2] eqn:Ew. injection E as -> <-.
    apply base_Write_counts in Ew. cbn [meter].
    assert (rBody r1 = rBody r) as Hb.
    { destruct pre; [by eapply base_WriteHeader_body|by injection Hr as <-]. }
    rewrite Hb in Ew. rewrite Ew, <- Zminus_mod_idemp_l, wrap64_mod, Zminus_mod_idemp_l.
    f_equal. lia.
  - intros (w' & E & [= _ <-])%outcome_bind_Ok.
    destruct pre; [exact (w_WriteHeader_meter _ _ _ E)|by injection E as <-].
  - intros ([k w'] & E & [= _ <-])%outcome_bind_Ok. exact (IH _ _ _ E).
Qed.

Lemma writes_meter w w' : writes w w' → meter w' = meter w.
Proof.
  induction 1 as [w|f w w' _ IH|c w w1 w' E _ IH|b w n w1 w' E _ IH|w w' _ IH|c w w1 d w' H IH1 _ IH2|w w1 st n w' H IH1 _ IH2].
  - done.
  - rewrite IH. apply set_header_meter.
  - rewrite IH. by eapply w_WriteHeader_meter.
  - rewrite IH. by eapply w_HeaderWrite_meter.
  - rewrite IH. apply w_Flush_meter.
  - rewrite IH2. exact IH1.
  - rewrite IH2. exact IH1.
Qed.
