(* ===== verification/Bodies.v ===== *)
(** * Bodies: how the body of a response grows

    On a writer without overrides and without a [headResponseWriter], once a status
    that allows a body is sent, every [Write] that fits into the declared length
    appends its bytes. *)

From S2P Require Import Prelude GoStrings GoNum GoFmt Json GoURL Http HttpLaws Handles.

Fixpoint direct (w : writer) : Prop :=
  match w with
  | Base _ => True
  | MetaRW w _ _ => direct w
  | _ => False
  end.

Lemma direct_transparent w : direct w → transparent w.
Proof. induction w; simpl; auto; done. Qed.

Lemma same_shape_direct w w' : same_shape w w' → direct w → direct w'.
Proof. revert w'. induction w; intros []; simpl; try done; auto. Qed.

Definition declared (w : writer) : option Z := contentLength (base w).

(** [n] more bytes fit. *)
Definition room (n : Z) (w : writer) : Prop :=
  match declared w with Some len => slen (body w) + n ≤ len | None => True end.

(** The header is sent with the status [c] and a body may follow. *)
Record body_open (c : Z) (w : writer) : Prop := {
  open_direct : direct w;
  open_status : status w = Some c;
  open_allowed : bodyAllowed c = true;
}.

Lemma base_Write_open b r c :
  rStatus r = Some c → bodyAllowed c = true →
  match contentLength r with Some n => slen (rBody r) + slen b ≤ n | None => True end →
  base_Write b r = (slen b, MkResponse (rHeader r) (infos r) (rStatus r) (sentHeader r)
                             (contentLength r) (rBody r +:+ b)).
Proof.
  intros Hs Hc Hl. unfold base_Write. rewrite (ensure_header_sent r c Hs), Hs. change (default 200 (Some c)) with c.
  rewrite Hc. cbn [andb]. destruct (contentLength r); [|done]. by ztest.
Qed.

Lemma w_Write_all b w c :
  body_open c w → room (slen b) w →
  ∃ w', w_Write b w = Ok (slen b, w') ∧ body_open c w' ∧ body w' = body w +:+ b ∧
    declared w' = declared w ∧ sent w' = sent w.
Proof.
  intros [Hp Hs Hc] Hr. unfold w_Write, room, declared, body, status, sent in *.
  assert (∃ w', w_HeaderWrite None b w = Ok (slen b, w') ∧ direct w' ∧ status w' = Some c ∧
    rBody (base w') = rBody (base w) +:+ b ∧ contentLength (base w') = contentLength (base w) ∧
    sentHeader (base w') = sentHeader (base w))
    as (w' & E & H1 & H2 & H3 & H4 & H5); [|exists w'; by repeat split].
  induction w as [r|w IH st z| |]; cbn in *; [| |done..].
  - rewrite (base_Write_open b r c) by done. by eexists.
  - destruct (IH Hp Hs Hr) as (w' & -> & H1 & H2 & H3 & H4 & H5). by eexists.
Qed.

Lemma w_Write_open b w c :
  body_open c w → room (slen b) w →
  ∃ n w', w_Write b w = Ok (n, w') ∧ body_open c w' ∧ body w' = body w +:+ b ∧
    declared w' = declared w ∧ sent w' = sent w.
Proof. intros Ho Hr. destruct (w_Write_all b w c Ho Hr) as (w' & H1). by exists (slen b), w'. Qed.

(** A [Write] that is refused writes nothing. *)
Lemma w_Write_direct b w n w' :
  direct w → w_Write b w = Ok (n, w') → body w' = body w ∨ body w' = body w +:+ b.
Proof.
  unfold w_Write, body. revert n w'. induction w as [r|w IH st z| |]; cbn; intros n w' Hd; [| |done..].
  - destruct (base_Write b r) as [k r'] eqn:E. intros [= _ <-]. cbn. revert E. unfold base_Write.
    rewrite <- (ensure_header_body r). destruct (_ && _); intros [= _ <-]; auto.
  - intros ([k w1] & E & [= _ <-])%outcome_bind_Ok. exact (IH _ _ Hd E).
Qed.

Lemma w_Flush_open w c :
  body_open c w → body_open c (w_Flush w) ∧ body (w_Flush w) = body w ∧
    declared (w_Flush w) = declared w ∧ sent (w_Flush w) = sent w.
Proof.
  intros [Hp Hs Hc]. destruct (w_Flush_sent w c (direct_transparent _ Hp) Hs) as [H1 _].
  split; [split; [by eapply same_shape_direct, Hp; apply w_Flush_shape|done..]|].
  split; [apply w_Flush_body|]. unfold declared, sent, status in *. clear H1.
  induction w as [r|w IH st z| |]; cbn in *; [by rewrite (ensure_header_sent r c)|auto|done..].
Qed.

(** ** Computations *)

(** [m] appends [b] to the body, in the time [t]. *)
Record appended (c : Z) (b : string) (t : Z) (s s' : World) : Prop := {
  app_open : body_open c (wr s');
  app_body : body (wr s') = body (wr s) +:+ b;
  app_declared : declared (wr s') = declared (wr s);
  app_now : now s' = now s + t;
  app_gone : gone s' = gone s;
  app_sent : sent (wr s') = sent (wr s);
}.

Lemma appended_refl c s : body_open c (wr s) → appended c "" 0 s s.
Proof. intros Ho. split; try done; [by rewrite sapp_nil_r|lia]. Qed.

Lemma appended_trans c b1 b2 t1 t2 s1 s2 s3 :
  appended c b1 t1 s1 s2 → appended c b2 t2 s2 s3 → appended c (b1 +:+ b2) (t1 + t2) s1 s3.
Proof.
  intros [] []. split; try congruence; [|lia].
  rewrite app_body1, app_body0. by rewrite sapp_assoc.
Qed.

Lemma Write_appends b c s :
  body_open c (wr s) → room (slen b) (wr s) → ∃ s', Write b s = (Ok tt, s') ∧ appended c b 0 s s'.
Proof.
  intros Ho Hr. unfold Write. destruct (w_Write_open b (wr s) c Ho Hr) as (n & w' & -> & H1 & H2 & H3 & H4).
  eexists. split; [done|]. split; try done. cbn. lia.
Qed.

Lemma Flush_appends c s : body_open c (wr s) → ∃ s', Flush s = (Ok tt, s') ∧ appended c "" 0 s s'.
Proof.
  intros Ho. unfold Flush. destruct (w_Flush_open (wr s) c Ho) as (H1 & H2 & H3 & H4).
  eexists. split; [done|]. split; cbn; try done; [by rewrite sapp_nil_r|lia].
Qed.

Lemma room_mono n m w : n ≤ m → room m w → room n w.
Proof. unfold room. destruct (declared w); [lia|done]. Qed.

Lemma appended_room c b t s s' n :
  appended c b t s s' → room (slen b + n) (wr s) → room n (wr s').
Proof.
  intros []. unfold room. rewrite app_declared0, app_body0, slen_app.
  destruct (declared (wr s)); [lia|done].
Qed.

(** A wait that the client sits out. *)
Definition stays (d : Z) (s : World) : Prop := ∀ t, gone s = Some t → now s + d ≤ t.

Lemma Sleep_appends d c s :
  body_open c (wr s) → stays d s → ∃ s', Sleep d s = (Ok true, s') ∧ appended c "" d s s'.
Proof.
  intros Ho Hs. unfold Sleep. assert (appended c "" d s (set_now (now s + d) s)).
  { split; try done. cbn. by rewrite sapp_nil_r. }
  destruct (gone s) as [t|] eqn:E; [|by eexists]. specialize (Hs t E). ztest. by eexists.
Qed.
