(* ===== verification/GoPath.v ===== *)
(** * GoPath: laws of [path.Clean] on the paths of requests

    A rooted path stands for a list of elements, each of them non-empty, without
    slash and neither [.] nor [..]: [elems].  [Clean] prints that list back.
    Trimming leaves alone what starts and ends with a visible character. *)

From S2P Require Import Prelude GoStrings.

(** ** Reversal *)

Lemma srev_app_spec s acc : srev_app s acc = srev s +:+ acc.
Proof.
  unfold srev. revert acc. induction s as [|c s IH]; intros acc; [done|].
  cbn [srev_app]. rewrite IH, (IH (String c "")), <- sapp_assoc. done.
Qed.

Lemma srev_cons c s : srev (String c s) = srev s +:+ str1 c.
Proof. unfold srev at 1. cbn [srev_app]. by rewrite srev_app_spec. Qed.

Lemma srev_sapp a b : srev (a +:+ b) = srev b +:+ srev a.
Proof.
  induction a as [|c a IH]; cbn [String.append]; [by rewrite sapp_nil_r|].
  by rewrite !srev_cons, IH, sapp_assoc.
Qed.

Lemma srev_involutive s : srev (srev s) = s.
Proof. induction s as [|c s IH]; [done|]. by rewrite srev_cons, srev_sapp, IH. Qed.

Lemma contains_char_srev c s : contains_char c (srev s) = contains_char c s.
Proof.
  induction s as [|d s IH]; [done|].
  rewrite srev_cons, contains_char_app, IH. cbn. by rewrite orb_false_r, orb_comm.
Qed.

(** ** Elements *)

Record elem_ok (e : string) : Prop := {
  elem_nonempty : e ≠ "";
  elem_dot : e ≠ ".";
  elem_dotdot : e ≠ "..";
  elem_slash : contains_char "/" e = false;
}.

Definition path_of (l : list string) : string := Join "" (map (λ e, "/" +:+ e) l).

Lemma path_of_cons e l : path_of (e :: l) = "/" +:+ e +:+ path_of l.
Proof. unfold path_of. cbn [map]. by rewrite Join_empty_cons, <- sapp_assoc. Qed.

Lemma path_of_app l k : path_of (l ++ k) = path_of l +:+ path_of k.
Proof. unfold path_of. by rewrite map_app, Join_empty_app. Qed.

Lemma path_of_Join l : l ≠ [] → path_of l = "/" +:+ Join "/" l.
Proof.
  induction l as [|e l IH]; [done|]. intros _. rewrite path_of_cons.
  destruct l as [|e' l]; [by rewrite sapp_nil_r|]. by rewrite Join_cons, IH by done.
Qed.

Lemma path_of_rooted l : l ≠ [] → HasPrefix (path_of l) "/" = true.
Proof. intros H. rewrite path_of_Join by done. apply (prefix_app "/"). Qed.

Lemma path_of_Split s : path_of (Split "/" s) = "/" +:+ s.
Proof. rewrite path_of_Join by apply Split_nonempty. f_equal. apply (Join_Split "/"). Qed.

(** ** Clean *)

Definition elems (p : string) : list string := rev (fold_left (clean_step true) (Split "/" p) []).

Lemma clean_step_ok out e :
  Forall elem_ok out → contains_char "/" e = false → Forall elem_ok (clean_step true out e).
Proof.
  intros Hout He. unfold clean_step.
  destruct (String.eqb_spec e ""); [done|]. destruct (String.eqb_spec e "."); [done|]. cbn [orb].
  destruct (String.eqb_spec e ".."); [|by constructor].
  destruct Hout as [|x out Hx Hout]; [constructor|].
  destruct (String.eqb_spec x ".."); [by destruct Hx|done].
Qed.

Lemma fold_clean_ok l out :
  Forall elem_ok out → (∀ x, x ∈ l → contains_char "/" x = false) →
  Forall elem_ok (fold_left (clean_step true) l out).
Proof.
  revert out. induction l as [|e l IH]; intros out Hout Hl; [done|]. cbn [fold_left].
  apply IH; [apply clean_step_ok; [done|]|]; intros; apply Hl; set_solver.
Qed.

Lemma elems_ok p : Forall elem_ok (elems p).
Proof.
  unfold elems. apply Forall_rev, fold_clean_ok; [constructor|].
  intros x. apply Split_no_sep.
Qed.

Lemma fold_clean_id l out :
  Forall elem_ok l → fold_left (clean_step true) l out = rev l ++ out.
Proof.
  intros Hl. revert out. induction Hl as [|e l [H1 H2 H3 _] _ IH]; intros out; [done|].
  cbn [fold_left rev]. rewrite IH, <- app_assoc. f_equal. unfold clean_step.
  by rewrite (proj2 (String.eqb_neq _ _) H1), (proj2 (String.eqb_neq _ _) H2),
    (proj2 (String.eqb_neq _ _) H3).
Qed.

Lemma elems_path_of l : Forall elem_ok l → elems (path_of l) = l.
Proof.
  intros Hl. unfold elems. destruct l as [|e l']; [done|]. set (l := e :: l') in *.
  rewrite path_of_Join by done. change ("/" +:+ Join "/" l) with ("" +:+ String "/" (Join (str1 "/") l)).
  rewrite Split_append, Split_Join; [|done|].
  - change (Split "/" "" ++ l) with ("" :: l). cbn [fold_left].
    change (clean_step true [] "") with (@nil string).
    by rewrite fold_clean_id, app_nil_r, rev_involutive.
  - intros x Hx. rewrite Forall_forall in Hl. by apply Hl.
Qed.

Lemma Clean_rooted p :
  HasPrefix p "/" = true →
  Clean p = match elems p with [] => "/" | l => path_of l end.
Proof.
  intros Hp. unfold Clean. destruct p as [|c p']; [done|]. set (p := String c p') in *.
  cbn [String.eqb]. rewrite Hp. fold (elems p).
  destruct (elems p) as [|e l] eqn:E; [done|]. by rewrite path_of_Join.
Qed.

(** ** Trimming the slashes *)

Lemma TrimLeftChar_id c d s : d ≠ c → TrimLeftChar c (String d s) = String d s.
Proof. intros H. cbn. by rewrite (proj2 (Ascii.eqb_neq c d)). Qed.

Lemma TrimLeftChar_elem e s : elem_ok e → TrimLeftChar "/" (e +:+ s) = e +:+ s.
Proof.
  intros [H1 _ _ H4]. destruct e as [|c e]; [done|]. cbn [String.append].
  apply TrimLeftChar_id. intros ->. cbn in H4. done.
Qed.

Lemma srev_elem e : elem_ok e → ∃ c s, srev e = String c s ∧ c ≠ "/"%char.
Proof.
  intros [H1 _ _ H4]. rewrite <- contains_char_srev in H4.
  destruct (srev e) as [|c s] eqn:E.
  - by rewrite <- (srev_involutive e), E in H1.
  - exists c, s. split; [done|]. intros ->. done.
Qed.

Lemma Join_last l e : ∃ s, Join "/" (l ++ [e]) = s +:+ e.
Proof.
  induction l as [|x l [s IH]]; [by exists ""|].
  destruct (l ++ [e]) as [|y k] eqn:E; [by destruct l|].
  rewrite <- app_comm_cons, E, Join_cons, IH. exists (x +:+ "/" +:+ s).
  by rewrite !sapp_assoc.
Qed.

Lemma TrimChar_path_of l : Forall elem_ok l → TrimChar "/" (path_of l) = Join "/" l.
Proof.
  intros Hl. destruct l as [|e l']; [done|]. set (l := e :: l') in *.
  rewrite path_of_Join by done. unfold TrimChar. cbn [String.append TrimLeftChar].
  rewrite Ascii.eqb_refl.
  assert (TrimLeftChar "/" (Join "/" l) = Join "/" l) as ->.
  { assert (elem_ok e) by by inversion Hl. unfold l. destruct l' as [|e' l'].
    - cbn. rewrite <- (sapp_nil_r e). by apply TrimLeftChar_elem.
    - rewrite Join_cons. by apply TrimLeftChar_elem. }
  assert (TrimLeftChar "/" (srev (Join "/" l)) = srev (Join "/" l)) as ->;
    [|apply srev_involutive].
  destruct (exists_last (l := l)) as (k & x & Hk); [done|]. rewrite Hk in *.
  apply Forall_app in Hl as [_ Hx]. inversion_clear Hx.
  destruct (Join_last k x) as [s ->]. rewrite srev_sapp.
  destruct (srev_elem x) as (c & t & -> & Hc); [done|]. by apply TrimLeftChar_id.
Qed.

(** The elements of a path have the characters of the path. *)
Lemma clean_step_sub e out x : x ∈ clean_step true out e → x = e ∨ x ∈ out.
Proof.
  unfold clean_step. destruct (_ || _); [by right|].
  destruct (String.eqb_spec e ".."); [|rewrite elem_of_cons; tauto].
  destruct out as [|y out]; [set_solver|].
  destruct (String.eqb y ".."); [|set_solver].
  intros [->|H]%elem_of_cons; [left; congruence|by right].
Qed.

Lemma fold_clean_sub l out x :
  x ∈ fold_left (clean_step true) l out → x ∈ l ∨ x ∈ out.
Proof.
  revert out. induction l as [|e l IH]; intros out; cbn [fold_left]; [by right|].
  intros [H|H]%IH; [set_solver|]. apply clean_step_sub in H. set_solver.
Qed.

Lemma elems_forall P p :
  string_forall P p = true → Forall (λ e, string_forall P e = true) (elems p).
Proof.
  intros Hp. unfold elems. apply Forall_rev, Forall_forall. intros x Hx.
  apply fold_clean_sub in Hx as [Hx|Hx]; [|by apply elem_of_nil in Hx].
  by eapply Split_forall.
Qed.

Lemma path_of_forall P l :
  P "/"%char = true → Forall (λ e, string_forall P e = true) l →
  string_forall P (path_of l) = true.
Proof.
  intros Hs. induction 1 as [|e l He _ IH]; [done|].
  rewrite path_of_cons, !string_forall_app, He, IH. cbn. by rewrite Hs.
Qed.

Lemma path_of_not_double l : Forall elem_ok l → l ≠ [] → HasPrefix (path_of l) "//" = false.
Proof.
  intros Hl Hne. destruct l as [|e l]; [done|]. inversion_clear Hl as [|? ? He _].
  destruct He as [H1 _ _ H4]. rewrite path_of_cons. destruct e as [|c e]; [done|].
  change ("/" +:+ String c e +:+ path_of l) with (String "/" (String c (e +:+ path_of l))).
  rewrite !HasPrefix_cons, Ascii.eqb_refl. cbn [contains_char] in H4. apply orb_false_iff in H4 as [H4 _].
  rewrite Ascii.eqb_sym in H4. by rewrite H4.
Qed.

(** ** Trimming

    It does nothing to texts that start and end with a visible character. *)

(** A printable ASCII character other than the space. *)
Definition visible (c : ascii) : bool := (33 <=? code c) && (code c <=? 126).

Definition invisible_start (p : string) : bool :=
  match p with String d _ => negb (visible d) | "" => false end.

Lemma find_visible pats c s :
  forallb invisible_start pats = true → visible c = true →
  List.find (HasPrefix (String c s)) pats = None.
Proof.
  intros Hp Hc. induction pats as [|p pats IH]; [done|]. cbn [forallb List.find] in *.
  apply andb_true_iff in Hp as [Hp Hps]. destruct p as [|d p]; [done|].
  unfold HasPrefix. cbn [String.prefix]. destruct (ascii_dec d c) as [->|]; [|by apply IH].
  cbn in Hp. by rewrite Hc in Hp.
Qed.

Lemma strip_visible pats fuel c s :
  forallb invisible_start pats = true → visible c = true →
  strip_any pats fuel (String c s) = String c s.
Proof. intros Hp Hc. destruct fuel; [done|]. cbn [strip_any]. by rewrite find_visible. Qed.

(** A text that starts and ends with a visible character. *)
Definition framed (s : string) : Prop :=
  ∃ c1 s1 c2 s2, s = String c1 s1 ∧ s = s2 +:+ str1 c2 ∧ visible c1 = true ∧ visible c2 = true.

Lemma trim_framed pats pats' s :
  forallb invisible_start pats = true → forallb invisible_start pats' = true → framed s →
  (let l := strip_any pats (String.length s) s in
   srev (strip_any pats' (String.length l) (srev l))) = s.
Proof.
  intros Hp Hp' (c1 & s1 & c2 & s2 & H1 & H2 & V1 & V2).
  replace (strip_any pats (String.length s) s) with s
    by (rewrite H1; symmetry; by apply strip_visible).
  cbv zeta. rewrite H2 at 2. rewrite srev_sapp. change (srev (str1 c2)) with (str1 c2). cbn [str1 String.append].
  rewrite strip_visible by done. change (String c2 (srev s2)) with (str1 c2 +:+ srev s2).
  rewrite srev_sapp, srev_involutive. done.
Qed.

Lemma TrimSpace_framed s : framed s → TrimSpace s = s.
Proof. by apply trim_framed. Qed.

Lemma TrimSpace_space s : framed s → TrimSpace (" " +:+ s) = s.
Proof.
  intros Hf. rewrite <- (TrimSpace_framed s Hf) at 2.
  destruct Hf as (c1 & s1 & _ & _ & -> & _ & V1 & _). unfold TrimSpace.
  cbn [String.append String.length]. change (strip_any spaces (S ?n) (String " " ?s)) with (strip_any spaces n s).
  by rewrite !strip_visible.
Qed.

Lemma visible_last k : k ≠ "" → string_forall visible k = true →
  ∃ s c, k = s +:+ str1 c ∧ visible c = true.
Proof.
  induction k as [|c k IH]; [done|]. intros _ [Hc Hk]%andb_true_iff. destruct k as [|d k].
  - by exists "", c.
  - destruct IH as (s & e & -> & He); [done|done|]. by exists (String c s), e.
Qed.
