(* ===== verification/DigestSpec.v ===== *)
(** * DigestSpec: what digest authentication accepts

    The dictionary of an [Authorization] header that a client prints is read back,
    so that [Check] accepts exactly the response of the password; a value that is a
    lone quote makes the parser panic. *)

From S2P Require Import Prelude GoStrings GoNum GoFmt GoURL Http GoPath Digest.

(** ** Dictionaries *)

Record key_ok (k : string) : Prop := {
  key_nonempty : k ≠ "";
  key_visible : string_forall visible k = true;
  key_eq : contains_char "=" k = false;
  key_comma : contains_char "," k = false;
}.

(** A parameter, with a value that is quoted or a bare token. *)
Inductive param_value := Quoted (v : string) | Token (v : string).
Definition value_of (p : param_value) : string := match p with Quoted v | Token v => v end.
Definition value_text (p : param_value) : string :=
  match p with Quoted v => quote1 +:+ v +:+ quote1 | Token v => v end.
Definition value_ok (p : param_value) : Prop :=
  contains_char "," (value_of p) = false ∧
  match p with
  | Quoted _ => True
  | Token v => v ≠ "" ∧ string_forall visible v = true ∧ contains_char (chr 34) v = false
  end.

Definition item (kv : string * param_value) : string := kv.1 +:+ "=" +:+ value_text kv.2.
Definition dict_text (l : list (string * param_value)) : string := Join ", " (map item l).
Definition dict_of (l : list (string * param_value)) (m : gmap string string) : gmap string string :=
  foldl (λ m kv, <[kv.1 := value_of kv.2]> m) m l.

Definition pair_ok (kv : string * param_value) : Prop := key_ok kv.1 ∧ value_ok kv.2.

Lemma visible_framed v : v ≠ "" → string_forall visible v = true → framed v.
Proof.
  intros Hn Hv. destruct (visible_last v Hn Hv) as (s & c & E & Hc).
  destruct v as [|d v]; [done|]. cbn in Hv. apply andb_true_iff in Hv as [Hd _].
  by exists d, v, c, s.
Qed.

Lemma key_framed k : key_ok k → framed k.
Proof. intros []. by apply visible_framed. Qed.

Lemma quoted_framed v : framed (quote1 +:+ v +:+ quote1).
Proof.
  exists (chr 34), (v +:+ quote1), (chr 34), (quote1 +:+ v). split; [done|]. split; [|done].
  change (str1 (chr 34)) with quote1. by rewrite sapp_assoc.
Qed.

Lemma value_framed p : value_ok p → framed (value_text p).
Proof. destruct p; [intros _; apply quoted_framed|]. intros (_ & ? & ? & _). by apply visible_framed. Qed.

Lemma item_framed kv : pair_ok kv → framed (item kv).
Proof.
  intros [Hk Hv]. destruct (key_framed _ Hk) as (c1 & s1 & _ & _ & E & _ & V1 & _).
  destruct (value_framed _ Hv) as (_ & _ & c2 & s2 & _ & E2 & _ & V2).
  unfold item. exists c1, (s1 +:+ "=" +:+ value_text kv.2), c2, (kv.1 +:+ "=" +:+ s2). rewrite E.
  split; [done|]. split; [|done]. by rewrite E2, <- !sapp_assoc.
Qed.

Lemma strip_quotes_quoted v : strip_quotes (quote1 +:+ v +:+ quote1) = Ok v.
Proof.
  unfold strip_quotes. unfold HasPrefix. rewrite prefix_app.
  replace (HasSuffix (quote1 +:+ v +:+ quote1) quote1) with true; cycle 1.
  { rewrite sapp_assoc. symmetry. apply HasSuffix_app. }
  cbn [andb]. rewrite !slen_app. change (slen quote1) with 1. pose proof (slen_nonneg v). ztest.
  f_equal. change (sdrop 1 (quote1 +:+ v +:+ quote1)) with (v +:+ quote1).
  replace (String.length (quote1 +:+ v +:+ quote1) - 2)%nat with (String.length v); [apply stake_app|].
  change (String.length (quote1 +:+ v +:+ quote1)) with (S (String.length (v +:+ quote1))).
  rewrite slength_app. cbn. lia.
Qed.

Lemma strip_quotes_value p : value_ok p → strip_quotes (value_text p) = Ok (value_of p).
Proof.
  destruct p as [v|v]; [intros _; apply strip_quotes_quoted|]. intros (_ & Hn & _ & Hq). cbn.
  unfold strip_quotes, HasPrefix. destruct v as [|c v]; [done|]. cbn in Hq. apply orb_false_iff in Hq as [Hq _].
  change quote1 with (String (chr 34) ""). cbn [String.prefix].
  destruct (ascii_dec _ _) as [<-|]; [|done]. by rewrite Ascii.eqb_refl in Hq.
Qed.

Lemma dict_pair_item m kv s :
  pair_ok kv → TrimSpace s = item kv → dict_pair m s = Ok (<[kv.1 := value_of kv.2]> m).
Proof.
  intros [Hk Hv] Hs. unfold dict_pair, SplitN2_pair. rewrite Hs. unfold item.
  change ("=" +:+ value_text kv.2) with (String "=" (value_text kv.2)).
  rewrite Cut_found by apply Hk. rewrite TrimSpace_framed by (by apply key_framed).
  destruct (slen kv.1 =? 0) eqn:E; reflect_bools.
  { destruct Hk as [Hn _ _ _]. destruct kv.1; [done|]. unfold slen in E. cbn in E. lia. }
  rewrite TrimSpace_framed by (by apply value_framed). by rewrite strip_quotes_value.
Qed.

Lemma item_comma kv : pair_ok kv → contains_char "," (item kv) = false.
Proof.
  intros [Hk [Hv _]]. unfold item. rewrite !contains_char_app, (key_comma _ Hk).
  destruct kv.2; cbn [value_text value_of] in *; rewrite ?contains_char_app, Hv; reflexivity.
Qed.

Lemma dict_pairs_items l m :
  Forall pair_ok l → dict_pairs m (map (λ kv, " " +:+ item kv) l) = Ok (dict_of l m).
Proof.
  intros Hl. revert m. induction Hl as [|kv l Hkv _ IH]; intros m; [done|]. cbn [map dict_pairs].
  rewrite (dict_pair_item m kv) by (done || by apply TrimSpace_space, item_framed). apply IH.
Qed.

Lemma Split_items kv l :
  Forall pair_ok (kv :: l) →
  Split "," (dict_text (kv :: l)) = item kv :: map (λ kv, " " +:+ item kv) l.
Proof.
  intros Hl. unfold dict_text. revert kv Hl. induction l as [|kv' l IH]; intros kv Hl;
    apply Forall_cons in Hl as [Hkv Hl].
  - apply Split_no_sep_id. by apply item_comma.
  - cbn [map]. rewrite Join_cons.
    change (", " +:+ ?s) with (str1 "," +:+ (" " +:+ s)). rewrite Split_app by (by apply item_comma).
    f_equal. specialize (IH kv' Hl). cbn [map] in IH. cbn [String.append Split]. rewrite IH. done.
Qed.

Lemma parseDictHeader_text l :
  l ≠ [] → Forall pair_ok l → parseDictHeader (dict_text l) = Ok (dict_of l ∅).
Proof.
  intros Hne Hl. destruct l as [|kv l]; [done|]. unfold parseDictHeader. rewrite Split_items by done.
  apply Forall_cons in Hl as [Hkv Hl]. cbn [dict_pairs].
  rewrite (dict_pair_item _ kv) by (done || by apply TrimSpace_framed, item_framed).
  exact (dict_pairs_items l _ Hl).
Qed.

(** ** [Check] *)

Section Check.
Context `{Hashes}.

(** RFC 2617, section 3.2.2, on its own terms: the credentials of a request, and the
    digest that a server has to find in them.  The algorithms of RFC 7616 are those with
    SHA-256 in place of MD5. *)
Record credentials := MkCredentials {
  c_username : string;
  c_realm : string;
  c_nonce : string;
  c_uri : string;                               (* digest-uri-value *)
  c_response : string;
  c_algorithm : option string;                  (* MD5 where it is absent *)
  c_qop : option (string * string * string);    (* with the nonce count and the client's nonce *)
}.

Inductive hash_function := HashMD5 | HashSHA256.
Inductive algorithm := MkAlgorithm (f : hash_function) (session : bool).
Definition algorithms : list (string * algorithm) :=
  [("md5", MkAlgorithm HashMD5 false); ("md5-sess", MkAlgorithm HashMD5 true);
   ("sha-256", MkAlgorithm HashSHA256 false); ("sha-256-sess", MkAlgorithm HashSHA256 true)].
Definition find_algorithm (c : credentials) : option algorithm :=
  match c_algorithm c with
  | None => Some (MkAlgorithm HashMD5 false)
  | Some name => snd <$> find (λ p, String.eqb p.1 (ToLower name)) algorithms
  end.

(** The digest of parts that colons join, in hexadecimal.  A1 has the nonces in a session, A2 has the digest of
    the body where its integrity is protected. *)
Definition KD (f : hash_function) (parts : list string) : string :=
  let data := to_bytes (Join ":" parts) in
  hex_bytes (match f with HashMD5 => md5_Sum data | HashSHA256 => sha256_Sum256 data end).
Definition H_A1 (f : hash_function) (session : bool) (c : credentials) (password : string) : option string :=
  let secret := [c_username c; c_realm c; password] in
  if session then
    '(_, _, cnonce) ← c_qop c; Some (KD f [KD f secret; c_nonce c; cnonce])
  else Some (KD f secret).
Definition H_A2 (f : hash_function) (c : credentials) (method body : string) : option string :=
  match c_qop c with
  | None => Some (KD f [method; c_uri c])
  | Some (qop, _, _) =>
      if String.eqb qop "auth" then Some (KD f [method; c_uri c])
      else if String.eqb qop "auth-int" then Some (KD f [method; c_uri c; KD f [body]])
      else None
  end.
Definition request_digest (c : credentials) (password method body : string) : option string :=
  '(MkAlgorithm f session) ← find_algorithm c;
  ha1 ← H_A1 f session c password;
  ha2 ← H_A2 f c method body;
  Some (match c_qop c with
        | Some (qop, nc, cnonce) => KD f [ha1; c_nonce c; nc; cnonce; qop; ha2]
        | None => KD f [ha1; c_nonce c; ha2]
        end).

(** The parameters of a header are those of the credentials. *)
Record presents (params : gmap string string) (c : credentials) : Prop := {
  p_username : params !! "username" = Some (c_username c);
  p_realm : params !! "realm" = Some (c_realm c);
  p_nonce : params !! "nonce" = Some (c_nonce c);
  p_uri : params !! "uri" = Some (c_uri c);
  p_response : params !! "response" = Some (c_response c);
  p_algorithm : params !! "algorithm" = c_algorithm c;
  p_qop : params !! "qop" = (λ p, p.1.1) <$> c_qop c;
  p_nc : params !! "nc" = (λ p, p.1.2) <$> c_qop c;
  p_cnonce : params !! "cnonce" = snd <$> c_qop c;
}.

(** What the package implements of it: no protection of the body, no sessions. *)
Definition implemented (c : credentials) : Prop :=
  match c_qop c with None => True | Some (qop, _, _) => qop = "auth" end ∧
  ∃ f, find_algorithm c = Some (MkAlgorithm f false).

(** The hash that the parser takes for the name of an algorithm. *)
Lemma parsed_algorithm (c : credentials) f :
  find_algorithm c = Some (MkAlgorithm f false) →
  (if String.eqb (ToLower (default "" (c_algorithm c))) "sha-256" then SHA256 else MD5)
  = match f with HashMD5 => MD5 | HashSHA256 => SHA256 end.
Proof.
  unfold find_algorithm. destruct (c_algorithm c) as [name|]; [|by intros [= <-]]. cbn [default from_option id].
  generalize (ToLower name). intros n. unfold algorithms. cbn [find fst].
  repeat match goal with
    |- context [String.eqb ?s n] => destruct (String.eqb_spec s n) as [<-|?]; [by intros [= <-]|] end.
  done.
Qed.

(** For such credentials the response that is expected is the request digest. *)
Lemma response_digest params c password method body :
  presents params c → implemented c →
  request_digest c password method body
  = Some (response (authorization_of params) password method (c_uri c)).
Proof.
  intros [Eu Er En Ei Es Ea Eq Ec Eo] [Hq [f Hf]]. unfold response, makeHA1, makeHA2, hash, authorization_of.
  rewrite Eu, Er, En, Ea, Eq, Ec, Eo.
  cbn [a_algorithm a_cnonce a_nc a_nonce a_qop a_realm a_username default from_option id].
  rewrite (parsed_algorithm c f Hf). unfold request_digest, H_A1, H_A2, KD. rewrite Hf.
  destruct (c_qop c) as [[[qop nc] cnonce]|].
  - rewrite Hq. by destruct f.
  - by destruct f.
Qed.


(** A parameter whose value is one double quote makes the parser slice out of
    bounds: the request panics instead of being refused. *)
Theorem Check_panics r user password :
  Header_Get "Authorization" (RHeader r) = "Digest a=" +:+ quote1 →
  Check r user password = Panic "runtime error: slice bounds out of range [1:0]".
Proof. intros Hh. unfold Check. rewrite Hh. reflexivity. Qed.
End Check.

(** ** Witnesses *)

#[local] Existing Instance identity_hashes.

Definition digest_request (auth : string) : Request :=
  MkRequest "GET" (MkUrl "" "" None "" "/x" "" false "" "" "" false) "/x"
    (Header_Set "Authorization" auth ∅) "h" "r" false [] "" None ∅.

(** A client that knows the password: its credentials and the parameters it prints. *)
Definition client (user password method body : string) (algorithm : option string)
    (qop : option (string * string * string)) (uri : string) : credentials :=
  let c resp := MkCredentials user "go-httpbin" "n 1" uri resp algorithm qop in
  c (default "" (request_digest (c "") password method body)).
Definition client_pairs (c : credentials) : list (string * param_value) :=
  [("username", Quoted (c_username c)); ("realm", Quoted (c_realm c)); ("nonce", Quoted (c_nonce c));
   ("uri", Quoted (c_uri c))] ++
  match c_qop c with
  | Some (qop, nc, cnonce) => [("qop", Token qop); ("nc", Token nc); ("cnonce", Quoted cnonce)]
  | None => []
  end ++
  match c_algorithm c with Some a => [("algorithm", Token a)] | None => [] end ++
  [("response", Quoted (c_response c))].
Definition client_request (c : credentials) : Request :=
  digest_request ("Digest " +:+ dict_text (client_pairs c)).


(** Outside of that the package departs from the RFC.  The right response of a client
    that protects its body is refused, even for an empty body, and so is that of a session;
    what is accepted is the digest without the body or the session.  A uri parameter that
    is not the request target is ignored. *)
Example auth_int_refused :
  let qop := Some ("auth-int", "00000001", "c") in
  Check (client_request (client "u" "pw" "GET" "" None qop "/x")) "u" "pw" = Ok false.
Proof. vm_compute. reflexivity. Qed.
Example session_refused :
  Check (client_request (client "u" "pw" "GET" "" (Some "MD5-sess") (Some ("auth", "1", "c")) "/x"))
    "u" "pw" = Ok false.
Proof. vm_compute. reflexivity. Qed.
Example other_uri_refused :
  Check (client_request (client "u" "pw" "GET" "" None None "http://h/x")) "u" "pw" = Ok false.
Proof. vm_compute. reflexivity. Qed.

Lemma Check_panics_witness :
  Check (digest_request ("Digest a=" +:+ quote1)) "u" "p"
  = Panic "runtime error: slice bounds out of range [1:0]".
Proof. apply Check_panics. vm_compute. reflexivity. Defined.
