(* ===== verification/Delay.v ===== *)
(** * Delay: parsing status codes, durations and delay ranges

    The input parsers of [helpers.go] that the handlers share.  A [Duration] is
    an [int64] of nanoseconds; what the conversion of a float does outside of its
    range, and the wrap-around of the product, are those of the code. *)

From S2P Require Import Prelude GoStrings GoNum GoFloat GoTime Utf8 Base64 GoFmt.

Section Parsers.
Context `{GoStd}.

Definition parseBoundedStatusCode (input : string) (minVal maxVal : Z) : outcome gerror Z :=
  code ← map_err (λ e, Errorf "invalid status code: %q: %w" [AStr input; AErr e]) (AtoiE input);
  if (code <? minVal) || (maxVal <? code)
  then Err (Errorf "invalid status code: %d not in range [%d, %d]"
              [AInt code; AInt minVal; AInt maxVal])
  else Ok code.

Definition parseStatusCode (input : string) : outcome gerror Z :=
  parseBoundedStatusCode input 100 599.

(** [time.Duration(n*1000) * time.Millisecond] *)
Definition secondsToDuration (n : float64) : Z :=
  let x := fmul n (of_Z 1000) in
  wrap64 (float_to_int64 (floatOob x) x * Millisecond).

Definition parseDuration (input : string) : outcome gerror Z :=
  match ParseDuration input with
  | Ok d => Ok d
  | Err _ => n ← ParseFloatE input; Ok (secondsToDuration n)
  | Panic w => Panic w
  end.

Definition parseBoundedDuration (input : string) (minVal maxVal : Z) : outcome gerror Z :=
  d ← parseDuration input;
  if maxVal <? d then Err (Errorf "duration %s longer than %s" [ADur d; ADur maxVal])
  else if d <? minVal then Err (Errorf "duration %s shorter than %s" [ADur d; ADur minVal])
  else Ok d.

Definition parseDelayRange (input : string) (maxVal : Z) : outcome gerror (Z * Z) :=
  let single :=
    d ← parseBoundedDuration input 0 maxVal;
    Ok (d, d) in
  match SplitN2 "-" input with
  | [p0; p1] =>
      if nonempty p0 then
        match parseDuration p0, parseDuration p1 with
        | Ok minD, Ok maxD =>
            if maxD <? minD
            then Err (Errorf "delay range min %s must be <= max %s" [ADur minD; ADur maxD])
            else if minD <? 0
            then Err (Errorf "delay range min %s must be >= 0" [ADur minD])
            else if maxVal <? maxD
            then Err (Errorf "delay range max %s longer than %s" [ADur maxD; ADur maxVal])
            else Ok (minD, maxD)
        | _, _ => single
        end
      else single
  | _ => single
  end.

(** [unixNano] is [time.Now().UnixNano()]. *)
Definition parseSeedInt64 (unixNano : Z) (rawSeed : string) : outcome gerror Z :=
  if nonempty rawSeed then ParseIntE rawSeed else Ok unixNano.
End Parsers.

Definition computePausePerWrite (duration count : Z) : Z :=
  if 1 <? count then
    let n := wrap64 (count - 1) in
    wrap64 (Z.quot (wrap64 (wrap64 (duration + n) - 1)) n)
  else duration.

Record serverTiming := MkServerTiming {
  st_name : string;
  st_dur : Z;
  st_desc : string;
}.

Definition encodeServerTimings (timings : list serverTiming) : string :=
  Join ", " (map (λ t,
    let ms := fmul (Seconds (st_dur t)) (of_Z 1000) in
    st_name t +:+ ";dur=" +:+ FormatFixed 2 ms +:+ ";desc=" +:+ DQUOTE +:+ st_desc t +:+ DQUOTE)
    timings).
