(* ===== verification/DelaySpec.v ===== *)
(** * DelaySpec: what the duration and status-code parsers promise

    Bounds of every accepted value, the exact behaviour on a range and on a
    status code, the pauses of a drip, and the wrap-around of durations given in
    seconds. *)

From S2P Require Import Prelude GoStrings GoNum GoFloat GoTime GoFmt Delay.

Section DelaySpec.
Context `{GoStd}.

Lemma parseDuration_never_panics s w : parseDuration s ≠ Panic w.
Proof.
  unfold parseDuration. destruct (ParseDuration s) as [| |w'] eqn:E; [done| |].
  - unfold ParseFloatE, numErr. destruct (ParseFloat s) as [| |w'] eqn:E'; [done..|].
    by apply ParseFloat_never_panics in E'.
  - by apply ParseDuration_never_panics in E.
Qed.

Lemma parseBoundedDuration_Ok s lo hi d :
  parseBoundedDuration s lo hi = Ok d ↔ parseDuration s = Ok d ∧ lo ≤ d ≤ hi.
Proof.
  unfold parseBoundedDuration. rewrite outcome_bind_Ok. split.
  - intros (d' & E & Hd). destruct (hi <? d') eqn:E1; [done|].
    destruct (d' <? lo) eqn:E2; [done|]. reflect_bools. injection Hd as <-. by split.
  - intros [E Hd]. exists d. split; [done|]. by ztest.
Qed.

Lemma parseBoundedDuration_never_panics s lo hi w : parseBoundedDuration s lo hi ≠ Panic w.
Proof.
  unfold parseBoundedDuration. destruct (parseDuration s) as [d|e|w'] eqn:E; cbn.
  - by destruct (hi <? d), (d <? lo).
  - done.
  - by apply parseDuration_never_panics in E.
Qed.

(** What a range may be: both parts are durations, and they are in order. *)
Definition is_range (input : string) (a b : Z) : Prop :=
  ∃ p0 p1, SplitN2 "-" input = [p0; p1] ∧ p0 ≠ "" ∧
    parseDuration p0 = Ok a ∧ parseDuration p1 = Ok b.

Lemma is_range_unique input a b a' b' :
  is_range input a b → is_range input a' b' → a = a' ∧ b = b'.
Proof.
  unfold is_range. intros (p0 & p1 & -> & _ & E0 & E1) (q0 & q1 & [= <- <-] & _ & ? & ?).
  split; congruence.
Qed.

#[local] Instance is_range_dec input : Decision (∃ x y, is_range input x y).
Proof.
  unfold is_range. destruct (SplitN2 "-" input) as [|p0 [|p1 [|? ?]]];
    try (right; intros (? & ? & ? & ? & ? & ?); congruence).
  destruct (parseDuration p0) as [x| |] eqn:E0;
    try (right; intros (? & ? & ? & ? & ? & ? & ? & ?); congruence).
  destruct (parseDuration p1) as [y| |] eqn:E1;
    try (right; intros (? & ? & ? & ? & ? & ? & ? & ?); congruence).
  destruct (String.eqb_spec p0 "") as [->|Hne].
  - right. intros (? & ? & ? & ? & ? & ? & _). congruence.
  - left. by exists x, y, p0, p1.
Defined.

Lemma parseDelayRange_range input maxVal a b :
  is_range input a b →
  parseDelayRange input maxVal =
    (if b <? a then Err (Errorf "delay range min %s must be <= max %s" [ADur a; ADur b])
     else if a <? 0 then Err (Errorf "delay range min %s must be >= 0" [ADur a])
     else if maxVal <? b then Err (Errorf "delay range max %s longer than %s" [ADur b; ADur maxVal])
     else Ok (a, b)).
Proof.
  intros (p0 & p1 & Es & Hne & E0 & E1). unfold parseDelayRange.
  rewrite Es, E0, E1. unfold nonempty. by rewrite (proj2 (String.eqb_neq p0 "") Hne).
Qed.

Lemma parseDelayRange_single input maxVal :
  (¬ ∃ a b, is_range input a b) →
  parseDelayRange input maxVal = d ← parseBoundedDuration input 0 maxVal; Ok (d, d).
Proof.
  intros Hn. unfold parseDelayRange, nonempty.
  destruct (SplitN2 "-" input) as [|p0 [|p1 [|? ?]]] eqn:Es; try done.
  destruct (String.eqb_spec p0 "") as [|Hne]; [done|]. cbn [negb].
  destruct (parseDuration p0) as [a| |] eqn:E0; try done.
  destruct (parseDuration p1) as [b| |] eqn:E1; try done.
  destruct Hn. exists a, b, p0, p1. done.
Qed.

Lemma parseDelayRange_Ok input maxVal a b :
  parseDelayRange input maxVal = Ok (a, b) ↔
    (is_range input a b ∨ (¬ (∃ x y, is_range input x y) ∧ a = b ∧ parseDuration input = Ok a))
    ∧ 0 ≤ a ≤ b ∧ b ≤ maxVal.
Proof.
  destruct (is_range_dec input) as [(x & y & Hr)|Hn].
  - rewrite (parseDelayRange_range input maxVal x y Hr). split.
    + repeat case_match; intros [= <- <-]. reflect_bools. by split; [left|].
    + intros [[Hr'|[[] _]] Hb]; [|by exists x, y].
      destruct (is_range_unique _ _ _ _ _ Hr Hr') as [-> ->]. by ztest.
  - rewrite (parseDelayRange_single input maxVal Hn), outcome_bind_Ok.
    setoid_rewrite parseBoundedDuration_Ok. split.
    + intros (d & [E Hd] & [= <- <-]). split; [right|]; auto with lia.
    + intros [[Hr|(_ & <- & E)] Hb]; [by destruct Hn; exists a, b|].
      exists a. split; [split; [done|lia]|done].
Qed.

Lemma parseDelayRange_bounds input maxVal a b :
  parseDelayRange input maxVal = Ok (a, b) → 0 ≤ a ≤ b ∧ b ≤ maxVal.
Proof. by intros [_ ?]%parseDelayRange_Ok. Qed.

Lemma parseDelayRange_never_panics input maxVal w : parseDelayRange input maxVal ≠ Panic w.
Proof.
  destruct (is_range_dec input) as [(x & y & Hr)|Hn].
  - rewrite (parseDelayRange_range input maxVal x y Hr). by repeat case_match.
  - rewrite (parseDelayRange_single input maxVal Hn).
    destruct (parseBoundedDuration input 0 maxVal) eqn:E; [done..|].
    by apply parseBoundedDuration_never_panics in E.
Qed.

(** A delay range is accepted exactly when it reads as two durations in order,
    or as one, between 0 and the maximum; the two bounds are those durations.
    Every other input is an error. *)
Theorem parseDelayRange_iff input maxVal a b :
  (parseDelayRange input maxVal = Ok (a, b) ↔
     (is_range input a b ∨ (¬ (∃ x y, is_range input x y) ∧ a = b ∧ parseDuration input = Ok a))
     ∧ 0 ≤ a ≤ b ∧ b ≤ maxVal) ∧
  (∀ w, parseDelayRange input maxVal ≠ Panic w).
Proof.
  split; [apply parseDelayRange_Ok|]. intros w. apply parseDelayRange_never_panics.
Qed.

Lemma parseStatusCode_Ok input c :
  parseStatusCode input = Ok c ↔ Atoi input = Ok c ∧ 100 ≤ c ≤ 599.
Proof.
  unfold parseStatusCode, parseBoundedStatusCode, AtoiE, numErr.
  destruct (Atoi input) as [v| |]; cbn; [|by split; [|intros []]..]. split.
  - destruct (v <? 100) eqn:E1, (599 <? v) eqn:E2; cbn; try done.
    intros [= ->]. by reflect_bools.
  - intros [[= ->] Hc]. ztest. done.
Qed.

Lemma parseBoundedStatusCode_never_panics input lo hi w :
  parseBoundedStatusCode input lo hi ≠ Panic w.
Proof.
  unfold parseBoundedStatusCode, AtoiE, numErr. destruct (Atoi input) eqn:E; cbn.
  - by destruct (_ || _).
  - done.
  - by apply Atoi_never_panics in E.
Qed.

Lemma parseStatusCode_never_panics input w : parseStatusCode input ≠ Panic w.
Proof. apply parseBoundedStatusCode_never_panics. Qed.

(** A status code is accepted exactly when it is the decimal text of an
    integer between 100 and 599, in any of the spellings of [strconv.Atoi]; in
    particular the canonical one is. *)
Theorem parseStatusCode_iff input c :
  (parseStatusCode input = Ok c ↔ Atoi input = Ok c ∧ 100 ≤ c ≤ 599) ∧
  (100 ≤ c ≤ 599 → parseStatusCode (Itoa c) = Ok c).
Proof.
  split; [apply parseStatusCode_Ok|]. intros Hc. apply parseStatusCode_Ok. split; [|done].
  apply Atoi_Itoa. unfold in_int64, minInt64, maxInt64. lia.
Qed.

(** The pauses between [count] writes add up to [duration], rounded up. *)
Lemma computePausePerWrite_bounds duration count :
  0 ≤ duration ≤ 2 ^ 62 → 1 ≤ count ≤ 2 ^ 62 →
  let pause := computePausePerWrite duration count in
  (count = 1 → pause = duration) ∧
  (1 < count → duration ≤ pause * (count - 1) < duration + (count - 1)).
Proof.
  intros Hd Hc. unfold computePausePerWrite. split; intros Hn; ztest; [done|].
  unwrap64. destruct (ceil_div duration (count - 1)) as [H1 H2]; [lia..|].
  rewrite Z.quot_div_nonneg by lia.
  by unwrap64.
Qed.

(** Seconds beyond 2^63 nanoseconds wrap around before they are compared with
    the bounds: 18446744074 seconds, more than five centuries, is accepted as a
    duration of 0.29 seconds under a maximum of one second. *)
Theorem parseBoundedDuration_wraps :
  parseBoundedDuration "18446744074" 0 Second = Ok 290448384.
Proof. vm_compute. reflexivity. Qed.
End DelaySpec.

#[local] Existing Instance ascii_std.

Lemma parseDelayRange_iff_witness :
  parseDelayRange "500ms-2s" (10 * Second) = Ok (500 * Millisecond, 2 * Second).
Proof.
  apply (parseDelayRange_iff "500ms-2s" (10 * Second)). split.
  - left. exists "500ms", "2s". repeat split; done.
  - vm_compute. repeat split; discriminate.
Defined.

Lemma parseStatusCode_iff_witness : parseStatusCode (Itoa 404) = Ok 404.
Proof. apply (proj2 (parseStatusCode_iff "" 404)). lia. Defined.
