(* ===== verification/ClientIP.v ===== *)
(** * ClientIP: who the client is, and the URL it asked for

    [extractRemoteIP], [getClientIP] and [getURL] of [helpers.go], and
    [ParseTrustedProxies] of [options.go]. *)

From S2P Require Import Prelude GoStrings GoNum GoFmt GoURL Http GoNet.

Definition extractRemoteIP (remoteAddr : string) : string :=
  if 0 <? IndexByte remoteAddr ":" then
    match SplitHostPort remoteAddr with Some (ip, _) => ip | None => "" end
  else remoteAddr.

Definition is_trusted (trustedProxies : list IPNet) (ip : IP) : bool :=
  existsb (λ cidr, Contains_IP cidr ip) trustedProxies.

(** The loop over the entries of X-Forwarded-For; [rev_parts] is the list from
    the right. *)
Fixpoint rightmost_untrusted (trustedProxies : list IPNet) (rev_parts : list string)
    : option string :=
  match rev_parts with
  | [] => None
  | part :: rest =>
      let candidate := TrimSpace part in
      match ParseIP candidate with
      | None => rightmost_untrusted trustedProxies rest
      | Some ip =>
          if is_trusted trustedProxies ip then rightmost_untrusted trustedProxies rest
          else Some candidate
      end
  end.

(** The first of the headers that hosting platforms set. *)
Fixpoint first_header (h : headers) (ks : list string) : option string :=
  match ks with
  | [] => None
  | k :: ks' => if nonempty (Header_Get k h) then Some (Header_Get k h) else first_header h ks'
  end.

Definition platform_headers : list string :=
  ["Fly-Client-IP"; "CF-Connecting-IP"; "Fastly-Client-IP"; "True-Client-IP"].

Definition getClientIP (r : Request) (trustedProxies : list IPNet)
    (trustedProxiesConfigured : bool) : string :=
  let remoteIP := extractRemoteIP (RemoteAddr r) in
  let xff := Header_Get "X-Forwarded-For" (RHeader r) in
  if negb trustedProxiesConfigured then
    match first_header (RHeader r) platform_headers with
    | Some clientIP => clientIP
    | None => if nonempty xff then TrimSpace (Cut "," xff).1.1 else remoteIP
    end
  else
    match trustedProxies with
    | [] => remoteIP
    | _ =>
        match ParseIP remoteIP with
        | None => remoteIP
        | Some ip =>
            if negb (is_trusted trustedProxies ip) then remoteIP
            else if negb (nonempty xff) then remoteIP
            else
              let parts := Split "," xff in
              match rightmost_untrusted trustedProxies (rev parts) with
              | Some candidate => candidate
              | None => TrimSpace (hd "" parts)
              end
        end
    end.

Definition getURL (r : Request) : Url :=
  let scheme := Header_Get "X-Forwarded-Proto" (RHeader r) in
  let scheme := if nonempty scheme then scheme
                else Header_Get "X-Forwarded-Protocol" (RHeader r) in
  let scheme := if negb (nonempty scheme)
                   && String.eqb (Header_Get "X-Forwarded-Ssl" (RHeader r)) "on"
                then "https" else scheme in
  let scheme := if negb (nonempty scheme) && TLS r then "https" else scheme in
  let scheme := if nonempty scheme then scheme else "http" in
  let u := URL r in
  MkUrl scheme (Opaque u) (User u) (if nonempty (UHost u) then UHost u else Host r)
    (Path u) (RawPath u) (ForceQuery u) (RawQuery u) (Fragment u) "" false.

(** ** ParseTrustedProxies *)

Definition add_mask (s : string) : string :=
  if contains_char "/" s then s
  else if contains_char ":" s then s +:+ "/128" else s +:+ "/32".

Fixpoint parse_cidrs (l : list string) : outcome gerror (list IPNet) :=
  match l with
  | [] => Ok []
  | s :: l' =>
      let s := TrimSpace s in
      if negb (nonempty s) then parse_cidrs l' else
      let s := add_mask s in
      match ParseCIDR s with
      | None => Err (Errorf "invalid CIDR %q: %w"
                  [AStr s; AErr (New ("invalid CIDR address: " +:+ s))])
      | Some cidr => cidrs ← parse_cidrs l'; Ok (cidr :: cidrs)
      end
  end.

(** The networks, and whether they are configured. *)
Definition ParseTrustedProxies (raw : string) : outcome gerror (list IPNet * bool) :=
  let raw := TrimSpace raw in
  if String.eqb raw "" then Ok ([], false)
  else if String.eqb (ToLower raw) "none" then Ok ([], true)
  else cidrs ← parse_cidrs (Split "," raw); Ok (cidrs, true).
