(* ===== verification/ClientIPSpec.v ===== *)
(** * ClientIPSpec: which address the server believes

    With trusted proxies configured, a client cannot choose its address: what it
    writes to the left of the entries its proxies append does not matter, and
    headers of a remote that is not a proxy are ignored. *)

From S2P Require Import Prelude GoStrings GoFmt GoURL Http GoNet ClientIP.

(** An entry of X-Forwarded-For that is an address of no trusted proxy. *)
Definition untrusted_entry (tp : list IPNet) (part : string) : Prop :=
  ∃ ip, ParseIP (TrimSpace part) = Some ip ∧ is_trusted tp ip = false.

#[local] Instance untrusted_entry_dec tp part : Decision (untrusted_entry tp part).
Proof.
  unfold untrusted_entry. destruct (ParseIP (TrimSpace part)) as [ip|].
  - destruct (is_trusted tp ip) eqn:E.
    + right. intros (? & [= <-] & ?). congruence.
    + left. eauto.
  - right. by intros (? & ? & _).
Defined.

Lemma rightmost_cons tp part rest :
  rightmost_untrusted tp (part :: rest) =
  if decide (untrusted_entry tp part) then Some (TrimSpace part)
  else rightmost_untrusted tp rest.
Proof.
  cbn [rightmost_untrusted]. case_decide as H; unfold untrusted_entry in H.
  - by destruct H as (ip & -> & ->).
  - destruct (ParseIP (TrimSpace part)) as [ip|]; [|done].
    destruct (is_trusted tp ip) eqn:E; [done|]. by destruct H; exists ip.
Qed.

Lemma rightmost_skip tp l rest :
  Forall (λ p, ¬ untrusted_entry tp p) l →
  rightmost_untrusted tp (l ++ rest) = rightmost_untrusted tp rest.
Proof.
  induction 1 as [|p l Hp _ IH]; [done|]. rewrite <- app_comm_cons, rightmost_cons.
  by rewrite decide_False.
Qed.

Lemma rightmost_parts tp pre x post :
  untrusted_entry tp x → Forall (λ p, ¬ untrusted_entry tp p) post →
  rightmost_untrusted tp (rev (pre ++ x :: post)) = Some (TrimSpace x).
Proof.
  intros Hx Hpost. rewrite rev_app_distr. cbn [rev]. rewrite <- !app_assoc.
  rewrite rightmost_skip.
  - change ([x] ++ rev pre) with (x :: rev pre). by rewrite rightmost_cons, decide_True.
  - by apply Forall_rev.
Qed.

Definition XFF (r : Request) : string := Header_Get "X-Forwarded-For" (RHeader r).

(** The request comes from one of the trusted proxies. *)
Definition from_proxy (tp : list IPNet) (r : Request) : Prop :=
  ∃ ip, ParseIP (extractRemoteIP (RemoteAddr r)) = Some ip ∧ is_trusted tp ip = true.

Lemma getClientIP_from_proxy tp r :
  from_proxy tp r → XFF r ≠ "" →
  getClientIP r tp true =
    match rightmost_untrusted tp (rev (Split "," (XFF r))) with
    | Some c => c
    | None => TrimSpace (hd "" (Split "," (XFF r)))
    end.
Proof.
  intros (ip & Hip & Ht) Hx. unfold getClientIP. cbn [negb]. unfold XFF in *.
  destruct tp as [|n tp']; [done|]. rewrite Hip, Ht. cbn [negb]. unfold nonempty.
  by rewrite (proj2 (String.eqb_neq _ "") Hx).
Qed.

(** (C18) Behind a trusted proxy the client is the last entry of X-Forwarded-For that
    is an address of no trusted proxy.  Only the text [b] after some comma that
    holds such an entry matters: no prefix [a] that a client sends changes it. *)
Theorem getClientIP_rightmost tp r b pre x post :
  from_proxy tp r →
  XFF r = b ∨ (∃ a, XFF r = a +:+ String "," b) →
  Split "," b = pre ++ x :: post →
  untrusted_entry tp x → Forall (λ p, ¬ untrusted_entry tp p) post →
  getClientIP r tp true = TrimSpace x.
Proof.
  intros Hr Hb Hsplit Hx Hpost.
  assert (∃ pre', Split "," (XFF r) = pre' ++ x :: post) as [pre' Hs].
  { destruct Hb as [->|[a ->]]; [by eauto|].
    exists (Split "," a ++ pre). by rewrite Split_append, Hsplit, app_assoc. }
  rewrite getClientIP_from_proxy; [|done|].
  - by rewrite Hs, rightmost_parts.
  - intros E. rewrite E in Hs. destruct pre' as [|? [|? ?]]; cbn in Hs; [|done..].
    injection Hs as <- _. destruct Hx as (ip & Hip & _). done.
Qed.

(** Headers of a remote that is not a trusted proxy are ignored, and so are all
    headers when no proxy is trusted: the client is the remote address. *)
Theorem getClientIP_remote tp r :
  ¬ from_proxy tp r → getClientIP r tp true = extractRemoteIP (RemoteAddr r).
Proof.
  intros Hn. unfold getClientIP. cbn [negb]. destruct tp as [|n tp'] eqn:Etp; [done|].
  rewrite <- Etp in *. destruct (ParseIP _) as [ip|] eqn:E; [|done].
  destruct (is_trusted tp ip) eqn:Et; [|done]. by destruct Hn; exists ip.
Qed.

(** When no entry is an untrusted address, the leftmost one is returned as it
    is, even if it is not an address at all: the answer is client-chosen text. *)
Theorem getClientIP_fallback tp r :
  from_proxy tp r → XFF r ≠ "" →
  Forall (λ p, ¬ untrusted_entry tp p) (Split "," (XFF r)) →
  getClientIP r tp true = TrimSpace (hd "" (Split "," (XFF r))).
Proof.
  intros Hr Hx Hall. rewrite getClientIP_from_proxy by done.
  rewrite <- (app_nil_r (rev _)), rightmost_skip by (by apply Forall_rev). done.
Qed.

(** ** A concrete proxy *)

Definition proxies : list IPNet := [MkIPNet (V4 0x0A000000) 8].
Definition sample_url : Url := MkUrl "" "" None "" "/ip" "" false "" "" "" false.
Definition proxied (remote xff : string) : Request :=
  MkRequest "GET" sample_url (RequestURI sample_url) (Header_Set "X-Forwarded-For" xff ∅) "localhost" remote false []
    "" None ∅.

Lemma getClientIP_rightmost_witness :
  getClientIP (proxied "10.0.0.1:1234" "6.6.6.6, 203.0.113.9, junk,10.0.0.2") proxies true
  = "203.0.113.9".
Proof.
  transitivity (TrimSpace " 203.0.113.9"); [|vm_compute; reflexivity].
  apply (getClientIP_rightmost proxies
    (proxied "10.0.0.1:1234" "6.6.6.6, 203.0.113.9, junk,10.0.0.2")
    " 203.0.113.9, junk,10.0.0.2" [] " 203.0.113.9" [" junk"; "10.0.0.2"]).
  - exists (V4 0x0A000001). split; vm_compute; reflexivity.
  - right. exists "6.6.6.6". vm_compute. reflexivity.
  - vm_compute. reflexivity.
  - by_computation.
  - by_computation.
Defined.

Lemma getClientIP_remote_witness :
  getClientIP (proxied "8.8.8.8:53" "1.2.3.4") proxies true = "8.8.8.8".
Proof.
  transitivity (extractRemoteIP "8.8.8.8:53"); [|vm_compute; reflexivity].
  apply (getClientIP_remote proxies (proxied "8.8.8.8:53" "1.2.3.4")).
  intros (ip & Hip & Ht). vm_compute in Hip. injection Hip as <-. vm_compute in Ht. discriminate.
Defined.

Lemma getClientIP_fallback_witness :
  getClientIP (proxied "10.0.0.1:1234" "<script>, 10.0.0.2") proxies true = "<script>".
Proof.
  transitivity (TrimSpace "<script>"); [|vm_compute; reflexivity].
  rewrite (getClientIP_fallback proxies (proxied "10.0.0.1:1234" "<script>, 10.0.0.2")).
  - vm_compute. reflexivity.
  - exists (V4 0x0A000001). split; vm_compute; reflexivity.
  - vm_compute. discriminate.
  - by_computation.
Defined.
