(* ===== verification/Converters.v ===== *)
(** * Converters: the external tools that convert images

    The table of tools of [helpers.go], the probe for them, and the conversion of an
    image by one of them.  Which programs the system has, and what it answers to the
    calls of a conversion, are arguments; what the conversion does to the system is a
    list of events. *)

From S2P Require Import Prelude GoStrings GoNum GoFmt.

Record converterConfig := MkConverterConfig {
  conv_name : string;
  conv_args : list string;
  useTempFiles : bool;
}.

Definition piped (name : string) (args : list string) : converterConfig :=
  MkConverterConfig name args false.

Definition converterToolDefs : list (string * list converterConfig) :=
  [("avif",
    [MkConverterConfig "avifenc" ["-s"; "6"; "--min"; "20"; "--max"; "40"] true;
     piped "magick" ["png:-"; "-quality"; "50"; "avif:-"];
     piped "convert" ["png:-"; "-quality"; "50"; "avif:-"];
     piped "ffmpeg" ["-hide_banner"; "-loglevel"; "error"; "-i"; "pipe:0"; "-c:v"; "libaom-av1";
                     "-still-picture"; "1"; "-crf"; "30"; "-f"; "avif"; "pipe:1"]]);
   ("webp",
    [piped "cwebp" ["-q"; "80"; "-quiet"; "-o"; "-"; "--"; "-"];
     piped "magick" ["png:-"; "-quality"; "80"; "webp:-"];
     piped "convert" ["png:-"; "-quality"; "80"; "webp:-"];
     piped "ffmpeg" ["-hide_banner"; "-loglevel"; "error"; "-i"; "pipe:0"; "-c:v"; "libwebp";
                     "-quality"; "80"; "-f"; "webp"; "pipe:1"]])].

(** The first tool of each format that [execLookPath] finds. *)
Definition detectImageConverters (execLookPath : string → bool) : gmap string converterConfig :=
  foldl (λ m ft, match find (λ t, execLookPath (conv_name t)) ft.2 with
                 | Some t => <[ft.1 := t]> m
                 | None => m
                 end) ∅ converterToolDefs.

Example detectImageConverters_ex :
  (λ c, (conv_name c, useTempFiles c))
    <$> detectImageConverters (λ n, bool_decide (n ∈ ["convert"; "ffmpeg"; "cwebp"])) !! "avif"
  = Some ("convert", false).
Proof. reflexivity. Qed.

(** ** Conversion *)

(** What the system answers to the calls of one conversion. *)
Record toolAnswers := MkToolAnswers {
  StdoutPipe_err : option gerror;
  Start_err : option gerror;
  stdout : string;                       (* what the pipe has, and how reading it ends *)
  read_err : option gerror;
  Wait_err : option gerror;              (* of [Wait], or of [Run] *)
  stderr : string;
  CreateTemp_in : gerror + string;       (* the name of the file *)
  CreateTemp_out : gerror + string;
  Write_err : option gerror;
  Stat_size : gerror + Z;
  ReadFile_data : gerror + string;
}.

Inductive event :=
| Created (file : string)
| Wrote (file data : string)
| Ran (program : string) (args : list string) (stdin : string)
| Removed (file : string).

Definition maxConvertOutputSize : Z := 10 * 1024 * 1024.

Definition conversionFailed (conv : converterConfig) (a : toolAnswers) (e : gerror) : gerror :=
  if nonempty (stderr a)
  then Errorf "%s conversion failed: %s: %w" [AStr (conv_name conv); AStr (stderr a); AErr e]
  else Errorf "%s conversion failed: %w" [AStr (conv_name conv); AErr e].

(** After the input was written and the tool has run: [os.Stat] and [os.ReadFile]. *)
Definition readOutput (conv : converterConfig) (a : toolAnswers) : outcome gerror string :=
  match Stat_size a with
  | inl e => Err (Errorf "failed to stat conversion output: %w" [AErr e])
  | inr size =>
      if maxConvertOutputSize <? size
      then Err (Errorf "%s conversion output too large: %d bytes (max %d)"
                  [AStr (conv_name conv); AInt size; AInt maxConvertOutputSize])
      else match ReadFile_data a with
           | inl e => Err (Errorf "failed to read conversion output: %w" [AErr e])
           | inr data => Ok data
           end
  end.

(** The deferred removals come last, the output file first. *)
Definition convertWithTempFiles (a : toolAnswers) (pngData : string) (conv : converterConfig)
    : outcome gerror string * list event :=
  match CreateTemp_in a with
  | inl e => (Err (Errorf "failed to create temp input file: %w" [AErr e]), [])
  | inr inFile =>
      match CreateTemp_out a with
      | inl e => (Err (Errorf "failed to create temp output file: %w" [AErr e]),
                  [Created inFile; Removed inFile])
      | inr outFile =>
          let removals := [Removed outFile; Removed inFile] in
          match Write_err a with
          | Some e => (Err (Errorf "failed to write temp input file: %w" [AErr e]),
                       [Created inFile; Created outFile] ++ removals)
          | None =>
              let args := conv_args conv ++ [inFile; "-o"; outFile] in
              let done := [Created inFile; Created outFile; Wrote inFile pngData;
                           Ran (conv_name conv) args ""] ++ removals in
              match Wait_err a with
              | Some e => (Err (conversionFailed conv a e), done)
              | None => (readOutput conv a, done)
              end
          end
      end
  end.

Definition convertImageFormat (a : toolAnswers) (pngData : string) (conv : converterConfig)
    : outcome gerror string * list event :=
  let failed format args := Err (Errorf format (AStr (conv_name conv) :: args)) in
  if useTempFiles conv then convertWithTempFiles a pngData conv
  else
    match StdoutPipe_err a, Start_err a with
    | Some e, _ => (failed "%s: failed to create stdout pipe: %w" [AErr e], [])
    | None, Some e => (failed "%s: failed to start: %w" [AErr e], [])
    | None, None =>
        let output := stake (Z.to_nat (maxConvertOutputSize + 1)) (stdout a) in
        (match read_err a with
         | Some e => failed "%s: read error: %w" [AErr e]
         | None =>
             if maxConvertOutputSize <? slen output
             then failed "%s conversion output too large (>%d bytes)" [AInt maxConvertOutputSize]
             else match Wait_err a with
                  | Some e => Err (conversionFailed conv a e)
                  | None => Ok output
                  end
         end, [Ran (conv_name conv) (conv_args conv) pngData])
    end.

(** The temporary files that are left after some events. *)
Fixpoint left_over (files : list string) (evs : list event) : list string :=
  match evs with
  | [] => files
  | Created f :: evs => left_over (f :: files) evs
  | Removed f :: evs => left_over (filter (λ g, g ≠ f) files) evs
  | _ :: evs => left_over files evs
  end.

(** However the tool and the file system behave, a conversion leaves no temporary file
    behind, reads the output of the tool as it is, and never more of it than the maximum. *)
Lemma convertImageFormat_clean a pngData conv :
  let '(result, evs) := convertImageFormat a pngData conv in
  left_over [] evs = [] ∧
  match result with
  | Ok data => Wait_err a = None ∧
      (if useTempFiles conv then ReadFile_data a = inr data
       else data = stdout a ∧ slen data ≤ maxConvertOutputSize)
  | Err _ => True
  | Panic _ => False
  end.
Proof.
  unfold convertImageFormat. destruct (useTempFiles conv).
  - unfold convertWithTempFiles, readOutput.
    assert (∀ f, left_over [f] [Removed f] = []) as H1
      by (intros f; cbn -[filter]; rewrite filter_cons; by case_decide).
    assert (∀ f g, left_over [f; g] [Removed f; Removed g] = []) as H2.
    { intros f g. cbn -[filter]. rewrite !filter_cons. repeat case_decide; try done.
      - rewrite filter_nil, filter_cons. by case_decide. }
    destruct (CreateTemp_in a) as [e|i]; [done|]. destruct (CreateTemp_out a) as [e|o]; [by split; [apply H1|]|].
    destruct (Write_err a); [by split; [apply H2|]|]. destruct (Wait_err a); [by split; [apply H2|]|].
    destruct (Stat_size a); [by split; [apply H2|]|]. destruct (_ <? _); [by split; [apply H2|]|].
    by destruct (ReadFile_data a); (split; [apply H2|]).
  - destruct (StdoutPipe_err a); [done|]. destruct (Start_err a); [done|]. split; [done|].
    destruct (read_err a); [done|]. destruct (_ <? _) eqn:E; [done|]. reflect_bools.
    destruct (Wait_err a); [done|]. split; [done|]. split; [|done]. clear -E.
    set (n := Z.to_nat (maxConvertOutputSize + 1)) in *.
    assert (String.length (stake n (stdout a)) < n)%nat as Hl by (unfold slen in E; lia).
    clearbody n. clear E. revert n Hl. induction (stdout a) as [|c s IH]; intros [|n] Hl; cbn in *; try done; [lia|].
    f_equal. apply IH. lia.
Qed.
