(* ===== verification/HeaderFilter.v ===== *)
(** * HeaderFilter: the headers that are excluded from responses

    [wildCardToRegexp], [createFullExcludeRegex] and [createExcludeHeadersProcessor]
    of [helpers.go].  Package [regexp] is the class [Regexp]; what the program relies
    on, the meaning of quoted literals, [.*], anchors, alternatives and the flag [i] on
    ASCII texts, is the class [RegexpLaws], which a small engine satisfies. *)

From S2P Require Import Prelude GoStrings GoNum GoFmt Json GoURL Http.

(** [regexp.MustCompile]: the function that matches, unless the source is invalid. *)
Class Regexp := { Compile : string → option (string → bool) }.

Definition meta_chars : string := "\.+*?()|[]{}^$".

(** [regexp.QuoteMeta] *)
Fixpoint QuoteMeta (s : string) : string :=
  match s with
  | "" => ""
  | String c s' => if contains_char c meta_chars then String "\" (String c (QuoteMeta s'))
                   else String c (QuoteMeta s')
  end.

Definition wildCardToRegexp (pattern : string) : string :=
  match Split "*" pattern with
  | [_] => "^" +:+ pattern +:+ "$"
  | components => "^" +:+ Join ".*" (map QuoteMeta components) +:+ "$"
  end.

Definition createExcludeHeadersProcessor (excludeRegex : string → bool) (hs : headers) : headers :=
  filter (λ kv, excludeRegex kv.1 = false) hs.

(** The patterns of the comma-separated list. *)
Definition excludePatterns (excludeHeaders : string) : list string :=
  filter (λ s, s ≠ "") (map TrimSpace (Split "," excludeHeaders)).

Definition excludeSource (patterns : list string) : string :=
  "(?i)(" +:+ Join "|" (map wildCardToRegexp patterns) +:+ ")".

(** No patterns, or the compiled alternatives; an invalid source panics. *)
Definition createFullExcludeRegex `{Regexp} (excludeHeaders : string)
    : outcome gerror (option (string → bool)) :=
  match excludePatterns excludeHeaders with
  | [] => Ok None
  | patterns =>
      match Compile (excludeSource patterns) with
      | Some f => Ok (Some f)
      | None => Panic "regexp: Compile"
      end
  end.

(** ** What the regexps mean *)

Inductive atom := Lit (c : ascii) | AnyRun.

Definition atom_source (a : atom) : string :=
  match a with Lit c => QuoteMeta (str1 c) | AnyRun => ".*" end.
Definition anchored (l : list atom) : string := "^" +:+ Join "" (map atom_source l) +:+ "$".
Definition alternatives (ls : list (list atom)) : string :=
  "(?i)(" +:+ Join "|" (map anchored ls) +:+ ")".

Definition fold_eqb (a b : ascii) : bool := Ascii.eqb (lower_ascii a) (lower_ascii b).

(** Some suffix of a text, the text included. *)
Fixpoint some_suffix (f : string → bool) (s : string) : bool :=
  f s || match s with "" => false | String _ s' => some_suffix f s' end.

Fixpoint atoms_match (l : list atom) (s : string) : bool :=
  match l with
  | [] => String.eqb s ""
  | Lit c :: l => match s with String d s' => fold_eqb c d && atoms_match l s' | "" => false end
  | AnyRun :: l => some_suffix (atoms_match l) s
  end.

Definition plain_char (c : ascii) : bool := (code c <? 128) && negb (Ascii.eqb c LF).
Definition plain_text : string → bool := string_forall plain_char.
Definition lit_ok (a : atom) : Prop := match a with Lit c => plain_char c = true | _ => True end.

(** The documented meaning of the regexps that the program builds, on ASCII texts. *)
Class RegexpLaws `{Regexp} : Prop := {
  Compile_alternatives : ∀ ls, Forall (Forall lit_ok) ls → ls ≠ [] →
    ∃ f, Compile (alternatives ls) = Some f ∧
      ∀ s, plain_text s = true → f s = existsb (λ l, atoms_match l s) ls;
}.

(** ** Wildcards *)

(** A pattern as atoms; one without a star is taken as it is, so that it must not hold
    other special characters. *)
Fixpoint atoms_of (p : string) : list atom :=
  match p with
  | "" => []
  | String c p' => (if Ascii.eqb c "*" then AnyRun else Lit c) :: atoms_of p'
  end.

Definition well_quoted (p : string) : Prop :=
  plain_text p = true ∧
  (contains_char "*" p = true ∨ string_forall (λ c, negb (contains_char c meta_chars)) p = true).

(** Does a header name match a wildcard, upper and lower case being equal? *)
Definition wildcard_match (p s : string) : bool := atoms_match (atoms_of p) s.

Lemma Join_QuoteMeta p :
  Join ".*" (map QuoteMeta (Split "*" p)) = Join "" (map atom_source (atoms_of p)).
Proof.
  induction p as [|c p IH]; [done|]. cbn [Split atoms_of map].
  assert (∀ x l, Join "" (x :: l) = x +:+ Join "" l) as Hj.
  { intros x [|y l]; [|done]. unfold Join. cbn. by rewrite sapp_nil_r. }
  rewrite Hj, <- IH. destruct (Split "*" p) as [|x xs] eqn:E; [by destruct (Split_nonempty "*" p)|].
  destruct (Ascii.eqb_spec c "*") as [->|Hc]; [done|].
  assert (∀ y : string, QuoteMeta (String c y) = atom_source (Lit c) +:+ QuoteMeta y) as Hq.
  { intros y. unfold atom_source, str1. cbn [QuoteMeta atom_source ]. by destruct (contains_char c meta_chars). }
  cbn [map]. rewrite Hq. destruct xs as [|y ys]; [done|]. cbn [map]. by rewrite !Join_cons, <- (sapp_assoc (atom_source (Lit c))).
Qed.

Lemma QuoteMeta_id s : string_forall (λ c, negb (contains_char c meta_chars)) s = true → QuoteMeta s = s.
Proof.
  induction s as [|c s IH]; [done|]. cbn [string_forall QuoteMeta].
  intros [Hc%negb_true_iff Hs]%andb_true_iff. by rewrite Hc, IH.
Qed.

Lemma Split_two sep s : contains_char sep s = true → ∃ x y l, Split sep s = x :: y :: l.
Proof.
  induction s as [|c s IH]; [done|]. cbn [contains_char Split].
  pose proof (Split_nonempty sep s) as Hne.
  destruct (Ascii.eqb_spec c sep) as [->|Hc].
  - intros _. destruct (Split sep s) as [|y l]; [done|]. by exists "", y, l.
  - assert (Ascii.eqb sep c = false) as -> by (apply Ascii.eqb_neq; congruence). cbn [orb].
    intros (x & y & l & ->)%IH. by exists (String c x), y, l.
Qed.

(** The source of a pattern denotes the wildcard. *)
Lemma wildCardToRegexp_anchored p : well_quoted p → wildCardToRegexp p = anchored (atoms_of p).
Proof.
  intros [_ H]. unfold wildCardToRegexp, anchored. rewrite <- Join_QuoteMeta.
  destruct (contains_char "*" p) eqn:E.
  - by destruct (Split_two "*" p E) as (x & y & l & ->).
  - destruct H as [|H]; [done|]. rewrite Split_no_sep_id by done. cbn. by rewrite QuoteMeta_id.
Qed.

Lemma atoms_of_ok p : plain_text p = true → Forall lit_ok (atoms_of p).
Proof.
  induction p as [|c p IH]; [constructor|]. cbn. intros [Hc Hp]%andb_true_iff.
  constructor; [|by apply IH]. by destruct (Ascii.eqb c "*").
Qed.

Lemma createFullExcludeRegex_matches `{RegexpLaws} excludeHeaders :
  Forall well_quoted (excludePatterns excludeHeaders) →
  ∃ o, createFullExcludeRegex excludeHeaders = Ok o ∧
    (o = None ↔ excludePatterns excludeHeaders = []) ∧
    ∀ f s, o = Some f → plain_text s = true →
      f s = existsb (λ p, wildcard_match p s) (excludePatterns excludeHeaders).
Proof.
  unfold createFullExcludeRegex. intros Hq. destruct (excludePatterns _) as [|p ps]; [by exists None|].
  destruct (Compile_alternatives (map atoms_of (p :: ps))) as (f & Hf & Hm); [|done|].
  { apply Forall_map. eapply Forall_impl; [exact Hq|]. intros q [Hp _]. by apply atoms_of_ok. }
  assert (excludeSource (p :: ps) = alternatives (map atoms_of (p :: ps))) as E.
  { unfold excludeSource, alternatives. rewrite map_map. do 3 f_equal.
    apply map_ext_in. intros q Hin. apply wildCardToRegexp_anchored.
    apply list_elem_of_In in Hin. by eapply Forall_forall in Hq. }
  rewrite E, Hf. exists (Some f). split; [done|]. split; [done|]. intros g s [= <-] Hs.
  rewrite Hm by done. clear. induction (p :: ps) as [|q qs IH]; [done|]. cbn. by rewrite IH.
Qed.

(** ** A small engine *)

(** The atoms between anchors, up to the closing parenthesis. *)
Fixpoint parse_alts (s : string) (acc : list atom) : option (list (list atom)) :=
  match s with
  | "" => None
  | String c s1 =>
      if Ascii.eqb c "\" then
        match s1 with String d s2 => parse_alts s2 (acc ++ [Lit d]) | "" => None end
      else if Ascii.eqb c "." then
        match s1 with
        | String d s2 => if Ascii.eqb d "*" then parse_alts s2 (acc ++ [AnyRun]) else None
        | "" => None
        end
      else if Ascii.eqb c "$" then
        match s1 with
        | String d (String e s2) =>
            if Ascii.eqb d "|" && Ascii.eqb e "^" then cons acc <$> parse_alts s2 [] else None
        | String d "" => if Ascii.eqb d ")" then Some [acc] else None
        | "" => None
        end
      else if contains_char c meta_chars then None
      else parse_alts s1 (acc ++ [Lit c])
  end.

Definition engine : Regexp := {| Compile src :=
  let head := "(?i)(^" in
  if HasPrefix src head then
    match parse_alts (sdrop 6 src) [] with
    | Some ls => Some (λ s, existsb (λ l, atoms_match l s) ls)
    | None => None
    end
  else None |}.

Lemma parse_alts_atoms l rest acc :
  parse_alts (Join "" (map atom_source l) +:+ rest) acc = parse_alts rest (acc ++ l).
Proof.
  revert acc. induction l as [|a l IH]; intros acc; [by rewrite app_nil_r|]. cbn [map].
  assert (∀ x l, Join "" (x :: l) = x +:+ Join "" l) as Hj.
  { intros x [|y l']; [|done]. unfold Join. cbn. by rewrite sapp_nil_r. }
  rewrite Hj, <- sapp_assoc. change (a :: l) with ([a] ++ l). rewrite app_assoc.
  destruct a as [c|]; [|apply IH]. cbn [atom_source QuoteMeta str1].
  destruct (contains_char c meta_chars) eqn:E; [apply IH|]. cbn [String.append parse_alts].
  rewrite E. cbn in E. repeat (apply orb_false_iff in E as [? E]).
  repeat match goal with H : Ascii.eqb _ c = false |- _ => rewrite Ascii.eqb_sym in H end.
  destruct (Ascii.eqb c "\"); [done|]. destruct (Ascii.eqb c "."); [done|].
  destruct (Ascii.eqb c "$"); [done|]. apply IH.
Qed.

#[export] Instance engine_laws : @RegexpLaws engine.
Proof.
  split. intros ls _ Hne. exists (λ s, existsb (λ l, atoms_match l s) ls). split; [|done].
  unfold Compile, engine.
  assert (∀ ls l, parse_alts (sdrop 1 (Join "|" (map anchored (l :: ls))) +:+ ")") [] = Some (l :: ls)) as Hp.
  { clear. induction ls as [|l' ls IH]; intros l.
    - cbn [map Join String.concat]. unfold anchored. cbn [String.append sdrop].
      rewrite <- sapp_assoc, parse_alts_atoms. done.
    - cbn [map]. rewrite Join_cons. unfold anchored at 1. cbn [String.append sdrop].
      rewrite <- !sapp_assoc, parse_alts_atoms. cbn [String.append app parse_alts Ascii.eqb].
      specialize (IH l'). cbn [map] in IH. revert IH.
      destruct (Join "|" (anchored l' :: map anchored ls)) as [|c j] eqn:E.
      { destruct ls; discriminate E. }
      assert (c = "^"%char) as -> by (destruct ls; cbn in E; congruence).
      cbn [sdrop String.append]. intros IH. cbn. by rewrite IH. }
  destruct ls as [|l ls]; [done|]. specialize (Hp ls l). unfold alternatives.
  destruct (Join "|" (map anchored (l :: ls))) as [|c j] eqn:E.
  { destruct ls; discriminate E. }
  assert (c = "^"%char) as -> by (destruct ls; cbn in E; congruence).
  cbn [sdrop String.append] in Hp |- *. cbn. rewrite Hp.
  by replace (String.prefix "" _) with true by (by destruct j).
Qed.

(** ** The headers that remain *)

Definition remaining (o : option (string → bool)) (hs : headers) : headers :=
  match o with Some f => createExcludeHeadersProcessor f hs | None => hs end.

(** (C26) Wildcards exclude exactly the headers whose names they match, upper and lower
    case being equal; patterns without a star must not hold other special characters,
    because they are taken as regular expressions. *)
Theorem exclude_headers `{RegexpLaws} excludeHeaders hs k :
  Forall well_quoted (excludePatterns excludeHeaders) → plain_text k = true →
  ∃ o, createFullExcludeRegex excludeHeaders = Ok o ∧
    remaining o hs !! k
    = if existsb (λ p, wildcard_match p k) (excludePatterns excludeHeaders)
      then None else hs !! k.
Proof.
  intros Hq Hk. destruct (createFullExcludeRegex_matches excludeHeaders Hq) as (o & E & Hn & Hf).
  exists o. split; [done|]. destruct o as [f|]; cbn [remaining].
  - rewrite <- (Hf f k) by done. unfold createExcludeHeadersProcessor.
    destruct (hs !! k) as [vs|] eqn:Ev; [|rewrite map_lookup_filter_None_2; [by destruct (f k)|by left]].
    destruct (f k) eqn:Ek.
    + apply map_lookup_filter_None_2. right. intros v _. cbn. by rewrite Ek.
    + by apply map_lookup_filter_Some_2.
  - by rewrite (proj1 Hn).
Qed.

Lemma exclude_headers_witness :
  ∃ o, @createFullExcludeRegex engine "X-Cloud-*, Via" = Ok o ∧
    remaining o {["x-cloud-id" := ["1"]; "Accept" := ["*/*"]]} !! "x-cloud-id" = None.
Proof.
  assert (Forall well_quoted (excludePatterns "X-Cloud-*, Via")) as Hq.
  { replace (excludePatterns "X-Cloud-*, Via") with ["X-Cloud-*"; "Via"] by (vm_compute; reflexivity).
    constructor; [|constructor; [|constructor]];
      (split; [vm_compute; reflexivity|first [left; vm_compute; reflexivity|right; vm_compute; reflexivity]]). }
  destruct (@exclude_headers engine engine_laws "X-Cloud-*, Via"
    {["x-cloud-id" := ["1"]; "Accept" := ["*/*"]]} "x-cloud-id" Hq ltac:(vm_compute; reflexivity))
    as (o & E1 & E2).
  exists o. split; [exact E1|]. rewrite E2. vm_compute. reflexivity.
Defined.
