(* ===== verification/GoRand.v ===== *)
(** * GoRand: a seeded generator of math/rand, and floats in fixed notation

    The generator is the class [Rand]: its values are not modelled, only that
    [Intn n] is between [0] and [n], as it is documented. *)

From S2P Require Import Prelude GoStrings GoNum GoFloat.

Class Rand := {
  rng : Type;
  NewSource : Z → rng;                 (* [rand.New(rand.NewSource(seed))] *)
  Intn : Z → rng → Z * rng;
}.

Class RandLaws `{Rand} : Prop := {
  Intn_range n g : 0 < n → 0 ≤ (Intn n g).1 < n;
}.

(** A linear congruential generator. *)
#[export] Instance lcg : Rand := {|
  rng := Z; NewSource := id;
  Intn n g := let g := (6364136223846793005 * g + 1442695040888963407) mod 2 ^ 64 in
              ((g / 2 ^ 32) mod n, g) |}.

#[export] Instance lcg_laws : RandLaws.
Proof. split. intros n g Hn. cbn. by apply Z.mod_pos_bound. Qed.

(** ** Fixed notation *)

(** The digits of a number, padded with zeros on the left. *)
Definition pad_left (width : nat) (z : Z) : string :=
  zeros (width - String.length (Itoa z)) +:+ Itoa z.

Lemma pad_left_length width z :
  slen (Itoa z) ≤ Z.of_nat width → slen (pad_left width z) = Z.of_nat width.
Proof. intros Hz. unfold pad_left. rewrite slen_app, zeros_length. unfold slen in *. lia. Qed.

(** The quotient of a nonnegative number, rounded to nearest and to even. *)
Definition div_half_even (a b : Z) : Z :=
  let q := a / b in
  match 2 * (a mod b) ?= b with
  | Lt => q
  | Gt => q + 1
  | Eq => if Z.even q then q else q + 1
  end.

(** [strconv.FormatFloat(x, 'f', prec, 64)] *)
Definition FormatFloat_f (prec : nat) (x : float64) : string :=
  let digits (neg : bool) (n : Z) :=
    (if neg then "-" else "") +:+ Itoa (n / 10 ^ Z.of_nat prec)
    +:+ (if (prec =? 0)%nat then "" else "." +:+ pad_left prec (n mod 10 ^ Z.of_nat prec)) in
  match x with
  | S754_zero neg => digits neg 0
  | S754_infinity neg => if neg then "-Inf" else "+Inf"
  | S754_nan => "NaN"
  | S754_finite neg m e =>
      let scaled := Zpos m * 10 ^ Z.of_nat prec in
      digits neg (if 0 <=? e then scaled * 2 ^ e else div_half_even scaled (2 ^ (- e)))
  end.

Example FormatFloat_f_ex :
  map (λ k, FormatFloat_f 3 (fdiv (of_Z k) (of_Z 255))) [0; 1; 51; 127; 128; 254; 255]
  = ["0.000"; "0.004"; "0.200"; "0.498"; "0.502"; "0.996"; "1.000"] ∧
  map (FormatFloat_f 0) [of_Z 760; fdiv (of_Z 5) (of_Z 2); of_Z (-3)] = ["760"; "2"; "-3"].
Proof. vm_compute. done. Qed.
