(* ===== verification/Bin.v ===== *)
(** * Bin: the configuration of an [HTTPBin]

    The fields of the struct of [httpbin.go] that the handlers read.  The table
    of terminal handlers is a field, as in the source, which builds it last from
    the handlers themselves.  The rate limiter, the observer and the caches are
    components of their own. *)

From S2P Require Import Prelude GoStrings GoTime GoFmt GoURL Http GoNet ClientIP RateLimit Converters.

Record DefaultParams := MkDefaultParams {
  DripDuration : Z;
  DripDelay : Z;
  DripNumBytes : Z;
  SSECount : Z;
  SSEDuration : Z;
  SSEDelay : Z;
}.

Definition DefaultDefaultParams : DefaultParams := {|
  DripDuration := 2 * Second;
  DripDelay := 2 * Second;
  DripNumBytes := 10;
  SSECount := 10;
  SSEDuration := 5 * Second;
  SSEDelay := 0;
|}.

Definition DefaultMaxBodySize : Z := 1024 * 1024.
Definition DefaultMaxDuration : Z := 10 * Second.
Definition DefaultHostname : string := "go-httpbin".

Record statusCase := MkStatusCase {
  sc_headers : list (string * string);
  sc_body : option string;
}.

Record HTTPBin := MkHTTPBin {
  MaxBodySize : Z;
  MaxDuration : Z;
  DefaultParams_ : DefaultParams;
  AllowedRedirectDomains : list string;
  unsafeAllowDangerousResponses : bool;
  env : option (gmap string string);      (* [None]: a nil map *)
  forbiddenRedirectError : string;
  hostname : string;
  prefix : string;
  statusSpecialCases : Z → option statusCase;
  excludeHeadersProcessor : option (headers → headers);
  maxSSECount : Z;
  trustedProxies : list IPNet;
  trustedProxiesConfigured : bool;
  version : string;
  indexHTML : string;
  formsPostHTML : string;
  maxConcurrentRequests : Z;
  rateLimiter : option ipRateLimiter;
  rateLimitUseSubnets : bool;
  observed : bool;                  (* [Observer != nil] *)
  imageConverters : gmap string converterConfig;
  terminalHandlers : gmap string HandlerFunc;
}.

Definition rateLimited (h : HTTPBin) : bool := if rateLimiter h then true else false.

Definition h_getClientIP (h : HTTPBin) (r : Request) : string :=
  getClientIP r (trustedProxies h) (trustedProxiesConfigured h).

(** [doRedirect]: the prefix goes in front of absolute paths. *)
Definition doRedirect (h : HTTPBin) (path : string) (code : Z) : M unit :=
  let sb := if HasPrefix path "/" && negb (HasPrefix path "//") then prefix h else "" in
  _ ← SetHeader "Location" (sb +:+ path);
  WriteHeader code.
