(* ===== verification/Options.v ===== *)
(** * Options: the functional options of [options.go]

    An [OptionFunc] changes an [HTTPBin]; the one that compiles patterns may panic. *)

From coqutil Require Import Datatypes.RecordSetters.
From S2P Require Import Prelude GoStrings GoNum GoTime GoFmt Json GoURL Http GoNet ClientIP RateLimit.
From S2P Require Import Converters HeaderFilter Bin.
Import TriangleBracketNotations.

Definition OptionFunc : Type := HTTPBin → outcome gerror HTTPBin.

Definition set_field (f : HTTPBin → HTTPBin) : OptionFunc := λ h, Ok (f h).

Definition WithDefaultParams (p : DefaultParams) : OptionFunc := set_field (λ h, h <| DefaultParams_ := p |>).
Definition WithMaxBodySize (m : Z) : OptionFunc := set_field (λ h, h <| MaxBodySize := m |>).
Definition WithMaxDuration (d : Z) : OptionFunc := set_field (λ h, h <| MaxDuration := d |>).
Definition WithHostname (s : string) : OptionFunc := set_field (λ h, h <| hostname := s |>).
Definition WithObserver : OptionFunc := set_field (λ h, h <| Bin.observed := true |>).
Definition WithEnv (e : option (gmap string string)) : OptionFunc := set_field (λ h, h <| env := e |>).
Definition WithPrefix (p : string) : OptionFunc := set_field (λ h, h <| prefix := p |>).

Definition setExcludeHeaders `{Regexp} (excludeHeaders : string) : OptionFunc := λ h,
  regex ← createFullExcludeRegex excludeHeaders;
  match regex with
  | Some r => Ok (h <| excludeHeadersProcessor := Some (createExcludeHeadersProcessor r) |>)
  | None => Ok h
  end.
Definition WithExcludeHeaders `{Regexp} (excludeHeaders : string) : OptionFunc :=
  setExcludeHeaders excludeHeaders.

(** [sort.Strings] *)
Definition sort_strings (l : list string) : list string := merge_sort key_le l.

Definition WithAllowedRedirectDomains (hosts : list string) : OptionFunc := set_field (λ h,
  let formattedListItems := sort_strings (map (λ host, "- " +:+ host) hosts) in
  h <| AllowedRedirectDomains := hosts |>
    <| forbiddenRedirectError :=
         "Forbidden redirect URL. Please be careful with this link." +:+ str1 LF +:+ str1 LF
         +:+ "Allowed redirect destinations:" +:+ str1 LF +:+ Join (str1 LF) formattedListItems |>).

Definition WithUnsafeAllowDangerousResponses : OptionFunc :=
  set_field (λ h, h <| unsafeAllowDangerousResponses := true |>).
Definition WithTrustedProxies (cidrs : list IPNet) : OptionFunc :=
  set_field (λ h, h <| trustedProxies := cidrs |> <| trustedProxiesConfigured := true |>).
Definition WithVersion (v : string) : OptionFunc := set_field (λ h, h <| version := v |>).
Definition WithRateLimiter (cfg : RateLimiterConfig) : OptionFunc := set_field (λ h,
  h <| rateLimiter := Some (newIPRateLimiter cfg) |> <| rateLimitUseSubnets := UseSubnets cfg |>).
Definition WithMaxConcurrentRequests (n : Z) : OptionFunc :=
  set_field (λ h, h <| maxConcurrentRequests := n |>).

(** The options in the order in which they are given. *)
Fixpoint apply_options (opts : list OptionFunc) (h : HTTPBin) : outcome gerror HTTPBin :=
  match opts with
  | [] => Ok h
  | opt :: opts => h ← opt h; apply_options opts h
  end.

(** An invariant that every option keeps is kept by all of them. *)
Lemma apply_options_preserves (I : HTTPBin → Prop) opts h h' :
  Forall (λ o : OptionFunc, ∀ h h', o h = Ok h' → I h → I h') opts →
  apply_options opts h = Ok h' → I h → I h'.
Proof.
  intros Ho. revert h. induction Ho as [|o opts Ho _ IH]; intros h; cbn; [by intros [= ->]|].
  intros (h1 & E1 & E)%outcome_bind_Ok Hh. eauto.
Qed.

