(* ===== verification/Config.v ===== *)
(** * Config: the configuration of the command

    [loadConfig] of [cmd/cmd.go]: flags, then environment variables for the settings
    that have their default values, then checks.  The environment ([os.Getenv],
    [os.Environ], [os.Hostname]) is an argument. *)

From coqutil Require Import Datatypes.RecordSetters.
From S2P Require Import Prelude GoStrings GoNum GoFloat GoTime GoFmt GoFlag.
From S2P Require Bin.
Import TriangleBracketNotations.

(** ** The record *)

Record config := MkConfig {
  Env : option (gmap string string);          (* [None]: a nil map *)
  AllowedRedirectDomains : list string;
  ListenHost : string;
  ExcludeHeaders : string;
  ListenPort : Z;
  MaxBodySize : Z;
  MaxDuration : Z;
  Prefix : string;
  RealHostname : string;
  TLSCertFile : string;
  TLSKeyFile : string;
  LogFormat : string;
  LogLevel : Z;
  SrvMaxHeaderBytes : Z;
  SrvReadHeaderTimeout : Z;
  SrvReadTimeout : Z;
  SrvWriteTimeout : Z;
  SrvIdleTimeout : Z;
  RateLimitRate : float64;
  RateLimitBurst : Z;
  RateLimitMaxIPs : Z;
  RateLimitEntryTTL : Z;
  RateLimitCleanupInterval : Z;
  RateLimitUseSubnets : bool;
  MaxConcurrentRequests : Z;
  UnsafeAllowDangerousResponses : bool;
  rawAllowedRedirectDomains : string;
  rawLogLevel : string;
  rawUseRealHostname : bool;
  rawTrustedProxies : string;
}.

(** [&config{}] *)
Definition zero_config : config :=
  MkConfig None [] "" "" 0 0 0 "" "" "" "" "" 0 0 0 0 0 0 fzero 0 0 0 0 false 0 false "" "" false "".

Definition defaultListenHost : string := "0.0.0.0".
Definition defaultListenPort : Z := 8080.
Definition defaultLogFormat : string := "text".
Definition defaultLogLevel : string := "INFO".
Definition defaultEnvPrefix : string := "HTTPBIN_ENV_".
Definition logLevelOff : Z := maxInt64.
Definition defaultSrvReadTimeout : Z := 5 * Second.
Definition defaultSrvReadHeaderTimeout : Z := 1 * Second.
Definition defaultSrvWriteTimeout : Z := 30 * Second.
Definition defaultSrvIdleTimeout : Z := 120 * Second.
Definition defaultSrvMaxHeaderBytes : Z := 16 * 1024.
Definition defaultRateLimitRate : float64 := of_Z 5.
Definition defaultRateLimitBurst : Z := 20.
Definition defaultRateLimitMaxIPs : Z := 100000.
Definition defaultRateLimitEntryTTL : Z := 5 * Minute.
Definition defaultRateLimitCleanupInterval : Z := 30 * Second.

(** ** Flags *)

Definition boolF (name : string) (set : bool → config → config) (v : bool) (usage : string) : Flag config :=
  MkFlag name (BoolVar set v) usage.
Definition intF (name : string) (set : Z → config → config) (v : Z) (usage : string) : Flag config :=
  MkFlag name (IntVar set v) usage.
Definition durF (name : string) (set : Z → config → config) (v : Z) (usage : string) : Flag config :=
  MkFlag name (DurationVar set v) usage.
Definition strF (name : string) (set : string → config → config) (v usage : string) : Flag config :=
  MkFlag name (StringVar set v) usage.

Definition srvOption (name : string) : string :=
  "Value to use for the http.Server's " +:+ name +:+ " option".

Definition flags : list (Flag config) :=
  [boolF "use-real-hostname" (λ v c, c <| rawUseRealHostname := v |>) false
     "Expose value of os.Hostname() in the /hostname endpoint instead of dummy value";
   durF "max-duration" (λ v c, c <| MaxDuration := v |>) Bin.DefaultMaxDuration
     "Maximum duration a response may take";
   intF "max-body-size" (λ v c, c <| MaxBodySize := v |>) Bin.DefaultMaxBodySize
     "Maximum size of request or response, in bytes";
   intF "port" (λ v c, c <| ListenPort := v |>) defaultListenPort "Port to listen on";
   strF "allowed-redirect-domains" (λ v c, c <| rawAllowedRedirectDomains := v |>) ""
     "Comma-separated list of domains the /redirect-to endpoint will allow";
   strF "host" (λ v c, c <| ListenHost := v |>) defaultListenHost "Host to listen on";
   strF "prefix" (λ v c, c <| Prefix := v |>) ""
     "Path prefix (empty or start with slash and does not end with slash)";
   strF "https-cert-file" (λ v c, c <| TLSCertFile := v |>) "" "HTTPS Server certificate file";
   strF "https-key-file" (λ v c, c <| TLSKeyFile := v |>) "" "HTTPS Server private key file";
   strF "exclude-headers" (λ v c, c <| ExcludeHeaders := v |>) ""
     "Drop platform-specific headers. Comma-separated list of headers key to drop, supporting wildcard matching.";
   strF "log-format" (λ v c, c <| LogFormat := v |>) defaultLogFormat "Log format (text or json)";
   strF "log-level" (λ v c, c <| rawLogLevel := v |>) defaultLogLevel
     "Logging level (DEBUG, INFO, WARN, ERROR, OFF)";
   intF "srv-max-header-bytes" (λ v c, c <| SrvMaxHeaderBytes := v |>) defaultSrvMaxHeaderBytes
     (srvOption "MaxHeaderBytes");
   durF "srv-read-header-timeout" (λ v c, c <| SrvReadHeaderTimeout := v |>)
     defaultSrvReadHeaderTimeout (srvOption "ReadHeaderTimeout");
   durF "srv-read-timeout" (λ v c, c <| SrvReadTimeout := v |>) defaultSrvReadTimeout
     (srvOption "ReadTimeout");
   durF "srv-write-timeout" (λ v c, c <| SrvWriteTimeout := v |>) defaultSrvWriteTimeout
     (srvOption "WriteTimeout");
   durF "srv-idle-timeout" (λ v c, c <| SrvIdleTimeout := v |>) defaultSrvIdleTimeout
     (srvOption "IdleTimeout");
   MkFlag "rate-limit-rate" (Float64Var (λ v c, c <| RateLimitRate := v |>) defaultRateLimitRate)
     "Rate limit requests per second per IP (0 to disable)";
   intF "rate-limit-burst" (λ v c, c <| RateLimitBurst := v |>) defaultRateLimitBurst
     "Rate limit max burst size";
   intF "rate-limit-max-ips" (λ v c, c <| RateLimitMaxIPs := v |>) defaultRateLimitMaxIPs
     "Rate limit max tracked IP entries";
   durF "rate-limit-entry-ttl" (λ v c, c <| RateLimitEntryTTL := v |>) defaultRateLimitEntryTTL
     "Rate limit TTL for idle entries";
   durF "rate-limit-cleanup-interval" (λ v c, c <| RateLimitCleanupInterval := v |>)
     defaultRateLimitCleanupInterval "Rate limit background cleanup interval";
   boolF "rate-limit-use-subnets" (λ v c, c <| RateLimitUseSubnets := v |>) false
     "Rate limit by /24 (IPv4) or /64 (IPv6) subnets";
   intF "max-concurrent-requests" (λ v c, c <| MaxConcurrentRequests := v |>) 0
     "Maximum number of concurrent requests (0 for unlimited)";
   strF "trusted-proxies" (λ v c, c <| rawTrustedProxies := v |>) ""
     "Comma-separated list of trusted proxy CIDRs for X-Forwarded-For parsing";
   boolF "unsafe-allow-dangerous-responses" (λ v c, c <| UnsafeAllowDangerousResponses := v |>) false
     "Allow endpoints to return unescaped HTML when clients control response Content-Type (enables XSS attacks)"].

(** ** Environment variables *)

Inductive loadError :=
| ConfigError (err : flagError) (usage : string)
| OtherError (e : gerror).

Definition getEnvBool (val : string) : bool := String.eqb val "1" || String.eqb val "true".

Definition parseLogLevel (s : string) : outcome gerror Z :=
  let l := ToUpper (TrimSpace s) in
  if String.eqb l "DEBUG" then Ok (-4)
  else if String.eqb l "INFO" then Ok 0
  else if String.eqb l "WARN" then Ok 4
  else if String.eqb l "ERROR" then Ok 8
  else if String.eqb l "OFF" then Ok logLevelOff
  else Err (Errorf "invalid log level %q" [AStr s]).

Section Load.
Context `{GoStd} (getEnvVal : string → string) (getEnviron : list string).
Context (getHostname : outcome gerror string).

Definition usage : string := Usage "go-httpbin" flags.

(** [configErr]; the format [%#v] of a string is its quotation. *)
Definition configErr {A} (format : string) (args : list farg) : outcome loadError A :=
  Err (ConfigError (FlagFailed (Errorf format args)) usage).

Definition badEnv {A} (name : string) : outcome loadError A :=
  configErr ("invalid value %q for env var " +:+ name +:+ ": parse error") [AStr (getEnvVal name)].

(** A setting that still has its default value is read from the environment. *)
Definition fromEnv {E A} (name : string) (isDefault : bool) (parse : string → outcome E A)
    (set : A → config → config) (c : config) : outcome loadError config :=
  if isDefault && nonempty (getEnvVal name) then
    match parse (getEnvVal name) with Ok v => Ok (set v c) | _ => badEnv name end
  else Ok c.

Definition textFromEnv (name : string) (isDefault : bool) (set : string → config → config)
    (c : config) : outcome loadError config :=
  fromEnv (E := gerror) name isDefault Ok set c.

Definition loadLimits (c : config) : outcome loadError config :=
  c ← fromEnv "MAX_BODY_SIZE" (MaxBodySize c =? Bin.DefaultMaxBodySize) (ParseInt 64)
        (λ v c, c <| MaxBodySize := v |>) c;
  c ← fromEnv "MAX_DURATION" (MaxDuration c =? Bin.DefaultMaxDuration) ParseDuration
        (λ v c, c <| MaxDuration := v |>) c;
  c ← textFromEnv "HOST" (String.eqb (ListenHost c) defaultListenHost) (λ v c, c <| ListenHost := v |>) c;
  textFromEnv "PREFIX" (String.eqb (Prefix c) "") (λ v c, c <| Prefix := v |>) c.

Definition checkPrefix (c : config) : outcome loadError config :=
  if nonempty (Prefix c) then
    if negb (HasPrefix (Prefix c) "/")
    then configErr "Prefix %q must start with a slash" [AStr (Prefix c)]
    else if HasSuffix (Prefix c) "/"
    then configErr "Prefix %q must not end with a slash" [AStr (Prefix c)]
    else Ok c
  else Ok c.

Definition loadPort (c : config) : outcome loadError config :=
  c ← textFromEnv "EXCLUDE_HEADERS" (String.eqb (ExcludeHeaders c) "")
        (λ v c, c <| ExcludeHeaders := v |>) c;
  fromEnv "PORT" (ListenPort c =? defaultListenPort) Atoi (λ v c, c <| ListenPort := v |>) c.

Definition loadTLS (c : config) : outcome loadError config :=
  c ← textFromEnv "HTTPS_CERT_FILE" (String.eqb (TLSCertFile c) "") (λ v c, c <| TLSCertFile := v |>) c;
  c ← textFromEnv "HTTPS_KEY_FILE" (String.eqb (TLSKeyFile c) "") (λ v c, c <| TLSKeyFile := v |>) c;
  if (nonempty (TLSCertFile c) || nonempty (TLSKeyFile c)) &&
     (String.eqb (TLSCertFile c) "" || String.eqb (TLSKeyFile c) "")
  then configErr "https cert and key must both be provided" []
  else Ok c.

Definition loadLog (c : config) : outcome loadError config :=
  c ← textFromEnv "LOG_FORMAT" (String.eqb (LogFormat c) defaultLogFormat) (λ v c, c <| LogFormat := v |>) c;
  if negb (String.eqb (LogFormat c) "text") && negb (String.eqb (LogFormat c) "json")
  then configErr ("invalid log format %q, must be " +:+ DQUOTE +:+ "text" +:+ DQUOTE +:+ " or "
                  +:+ DQUOTE +:+ "json" +:+ DQUOTE) [AStr (LogFormat c)]
  else
    c ← textFromEnv "LOG_LEVEL" (String.eqb (rawLogLevel c) defaultLogLevel)
          (λ v c, c <| rawLogLevel := v |>) c;
    match parseLogLevel (rawLogLevel c) with
    | Ok level => Ok (c <| LogLevel := level |>)
    | _ => configErr ("invalid log level %q, must be one of "
                      +:+ Join ", " (map (λ l, DQUOTE +:+ l +:+ DQUOTE)
                                       ["DEBUG"; "INFO"; "WARN"; "ERROR"; "OFF"]))
             [AStr (rawLogLevel c)]
    end.

Definition loadHostname (c : config) : outcome loadError config :=
  let c := if getEnvBool (getEnvVal "USE_REAL_HOSTNAME") then c <| rawUseRealHostname := true |> else c in
  if rawUseRealHostname c then
    name ← map_err (λ e, OtherError (Errorf "could not look up real hostname: %w" [AErr e])) getHostname;
    Ok (c <| RealHostname := name |>)
  else Ok c.

(** The domains of the comma-separated list, trimmed, without the empty ones. *)
Definition splitDomains (raw : string) : list string :=
  filter (λ d, d ≠ "") (map TrimSpace (Split "," raw)).

Definition loadDomains (c : config) : outcome loadError config :=
  c ← textFromEnv "ALLOWED_REDIRECT_DOMAINS" (String.eqb (rawAllowedRedirectDomains c) "")
        (λ v c, c <| rawAllowedRedirectDomains := v |>) c;
  Ok (c <| AllowedRedirectDomains :=
            AllowedRedirectDomains c ++ splitDomains (rawAllowedRedirectDomains c) |>).

Definition loadServer (c : config) : outcome loadError config :=
  c ← fromEnv "SRV_MAX_HEADER_BYTES" (SrvMaxHeaderBytes c =? defaultSrvMaxHeaderBytes) Atoi
        (λ v c, c <| SrvMaxHeaderBytes := v |>) c;
  c ← fromEnv "SRV_READ_HEADER_TIMEOUT" (SrvReadHeaderTimeout c =? defaultSrvReadHeaderTimeout)
        ParseDuration (λ v c, c <| SrvReadHeaderTimeout := v |>) c;
  c ← fromEnv "SRV_READ_TIMEOUT" (SrvReadTimeout c =? defaultSrvReadTimeout) ParseDuration
        (λ v c, c <| SrvReadTimeout := v |>) c;
  c ← fromEnv "SRV_WRITE_TIMEOUT" (SrvWriteTimeout c =? defaultSrvWriteTimeout) ParseDuration
        (λ v c, c <| SrvWriteTimeout := v |>) c;
  fromEnv "SRV_IDLE_TIMEOUT" (SrvIdleTimeout c =? defaultSrvIdleTimeout) ParseDuration
    (λ v c, c <| SrvIdleTimeout := v |>) c.

Definition loadRateLimit (c : config) : outcome loadError config :=
  c ← fromEnv "RATE_LIMIT_RATE" (SFeqb (RateLimitRate c) defaultRateLimitRate) ParseFloat
        (λ v c, c <| RateLimitRate := v |>) c;
  c ← fromEnv "RATE_LIMIT_BURST" (RateLimitBurst c =? defaultRateLimitBurst) Atoi
        (λ v c, c <| RateLimitBurst := v |>) c;
  c ← fromEnv "RATE_LIMIT_MAX_IPS" (RateLimitMaxIPs c =? defaultRateLimitMaxIPs) Atoi
        (λ v c, c <| RateLimitMaxIPs := v |>) c;
  c ← fromEnv "RATE_LIMIT_ENTRY_TTL" (RateLimitEntryTTL c =? defaultRateLimitEntryTTL) ParseDuration
        (λ v c, c <| RateLimitEntryTTL := v |>) c;
  c ← fromEnv "RATE_LIMIT_CLEANUP_INTERVAL"
        (RateLimitCleanupInterval c =? defaultRateLimitCleanupInterval) ParseDuration
        (λ v c, c <| RateLimitCleanupInterval := v |>) c;
  Ok (if getEnvBool (getEnvVal "RATE_LIMIT_USE_SUBNETS") then c <| RateLimitUseSubnets := true |> else c).

Definition loadRest (c : config) : outcome loadError config :=
  c ← fromEnv "MAX_CONCURRENT_REQUESTS" (MaxConcurrentRequests c =? 0) Atoi
        (λ v c, c <| MaxConcurrentRequests := v |>) c;
  c ← textFromEnv "TRUSTED_PROXIES" (String.eqb (rawTrustedProxies c) "")
        (λ v c, c <| rawTrustedProxies := v |>) c;
  Ok (if getEnvBool (getEnvVal "UNSAFE_ALLOW_DANGEROUS_RESPONSES")
      then c <| UnsafeAllowDangerousResponses := true |> else c).

(** The temporary fields go back to their zero values. *)
Definition resetRaw (c : config) : config :=
  c <| rawAllowedRedirectDomains := "" |> <| rawLogLevel := "" |> <| rawUseRealHostname := false |>
    <| rawTrustedProxies := "" |>.

Definition addEnv (envVar : string) (c : config) : config :=
  let '(name, value, _) := Cut "=" envVar in
  if HasPrefix name defaultEnvPrefix
  then c <| Env := Some (<[name := value]> (default ∅ (Env c))) |> else c.

Definition loadConfig (args : list string) : outcome loadError config :=
  c ← map_err (λ e, ConfigError e usage) (Parse flags args (declare_flags flags zero_config));
  c ← loadLimits c;
  c ← checkPrefix c;
  c ← loadPort c;
  c ← loadTLS c;
  c ← loadLog c;
  c ← loadHostname c;
  c ← loadDomains c;
  c ← loadServer c;
  c ← loadRateLimit c;
  c ← loadRest c;
  Ok (foldl (λ c v, addEnv v c) (resetRaw c) getEnviron).
End Load.
