(* ===== verification/ConfigSpec.v ===== *)
(** * ConfigSpec: what an accepted configuration is

    Where each setting comes from, and what the checks of [loadConfig] guarantee. *)

From coqutil Require Import Datatypes.RecordSetters.
From S2P Require Import Prelude GoStrings GoNum GoFloat GoTime GoFmt GoFlag Config.
From S2P Require Bin.
Import TriangleBracketNotations.

(** ** Steps that keep a field *)

Definition keeps {A} (get : config → A) (step : config → outcome loadError config) : Prop :=
  ∀ c c', step c = Ok c' → get c' = get c.

Section Keeps.
Context `{GoStd} {A : Type} (get : config → A).

Lemma keeps_Ok (f : config → config) : (∀ c, get (f c) = get c) → keeps get (λ c, Ok (f c)).
Proof. by intros Hf c c' [= <-]. Qed.

Lemma keeps_bind step next : keeps get step → keeps get next → keeps get (λ c, c ← step c; next c).
Proof. intros H1 H2 c c' (c1 & E1 & E2)%outcome_bind_Ok. by rewrite (H2 _ _ E2), (H1 _ _ E1). Qed.

Lemma keeps_fromEnv {E B} env name isDefault (parse : string → outcome E B) set :
  (∀ v c, get (set v c) = get c) → keeps get (λ c, fromEnv env name (isDefault c) parse set c).
Proof.
  intros Hset c c'. unfold fromEnv. destruct (_ && _); [|by intros [= ->]].
  by destruct (parse _); [intros [= <-]| |].
Qed.

Lemma keeps_textFromEnv env name isDefault set :
  (∀ v c, get (set v c) = get c) → keeps get (λ c, textFromEnv env name (isDefault c) set c).
Proof. apply keeps_fromEnv. Qed.

Lemma keeps_if (b : config → bool) f g :
  keeps get f → keeps get g → keeps get (λ c, if b c then f c else g c).
Proof. intros Hf Hg c c'. destruct (b c); [apply Hf|apply Hg]. Qed.

Lemma keeps_configErr f (args : config → list farg) : keeps get (λ c, configErr (f c) (args c)).
Proof. done. Qed.
End Keeps.

(** Close [keeps] goals: binds, settings of other fields, tests. *)
Ltac keep :=
  repeat first
    [ apply keeps_bind
    | apply keeps_if
    | apply keeps_configErr
    | apply keeps_fromEnv; reflexivity
    | apply keeps_textFromEnv; reflexivity
    | apply keeps_Ok; intros ?; repeat case_match; reflexivity
    | let c := fresh "c" in let c' := fresh "c" in
      intros c c'; unfold mbind, outcome_bind; repeat case_match; try done; by intros [= <-] ].

(** The stages of [loadConfig]. *)
Definition stages `{GoStd} (env : string → string) (host : outcome gerror string)
    : list (config → outcome loadError config) :=
  [loadLimits env; checkPrefix; loadPort env; loadTLS env; loadLog env; loadHostname env host;
   loadDomains env; loadServer env; loadRateLimit env; loadRest env].

Fixpoint run_stages (l : list (config → outcome loadError config)) (c : config)
    : outcome loadError config :=
  match l with [] => Ok c | f :: l => c ← f c; run_stages l c end.

Lemma run_stages_app l l' c : run_stages (l ++ l') c = c' ← run_stages l c; run_stages l' c'.
Proof. revert c. induction l as [|f l IH]; intros c; cbn; [done|]. destruct (f c); cbn; [apply IH|done..]. Qed.

Lemma run_stages_keeps {A} (get : config → A) l : Forall (keeps get) l → keeps get (run_stages l).
Proof.
  induction 1 as [|f l Hf _ IH]; [by intros c c' [= ->]|].
  exact (keeps_bind get f (run_stages l) Hf IH).
Qed.

Lemma loadConfig_stages `{GoStd} env environ host args :
  loadConfig env environ host args
  = c0 ← map_err (λ e, ConfigError e usage) (Parse flags args (declare_flags flags zero_config));
    c ← run_stages (stages env host) c0;
    Ok (foldl (λ c v, addEnv v c) (resetRaw c) environ).
Proof.
  unfold loadConfig, stages. generalize (map_err (λ e, ConfigError e usage)
    (Parse flags args (declare_flags flags zero_config))) as m.
  generalize (loadLimits env) as f1, checkPrefix as f2, (loadPort env) as f3, (loadTLS env) as f4,
    (loadLog env) as f5, (loadHostname env host) as f6, (loadDomains env) as f7,
    (loadServer env) as f8, (loadRateLimit env) as f9, (loadRest env) as f10.
  intros. cbn [run_stages]. unfold mbind, outcome_bind. destruct m as [c| |]; [|done..].
  destruct (f1 c) as [c1| |]; [|done..]. destruct (f2 c1) as [c2| |]; [|done..].
  destruct (f3 c2) as [c3| |]; [|done..]. destruct (f4 c3) as [c4| |]; [|done..].
  destruct (f5 c4) as [c5| |]; [|done..]. destruct (f6 c5) as [c6| |]; [|done..].
  destruct (f7 c6) as [c7| |]; [|done..]. destruct (f8 c7) as [c8| |]; [|done..].
  destruct (f9 c8) as [c9| |]; [|done..]. by destruct (f10 c9).
Qed.

(** ** Where a setting comes from *)

(** A setting: the flag that gives it a first value, the text of that flag and its default
    value; then how the value that the program uses follows from the first one. *)
Record setting := MkSetting {
  s_type : Type;
  s_value : Type;
  s_flag : string;
  s_text : string → option s_type;
  s_default : s_type;
  s_raw : config → s_type;
  s_final : config → s_value;
  s_rule : s_type → option s_value;
}.

Definition value_of {E A} (parse : string → outcome E A) (s : string) : option A :=
  match parse s with Ok v => Some v | _ => None end.

Section Rules.
Context `{GoStd} (env : string → string) (host : outcome gerror string).

(** The variable decides where the flag left the default value. *)
Definition or_env {A} (name : string) (isDefault : A → bool) (parse : string → option A) (v : A) : option A :=
  if isDefault v && nonempty (env name) then parse (env name) else Some v.
(** A variable that switches something on. *)
Definition env_bool (name : string) : bool := bool_decide (env name ∈ ["1"; "true"]).

Definition plain {A} (get : config → A) (flag name : string) (text : string → option A) (default : A)
    (isDefault : A → bool) (parse : string → option A) : setting :=
  MkSetting A A flag text default get get (or_env name isDefault parse).
Definition number (get : config → Z) flag name default : setting :=
  plain get flag name (value_of (ParseInt0 64)) default (Z.eqb default) (value_of Atoi).
Definition duration (get : config → Z) flag name default : setting :=
  plain get flag name (value_of ParseDuration) default (Z.eqb default) (value_of ParseDuration).
Definition text (get : config → string) flag name default : setting :=
  plain get flag name Some default (String.eqb default) Some.
Definition switch (get : config → bool) flag name : setting :=
  MkSetting bool bool flag ParseBool false get get (λ v, Some (v || env_bool name)).

(** All the settings of the command but the trusted proxies. *)
Definition settings : list setting :=
  [number MaxBodySize "max-body-size" "MAX_BODY_SIZE" Bin.DefaultMaxBodySize;
   duration MaxDuration "max-duration" "MAX_DURATION" Bin.DefaultMaxDuration;
   text ListenHost "host" "HOST" "0.0.0.0";
   text Prefix "prefix" "PREFIX" "";
   text ExcludeHeaders "exclude-headers" "EXCLUDE_HEADERS" "";
   number ListenPort "port" "PORT" 8080;
   text TLSCertFile "https-cert-file" "HTTPS_CERT_FILE" "";
   text TLSKeyFile "https-key-file" "HTTPS_KEY_FILE" "";
   text LogFormat "log-format" "LOG_FORMAT" "text";
   MkSetting string Z "log-level" Some "INFO" rawLogLevel LogLevel
     (λ v, or_env "LOG_LEVEL" (String.eqb "INFO") Some v ≫= value_of parseLogLevel);
   MkSetting bool string "use-real-hostname" ParseBool false rawUseRealHostname RealHostname
     (λ v, if v || env_bool "USE_REAL_HOSTNAME" then value_of (λ _, host) "" else Some "");
   MkSetting string (list string) "allowed-redirect-domains" Some "" rawAllowedRedirectDomains
     AllowedRedirectDomains
     (λ v, splitDomains <$> or_env "ALLOWED_REDIRECT_DOMAINS" (String.eqb "") Some v);
   number SrvMaxHeaderBytes "srv-max-header-bytes" "SRV_MAX_HEADER_BYTES" 16384;
   duration SrvReadHeaderTimeout "srv-read-header-timeout" "SRV_READ_HEADER_TIMEOUT" Second;
   duration SrvReadTimeout "srv-read-timeout" "SRV_READ_TIMEOUT" (5 * Second);
   duration SrvWriteTimeout "srv-write-timeout" "SRV_WRITE_TIMEOUT" (30 * Second);
   duration SrvIdleTimeout "srv-idle-timeout" "SRV_IDLE_TIMEOUT" (120 * Second);
   plain RateLimitRate "rate-limit-rate" "RATE_LIMIT_RATE" (value_of ParseFloat) (of_Z 5)
     (λ v, SFeqb v (of_Z 5)) (value_of ParseFloat);
   number RateLimitBurst "rate-limit-burst" "RATE_LIMIT_BURST" 20;
   number RateLimitMaxIPs "rate-limit-max-ips" "RATE_LIMIT_MAX_IPS" 100000;
   duration RateLimitEntryTTL "rate-limit-entry-ttl" "RATE_LIMIT_ENTRY_TTL" (5 * Minute);
   duration RateLimitCleanupInterval "rate-limit-cleanup-interval" "RATE_LIMIT_CLEANUP_INTERVAL" (30 * Second);
   switch RateLimitUseSubnets "rate-limit-use-subnets" "RATE_LIMIT_USE_SUBNETS";
   number MaxConcurrentRequests "max-concurrent-requests" "MAX_CONCURRENT_REQUESTS" 0;
   switch UnsafeAllowDangerousResponses "unsafe-allow-dangerous-responses"
     "UNSAFE_ALLOW_DANGEROUS_RESPONSES"].

(** Its flag and no other writes the first value of a setting, which is the default one
    where the flag is not given. *)
Definition set_by_flag (s : setting) : Prop :=
  s_flag s ∈ map flag_name flags ∧ s_raw s (declare_flags flags zero_config) = s_default s ∧
  Forall (λ f, ∀ t c c', flag_Set (flag_var f) t c = Ok c' →
    if String.eqb (flag_name f) (s_flag s) then s_text s t = Some (s_raw s c')
    else s_raw s c' = s_raw s c) flags.

(** What the flags leave alone. *)
Definition unset (c : config) : string * list string := (RealHostname c, AllowedRedirectDomains c).

(** A step turns the first value of a setting into its final one, where what [u] tells of
    the configuration is still [u0]. *)
Definition reads_from {U A B} (u : config → U) (u0 : U) (raw : config → A) (final : config → B)
    (rule : A → option B) (step : config → outcome loadError config) : Prop :=
  ∀ c c', u c = u0 → step c = Ok c' → rule (raw c) = Some (final c').
Definition reads {A B} (raw : config → A) (final : config → B) rule step : Prop :=
  reads_from (λ _, ()) () raw final rule step.

Lemma reads_left {U A B} (u : config → U) u0 (raw : config → A) (final : config → B) rule f g :
  reads_from u u0 raw final rule f → keeps final g → reads_from u u0 raw final rule (λ c, c ← f c; g c).
Proof. intros Hf Hg c c' Hu (c1 & E1 & E2)%outcome_bind_Ok. rewrite (Hg _ _ E2). by apply Hf. Qed.

Lemma reads_right {U A B} (u : config → U) u0 (raw : config → A) (final : config → B) rule f g :
  keeps raw f → keeps u f → reads_from u u0 raw final rule g →
  reads_from u u0 raw final rule (λ c, c ← f c; g c).
Proof.
  intros Hf Hu Hg c c' Hc (c1 & E1 & E2)%outcome_bind_Ok. rewrite <- (Hf _ _ E1).
  apply Hg; [by rewrite (Hu _ _ E1)|done].
Qed.

Lemma reads_fromEnv {E A} (get : config → A) name isDefault isDefault' (parse : string → outcome E A) set :
  (∀ v, isDefault v = isDefault' v) → (∀ v c, get (set v c) = v) →
  reads get get (or_env name isDefault (value_of parse))
    (λ c, fromEnv env name (isDefault' (get c)) parse set c).
Proof.
  intros Hd Hset c c' _. unfold fromEnv, or_env, value_of. rewrite Hd.
  destruct (_ && _); [|by intros [= ->]].
  destruct (parse _); [intros [= <-]; by rewrite Hset|done..].
Qed.

Lemma reads_number {E} (get : config → Z) name d (parse : string → outcome E Z) set :
  (∀ v c, get (set v c) = v) →
  reads get get (or_env name (Z.eqb d) (value_of parse)) (λ c, fromEnv env name (get c =? d) parse set c).
Proof. apply (reads_fromEnv get name (Z.eqb d) (λ v, v =? d)). intros v. apply Z.eqb_sym. Qed.

Lemma reads_text (get : config → string) name d set :
  (∀ v c, get (set v c) = v) →
  reads get get (or_env name (String.eqb d) Some) (λ c, textFromEnv env name (String.eqb (get c) d) set c).
Proof.
  apply (reads_fromEnv (E := gerror) get name (String.eqb d) (λ v, String.eqb v d) Ok).
  intros v. apply String.eqb_sym.
Qed.

Lemma reads_float (get : config → float64) name d set :
  (∀ v c, get (set v c) = v) →
  reads get get (or_env name (λ v, SFeqb v d) (value_of ParseFloat))
    (λ c, fromEnv env name (SFeqb (get c) d) ParseFloat set c).
Proof. by apply (reads_fromEnv get name (λ v, SFeqb v d) (λ v, SFeqb v d)). Qed.

Lemma getEnvBool_on name : getEnvBool (env name) = env_bool name.
Proof.
  unfold env_bool, getEnvBool.
  destruct (String.eqb_spec (env name) "1") as [->|H1]; [done|].
  destruct (String.eqb_spec (env name) "true") as [->|H2]; [done|].
  rewrite bool_decide_false by set_solver. done.
Qed.

Lemma reads_switch (get : config → bool) name set :
  (∀ c, get (set c) = true) →
  reads get get (λ v, Some (v || env_bool name)) (λ c, Ok (if getEnvBool (env name) then set c else c)).
Proof.
  intros Hset c c' _ [= <-]. rewrite getEnvBool_on. f_equal.
  destruct (env_bool name); [by rewrite Hset, orb_true_r|apply orb_false_r].
Qed.

Lemma reads_stages {U A B} (u : config → U) u0 (raw : config → A) (final : config → B) rule l f l' :
  stages env host = l ++ f :: l' → (∀ c, unset c = ("", []) → u c = u0) →
  Forall (keeps raw) l → Forall (keeps u) l → reads_from u u0 raw final rule f → Forall (keeps final) l' →
  reads_from unset ("", []) raw final rule (run_stages (stages env host)).
Proof.
  intros -> Hn Hl Hu Hf Hl' c c' Hc%Hn. rewrite run_stages_app. revert c c' Hc.
  apply (reads_right u u0 raw final rule (run_stages l) (run_stages (f :: l'))); [by apply run_stages_keeps..|].
  apply (reads_left u u0 raw final rule f (run_stages l') Hf). by apply run_stages_keeps.
Qed.
End Rules.

(** Find the step that sets the field of a setting. *)
Ltac read :=
  first
    [ apply reads_number; reflexivity
    | apply reads_text; reflexivity
    | apply reads_float; reflexivity
    | apply reads_switch; reflexivity
    | apply reads_left; [read|keep]
    | apply reads_right; [keep|keep|read] ].

Section Settings.
Context `{GoStd} (env : string → string) (environ : list string) (host : outcome gerror string).

(** What the temporary fields and the variables for /env do not touch. *)
Lemma addEnvs_keep {A} (get : config → A) c :
  (∀ e c, get (c <| Env := e |>) = get c) → get (foldl (λ c v, addEnv v c) c environ) = get c.
Proof.
  intros He. revert c. induction environ as [|v l IH]; intros c; [done|]. cbn [foldl].
  rewrite IH. unfold addEnv. destruct (Cut _ v) as [[name value] ?].
  destruct (HasPrefix _ _); [apply He|done].
Qed.

Lemma finish_keeps {A} (get : config → A) c :
  (∀ c, get (resetRaw c) = get c) → (∀ e c, get (c <| Env := e |>) = get c) →
  get (foldl (λ c v, addEnv v c) (resetRaw c) environ) = get c.
Proof. intros Hr He. by rewrite addEnvs_keep. Qed.

Ltac unfold_stages :=
  unfold loadLimits, checkPrefix, loadPort, loadTLS, loadLog, loadHostname, loadDomains, loadServer,
    loadRateLimit, loadRest.
Ltac keep_all :=
  cbn [take drop stages]; repeat (apply Forall_cons; split; [unfold_stages; keep|]); by apply Forall_nil.
Ltac in_stage u u0 i :=
  apply (reads_stages env host u u0 _ _ _ (take i (stages env host)) (nth i (stages env host) Ok)
    (drop (S i) (stages env host))); [reflexivity|by intros ? [= ? ?]|keep_all|keep_all|cbn [nth stages]|keep_all].

Lemma or_env_text {A} (get : config → A) name isDefault isDefault' (raw : config → string) set c c' :
  (∀ v, isDefault v = isDefault' v) → (∀ v c, raw (set v c) = v) → (∀ v c, get (set v c) = get c) →
  textFromEnv env name (isDefault' (raw c)) set c = Ok c' →
  or_env env name isDefault Some (raw c) = Some (raw c') ∧ get c' = get c.
Proof.
  intros Hd Hset Hget. unfold textFromEnv, fromEnv, or_env. rewrite Hd. destruct (_ && _); intros [= <-]; [|done].
  by rewrite Hset, Hget.
Qed.

Lemma read_LogLevel :
  reads rawLogLevel LogLevel (λ v, or_env env "LOG_LEVEL" (String.eqb "INFO") Some v ≫= value_of parseLogLevel)
    (loadLog env).
Proof.
  unfold loadLog. apply reads_right; [keep|keep|]. intros c c' _. destruct (_ && _); [done|].
  intros (c1 & E1 & E2)%outcome_bind_Ok.
  apply (or_env_text LogLevel _ (String.eqb "INFO") (λ v, String.eqb v "INFO")) in E1 as [-> _];
    [|by intros; apply String.eqb_sym|done..].
  cbn [mbind option_bind]. unfold value_of. destruct (parseLogLevel _); [by injection E2 as <-|done..].
Qed.

Lemma read_RealHostname :
  reads_from RealHostname "" rawUseRealHostname RealHostname
    (λ v, if v || env_bool env "USE_REAL_HOSTNAME" then value_of (λ _, host) "" else Some "")
    (loadHostname env host).
Proof.
  intros c c' Hh. unfold loadHostname, value_of.
  rewrite getEnvBool_on. destruct (env_bool env "USE_REAL_HOSTNAME"); rewrite ?orb_true_r, ?orb_false_r; cbn.
  - destruct host; [by intros [= <-]|done..].
  - destruct (rawUseRealHostname c); [destruct host; [by intros [= <-]|done..]|intros [= <-]; by rewrite Hh].
Qed.

Lemma read_domains :
  reads_from AllowedRedirectDomains [] rawAllowedRedirectDomains AllowedRedirectDomains
    (λ v, splitDomains <$> or_env env "ALLOWED_REDIRECT_DOMAINS" (String.eqb "") Some v) (loadDomains env).
Proof.
  intros c c' Hd. unfold loadDomains. intros (c1 & E1 & [= <-])%outcome_bind_Ok.
  apply (or_env_text AllowedRedirectDomains _ (String.eqb "") (λ v, String.eqb v "")) in E1 as [-> Ed];
    [|by intros; apply String.eqb_sym|done..].
  cbn. by rewrite Ed, Hd.
Qed.

Lemma stages_read s :
  s ∈ settings env host → reads_from unset ("", []) (s_raw s) (s_final s) (s_rule s) (run_stages (stages env host)).
Proof.
  revert s. apply (proj1 (Forall_forall (λ s, reads_from unset ("", []) (s_raw s) (s_final s) (s_rule s)
    (run_stages (stages env host))) (settings env host))).
  unfold settings. repeat apply Forall_cons_2; [..|apply Forall_nil_2]; cbn [s_raw s_final s_rule number duration text switch plain].
  1-4: in_stage (λ _ : config, tt) tt 0%nat; unfold_stages; read.
  1-2: in_stage (λ _ : config, tt) tt 2%nat; unfold_stages; read.
  1-2: in_stage (λ _ : config, tt) tt 3%nat; unfold_stages; read.
  1: in_stage (λ _ : config, tt) tt 4%nat; unfold_stages; read.
  1: in_stage (λ _ : config, tt) tt 4%nat; apply read_LogLevel.
  1: in_stage RealHostname "" 5%nat; apply read_RealHostname.
  1: in_stage AllowedRedirectDomains (@nil string) 6%nat; apply read_domains.
  1-5: in_stage (λ _ : config, tt) tt 7%nat; unfold_stages; read.
  1-6: in_stage (λ _ : config, tt) tt 8%nat; unfold_stages; read.
  1-2: in_stage (λ _ : config, tt) tt 9%nat; unfold_stages; read.
Qed.

(** Only its flag writes the first value. *)
Lemma settings_flags s : s ∈ settings env host → set_by_flag s.
Proof.
  revert s. apply (proj1 (Forall_forall set_by_flag (settings env host))).
  unfold settings. repeat apply Forall_cons_2; [..|apply Forall_nil_2].
  all: split; [apply (bool_decide_unpack _); vm_compute; reflexivity|split; [vm_compute; reflexivity|]].
  all: unfold flags; repeat apply Forall_cons_2; [..|apply Forall_nil_2].
  all: intros t c c'; cbn [flag_name flag_var boolF intF durF strF flag_Set s_flag s_raw s_text
         number duration text switch plain].
  all: match goal with |- context [String.eqb ?a ?b] =>
         let v := eval vm_compute in (String.eqb a b) in change (String.eqb a b) with v end; cbn match.
  all: unfold value_of; first
    [ by intros [= <-] | destruct (ParseBool t); [by intros [= <-]|done]
    | destruct (ParseInt0 64 t); [by intros [= <-]|done..]
    | destruct (ParseDuration t); [by intros [= <-]|done..]
    | destruct (ParseFloat t); [by intros [= <-]|done..] ].
Qed.

Lemma settings_finish s :
  s ∈ settings env host →
  (∀ c, s_final s (resetRaw c) = s_final s c) ∧ ∀ e c, s_final s (c <| Env := e |>) = s_final s c.
Proof.
  revert s. apply (proj1 (Forall_forall (λ s, (∀ c, s_final s (resetRaw c) = s_final s c) ∧
    ∀ e c, s_final s (c <| Env := e |>) = s_final s c) (settings env host))).
  unfold settings. repeat apply Forall_cons_2; [..|apply Forall_nil_2]; split; reflexivity.
Qed.

(** No flag and no stage but those for the host name and the domains write these; none
    writes [Env]. *)
Lemma flags_untouched f t c c' :
  f ∈ flags → flag_Set (flag_var f) t c = Ok c' → (unset c', Env c') = (unset c, Env c).
Proof.
  intros Hin. revert f Hin t c c'. apply (proj1 (Forall_forall (λ f, ∀ t c c', flag_Set (flag_var f) t c = Ok c' →
    (unset c', Env c') = (unset c, Env c)) flags)).
  unfold flags. repeat apply Forall_cons_2; [..|apply Forall_nil_2];
    intros t c c'; cbn [flag_var boolF intF durF strF flag_Set];
    first [ by intros [= <-] | destruct (ParseBool t); [by intros [= <-]|done]
          | by intros (v & _ & [= <-])%outcome_bind_Ok ].
Qed.

Lemma Parse_untouched args c0 :
  map_err (λ e, ConfigError e usage) (Parse flags args (declare_flags flags zero_config)) = Ok c0 →
  Parse flags args (declare_flags flags zero_config) = Ok c0 ∧ unset c0 = ("", []) ∧ Env c0 = None.
Proof.
  intros E0. destruct (Parse _ _ _) as [c0'|e|w] eqn:E; [|done..]. injection E0 as ->. split; [done|].
  assert ((unset c0, Env c0) = (unset zero_config, Env zero_config)) as [= Hr Hd He]; [|by rewrite He; cbn in *; rewrite <- Hr, <- Hd].
  apply (Parse_preserves (λ c', (unset c', Env c') = (unset zero_config, Env zero_config)) _ _ _ _
    (λ f t c1 c2 Hin E1 Hc, eq_trans (flags_untouched f t c1 c2 Hin E1) Hc) E). done.
Qed.

(** The values that the environment has for a name, where it has the prefix of /env. *)
Definition exposed (k : string) : list string :=
  omap (λ v, let '(name, value, _) := Cut "=" v in
             if HasPrefix k "HTTPBIN_ENV_" && String.eqb name k then Some value else None) environ.

Lemma addEnvs_Env k c :
  default ∅ (Env (foldl (λ c v, addEnv v c) c environ)) !! k
  = match last (exposed k) with Some x => Some x | None => default ∅ (Env c) !! k end.
Proof.
  unfold exposed. revert c. induction environ as [|v l IH]; intros c; cbn [foldl omap list_omap]; [done|].
  rewrite IH. unfold addEnv. destruct (Cut "=" v) as [[name value] found].
  destruct (String.eqb_spec name k) as [->|Hk].
  - rewrite andb_true_r. change (HasPrefix k defaultEnvPrefix) with (HasPrefix k "HTTPBIN_ENV_").
    destruct (HasPrefix k _); [|done]. rewrite last_cons. destruct (last _); [done|].
    cbn. by rewrite lookup_insert_eq.
  - rewrite andb_false_r. destruct (last _); [done|]. destruct (HasPrefix name _); [|done].
    cbn. by rewrite lookup_insert_ne.
Qed.

(** (C27) Where every setting of an accepted configuration comes from.  Its flag, and no
    other, gives it a first value; where that is the default value, its environment
    variable decides if it is not empty (a switch is on if either says so); from the value
    follow the log level, the host name that is shown and the trimmed domains.  So a flag
    that is given explicitly with the default value does not take precedence.  The
    variables for /env are those with the prefix, and the trusted proxies are dropped. *)
Theorem settings_resolved args c :
  loadConfig env environ host args = Ok c →
  (∃ c0, Parse flags args (declare_flags flags zero_config) = Ok c0 ∧
    ∀ s, s ∈ settings env host → set_by_flag s ∧ s_rule s (s_raw s c0) = Some (s_final s c)) ∧
  (∀ k, default ∅ (Env c) !! k = last (exposed k)) ∧ rawTrustedProxies c = "".
Proof.
  rewrite loadConfig_stages.
  intros (c0 & E0 & (c1 & E1 & [= <-])%outcome_bind_Ok)%outcome_bind_Ok.
  destruct (Parse_untouched args c0 E0) as (Ep & Hu & He). split; [|split].
  - exists c0. split; [done|]. intros s Hs. split; [by apply settings_flags|].
    rewrite (finish_keeps (s_final s)) by (by apply settings_finish). by apply (stages_read s Hs c0 c1).
  - intros k. rewrite addEnvs_Env. change (Env (resetRaw c1)) with (Env c1).
    assert (Env c1 = None) as ->.
    { rewrite <- He. revert E1. apply (run_stages_keeps Env). unfold stages. keep_all. }
    cbn. rewrite lookup_empty. by destruct (last _).
  - by rewrite !addEnvs_keep.
Qed.

(** ** Accepted configurations *)

Definition prefix_ok (p : string) : Prop :=
  p = "" ∨ HasPrefix p "/" = true ∧ HasSuffix p "/" = false.

Record config_ok (c : config) : Prop := {
  ok_prefix : prefix_ok (Prefix c);
  ok_tls : TLSCertFile c = "" ↔ TLSKeyFile c = "";
  ok_format : LogFormat c = "text" ∨ LogFormat c = "json";
  ok_level : LogLevel c ∈ [-4; 0; 4; 8; logLevelOff];
  ok_domains : Forall (λ d, d ≠ "" ∧ ∃ x, d = TrimSpace x) (AllowedRedirectDomains c);
  ok_env : ∀ m k, Env c = Some m → is_Some (m !! k) → HasPrefix k defaultEnvPrefix = true;
  ok_raw : rawAllowedRedirectDomains c = "" ∧ rawLogLevel c = "" ∧ rawUseRealHostname c = false ∧
           rawTrustedProxies c = "";
}.

Lemma stage_establishes {A} (get : config → A) (P : A → Prop) l f l' c c' :
  stages env host = l ++ f :: l' → (∀ c c', f c = Ok c' → P (get c')) → Forall (keeps get) l' →
  run_stages (stages env host) c = Ok c' → P (get c').
Proof.
  intros -> Hf Hl'. rewrite run_stages_app.
  intros (c1 & _ & (c2 & E2 & E3)%outcome_bind_Ok)%outcome_bind_Ok.
  rewrite (run_stages_keeps get l' Hl' _ _ E3). by eapply Hf.
Qed.

Ltac established i :=
  eapply (stage_establishes _ _ (take i (stages env host)) _ (drop (S i) (stages env host)));
  [reflexivity| |keep_all|eassumption].

Lemma stages_prefix c c' : run_stages (stages env host) c = Ok c' → prefix_ok (Prefix c').
Proof.
  intros E. established 1%nat. clear. intros c c'. unfold checkPrefix, prefix_ok, nonempty.
  destruct (String.eqb_spec (Prefix c) "") as [Hp|Hp]; cbn [negb]; [intros [= <-]; by left|].
  destruct (HasPrefix _ _) eqn:E1; cbn [negb]; [|done]. destruct (HasSuffix _ _) eqn:E2; [done|].
  intros [= <-]. by right.
Qed.

Lemma stages_tls c c' :
  run_stages (stages env host) c = Ok c' → TLSCertFile c' = "" ↔ TLSKeyFile c' = "".
Proof.
  intros E. apply (stage_establishes (λ c, (TLSCertFile c, TLSKeyFile c))
    (λ p, p.1 = "" ↔ p.2 = "") (take 3 (stages env host)) (loadTLS env) (drop 4 (stages env host)) c c');
    [reflexivity| |keep_all|exact E].
  clear. intros c c'. unfold loadTLS.
  intros (c1 & _ & (c2 & _ & E)%outcome_bind_Ok)%outcome_bind_Ok. revert E. unfold nonempty.
  destruct (String.eqb_spec (TLSCertFile c2) ""), (String.eqb_spec (TLSKeyFile c2) "");
    cbn [negb orb andb]; intros [= <-]; done.
Qed.

Lemma parseLogLevel_range s l : parseLogLevel s = Ok l → l ∈ [-4; 0; 4; 8; logLevelOff].
Proof. unfold parseLogLevel. cbv zeta. repeat case_match; intros [= <-]; set_solver. Qed.

Lemma stages_log c c' :
  run_stages (stages env host) c = Ok c' →
  (LogFormat c' = "text" ∨ LogFormat c' = "json") ∧ LogLevel c' ∈ [-4; 0; 4; 8; logLevelOff].
Proof.
  intros E. apply (stage_establishes (λ c, (LogFormat c, LogLevel c))
    (λ p, (p.1 = "text" ∨ p.1 = "json") ∧ p.2 ∈ [-4; 0; 4; 8; logLevelOff])
    (take 4 (stages env host)) (loadLog env) (drop 5 (stages env host)) c c');
    [reflexivity| |keep_all|exact E].
  clear. intros c c'. unfold loadLog. intros (c1 & _ & E)%outcome_bind_Ok. revert E.
  destruct (negb _ && negb _) eqn:Ef; [done|]. intros (c2 & E2 & E)%outcome_bind_Ok.
  assert (LogFormat c2 = LogFormat c1) as Hf.
  { refine (keeps_textFromEnv LogFormat env "LOG_LEVEL" (λ c, String.eqb (rawLogLevel c) defaultLogLevel)
      (λ v c, c <| rawLogLevel := v |>) _ c1 c2 E2). done. }
  destruct (parseLogLevel _) as [l| |] eqn:El; [|done..]. injection E as <-. split.
  - change (LogFormat c2 = "text" ∨ LogFormat c2 = "json"). rewrite Hf.
    apply andb_false_iff in Ef as [Ef|Ef]; apply negb_false_iff, String.eqb_eq in Ef; auto.
  - change (l ∈ [-4; 0; 4; 8; logLevelOff]). by eapply parseLogLevel_range.
Qed.

Lemma splitDomains_ok raw : Forall (λ d, d ≠ "" ∧ ∃ x, d = TrimSpace x) (splitDomains raw).
Proof.
  apply Forall_forall. intros d. unfold splitDomains. rewrite list_elem_of_filter.
  intros [Hd (x & -> & _)%list_elem_of_fmap]. split; [done|by exists x].
Qed.

Lemma stages_domains c c' :
  AllowedRedirectDomains c = [] → run_stages (stages env host) c = Ok c' →
  Forall (λ d, d ≠ "" ∧ ∃ x, d = TrimSpace x) (AllowedRedirectDomains c').
Proof.
  intros Hd E. change (stages env host) with (take 6 (stages env host) ++ drop 6 (stages env host)) in E.
  rewrite run_stages_app in E. apply outcome_bind_Ok in E as (c1 & E1 & E2).
  assert (AllowedRedirectDomains c1 = []) as H1.
  { rewrite <- Hd. revert E1. apply (run_stages_keeps AllowedRedirectDomains). keep_all. }
  cbn [drop stages run_stages] in E2. apply outcome_bind_Ok in E2 as (c2 & E2 & E3).
  assert (AllowedRedirectDomains c' = AllowedRedirectDomains c2) as ->.
  { revert E3. apply (run_stages_keeps AllowedRedirectDomains
      [loadServer env; loadRateLimit env; loadRest env]). keep_all. }
  revert E2. unfold loadDomains. intros (c3 & E3' & [= <-])%outcome_bind_Ok.
  assert (AllowedRedirectDomains c3 = AllowedRedirectDomains c1) as H3.
  { refine (keeps_textFromEnv AllowedRedirectDomains env "ALLOWED_REDIRECT_DOMAINS"
      (λ c, String.eqb (rawAllowedRedirectDomains c) "") (λ v c, c <| rawAllowedRedirectDomains := v |>)
      _ c1 c3 E3'). done. }
  cbn. rewrite H3, H1. apply splitDomains_ok.
Qed.

Lemma addEnv_ok c :
  Env c = None →
  ∀ m k, Env (foldl (λ c v, addEnv v c) c environ) = Some m → is_Some (m !! k) →
    HasPrefix k defaultEnvPrefix = true.
Proof.
  intros Hc. assert (∀ m k, Env c = Some m → is_Some (m !! k) → HasPrefix k defaultEnvPrefix = true) as Hi
    by (intros ??; congruence).
  clear Hc. revert c Hi. induction environ as [|v l IH]; intros c Hi; [exact Hi|]. cbn [foldl].
  apply IH. unfold addEnv. destruct (Cut _ v) as [[name value] ?].
  destruct (HasPrefix name _) eqn:En; [|exact Hi]. cbn. intros m k [= <-].
  destruct (decide (name = k)) as [->|Hk]; [done|]. rewrite lookup_insert_ne by done.
  destruct (Env c) as [m'|] eqn:Ec; cbn; [by apply (Hi m')|]. rewrite lookup_empty. by intros [].
Qed.

(** The raw values are gone from the configuration. *)
Lemma loadConfig_raw args c :
  loadConfig env environ host args = Ok c →
  rawAllowedRedirectDomains c = "" ∧ rawLogLevel c = "" ∧ rawUseRealHostname c = false ∧ rawTrustedProxies c = "".
Proof.
  rewrite loadConfig_stages. intros (c0 & _ & (c1 & _ & [= <-])%outcome_bind_Ok)%outcome_bind_Ok.
  by rewrite !addEnvs_keep.
Qed.

(** (C28) Every configuration that is accepted is well-formed: the prefix is empty or
    starts with a slash and does not end with one, certificate and key come together, the
    log format and level are known, the allowed domains are trimmed and not empty, the
    variables for /env carry their prefix, and the temporary fields are reset. *)
Theorem loadConfig_ok args c : loadConfig env environ host args = Ok c → config_ok c.
Proof.
  rewrite loadConfig_stages.
  intros (c0 & E0 & (c1 & E1 & [= <-])%outcome_bind_Ok)%outcome_bind_Ok.
  destruct (Parse_untouched args c0 E0) as (Ep & [= _ Ed] & Ee).
  assert (Env c1 = None) as Ev.
  { rewrite <- Ee. revert E1. apply (run_stages_keeps Env). unfold stages. keep_all. }
  pose proof (stages_log _ _ E1) as [Hf Hl].
  split; rewrite ?finish_keeps by done; [by eapply stages_prefix|by eapply stages_tls|done|done| | |].
  - by eapply stages_domains.
  - by apply addEnv_ok.
  - by rewrite !addEnvs_keep.
Qed.
End Settings.

#[local] Existing Instance ascii_std.

Definition sample_env : string → string := λ n,
  if String.eqb n "PORT" then "9999" else if String.eqb n "PREFIX" then "/base" else "".

Definition sample_config : config :=
  Eval vm_compute in
    match loadConfig sample_env ["HTTPBIN_ENV_A=1=2"; "PATH=/bin"] (Ok "h") ["--port=8080"; "-max-duration"; "3m"] with
    | Ok c => c | _ => zero_config end.

Lemma sample_config_ok :
  loadConfig sample_env ["HTTPBIN_ENV_A=1=2"; "PATH=/bin"] (Ok "h") ["--port=8080"; "-max-duration"; "3m"]
  = Ok sample_config.
Proof. vm_compute. reflexivity. Qed.

Lemma loadConfig_ok_witness :
  loadConfig sample_env ["HTTPBIN_ENV_A=1=2"; "PATH=/bin"] (Ok "h") ["--port=8080"; "-max-duration"; "3m"]
  = Ok sample_config ∧ config_ok sample_config.
Proof.
  split; [exact sample_config_ok|].
  exact (loadConfig_ok sample_env ["HTTPBIN_ENV_A=1=2"; "PATH=/bin"] (Ok "h")
    ["--port=8080"; "-max-duration"; "3m"] sample_config sample_config_ok).
Defined.

(** The flag gives the default port, so that the variable decides it. *)
Lemma settings_resolved_witness :
  ListenPort sample_config = 9999 ∧ LogLevel sample_config = 0 ∧
  default ∅ (Env sample_config) !! "HTTPBIN_ENV_A" = Some "1=2" ∧
  ∃ c0, ListenPort c0 = 8080 ∧
    or_env sample_env "PORT" (Z.eqb 8080) (value_of Atoi) (ListenPort c0) = Some (ListenPort sample_config).
Proof.
  split; [reflexivity|]. split; [reflexivity|].
  destruct (settings_resolved sample_env ["HTTPBIN_ENV_A=1=2"; "PATH=/bin"] (Ok "h")
    ["--port=8080"; "-max-duration"; "3m"] sample_config sample_config_ok) as ((c0 & E & Hs) & Hv & _).
  split; [rewrite Hv; vm_compute; reflexivity|]. exists c0.
  split; [vm_compute in E; injection E as <-; reflexivity|].
  apply (Hs (number sample_env ListenPort "port" "PORT" 8080)). do 5 right. left.
Defined.
