(* ===== verification/Middleware.v ===== *)
(** * Middleware: what surrounds the router

    Models [middleware.go], the rate limiting middleware of [ratelimit.go] and the
    composition of [Handler] in [httpbin.go].  The middlewares that need the
    request and the response only are functions on handlers; those that keep a
    state of the server (the limiter, the semaphore of concurrent requests, what the
    observer has been told) are functions on computations over [Server]. *)

From S2P Require Import Prelude GoStrings GoNum GoFloat GoTime GoFmt Json GoURL GoNet.
From S2P Require Import RateLimit Http Delay ClientIP Bin.

(** ** Middlewares of the request *)

Section Request.
Context `{GoStd}.

Definition preflight (h : HandlerFunc) : HandlerFunc :=
  r ← get_req;
  let origin := Header_Get "Origin" (RHeader r) in
  let origin := if nonempty origin then origin else "*" in
  _ ← SetHeader "Access-Control-Allow-Origin" origin;
  _ ← SetHeader "Access-Control-Allow-Credentials" "true";
  if String.eqb (Method r) "OPTIONS" then
    _ ← SetHeader "Access-Control-Allow-Methods" "GET, POST, HEAD, PUT, DELETE, PATCH, OPTIONS";
    _ ← SetHeader "Access-Control-Max-Age" "3600";
    let requested := Header_Get "Access-Control-Request-Headers" (RHeader r) in
    _ ← (if nonempty requested then SetHeader "Access-Control-Allow-Headers" requested
         else mret tt);
    WriteHeader 200
  else h.

(** [http.MaxBytesReader(w, r.Body, n)]: at most [n] bytes, then an error. *)
Definition tooLarge : gerror := New "http: request body too large".
Definition MaxBytesReader (n : Z) (r : Request) : Request :=
  let n := Z.max 0 n in
  if slen (Body r) <=? n then r
  else set_Body (String.substring 0 (Z.to_nat n) (Body r)) (Some tooLarge) r.

Definition limitRequestSize (maxSize : Z) (h : HandlerFunc) : HandlerFunc :=
  _ ← modify_req (MaxBytesReader maxSize);
  h.

Definition autohead (h : HandlerFunc) : HandlerFunc :=
  r ← get_req;
  if String.eqb (Method r) "HEAD" then with_writer (λ w, HeadRW w 0 0) h else h.

Definition responseDelay (maxDuration : Z) (h : HandlerFunc) : HandlerFunc :=
  r ← get_req;
  let v := Values_Get "response_delay" (Query (URL r)) in
  if nonempty v then
    try_ (lift (parseBoundedDuration v 0 maxDuration)) (λ e, writeError 400 (Some e)) (λ delay,
      if 0 <? delay then
        elapsed ← Sleep delay;
        if (elapsed : bool) then h else mret tt
      else h)
  else h.

(** [http.NotFound] *)
Definition NotFound : HandlerFunc := http_Error "404 page not found" 404.

(** The request that [http.StripPrefix] passes on, when the prefix is there. *)
Definition strippedURL (prefix : string) (u : Url) : option Url :=
  let p := TrimPrefix (Path u) prefix in
  let rp := TrimPrefix (RawPath u) prefix in
  if (slen p <? slen (Path u)) && (String.eqb (RawPath u) "" || (slen rp <? slen (RawPath u)))
  then Some (MkUrl (Scheme u) (Opaque u) (User u) (UHost u) p rp (ForceQuery u) (RawQuery u)
               (Fragment u) (RawFragment u) (OmitHost u))
  else None.
End Request.

(** ** The state of the server *)

Record Result := MkResult {
  R_Status : Z;
  R_Method : string;
  R_URI : string;
  R_Size : Z;
  R_Duration : Z;
  R_UserAgent : string;
  R_ClientIP : string;
}.

Record Server := MkServer {
  world : World;                 (* the request being served *)
  limiter : ipRateLimiter;
  slots : Z;                     (* values in the channel [sem] *)
  results : list Result;         (* what the observer has been told *)
}.

Definition set_world (w : World) (s : Server) : Server :=
  MkServer w (limiter s) (slots s) (results s).
Definition set_limiter (l : ipRateLimiter) (s : Server) : Server :=
  MkServer (world s) l (slots s) (results s).
Definition set_slots (n : Z) (s : Server) : Server :=
  MkServer (world s) (limiter s) n (results s).
Definition tell (r : Result) (s : Server) : Server :=
  MkServer (world s) (limiter s) (slots s) (results s ++ [r]).

Abbreviation SM := (GoM Server gerror).

Definition on_world {A} (m : M A) : SM A := λ s,
  let '(o, w) := m (world s) in (o, set_world w s).

(** [limiter.allow(key)] at the present instant, for some order of iteration. *)
Definition limiter_allow (key : string) : SM bool := λ s,
  let order := iteration_order (rnd (world s) (rndi (world s))) (buckets (limiter s)) in
  let '(ok, l) := allow order key (now (world s)) (limiter s) in
  (Ok ok, set_limiter l s).

(** ** Middlewares of the server *)

Section Server.
Context `{GoStd}.

(** [select] on sending to the channel [sem] of capacity [n], and receiving. *)
Definition acquire (n slots : Z) : option Z := if slots <? n then Some (slots + 1) else None.
Definition release (slots : Z) : Z := slots - 1.

Definition maxConcurrent (n : Z) (h : SM unit) : SM unit := λ s,
  match acquire n (slots s) with
  | Some k =>
      let '(o, s') := h (set_slots k s) in
      (o, set_slots (release (slots s')) s')    (* deferred: also after a panic *)
  | None => on_world (writeError 503 None) s
  end.

Definition rateLimitMiddleware (clientIPFunc : Request → string) (useSubnets : bool)
    (h : SM unit) : SM unit :=
  r ← on_world get_req;
  let clientIP := clientIPFunc r in
  let key := normalizeIPForRateLimit clientIP useSubnets in
  ok ← limiter_allow key;
  if negb ok then
    _ ← on_world (SetHeader "Retry-After" "1");
    on_world (writeError 429 None)
  else h.

(** [http.StripPrefix]: the inner handler has its own request, with the headers
    of the original. *)
Definition with_request (r : Request) (h : SM unit) : SM unit := λ s,
  let r0 := req (world s) in
  let '(o, s') := h (set_world (set_req r (world s)) s) in
  (o, set_world (set_req (set_RHeader (RHeader (req (world s'))) r0) (world s')) s').

Definition StripPrefix (prefix : string) (h : SM unit) : SM unit :=
  if String.eqb prefix "" then h else
  r ← on_world get_req;
  match strippedURL prefix (URL r) with
  | Some u => with_request (set_URL u r) h
  | None => on_world NotFound
  end.

Definition mw_Status (w : writer) : Z :=
  match w with
  | MetaRW _ st _ | HeadRW _ st _ => if st =? 0 then 200 else st
  | _ => 200
  end.
Definition mw_Size (w : writer) : Z :=
  match w with MetaRW _ _ n | HeadRW _ _ n => n | _ => 0 end.

(** What the observer is told of a request that started at [t]. *)
Definition observation (clientIPFunc : Request → string) (t : Z) (w : World) : Result :=
  let r := req w in
  MkResult (mw_Status (wr w)) (Method r) (RequestURI (URL r)) (mw_Size (wr w))
    (time_Sub (now w) t) (Header_Get "User-Agent" (RHeader r)) (clientIPFunc r).

Definition unwrapped (w : World) : World := set_wr (unwrap (wr w)) w.

(** A panic of the inner handler passes through: nothing is observed. *)
Definition observe (clientIPFunc : Request → string) (h : SM unit) : SM unit := λ s,
  let t := now (world s) in
  match h (set_world (set_wr (MetaRW (wr (world s)) 0 0) (world s)) s) with
  | (Ok _, s') => (Ok tt, tell (observation clientIPFunc t (world s')) (set_world (unwrapped (world s')) s'))
  | (o, s') => (o, set_world (unwrapped (world s')) s')
  end.

(** The middlewares around the router [mux], innermost first. *)
Definition requestHandler (h : HTTPBin) (mux : HandlerFunc) : HandlerFunc :=
  autohead (preflight (responseDelay (MaxDuration h) (limitRequestSize (MaxBodySize h) mux))).

Definition serverHandler (h : HTTPBin) (mux : HandlerFunc) : SM unit :=
  let handler := on_world (requestHandler h mux) in
  let handler := if 0 <? maxConcurrentRequests h
                 then maxConcurrent (maxConcurrentRequests h) handler else handler in
  let handler := if rateLimited h
                 then rateLimitMiddleware (h_getClientIP h) (rateLimitUseSubnets h) handler
                 else handler in
  let handler := if nonempty (prefix h) then StripPrefix (prefix h) handler else handler in
  if Bin.observed h then observe (h_getClientIP h) handler else handler.
End Server.

(** ** The standard observer *)

Inductive Level := LevelInfo | LevelWarn | LevelError.

Definition logLevel (status : Z) : Level :=
  if 500 <=? status then LevelError
  else if (400 <=? status) && (status <? 500) then LevelWarn else LevelInfo.

Definition duration_ms (d : Z) : float64 := fmul (Seconds d) (of_Z 1000).

Definition logMessage (r : Result) : string :=
  Itoa (R_Status r) +:+ " " +:+ R_Method r +:+ " " +:+ R_URI r +:+ " "
    +:+ FormatFixed 1 (duration_ms (R_Duration r)) +:+ "ms".

(** The level, the message and the attributes of a log record. *)
Record LogRecord := MkLogRecord {
  L_level : Level;
  L_message : string;
  L_result : Result;
  L_duration_ms : float64;
}.

Definition StdLogObserver (r : Result) : LogRecord :=
  MkLogRecord (logLevel (R_Status r)) (logMessage r) r (duration_ms (R_Duration r)).
