(* ===== verification/Mix.v ===== *)
(** * Mix: the directives of [/mix]

    Models [mix.go].  [parseMixDirectives] reads the path; [Mix] interprets the
    directives in order, over the state of [mixState]: an error of a later
    directive leaves the headers that earlier ones have set. *)

From S2P Require Import Prelude GoStrings GoNum GoTime Utf8 Base64 GoFmt Json GoURL Http Delay.
From S2P Require Import Bin.

Inductive mixKind := KStatus | KHeader | KDelay | KBody.
#[export] Instance mixKind_eq_dec : EqDecision mixKind.
Proof. solve_decision. Defined.

Record mixDirective := MkMixDirective {
  kind : mixKind;
  value : string;
}.

Definition mixAllowedHeaders : list string :=
  ["retry-after"; "cache-control"; "content-language"; "x-ratelimit-limit";
   "x-ratelimit-remaining"; "x-ratelimit-reset"].

Definition isAllowedMixHeader (name : string) : bool :=
  let lower := ToLower name in
  HasPrefix lower "x-" || bool_decide (lower ∈ mixAllowedHeaders).

Definition mix_kind (key : string) : option mixKind :=
  if String.eqb key "s" then Some KStatus
  else if String.eqb key "h" then Some KHeader
  else if String.eqb key "d" then Some KDelay
  else if String.eqb key "b64" then Some KBody
  else None.

Fixpoint parse_segments (segments : list string) : outcome gerror (list mixDirective) :=
  match segments with
  | [] => Ok []
  | seg :: rest =>
      if String.eqb seg "" then parse_segments rest
      else match Cut "=" seg with
           | (_, _, false) => Err (Errorf "invalid directive %q: must be key=value" [AStr seg])
           | (key, v, true) =>
               match mix_kind key with
               | Some k => ds ← parse_segments rest; Ok (MkMixDirective k v :: ds)
               | None => Err (Errorf "unknown directive %q: must be s, h, d, or b64" [AStr key])
               end
           end
  end.

Definition parseMixDirectives (path : string) : outcome gerror (list mixDirective) :=
  let path := TrimPrefix path "/mix/" in
  let path := TrimPrefix path "/mix" in
  if String.eqb path "" || String.eqb path "/" then Ok []
  else
    let segments := Split "/" (TrimPrefix path "/") in
    if 20 <? Z.of_nat (length segments)
    then Err (Errorf "too many directives (max 20, got %d)" [AInt (Z.of_nat (length segments))])
    else parse_segments segments.

Record mixState := MkMixState {
  mix_status : Z;
  mix_body : string;
  totalDelay : Z;
}.

Definition CRLF : string := str1 CR +:+ str1 LF.

Section Mix.
Context `{GoStd} (h : HTTPBin).

Definition decodeMixBody (v : string) : outcome gerror string :=
  match DecodeString URLEncoding v with
  | Ok l => Ok (of_bytes l)
  | _ => match DecodeString StdEncoding v with
         | Ok l => Ok (of_bytes l)
         | _ => Err (CorruptInput StdEncoding v)
         end
  end.

(** One iteration of the loop of [Mix]; the error is the one it answers with. *)
Definition mixStep (st : mixState) (d : mixDirective) : M mixState :=
  match kind d with
  | KStatus =>
      code ← lift (map_err (λ e, Errorf "invalid status in /mix: %w" [AErr e])
                     (parseStatusCode (value d)));
      mret (MkMixState code (mix_body st) (totalDelay st))
  | KHeader =>
      match Cut ":" (value d) with
      | (_, _, false) =>
          throw (Errorf "invalid header directive %q: must be name:value" [AStr (value d)])
      | (name, val, true) =>
          let val := RemoveChars CRLF val in
          let name := RemoveChars CRLF name in
          if negb (isAllowedMixHeader name)
          then throw (Errorf "header %q is not allowed in /mix" [AStr name])
          else _ ← SetHeader name val; mret st
      end
  | KDelay =>
      delay ← lift (map_err (λ e, Errorf "invalid delay in /mix: %w" [AErr e])
                      (parseBoundedDuration (value d) 0 (MaxDuration h)));
      mret (MkMixState (mix_status st) (mix_body st) (wrap64 (totalDelay st + delay)))
  | KBody =>
      body ← lift (map_err (λ e, Errorf "invalid base64 body in /mix: %w" [AErr e])
                     (decodeMixBody (value d)));
      mret (MkMixState (mix_status st) body (totalDelay st))
  end.

Fixpoint mixLoop (st : mixState) (l : list mixDirective) : M mixState :=
  match l with
  | [] => mret st
  | d :: l' => st' ← mixStep st d; mixLoop st' l'
  end.

Definition mixRespond (st : mixState) : M unit :=
  if nonempty (mix_body st)
  then _ ← WriteHeader (mix_status st); Write (mix_body st)
  else WriteHeader (mix_status st).

Definition mixFinish (st : mixState) : M unit :=
  if MaxDuration h <? totalDelay st then
    writeError 400 (Some (Errorf "total delay %s exceeds maximum %s"
      [ADur (totalDelay st); ADur (MaxDuration h)]))
  else if 0 <? totalDelay st then
    elapsed ← Sleep (totalDelay st);
    if (elapsed : bool) then mixRespond st else mret tt
  else mixRespond st.

Definition Mix : HandlerFunc :=
  r ← get_req;
  try_ (directives ← lift (parseMixDirectives (Path (URL r)));
        mixLoop (MkMixState 200 "" 0) directives)
    (λ e, writeError 400 (Some e)) mixFinish.
End Mix.
