(* ===== verification/Pipeline.v ===== *)
(** * Pipeline: composable URLs

    Models [pipeline.go]: the parser of a path into modifiers and a terminal,
    the handler [Pipeline] that validates and applies the modifiers, and the
    dispatch of terminals.  The handlers that the special cases call are the
    interface [PipelineTargets]; the others are found in the table of terminal
    handlers of the [HTTPBin]. *)

From S2P Require Import Prelude GoStrings GoNum GoTime Utf8 Base64 GoFmt Json GoURL Http Delay.
From S2P Require Import ClientIP Bin Mix.

(** ** Definitions of the segments *)

Record terminalDef := MkTerminalDef {
  t_args : Z;                    (* -1: all remaining segments *)
  pathValues : list string;
  methods : list string;
}.

Record pipelineStep := MkStep {
  step_name : string;
  step_args : list string;
}.

Record pipelineResult := MkPipelineResult {
  modifiers : list pipelineStep;
  terminal : pipelineStep;
}.

Fixpoint assoc {A} (k : string) (l : list (string * A)) : option A :=
  match l with
  | [] => None
  | (k', v) :: l' => if String.eqb k k' then Some v else assoc k l'
  end.

(** The number of arguments of a modifier. *)
Definition modifier_table : list (string * nat) :=
  [("delay", 1); ("response_delay", 1); ("status", 1); ("header", 1);
   ("no-cache", 0); ("nocache", 0)]%nat.
Definition pipelineModifierDefs (seg : string) : option nat := assoc seg modifier_table.

Definition plain : terminalDef := MkTerminalDef 0 [] [].
Definition variadic : terminalDef := MkTerminalDef (-1) [] [].
Definition only (l : list string) : terminalDef := MkTerminalDef 0 [] l.
Definition fixed (l : list string) : terminalDef := MkTerminalDef (Z.of_nat (length l)) l [].

Definition terminal_table : list (string * terminalDef) :=
  [("cookies/set", plain); ("cookies/delete", plain); ("encoding/utf8", only ["GET"]);
   ("forms/post", only ["GET"]); ("dump/request", plain);
   ("get", only ["GET"]); ("head", only ["HEAD"]); ("post", only ["POST"]);
   ("put", only ["PUT"]); ("delete", only ["DELETE"]); ("patch", only ["PATCH"]);
   ("status", fixed ["code"]); ("bytes", fixed ["numBytes"]); ("stream", fixed ["numLines"]);
   ("stream-bytes", fixed ["numBytes"]); ("etag", fixed ["etag"]); ("range", fixed ["numBytes"]);
   ("links", variadic); ("cache", variadic); ("base64", variadic);
   ("basic-auth", fixed ["user"; "password"]); ("hidden-basic-auth", fixed ["user"; "password"]);
   ("digest-auth", variadic);
   ("gzip", plain); ("deflate", plain); ("html", plain); ("json", plain); ("xml", plain);
   ("robots.txt", plain); ("deny", plain); ("ip", plain); ("headers", plain);
   ("user-agent", plain); ("uuid", plain); ("hostname", plain); ("bearer", plain);
   ("cookies", plain); ("drip", plain); ("sse", plain); ("unstable", plain);
   ("anything", plain); ("env", plain); ("pdf", plain); ("trailers", plain);
   ("version", plain); ("problem", plain); ("negotiate", plain); ("close", plain);
   ("echo", only ["POST"; "PUT"; "PATCH"]); ("upload", only ["POST"; "PUT"; "PATCH"]);
   ("redirect-to", plain); ("response-headers", plain); ("body", fixed ["data"]);
   ("image", variadic); ("redirect", variadic); ("absolute-redirect", variadic);
   ("relative-redirect", variadic)].
Definition pipelineTerminals (name : string) : option terminalDef := assoc name terminal_table.

Definition is_terminal (name : string) : bool :=
  match pipelineTerminals name with Some _ => true | None => false end.

Definition maxPipelineSegments : nat := 20.

(** ** The parser *)

Definition parse_two (remaining : list string) : option pipelineStep :=
  match remaining with
  | a :: b :: rest =>
      let twoSeg := a +:+ "/" +:+ b in
      if is_terminal twoSeg then Some (MkStep twoSeg rest) else None
  | _ => None
  end.

(** The part of the loop after the modifiers: longest match first. *)
Definition parse_terminal (seg : string) (termArgs : list string)
    : outcome gerror pipelineStep :=
  match parse_two (seg :: termArgs) with
  | Some t => Ok t
  | None =>
      match pipelineTerminals seg with
      | Some def =>
          let n := Z.of_nat (length termArgs) in
          if (0 <=? t_args def) && (n <? t_args def) then
            Err (Errorf "terminal %q requires %d argument(s), got %d"
                   [AStr seg; AInt (t_args def); AInt n])
          else if (0 <=? t_args def) && (t_args def <? n)
          then Ok (MkStep seg (take (Z.to_nat (t_args def)) termArgs))
          else Ok (MkStep seg termArgs)
      | None => Err (Errorf "unknown pipeline segment: %q" [AStr seg])
      end
  end.

(** The loop over the segments.  An iteration consumes at least one of them, so
    their number is enough fuel ([parse_loop_never_panics]). *)
Fixpoint parse_loop (fuel : nat) (mods : list pipelineStep) (remaining : list string)
    : outcome gerror pipelineResult :=
  match remaining with
  | [] => Err (Errorf "pipeline has modifiers but no terminal endpoint" [])
  | seg :: rest =>
      match fuel with
      | O => Panic "out of fuel"
      | S f =>
          let as_terminal := t ← parse_terminal seg rest; Ok (MkPipelineResult mods t) in
          match pipelineModifierDefs seg with
          | Some args =>
              if negb (is_terminal seg) || (args <? length rest)%nat then
                if (0 <? args)%nat then
                  if (length rest <? args)%nat
                  then Err (Errorf "modifier %q requires a value" [AStr seg])
                  else parse_loop f (mods ++ [MkStep seg (take args rest)]) (drop args rest)
                else parse_loop f (mods ++ [MkStep seg []]) rest
              else as_terminal
          | None => as_terminal
          end
      end
  end.

Definition segments_of (urlPath : string) : list string :=
  filter (λ s, nonempty s) (Split "/" (TrimChar "/" (Clean urlPath))).

Definition parsePipeline (urlPath : string) : outcome gerror pipelineResult :=
  let cleaned := TrimChar "/" (Clean urlPath) in
  if String.eqb cleaned "" || String.eqb cleaned "."
  then Err (Errorf "empty pipeline path" [])
  else
    let segments := segments_of urlPath in
    if (length segments =? 0)%nat then Err (Errorf "empty pipeline path" [])
    else if (maxPipelineSegments <? length segments)%nat
    then Err (Errorf "too many segments (max %d, got %d)"
                [AInt (Z.of_nat maxPipelineSegments); AInt (Z.of_nat (length segments))])
    else parse_loop (length segments) [] segments.

(** ** Prefixes *)

Definition step_path (m : pipelineStep) : string :=
  "/" +:+ step_name m +:+ Join "" (map (λ a, "/" +:+ a) (step_args m)).

Definition buildModifierPrefix (mods : list pipelineStep) : string :=
  Join "" (map step_path mods).

(** ** The handler *)

(** The handlers that the special cases of the dispatch call. *)
Class PipelineTargets := {
  ImageAccept : HandlerFunc;
  Image : HandlerFunc;
  doImage : string → HandlerFunc;
  Links : HandlerFunc;
  Cache : HandlerFunc;
  CacheControl : HandlerFunc;
  Base64 : HandlerFunc;
  DigestAuth : HandlerFunc;
}.

Record parsedDelay := MkParsedDelay { d_min : Z; d_max : Z }.

(** The variables that the validation loop fills. *)
Record validated := MkValidated {
  v_totalDelay : Z;
  v_delays : list parsedDelay;
  v_headers : list (string * string);
  v_status : option Z;              (* [statusCode] when [hasStatus] *)
}.

(** [mod.args[0]] *)
Definition arg0 (m : pipelineStep) : M string :=
  match step_args m with
  | a :: _ => mret a
  | [] => panic "runtime error: index out of range [0] with length 0"
  end.

Definition nocacheQuery (r : Request) : Request :=
  set_URL (set_RawQuery (Values_Encode (Values_Set "nocache" "1" (Query (URL r)))) (URL r)) r.

Section Handler.
Context `{GoStd, PipelineTargets} (h : HTTPBin).

Definition validateDelay (m : pipelineStep) (v : validated) : M validated :=
  a ← arg0 m;
  '(minD, maxD) ← lift (map_err (λ e, Errorf "invalid %s duration: %w" [AStr (step_name m); AErr e])
                          (parseDelayRange a (MaxDuration h)));
  mret (MkValidated (wrap64 (v_totalDelay v + maxD)) (v_delays v ++ [MkParsedDelay minD maxD])
          (v_headers v) (v_status v)).

Definition validateHeader (m : pipelineStep) (v : validated) : M validated :=
  a ← arg0 m;
  let '(name, val, found) := Cut ":" a in
  if negb found || String.eqb name ""
  then throw (Errorf "invalid header format %q: expected name:value" [AStr a])
  else if negb (isAllowedMixHeader name)
  then throw (Errorf "header %q is not allowed" [AStr name])
  else if ContainsAny a CRLF
  then throw (Errorf "header value contains invalid characters" [])
  else mret (MkValidated (v_totalDelay v) (v_delays v) (v_headers v ++ [(name, val)])
               (v_status v)).

Definition validateStatus (m : pipelineStep) (v : validated) : M validated :=
  a ← arg0 m;
  code ← lift (map_err (λ e, Errorf "invalid status modifier: %w" [AErr e]) (parseStatusCode a));
  mret (MkValidated (v_totalDelay v) (v_delays v) (v_headers v)
          (match v_status v with Some c => Some c | None => Some code end)).

Definition validateStep (m : pipelineStep) (v : validated) : M validated :=
  if String.eqb (step_name m) "delay" || String.eqb (step_name m) "response_delay"
  then validateDelay m v
  else if String.eqb (step_name m) "header" then validateHeader m v
  else if String.eqb (step_name m) "status" then validateStatus m v
  else if String.eqb (step_name m) "no-cache" || String.eqb (step_name m) "nocache"
  then _ ← modify_req nocacheQuery; mret v
  else mret v.

Fixpoint validateAll (ms : list pipelineStep) (v : validated) : M validated :=
  match ms with
  | [] => mret v
  | m :: ms' => v' ← validateStep m v; validateAll ms' v'
  end.

(** The delay of one range: its lower bound, or a random value up to the upper. *)
Definition drawDelay (d : parsedDelay) : M Z :=
  if d_min d <? d_max d then
    x ← Int63n (wrap64 (d_max d - d_min d + 1));
    mret (wrap64 (d_min d + x))
  else mret (d_min d).

(** The loop that sleeps: the time slept, or [None] when the client has gone. *)
Fixpoint applyDelays (ds : list parsedDelay) (actualDelay : Z) : M (option Z) :=
  match ds with
  | [] => mret (Some actualDelay)
  | d :: ds' =>
      delay ← drawDelay d;
      if 0 <? delay then
        elapsed ← Sleep delay;
        if (elapsed : bool) then applyDelays ds' (wrap64 (actualDelay + delay)) else mret None
      else applyDelays ds' actualDelay
  end.

Fixpoint applyHeaders (hs : list (string * string)) : M unit :=
  match hs with
  | [] => mret tt
  | (n, v) :: hs' => _ ← SetHeader n v; applyHeaders hs'
  end.

Definition invalidArg (format : string) (args : list farg) : M unit :=
  writeError 400 (Some (Errorf format args)).

(** *** Redirects *)

Definition absoluteURL (r : Request) (path : string) : string :=
  Url_String (set_RawQuery "" (set_Path (prefix h +:+ path) (getURL r))).

Definition redirectPath (redirectType : string) (count : Z) (destSegments : list string)
    (modifierPrefix : string) : string :=
  if 1 <? count then
    let head := modifierPrefix +:+ "/" +:+ redirectType +:+ "/" +:+ Itoa (count - 1) in
    if (0 <? length destSegments)%nat then head +:+ "/" +:+ Join "/" destSegments else head
  else if (0 <? length destSegments)%nat
  then modifierPrefix +:+ "/" +:+ Join "/" destSegments
  else modifierPrefix +:+ "/get".

Definition dispatchRedirectTerminal (redirectType : string) (args : list string)
    (modifierPrefix : string) (relative : bool) : M unit :=
  match args with
  | [] => invalidArg "redirect requires a count argument" []
  | arg :: destSegments =>
      match AtoiE arg with
      | Err e => invalidArg "invalid redirect count: %w" [AErr e]
      | Panic w => panic w
      | Ok count =>
          if count <? 1 then invalidArg "redirect count must be > 0" []
          else if 20 <? count then invalidArg "redirect count must be <= 20" []
          else
            let path := redirectPath redirectType count destSegments modifierPrefix in
            r ← get_req;
            doRedirect h (if relative then path else absoluteURL r path) 302
      end
  end.

(** *** Images *)

Definition imageExtToKind (ext : string) : option string :=
  assoc ext [(".png", "png"); (".jpeg", "jpeg"); (".jpg", "jpeg"); (".svg", "svg");
             (".webp", "webp"); (".avif", "avif")].

(** Whether a token takes a value; [None] when the segment is not a token. *)
Definition imagePathTokens (token : string) : option bool :=
  assoc token [("size", true); ("gradient", true); ("color1", true); ("color2", true);
               ("noise", true); ("no-cache", false)].

(** The token consumer: the query with the tokens, and the remaining arguments. *)
Fixpoint consumeTokens (args : list string) (q : values)
    : outcome gerror (values * list string) :=
  match args with
  | [] => Ok (q, [])
  | token :: rest =>
      match imagePathTokens token with
      | None => Ok (q, args)
      | Some true =>
          match rest with
          | [] => Err (Errorf "image token %q requires a value" [AStr token])
          | x :: rest' => consumeTokens rest' (Values_Set token x q)
          end
      | Some false =>
          consumeTokens rest
            (if String.eqb token "no-cache" then Values_Set "nocache" "1" q else q)
      end
  end.

Definition setPath (p : string) : M unit :=
  modify_req (λ r, set_URL (set_Path p (URL r)) r).
Definition setQuery (q : values) : M unit :=
  modify_req (λ r, set_URL (set_RawQuery (Values_Encode q) (URL r)) r).
Definition setPathValue (k v : string) : M unit := modify_req (SetPathValue k v).

Definition dispatchImageByKind (q : values) (kind : string) : M unit :=
  if nonempty (Values_Get "size" q) || nonempty (Values_Get "gradient" q)
     || nonempty (Values_Get "color1" q)
  then Image else doImage kind.

Definition imageAs (q : values) (kind : string) : M unit :=
  _ ← setPathValue "kind" kind;
  _ ← setPath ("/image/" +:+ kind);
  dispatchImageByKind q kind.

Definition dispatchImageTerminal (args : list string) : M unit :=
  match args with
  | [] => _ ← setPath "/image"; ImageAccept
  | _ =>
      r ← get_req;
      try_ (lift (consumeTokens args (Query (URL r)))) (λ e, writeError 400 (Some e))
        (λ '(q, remaining),
          _ ← setQuery q;
          match remaining with
          | [] => _ ← setPath "/image"; ImageAccept
          | x :: more =>
              let ext := ToLower (Ext x) in
              if nonempty ext then
                match imageExtToKind ext with
                | None => invalidArg "unsupported image extension: %s" [AStr ext]
                | Some kind => imageAs q kind
                end
              else if bool_decide (x ∈ ["png"; "jpeg"; "svg"; "webp"; "avif"]) then
                match more with
                | _ :: _ => writeError 404 None
                | [] => imageAs q x
                end
              else invalidArg "unknown image parameter: %s" [AStr x]
          end)
  end.

(** *** The other special cases *)

Definition dispatchLinksTerminal (args : list string) : M unit :=
  match args with
  | [] => invalidArg "links requires at least 1 argument" []
  | n :: rest =>
      let offset := hd "0" rest in
      _ ← setPathValue "numLinks" n;
      _ ← setPathValue "offset" offset;
      _ ← setPath ("/links/" +:+ n +:+ "/" +:+ offset);
      Links
  end.

Definition dispatchCacheTerminal (args : list string) : M unit :=
  match args with
  | [] => _ ← setPath "/cache"; Cache
  | n :: _ =>
      _ ← setPathValue "numSeconds" n;
      _ ← setPath ("/cache/" +:+ n);
      CacheControl
  end.

Definition dispatchBase64Terminal (args : list string) : M unit :=
  match args with
  | [] => invalidArg "base64 requires at least 1 argument" []
  | [data] =>
      _ ← setPathValue "data" data;
      _ ← setPath ("/base64/" +:+ data);
      Base64
  | op :: data :: _ =>
      _ ← setPathValue "operation" op;
      _ ← setPathValue "data" data;
      _ ← setPath ("/base64/" +:+ op +:+ "/" +:+ data);
      Base64
  end.

Definition dispatchDigestAuthTerminal (args : list string) : M unit :=
  match args with
  | qop :: user :: password :: more =>
      _ ← setPathValue "qop" qop;
      _ ← setPathValue "user" user;
      _ ← setPathValue "password" password;
      _ ← match more with
          | algorithm :: _ =>
              _ ← setPathValue "algorithm" algorithm;
              setPath ("/digest-auth/" +:+ Join "/" (take 4 args))
          | [] => setPath ("/digest-auth/" +:+ Join "/" (take 3 args))
          end;
      DigestAuth
  | _ => invalidArg "digest-auth requires at least 3 arguments: qop, user, password" []
  end.

(** [decodeBase64Flexible]: four alphabets in order, the last one's error. *)
Definition decodeBase64Flexible (data : string) : outcome gerror string :=
  match DecodeString URLEncoding data with
  | Ok l => Ok (of_bytes l)
  | _ =>
  match DecodeString RawURLEncoding data with
  | Ok l => Ok (of_bytes l)
  | _ =>
  match DecodeString StdEncoding data with
  | Ok l => Ok (of_bytes l)
  | _ =>
  match DecodeString RawStdEncoding data with
  | Ok l => Ok (of_bytes l)
  | _ => Err (CorruptInput RawStdEncoding data)
  end end end end.

Definition dispatchBodyTerminal (args : list string) : M unit :=
  match args with
  | [] => invalidArg "body terminal requires a base64-encoded argument" []
  | a :: _ =>
      match decodeBase64Flexible a with
      | Err e => invalidArg "invalid base64 data: %w" [AErr e]
      | Panic w => panic w
      | Ok decoded =>
          _ ← SetHeader "Content-Type" textContentType;
          Write decoded
      end
  end.

(** *** Dispatch *)

Fixpoint setPathValues (names args : list string) : M unit :=
  match names, args with
  | n :: names', a :: args' => _ ← setPathValue n a; setPathValues names' args'
  | _, _ => mret tt
  end.

Definition dispatchTerminal (def : terminalDef) (t : pipelineStep) (modifierPrefix : string)
    : M unit :=
  _ ← setPathValues (pathValues def) (step_args t);
  let args := step_args t in
  if String.eqb (step_name t) "image" then dispatchImageTerminal args
  else if String.eqb (step_name t) "redirect"
  then dispatchRedirectTerminal "redirect" args modifierPrefix true
  else if String.eqb (step_name t) "absolute-redirect"
  then dispatchRedirectTerminal "absolute-redirect" args modifierPrefix false
  else if String.eqb (step_name t) "relative-redirect"
  then dispatchRedirectTerminal "relative-redirect" args modifierPrefix true
  else if String.eqb (step_name t) "links" then dispatchLinksTerminal args
  else if String.eqb (step_name t) "cache" then dispatchCacheTerminal args
  else if String.eqb (step_name t) "base64" then dispatchBase64Terminal args
  else if String.eqb (step_name t) "digest-auth" then dispatchDigestAuthTerminal args
  else if String.eqb (step_name t) "body" then dispatchBodyTerminal args
  else
    _ ← setPath (step_path t);
    match terminalHandlers h !! step_name t with
    | Some handler => handler
    | None => invalidArg "unknown terminal: %s" [AStr (step_name t)]
    end.

Definition no_methods : terminalDef := MkTerminalDef 0 [] [].

(** The part after the delays: headers, status override, method check, dispatch. *)
Definition respond (v : validated) (result : pipelineResult) (actualDelay : Z) : M unit :=
  _ ← (if 0 <? actualDelay then
         SetHeader "Server-Timing" (encodeServerTimings
           [MkServerTiming "pipeline_delay" actualDelay "pipeline delay"])
       else mret tt);
  _ ← applyHeaders (v_headers v);
  r ← get_req;
  let t := terminal result in
  let def := default no_methods (pipelineTerminals (step_name t)) in
  if (0 <? length (methods def))%nat && negb (bool_decide (Method r ∈ methods def)) then
    writeError 405 (Some (Errorf "method %s not allowed for /%s"
      [AStr (Method r); AStr (step_name t)]))
  else
    let dispatch := dispatchTerminal def t (buildModifierPrefix (modifiers result)) in
    match v_status v with
    | Some code => with_writer (λ w, OverrideRW w code false) dispatch
    | None => dispatch
    end.

Definition Pipeline : HandlerFunc :=
  r ← get_req;
  try_ (lift (parsePipeline (Path (URL r)))) (λ e, writeError 400 (Some e)) (λ result,
  try_ (validateAll (modifiers result) (MkValidated 0 [] [] None))
    (λ e, writeError 400 (Some e)) (λ v,
  if MaxDuration h <? v_totalDelay v then
    writeError 400 (Some (Errorf "total delay %s exceeds maximum %s"
      [ADur (v_totalDelay v); ADur (MaxDuration h)]))
  else
    slept ← applyDelays (v_delays v) 0;
    match slept with
    | None => mret tt
    | Some actualDelay => respond v result actualDelay
    end)).
End Handler.
