(* ===== verification/Responses.v ===== *)
(** * Responses: the JSON of the structs of [responses.go]

    Fields in the order of the struct, under the names of their tags; a field marked
    [omitempty] is left out when it has its zero value. *)

From S2P Require Import Prelude GoStrings Json.

Definition jstrings (l : list string) : json := JArr (map JStr l).
Definition jvalues (m : gmap string (list string)) : json := json_map jstrings m.

Definition omit_string (key v : string) : list (string * json) := if nonempty v then [(key, JStr v)] else [].
Definition omit_bool (key : string) (v : bool) : list (string * json) := if v then [(key, JBool true)] else [].

(** A nil map is [null]. *)
Definition envResponse (Env : option (gmap string string)) : json :=
  JObj [("env", match Env with Some m => json_map JStr m | None => JNull end)].

Definition headersResponse (Headers : gmap string (list string)) : json := JObj [("headers", jvalues Headers)].

Definition ipResponse (Origin : string) : json := JObj [("origin", JStr Origin)].

Definition userAgentResponse (UserAgent : string) : json := JObj [("user-agent", JStr UserAgent)].

Definition noBodyFields (Args Headers : gmap string (list string)) (Method Origin URL : string)
    (Deflated Gzipped : bool) : list (string * json) :=
  [("args", jvalues Args); ("headers", jvalues Headers); ("method", JStr Method); ("origin", JStr Origin);
   ("url", JStr URL)]
  ++ omit_bool "deflated" Deflated ++ omit_bool "gzipped" Gzipped.

(** The embedded struct comes first. *)
Definition discardedBodyResponse (embedded : list (string * json)) (BytesReceived : Z) : json :=
  JObj (embedded ++ [("bytes_received", JInt BytesReceived)]).

Definition cookiesResponse (Cookies : gmap string string) : json := JObj [("cookies", json_map JStr Cookies)].

Definition authResponse (authorized : bool) (user : string) : json :=
  JObj [("authenticated", JBool authorized); ("user", JStr user); ("authorized", JBool authorized)].

(** The fields but the first, and a line of a stream. *)
Definition streamFields (Args Headers : gmap string (list string)) (Origin URL : string) : list (string * json) :=
  [("args", jvalues Args); ("headers", jvalues Headers); ("origin", JStr Origin); ("url", JStr URL)].
Definition streamResponse (ID : Z) (fields : list (string * json)) : json := JObj (("id", JInt ID) :: fields).

Definition uuidResponse (UUID : string) : json := JObj [("uuid", JStr UUID)].

Definition bearerResponse (Authenticated : bool) (Token : string) : json :=
  JObj [("authenticated", JBool Authenticated); ("token", JStr Token)].

Definition hostnameResponse (Hostname : string) : json := JObj [("hostname", JStr Hostname)].

Definition serverSentEvent (ID Timestamp : Z) : json := JObj [("id", JInt ID); ("timestamp", JInt Timestamp)].

Definition versionResponse (Version GoVersion : string) : json :=
  JObj [("version", JStr Version); ("go_version", JStr GoVersion)].

Definition problemContentType : string := "application/problem+json; charset=utf-8".

Definition problemDetailResponse (Type_ Title : string) (Status : Z) (Detail Instance_ : string) : json :=
  JObj ([("type", JStr Type_); ("title", JStr Title); ("status", JInt Status)]
        ++ omit_string "detail" Detail ++ omit_string "instance" Instance_).
