(* ===== verification/Handlers.v ===== *)
(** * Handlers: the endpoints that answer at once

    The handlers of [handlers.go] that inspect the request, choose a status,
    redirect or authenticate, with the response types of [responses.go].  What the
    run-time system provides (embedded files, hash functions, the formatting of
    dates, the seeded random source) is the class [Runtime]. *)

From S2P Require Import Prelude GoStrings GoNum GoFloat GoTime Utf8 Base64 GoFmt Json GoURL GoNet.
From S2P Require Import GoMime Http Responses Delay ClientIP Bin Pipeline.

Class Runtime := {
  embedded : string → option string;          (* [staticAssets.ReadFile] *)
  GoVersion : string;                         (* [runtime.Version()] *)
  formatRFC1123 : Z → string;                 (* [time.Time.Format(time.RFC1123)] *)
  formatTime : Z → string;                    (* [time.Time.String] *)
  sha1_Sum : list byte → list byte;
  source : Z → nat → Z;                       (* the values of [rand.NewSource(seed)] *)
  pdqsort : list float64 → list nat;          (* the order of more than twelve falling values *)
}.

(** [range m] over a map: some order of its keys. *)
Definition range_keys {A} (m : gmap string A) : M (list string) := λ s,
  (Ok (iteration_order (rnd s (rndi s)) m),
   MkWorld (req s) (wr s) (now s) (gone s) (rnd s) (S (rndi s)) (caches s) (link s)).

(** The order of an iteration that is not drawn here. *)
Definition range_order {A} : M (gmap string A → list string) := λ s,
  (Ok (λ m, iteration_order (rnd s (rndi s)) m),
   MkWorld (req s) (wr s) (now s) (gone s) (rnd s) (S (rndi s)) (caches s) (link s)).

(** [rand.Float64()] *)
Definition unit_float (x : Z) : float64 := fdiv (of_Z x) (of_Z (2 ^ 53)).
Definition Float64 : M float64 := x ← Int63n (2 ^ 53); mret (unit_float x).

(** [crypto/rand.Read] of [n] bytes. *)
Fixpoint rand_Read (n : nat) : M (list byte) :=
  match n with
  | O => mret []
  | S n' => x ← Int63n 256; l ← rand_Read n'; mret (Z_byte x :: l)
  end.

Definition time_Now : M Z := λ s, (Ok (now s), s).

Definition staticAsset `{Runtime} (name : string) : option string := embedded (path_Join ["static"; name]).

Section Handlers.
Context `{GoStd, Runtime} (h : HTTPBin).

Definition notImplementedHandler : HandlerFunc := writeError 501 None.

(** [mustStaticAsset] panics when the file is not embedded. *)
Definition mustStaticAsset (name : string) : M string :=
  match staticAsset name with
  | Some b => mret b
  | None => panic ("open static/" +:+ name +:+ ": file does not exist")
  end.

Definition Index : HandlerFunc :=
  r ← get_req;
  if negb (String.eqb (Path (URL r)) "/") then writeError 404 None
  else
    _ ← SetHeader "Content-Security-Policy"
          "default-src 'self'; style-src 'self' 'unsafe-inline'; img-src 'self' camo.githubusercontent.com";
    writeHTML (indexHTML h) 200.

Definition Env : HandlerFunc :=
  writeJSON 200 (envResponse (env h)).
Definition FormsPost : HandlerFunc := writeHTML (formsPostHTML h) 200.
Definition UTF8 : HandlerFunc := b ← mustStaticAsset "utf8.html"; writeHTML b 200.

(** ** Inspection of the request *)

(** The headers of the request, in which Host and Transfer-Encoding are set. *)
Definition getRequestHeaders (fn : option (headers → headers)) : M headers :=
  _ ← modify_req (λ r, set_RHeader (Header_Set "Host" (Host r) (RHeader r)) r);
  _ ← modify_req (λ r,
        if (0 <? length (TransferEncoding r))%nat
        then set_RHeader (Header_Set "Transfer-Encoding" (Join "," (TransferEncoding r)) (RHeader r)) r
        else r);
  r ← get_req;
  mret (match fn with Some f => f (RHeader r) | None => RHeader r end).

(** The fields of [noBodyResponse]. *)
Definition noBodyResponse : M (list (string * json)) :=
  r ← get_req;
  hs ← getRequestHeaders (excludeHeadersProcessor h);
  r' ← get_req;
  mret (noBodyFields (Query (URL r)) hs (Method r') (h_getClientIP h r') (Url_String (getURL r')) false false).

Definition Get : HandlerFunc := fs ← noBodyResponse; writeJSON 200 (JObj fs).

Definition RequestWithBodyDiscard : HandlerFunc :=
  fs ← noBodyResponse;
  r ← get_req;
  match BodyEnd r with
  | Some e => writeError 500 (Some e)
  | None => writeJSON 200 (discardedBodyResponse fs (slen (Body r)))
  end.

Definition IP : HandlerFunc :=
  r ← get_req; writeJSON 200 (ipResponse (h_getClientIP h r)).
Definition UserAgent : HandlerFunc :=
  r ← get_req; writeJSON 200 (userAgentResponse (Header_Get "User-Agent" (RHeader r))).
Definition Headers : HandlerFunc :=
  hs ← getRequestHeaders (excludeHeadersProcessor h);
  writeJSON 200 (headersResponse hs).

(** ** Status codes *)

Definition case (hs : list (string * string)) (b : option string) : option statusCase :=
  Some (MkStatusCase hs b).

Definition lines (l : list string) : string := Join (str1 LF) l.
Definition dq : string := DQUOTE.
Definition anchor (href text : string) : string :=
  "<a href=" +:+ dq +:+ href +:+ dq +:+ ">" +:+ text +:+ "</a>".

Definition statusNotAcceptableBody : string := lines
  ["{"; "  " +:+ dq +:+ "message" +:+ dq +:+ ": " +:+ dq
     +:+ "Client did not request a supported media type" +:+ dq +:+ ",";
   "  " +:+ dq +:+ "accept" +:+ dq +:+ ": [";
   "    " +:+ dq +:+ "image/webp" +:+ dq +:+ ","; "    " +:+ dq +:+ "image/svg+xml" +:+ dq +:+ ",";
   "    " +:+ dq +:+ "image/jpeg" +:+ dq +:+ ","; "    " +:+ dq +:+ "image/png" +:+ dq +:+ ",";
   "    " +:+ dq +:+ "image/avif" +:+ dq +:+ ","; "    " +:+ dq +:+ "image/" +:+ dq;
   "  ]"; "}"; ""].

Definition statusHTTP300body (prefix : string) : string := lines
  ["<!doctype html>"; "<head>"; "<title>Multiple Choices</title>"; "</head>"; "<body>"; "<ul>";
   "<li>" +:+ anchor (prefix +:+ "/image/jpeg") "/image/jpeg" +:+ "</li>";
   "<li>" +:+ anchor (prefix +:+ "/image/png") "/image/png" +:+ "</li>";
   "<li>" +:+ anchor (prefix +:+ "/image/svg") "/image/svg" +:+ "</li>"; "</body>"; "</html>"].

Definition statusHTTP308Body (prefix : string) : string := lines
  ["<!doctype html>"; "<head>"; "<title>Permanent Redirect</title>"; "</head>";
   "<body>Permanently redirected to "
     +:+ anchor (prefix +:+ "/image/jpeg") (prefix +:+ "/image/jpeg"); "</body>"; "</html>"].

Definition fakeRealm : string := "Basic realm=" +:+ dq +:+ "Fake Realm" +:+ dq.

Definition createSpecialCases (prefix : string) (code : Z) : option statusCase :=
  let redirect := case [("Location", prefix +:+ "/redirect/1")] None in
  match code with
  | 300 => case [("Location", prefix +:+ "/image/jpeg")] (Some (statusHTTP300body prefix))
  | 301 | 302 | 303 | 305 | 307 => redirect
  | 308 => case [("Location", prefix +:+ "/image/jpeg")] (Some (statusHTTP308Body prefix))
  | 401 => case [("WWW-Authenticate", fakeRealm)] None
  | 402 => case [("X-More-Info", "http://vimeo.com/22053820")] (Some "Fuck you, pay me!")
  | 406 => case [("Content-Type", jsonContentType)] (Some statusNotAcceptableBody)
  | 407 => case [("Proxy-Authenticate", fakeRealm)] None
  | 418 => case [("X-More-Info", "http://tools.ietf.org/html/rfc2324")] (Some "I'm a teapot!")
  | 429 => case [("Retry-After", "5")] None
  | _ => None
  end.

Fixpoint SetHeaders (hs : list (string * string)) : M unit :=
  match hs with
  | [] => mret tt
  | (k, v) :: hs' => _ ← SetHeader k v; SetHeaders hs'
  end.

Definition doStatus (code : Z) : HandlerFunc :=
  _ ← SetHeader "Content-Type" textContentType;
  match statusSpecialCases h code with
  | Some sc =>
      _ ← SetHeaders (sc_headers sc);
      _ ← WriteHeader code;
      match sc_body sc with Some b => Write b | None => mret tt end
  | None => WriteHeader code
  end.

(** [parseWeightedChoices] with [strconv.Atoi] as the parser of the choices. *)
Record weightedChoice := MkWeightedChoice { Choice : Z; Weight : float64 }.

Definition parse_choice (choicePair : string) : outcome gerror weightedChoice :=
  let '(rawChoice, rawWeight, found) := Cut ":" choicePair in
  weight ← (if (found : bool) then
              match ParseFloatE rawWeight with
              | Ok w => Ok w
              | _ => Err (Errorf "invalid weight value: %q" [AStr rawWeight])
              end
            else Ok fone);
  match AtoiE rawChoice with
  | Ok choice => Ok (MkWeightedChoice choice weight)
  | _ => Err (Errorf "invalid choice value: %q" [AStr rawChoice])
  end.

Fixpoint parse_choices (l : list string) : outcome gerror (list weightedChoice) :=
  match l with
  | [] => Ok []
  | p :: l' => c ← parse_choice p; cs ← parse_choices l'; Ok (c :: cs)
  end.

Definition parseWeightedChoices (rawChoices : string) : outcome gerror (list weightedChoice) :=
  if String.eqb rawChoices "" then Ok [] else parse_choices (Split "," rawChoices).

Fixpoint pick (randomNumber currentWeight : float64) (l : list weightedChoice) : option Z :=
  match l with
  | [] => None
  | c :: l' =>
      let currentWeight := fadd currentWeight (Weight c) in
      if fltb randomNumber currentWeight then Some (Choice c) else pick randomNumber currentWeight l'
  end.

Definition weightedRandomChoice (choices : list weightedChoice) (random : float64)
    : outcome gerror Z :=
  let totalWeight := foldl (λ t c, fadd t (Weight c)) fzero choices in
  match pick (fmul random totalWeight) fzero choices with
  | Some c => Ok c
  | None => Panic "failed to select a weighted random choice"
  end.

Definition Status : HandlerFunc :=
  r ← get_req;
  let rawStatus := PathValue "code" r in
  if negb (contains_char "," rawStatus) then
    try_ (lift (parseStatusCode rawStatus)) (λ e, writeError 400 (Some e)) doStatus
  else
    try_ (lift (parseWeightedChoices rawStatus)) (λ e, writeError 400 (Some e)) (λ choices,
      x ← Float64;
      choice ← lift (weightedRandomChoice choices x);
      doStatus choice).

(** [parseSeed]: the stream of values of a seeded generator. *)
Definition parseSeed (rawSeed : string) : M (nat → Z) :=
  t ← time_Now;
  seed ← lift (parseSeedInt64 t rawSeed);
  mret (source seed).

(** [rng.Float64()] as the first draw, and [rng.Intn(256)] as the [i]-th. *)
Definition rng_Float64 (rng : nat → Z) : float64 := unit_float (rng 0%nat mod 2 ^ 53).
Definition rng_byte (rng : nat → Z) (i : nat) : byte := Z_byte (Z.shiftr (rng i) 32).

Definition Unstable : HandlerFunc :=
  r ← get_req;
  try_ (parseSeed (Values_Get "seed" (Query (URL r))))
    (λ e, writeError 400 (Some (Errorf "invalid seed: %w" [AErr e]))) (λ rng,
  let raw := Values_Get "failure_rate" (Query (URL r)) in
  let respond failureRate :=
    let status := if fltb (rng_Float64 rng) failureRate then 500 else 200 in
    _ ← SetHeader "Content-Type" textContentType;
    WriteHeader status in
  if negb (nonempty raw) then respond (fdiv fone (of_Z 2))
  else
    match ParseFloatE raw with
    | Err e => writeError 400 (Some (Errorf "invalid failure rate: %w" [AErr e]))
    | Panic w => panic w
    | Ok failureRate =>
        if fltb failureRate fzero || fltb fone failureRate
        then writeError 400 (Some (Errorf "invalid failure rate: %d not in range [0, 1]" [ANilErr]))
        else respond failureRate
    end).

(** ** Response headers and dangerous content types *)

Definition safeContentTypes : list string :=
  ["text/plain"; "application/json"; "application/problem+json"; "application/octet-string"].

Definition isDangerousContentType (ct : string) : bool :=
  match ParseMediaType ct with
  | None => true
  | Some mediatype => negb (bool_decide (mediatype ∈ safeContentTypes))
  end.

Definition mustEscapeResponse (contentType : string) : bool :=
  if unsafeAllowDangerousResponses h then false else isDangerousContentType contentType.

Fixpoint AddHeaders (k : string) (vs : list string) : M unit :=
  match vs with
  | [] => mret tt
  | v :: vs' => _ ← AddHeader k v; AddHeaders k vs'
  end.

Fixpoint AddAll (args : values) (ks : list string) : M unit :=
  match ks with
  | [] => mret tt
  | k :: ks' => _ ← AddHeaders k (default [] (args !! k)); AddAll args ks'
  end.

(** The escaped copy, filled in the order [ks] of the iteration. *)
Definition escape_values (args : values) (ks : list string) : values :=
  foldl (λ tmp k,
    foldl (λ tmp v, Values_Add (EscapeString k) (EscapeString v) tmp) tmp (default [] (args !! k)))
    ∅ ks.

Definition ResponseHeaders : HandlerFunc :=
  r ← get_req;
  let args := Query (URL r) in
  let given := Values_Get "Content-Type" args in
  let contentType := if nonempty given then given else jsonContentType in
  let args := if nonempty given then args else Values_Set "Content-Type" contentType args in
  ks ← range_keys args;
  _ ← AddAll args ks;
  args ← (if mustEscapeResponse contentType
          then ks' ← range_keys args; mret (escape_values args ks')
          else mret args);
  mustMarshalJSON (jvalues args).

Definition Echo : HandlerFunc :=
  r ← get_req;
  match BodyEnd r with
  | Some e => writeError 400 (Some (Errorf "error reading request body: %w" [AErr e]))
  | None =>
      let ct := Header_Get "Content-Type" (RHeader r) in
      let ct := if nonempty ct then ct else binaryContentType in
      if mustEscapeResponse ct then writeResponse 200 textContentType (EscapeString (Body r))
      else writeResponse 200 ct (Body r)
  end.

(** ** Base64 *)

Definition base64_transform (operation data : string) (maxLen : Z) : outcome gerror string :=
  let dataLen := slen data in
  if dataLen =? 0 then Err (New "no input data")
  else if maxLen <? dataLen
  then Err (Errorf "input data exceeds max length of %d" [AInt maxLen])
  else if String.eqb operation "encode" then Ok (EncodeToString URLEncoding (to_bytes data))
  else if String.eqb operation "decode"
  then map_err (λ e, Errorf "base64 decode failed: %w" [AErr e]) (decodeBase64Flexible data)
  else Err (Errorf "invalid operation: %s" [AStr operation]).

Definition newBase64Helper (r : Request) : string * string :=
  let operation := PathValue "operation" r in
  (if String.eqb operation "" then "decode" else operation, PathValue "data" r).

Definition Base64Handler : HandlerFunc :=
  r ← get_req;
  let '(operation, data) := newBase64Helper r in
  try_ (lift (base64_transform operation data (MaxBodySize h)))
    (λ e, writeError 400 (Some e)) (λ result,
  let ct := Values_Get "content-type" (Query (URL r)) in
  let ct := if String.eqb ct "" then textContentType else ct in
  let result := if mustEscapeResponse ct then EscapeString result else result in
  writeResponse 200 ct result).
End Handlers.
