(* ===== verification/RequestBody.v ===== *)
(** * RequestBody: handlers that read the body of the request

    [parseBody], [parseFiles] and [encodeData] of [helpers.go], and the handlers of
    [handlers.go] that answer with them.  Decoding JSON and multipart forms, the
    compressors and the wire dump of a request are the class [Codecs]. *)

From S2P Require Import Prelude GoStrings GoNum GoTime Utf8 Base64 GoFmt Json Responses GoURL GoNet GoMime.
From S2P Require Import Http Delay ClientIP Bin Pipeline Handlers.

(** A file of a multipart body: what [Open] returns, and reading what it opens. *)
Definition FileHeader : Type := gerror + (gerror + string).

Class Codecs := {
  (* the first value of a JSON text, as [any] *)
  json_Decode : string → gerror + json;
  (* the values and the files of a multipart body, by its type *)
  ReadForm : string → string → gerror + values * gmap string (list FileHeader);
  gzip_Compress : string → string;
  zlib_Compress : string → string;
  (* [httputil.DumpRequest(r, true)], where reading the body succeeds *)
  DumpRequest_wire : Request → gerror + string;
}.

(** An error that the source returns. *)
Definition result {A} (x : gerror + A) : outcome gerror A :=
  match x with inl e => Err e | inr a => Ok a end.

Record bodyResponse := MkBodyResponse {
  Data : string;
  Files : values;
  Form : values;
  JSON_ : json;
}.

Definition encodeData (body contentType : string) : string :=
  let contentType := if String.eqb contentType "" then binaryContentType else contentType in
  "data:" +:+ contentType +:+ ";base64," +:+ EncodeToString URLEncoding (to_bytes body).

(** ** [http.Request.ParseForm] *)

(** The body as a form: the 10 MB limit of [net/http], then the values and the error. *)
Definition maxFormSize : Z := 10 * 2 ^ 20.
Definition parsePostForm (ct body : string) : option values * option gerror :=
  let '(base, _, _) := Cut ";" ct in
  let params := sdrop (String.length base) ct in
  match media_params_error (S (String.length params)) ∅ params with
  | Some (false, e) => (None, Some e)
  | o =>
      if maxFormSize <? slen body then (None, Some (New "http: POST too large"))
      else (Some (ParseQuery body),
            match o with Some (_, e) => Some e | None => ParseQuery_error body end)
  end.

(** [PostForm] and the error, for a body of type application/x-www-form-urlencoded. *)
Definition ParseForm (method : string) (r : Request) : values * option gerror :=
  let '(form, err) := if bool_decide (method ∈ ["POST"; "PUT"; "PATCH"])
                      then parsePostForm (Header_Get "Content-Type" (RHeader r)) (Body r)
                      else (None, None) in
  (default ∅ form,
   match err with Some e => Some e | None => ParseQuery_error (RawQuery (URL r)) end).

(** ** [parseFiles] *)

Definition readFile (f : FileHeader) : outcome gerror string :=
  fh ← result f; result fh.

Fixpoint readFiles (fs : list FileHeader) : outcome gerror (list string) :=
  match fs with
  | [] => Ok []
  | f :: fs => contents ← readFile f; rest ← readFiles fs; Ok (contents :: rest)
  end.

(** The keys in the order of the iteration over the map. *)
Fixpoint parseFiles (keys : list string) (fileHeaders : gmap string (list FileHeader)) (files : values)
    : outcome gerror values :=
  match keys with
  | [] => Ok files
  | k :: keys =>
      contents ← readFiles (default [] (fileHeaders !! k));
      parseFiles keys fileHeaders (<[k := contents]> files)
  end.

Section RequestBody.
Context `{GoStd, Runtime, Codecs} (h : HTTPBin).

(** [ParseMultipartForm]: the error of the query comes last. *)
Definition ParseMultipartForm (r : Request) : outcome gerror (values * gmap string (list FileHeader)) :=
  form ← result (ReadForm (Header_Get "Content-Type" (RHeader r)) (Body r));
  match ParseQuery_error (RawQuery (URL r)) with Some e => Err e | None => Ok form end.

(** [order] is that of the iteration over the files. *)
Definition parseBody (order : gmap string (list FileHeader) → list string) (r : Request) (resp : bodyResponse)
    : outcome gerror bodyResponse :=
  match BodyEnd r with
  | Some e => Err e
  | None =>
      if slen (Body r) =? 0 then Ok resp
      else
        let resp := MkBodyResponse (Body r) (Files resp) (Form resp) (JSON_ resp) in
        let '(contentType, _, _) := Cut ";" (Header_Get "Content-Type" (RHeader r)) in
        if String.eqb contentType "text/html" || String.eqb contentType "text/plain" then Ok resp
        else if String.eqb contentType "application/x-www-form-urlencoded" then
          let method := if String.eqb (Method r) "DELETE" || String.eqb (Method r) "GET"
                        then "POST" else Method r in
          match ParseForm method r with
          | (_, Some e) => Err e
          | (form, None) => Ok (MkBodyResponse (Data resp) (Files resp) form (JSON_ resp))
          end
        else if String.eqb contentType "multipart/form-data" then
          '(form, fileHeaders) ← ParseMultipartForm r;
          files ← parseFiles (order fileHeaders) fileHeaders ∅;
          Ok (MkBodyResponse (Data resp) files form (JSON_ resp))
        else if String.eqb contentType "application/json" then
          v ← result (json_Decode (Body r));
          Ok (MkBodyResponse (Data resp) (Files resp) (Form resp) v)
        else Ok (MkBodyResponse (encodeData (Body r) contentType) (Files resp) (Form resp) (JSON_ resp))
  end.

Definition nilResponse : bodyResponse := MkBodyResponse "" ∅ ∅ JNull.

Definition RequestWithBody : HandlerFunc :=
  fs ← noBodyResponse h;
  r ← get_req;
  order ← range_order;
  try_ (lift (parseBody order r nilResponse))
    (λ e, writeError 400 (Some (Errorf "error parsing request body: %w" [AErr e]))) (λ resp,
  writeJSON 200 (JObj (fs ++ [("data", JStr (Data resp)); ("files", jvalues (Files resp));
                              ("form", jvalues (Form resp)); ("json", JSON_ resp)]))).

Definition Anything : HandlerFunc :=
  r ← get_req;
  if String.eqb (Method r) "HEAD" then Get h else RequestWithBody.

(** ** Compressed responses *)

(** The response without a URL, with the mark of its compression. *)
Definition compressedResponse (Deflated Gzipped : bool) : M json :=
  r ← get_req;
  hs ← getRequestHeaders (excludeHeadersProcessor h);
  r' ← get_req;
  mret (JObj (noBodyFields (Query (URL r)) hs (Method r') (h_getClientIP h r') "" Deflated Gzipped)).

Definition writeCompressed (encoding : string) (compress : string → string) (v : json) : M unit :=
  let body := compress (Encode v) in
  _ ← SetHeader "Content-Encoding" encoding;
  _ ← SetHeader "Content-Type" jsonContentType;
  _ ← SetHeader "Content-Length" (Itoa (slen body));
  _ ← WriteHeader 200;
  Write body.

Definition Gzip : HandlerFunc :=
  v ← compressedResponse false true; writeCompressed "gzip" gzip_Compress v.
Definition Deflate : HandlerFunc :=
  v ← compressedResponse true false; writeCompressed "deflate" zlib_Compress v.

(** ** Dump *)

Definition DumpRequest : HandlerFunc :=
  r ← get_req;
  try_ (lift (match BodyEnd r with Some e => Err e | None => result (DumpRequest_wire r) end))
    (λ e, writeError 500 (Some (Errorf "failed to dump request: %w" [AErr e]))) Write.

(** ** Trailers *)

Definition forbiddenTrailers : list string := map CanonicalHeaderKey
  ["Authorization"; "Cache-Control"; "Content-Encoding"; "Content-Length"; "Content-Range";
   "Content-Type"; "Host"; "Max-Forwards"; "Set-Cookie"; "TE"; "Trailer"; "Transfer-Encoding"].

Definition forbidden (k : string) : bool := bool_decide (CanonicalHeaderKey k ∈ forbiddenTrailers).

Fixpoint SetTrailer (k : string) (vs : list string) : M unit :=
  match vs with
  | [] => mret tt
  | v :: vs => _ ← SetHeader k v; SetTrailer k vs
  end.

Fixpoint SetTrailers (q : values) (ks : list string) : M unit :=
  match ks with
  | [] => mret tt
  | k :: ks => _ ← SetTrailer k (default [] (q !! k)); SetTrailers q ks
  end.

Definition Trailers : HandlerFunc :=
  r ← get_req;
  let q := Query (URL r) in
  ks ← range_keys q;
  match find forbidden ks with
  | Some k => writeError 400 (Some (Errorf "forbidden trailer: %s" [AStr k]))
  | None =>
      ks ← range_keys q;
      _ ← AddHeaders "Trailer" ks;
      _ ← RequestWithBody;
      _ ← Flush;
      ks ← range_keys q;
      SetTrailers q ks
  end.

(** ** Delay *)

(** The [select] of the client's context and the timer; of two events at the same
    instant the timer wins. *)
Definition Delay_ : HandlerFunc :=
  r ← get_req;
  try_ (lift (parseDelayRange (PathValue "duration" r) (MaxDuration h)))
    (λ e, writeError 400 (Some (Errorf "invalid duration: %w" [AErr e]))) (λ '(minDelay, maxDelay),
  delay ← drawDelay (MkParsedDelay minDelay maxDelay);
  elapsed ← Sleep delay;
  if negb (elapsed : bool) then WriteHeader 499
  else
    _ ← SetHeader "Server-Timing" (encodeServerTimings
          [MkServerTiming "initial_delay" delay "initial delay"]);
    RequestWithBody).
End RequestBody.
