(* ===== verification/Pdf.v ===== *)
(** * Pdf: the generated documents

    [generatePDF] of [helpers.go] and the handler [PDF].  The vertical position on a
    page is a float64 that only ever holds integers of at most three digits; it is an
    integer here. *)

From S2P Require Import Prelude GoStrings GoNum GoFloat GoTime GoFmt Json GoURL GoNet GoRand.
From S2P Require Import Cache Http Delay ClientIP Bin Pipeline Handlers.

Definition loremPhrases : list string :=
  ["Lorem ipsum dolor sit amet, consectetur adipiscing elit.";
   "Sed do eiusmod tempor incididunt ut labore et dolore magna aliqua.";
   "Ut enim ad minim veniam, quis nostrud exercitation ullamco laboris.";
   "Duis aute irure dolor in reprehenderit in voluptate velit esse cillum.";
   "Excepteur sint occaecat cupidatat non proident, sunt in culpa qui officia.";
   "Nemo enim ipsam voluptatem quia voluptas sit aspernatur aut odit aut fugit.";
   "Neque porro quisquam est, qui dolorem ipsum quia dolor sit amet.";
   "Consectetur, adipisci velit, sed quia non numquam eius modi tempora incidunt.";
   "Ut labore et dolore magnam aliquam quaerat voluptatem.";
   "Quis autem vel eum iure reprehenderit qui in ea voluptate velit esse.";
   "At vero eos et accusamus et iusto odio dignissimos ducimus.";
   "Nam libero tempore, cum soluta nobis est eligendi optio cumque nihil impedit.";
   "Temporibus autem quibusdam et aut officiis debitis aut rerum necessitatibus.";
   "Itaque earum rerum hic tenetur a sapiente delectus.";
   "Ut aut reiciendis voluptatibus maiores alias consequatur aut perferendis."].

(** ** Text *)

Fixpoint pdfEscapeString (s : string) : string :=
  match s with
  | "" => ""
  | String c s =>
      (if contains_char c "\()" then String "\" (str1 c) else str1 c) +:+ pdfEscapeString s
  end.

Definition line (s : string) : string := s +:+ str1 LF.
Definition lines (l : list string) : string := Join "" (map line l).

Definition pdfTextLine (ptSize y : Z) (text : string) : string :=
  line ("BT /F1 " +:+ Itoa ptSize +:+ " Tf 50 " +:+ Itoa y +:+ " Td (" +:+ pdfEscapeString text +:+ ") Tj ET").

(** The number of paragraphs and of rectangles of a page. *)
Definition density (size : string) : nat * nat :=
  if String.eqb size "small" then (2, 0)%nat
  else if String.eqb size "large" then (9, 3)%nat
  else (5, 1)%nat.

Section Document.
Context `{Rand}.

Definition phrase (g : rng) : string * rng :=
  let '(i, g) := Intn (Z.of_nat (length loremPhrases)) g in
  (default "" (loremPhrases !! Z.to_nat i), g).

(** The loop over the paragraphs: [n] are left, [para] are done. *)
Fixpoint paragraphLines (n : nat) (para y : Z) (g : rng) : string * Z * rng :=
  match n with
  | O => ("", y, g)
  | S n =>
      if 80 <? y then
        let '(text, g) := phrase g in
        let first := pdfTextLine 10 y text in
        let y := y - 16 in
        let '(second, y, g) :=
          if (para mod 2 =? 0) && (80 <? y) then
            let '(text2, g) := phrase g in (pdfTextLine 10 y text2, y - 16, g)
          else ("", y, g) in
        let '(rest, y, g) := paragraphLines n (para + 1) (y - 8) g in
        (first +:+ second +:+ rest, y, g)
      else ("", y, g)
  end.

(** A component of a colour. *)
Definition shade (g : rng) : string * rng :=
  let '(k, g) := Intn 256 g in (FormatFloat_f 3 (fdiv (of_Z k) (of_Z 255)), g).

Fixpoint rectangles (n : nat) (img y : Z) (g : rng) : string * Z * rng :=
  match n with
  | O => ("", y, g)
  | S n =>
      if 100 <? y then
        let '(red, g) := shade g in
        let '(green, g) := shade g in
        let '(blue, g) := shade g in
        let '(dw, g) := Intn 120 g in
        let '(dh, g) := Intn 30 g in
        let h := 30 + dh in
        let rect := line (red +:+ " " +:+ green +:+ " " +:+ blue +:+ " rg " +:+ Itoa (50 + img * 180)
                          +:+ " " +:+ Itoa (y - h) +:+ " " +:+ Itoa (80 + dw) +:+ " " +:+ Itoa h +:+ " re f") in
        let '(rest, y, g) := rectangles n (img + 1) (y - (h + 10)) g in
        (rect +:+ rest, y, g)
      else ("", y, g)
  end.

Definition pageContent (p pages : Z) (size : string) (seed : Z) (g : rng) : string * rng :=
  let '(paragraphs, images) := density size in
  let title := pdfTextLine 18 760 ("Page " +:+ Itoa (p + 1) +:+ " of " +:+ Itoa pages) in
  let rule := line ("0.5 w 50 " +:+ Itoa 730 +:+ " m 545 " +:+ Itoa 730 +:+ " l S") in
  let '(text, y, g) := paragraphLines paragraphs 0 710 g in
  let '(rects, _, g) := rectangles images 0 y g in
  (title +:+ rule +:+ text +:+ rects
     +:+ pdfTextLine 8 30 ("seed=" +:+ Itoa seed +:+ "  size=" +:+ size), g).

(** ** Objects *)

(** The buffer, and where its objects start. *)
Record pdfState := MkPdfState { buf : string; offsets : list Z }.

(** [offsets = append(offsets, buf.Len())], then the object is written. *)
Definition emit (object : string) (st : pdfState) : pdfState :=
  MkPdfState (buf st +:+ object) (offsets st ++ [slen (buf st)]).

Definition pageObjNum (p : nat) : Z := 4 + 2 * Z.of_nat p.

Definition binaryMark : string := "%" +:+ Join "" (map (λ n, str1 (chr n)) [226; 227; 207; 211]%nat).

Definition pdfHeader : string := lines ["%PDF-1.4"; binaryMark].
Definition catalogObject : string := lines ["1 0 obj"; "<< /Type /Catalog /Pages 2 0 R >>"; "endobj"].
Definition pagesObject (pages : nat) : string :=
  lines ["2 0 obj";
         "<< /Type /Pages /Kids [" +:+ Join " " (map (λ p, Itoa (pageObjNum p) +:+ " 0 R") (seq 0 pages))
           +:+ "] /Count " +:+ Itoa (Z.of_nat pages) +:+ " >>";
         "endobj"].
Definition fontObject : string :=
  lines ["3 0 obj"; "<< /Type /Font /Subtype /Type1 /BaseFont /Helvetica >>"; "endobj"].
Definition pageObject (num : Z) : string :=
  lines [Itoa num +:+ " 0 obj";
         "<< /Type /Page /Parent 2 0 R /MediaBox [0 0 595 842] /Contents " +:+ Itoa (num + 1)
           +:+ " 0 R /Resources << /Font << /F1 3 0 R >> >> >>";
         "endobj"].
Definition contentsObject (num : Z) (content : string) : string :=
  line (Itoa num +:+ " 0 obj") +:+ line ("<< /Length " +:+ Itoa (slen content) +:+ " >>")
  +:+ line "stream" +:+ line content +:+ line "endstream" +:+ line "endobj".

(** The loop over the pages [p], [p + 1], ...: [n] pages are left. *)
Fixpoint pageObjects (n p : nat) (pages : Z) (size : string) (seed : Z) (st : pdfState) (g : rng) : pdfState :=
  match n with
  | O => st
  | S n =>
      let '(content, g) := pageContent (Z.of_nat p) pages size seed g in
      let num := pageObjNum p in
      let st := emit (contentsObject (num + 1) content) (emit (pageObject num) st) in
      pageObjects n (S p) pages size seed st g
  end.

(** ** The cross-reference table *)

(** [copy(xrefEntry[10-len(s):], s)] panics when the number has more than ten digits. *)
Definition xrefEntry (off : Z) : outcome gerror string :=
  if (10 <? String.length (Itoa off))%nat then Panic "slice bounds out of range"
  else Ok (line (pad_left 10 off +:+ " 00000 n ")).

Fixpoint xrefEntries (offs : list Z) : outcome gerror string :=
  match offs with
  | [] => Ok ""
  | off :: offs => e ← xrefEntry off; es ← xrefEntries offs; Ok (e +:+ es)
  end.

Definition pdfTrailer (objects xrefOffset : Z) : string :=
  lines ["trailer"; "<< /Size " +:+ Itoa objects +:+ " /Root 1 0 R >>"; "startxref";
         Itoa xrefOffset; "%%EOF"].

Definition generatePDF (pages : nat) (size : string) (seed : Z) : outcome gerror string :=
  let st := emit fontObject (emit (pagesObject pages) (emit catalogObject (MkPdfState pdfHeader []))) in
  let st := pageObjects pages 0 (Z.of_nat pages) size seed st (NewSource seed) in
  let objects := Z.of_nat (length (offsets st)) + 1 in
  entries ← xrefEntries (offsets st);
  Ok (buf st +:+ lines ["xref"; "0 " +:+ Itoa objects; "0000000000 65535 f "] +:+ entries
        +:+ pdfTrailer objects (slen (buf st))).
End Document.

(** ** The handler *)

Section Handler.
Context `{GoStd, Runtime, Rand}.

Definition pdfCache_get (key : pdfCacheKey) : M (option pdfCacheEntry) := λ s,
  (Ok (cache_get key (c_documents (caches s))), s).

Definition pdfCache_put (key : pdfCacheKey) (entry : pdfCacheEntry) : M unit := λ s,
  let c := c_documents (caches s) in
  let order := iteration_order (rnd s (rndi s)) (c_entries c) in
  (Ok tt, MkWorld (req s) (wr s) (now s) (gone s) (rnd s) (S (rndi s))
            (MkCaches (c_images (caches s)) (cache_put order key entry c)) (link s)).

Definition pdfPages (q : values) : outcome gerror Z :=
  let raw := Values_Get "pages" q in
  if nonempty raw then
    let bad := Err (Errorf "invalid pages value %q: must be 1-100" [AStr raw]) in
    match Atoi raw with
    | Ok pages => if (pages <? 1) || (100 <? pages) then bad else Ok pages
    | _ => bad
    end
  else Ok 1.

Definition pdfSize (q : values) : outcome gerror string :=
  let raw := Values_Get "size" q in
  if nonempty raw then
    if bool_decide (raw ∈ ["small"; "medium"; "large"]) then Ok raw
    else Err (Errorf "invalid size %q: must be small, medium, or large" [AStr raw])
  else Ok "medium".

Definition pdfNocache (q : values) : bool :=
  String.eqb (Values_Get "nocache" q) "1" || String.eqb (Values_Get "no-cache" q) "1".

Definition pdfSeed (unixNano : Z) (q : values) : outcome gerror Z :=
  let raw := Values_Get "seed" q in
  if pdfNocache q then Ok unixNano
  else if nonempty raw
  then map_err (λ e, Errorf "invalid seed %q: %w" [AStr raw; AErr e]) (parseSeedInt64 unixNano raw)
  else Ok 42.

Definition pdfParams (unixNano : Z) (q : values) : outcome gerror pdfCacheKey :=
  pages ← pdfPages q; size ← pdfSize q; seed ← pdfSeed unixNano q; Ok (MkPdfCacheKey pages size seed).

Definition generateKey (key : pdfCacheKey) : outcome gerror string :=
  generatePDF (Z.to_nat (pk_pages key)) (pk_size key) (pk_seed key).

Definition PDF : HandlerFunc :=
  r ← get_req;
  let q := Query (URL r) in
  unixNano ← time_Now;
  try_ (lift (pdfParams unixNano q)) (λ e, writeError 400 (Some e)) (λ key,
  hit ← (if pdfNocache q then mret None else pdfCache_get key);
  match hit with
  | Some entry => writeResponse 200 "application/pdf" (pe_data entry)
  | None =>
      try_ (lift (generateKey key)) (λ e, writeError 500 (Some e)) (λ data,
      _ ← (if pdfNocache q then mret tt else pdfCache_put key (MkPdfCacheEntry data));
      writeResponse 200 "application/pdf" data)
  end).
End Handler.
