(* ===== verification/GoTemplate.v ===== *)
(** * GoTemplate: the part of [text/template] that the embedded templates use

    Texts, the actions [{{.Field}}], [{{if .Field}}] and [{{end}}], over a struct of
    strings.  Any other action is refused here. *)

From S2P Require Import Prelude GoStrings GoPath GoURL.

(** ** Parsing *)

Inductive action := AField (f : string) | AIf (f : string) | AEnd.

Inductive template :=
| Done (t : string)
| Then (t f : string) (rest : template)
| Cond (t f : string) (body rest : template).

(** The text before the next "{{" and what follows it. *)
Fixpoint until_open (s : string) : string * option string :=
  match s with
  | "" => ("", None)
  | String c s' =>
      match s' with
      | String d s'' =>
          if Ascii.eqb c "{" && Ascii.eqb d "{" then ("", Some s'')
          else let '(t, r) := until_open s' in (String c t, r)
      | "" => (s, None)
      end
  end.

(** The text of an action, up to "}}". *)
Fixpoint until_close (s : string) : option (string * string) :=
  match s with
  | "" => None
  | String c s' =>
      match s' with
      | String d s'' =>
          if Ascii.eqb c "}" && Ascii.eqb d "}" then Some ("", s'')
          else '(a, r) ← until_close s'; Some (String c a, r)
      | "" => None
      end
  end.

Definition letter (c : ascii) : bool :=
  let n := code c in (65 <=? n) && (n <=? 90) || (97 <=? n) && (n <=? 122).

Definition field_name (s : string) : option string :=
  match s with
  | String "." f => if nonempty f && string_forall letter f then Some f else None
  | _ => None
  end.

Definition parse_action (a : string) : option action :=
  let a := TrimSpace a in
  if String.eqb a "end" then Some AEnd
  else if HasPrefix a "if " then AIf <$> field_name (TrimSpace (TrimPrefix a "if "))
  else AField <$> field_name a.

(** Texts and the actions after them, and the last text; the fuel bounds the actions. *)
Fixpoint lex (fuel : nat) (s : string) : option (list (string * action) * string) :=
  match fuel with
  | O => None
  | S fuel =>
      match until_open s with
      | (t, None) => Some ([], t)
      | (t, Some s') =>
          '(a, r) ← until_close s';
          a ← parse_action a;
          '(toks, last) ← lex fuel r;
          Some ((t, a) :: toks, last)
      end
  end.

(** The fuel is enough: an action is not empty. *)
Lemma until_open_shorter s t r : until_open s = (t, Some r) → (String.length r < String.length s)%nat.
Proof.
  revert t. induction s as [|c s IH]; intros t; cbn [until_open]; [done|]. destruct s as [|d s]; [done|].
  destruct (_ && _); [intros [= _ <-]; cbn; lia|]. destruct (until_open (String d s)) as [t' r']. intros [= _ ->].
  specialize (IH t' eq_refl). cbn in *. lia.
Qed.

Lemma until_close_shorter s a r : until_close s = Some (a, r) → (String.length r < String.length s)%nat.
Proof.
  revert a. induction s as [|c s IH]; intros a; cbn [until_close]; [done|]. destruct s as [|d s]; [done|].
  destruct (_ && _); [intros [= _ <-]; cbn; lia|]. destruct (until_close (String d s)) as [[a' r']|]; [|done].
  cbn [mbind option_bind]. intros [= _ <-]. specialize (IH a' eq_refl). cbn in *. lia.
Qed.

Lemma lex_fuel n m s : (String.length s < n)%nat → (String.length s < m)%nat → lex n s = lex m s.
Proof.
  revert m s. induction n as [|n IH]; intros m s Hn Hm; [lia|]. destruct m as [|m]; [lia|]. cbn [lex].
  destruct (until_open s) as [t [s'|]] eqn:Eo; [|done]. apply until_open_shorter in Eo.
  destruct (until_close s') as [[a r]|] eqn:Ec; [|done]. apply until_close_shorter in Ec. cbn [mbind option_bind].
  destruct (parse_action a); [|done]. cbn [mbind option_bind]. by rewrite (IH m r) by lia.
Qed.

(** From the end: the template from here on, and those after each [end] that is open. *)
Definition build (tok : string * action) (st : option (template * list template)) : option (template * list template) :=
  '(cur, ends) ← st;
  match tok.2 with
  | AField f => Some (Then tok.1 f cur, ends)
  | AEnd => Some (Done tok.1, cur :: ends)
  | AIf f => match ends with rest :: ends => Some (Cond tok.1 f cur rest, ends) | [] => None end
  end.

Definition Parse (s : string) : option template :=
  '(toks, last) ← lex (S (String.length s)) s;
  match foldr build (Some (Done last, [])) toks with
  | Some (t, []) => Some t
  | _ => None
  end.

(** ** Execution *)

(** A field that the struct does not have stops the execution. *)
Fixpoint Execute (data : string → option string) (t : template) : option string :=
  match t with
  | Done t => Some t
  | Then t f rest => v ← data f; r ← Execute data rest; Some (t +:+ v +:+ r)
  | Cond t f body rest =>
      v ← data f;
      b ← (if nonempty v then Execute data body else Some "");
      r ← Execute data rest;
      Some (t +:+ b +:+ r)
  end.

(** ** What a template means *)

Fixpoint fields (t : template) : list string :=
  match t with
  | Done _ => []
  | Then _ f rest => f :: fields rest
  | Cond _ f body rest => f :: fields body ++ fields rest
  end.

(** Execution only stops at an unknown field. *)
Lemma Execute_total data t : Forall (λ f, is_Some (data f)) (fields t) → is_Some (Execute data t).
Proof.
  induction t as [t|t f rest IH|t f body IHb rest IH]; cbn [fields Execute].
  - by eexists.
  - intros [[v ->] [r ->]%IH]%Forall_cons. by eexists.
  - intros [[v ->] [[b Hb]%IHb [r ->]%IH]%Forall_app]%Forall_cons. cbn [mbind option_bind].
    rewrite Hb. by destruct (nonempty v); eexists.
Qed.

Fixpoint text_of (t : template) : string :=
  match t with
  | Done t => t
  | Then t f rest => t +:+ "{{." +:+ f +:+ "}}" +:+ text_of rest
  | Cond t f body rest => t +:+ "{{if ." +:+ f +:+ "}}" +:+ text_of body +:+ "{{end}}" +:+ text_of rest
  end.

(** A text in front of an action. *)
Definition text_ok (t : string) : Prop := ∀ r, until_open (t +:+ "{{" +:+ r) = (t, Some r).
Definition name_ok (f : string) : Prop := f ≠ "" ∧ string_forall letter f = true.

Fixpoint template_ok (enclosed : bool) (t : template) : Prop :=
  match t with
  | Done t => if enclosed then text_ok t else until_open t = (t, None)
  | Then t f rest => text_ok t ∧ name_ok f ∧ template_ok enclosed rest
  | Cond t f body rest => text_ok t ∧ name_ok f ∧ template_ok true body ∧ template_ok enclosed rest
  end.

Lemma until_open_cons c s :
  Ascii.eqb "{" c = false → until_open (String c s) = (String c (until_open s).1, (until_open s).2).
Proof.
  intros Hc. rewrite Ascii.eqb_sym in Hc. cbn [until_open]. destruct s as [|d s]; [done|]. rewrite Hc. cbn [andb].
  by destruct (until_open (String d s)).
Qed.

(** Without braces there is no action. *)
Lemma plain_text_ok t : contains_char "{" t = false → text_ok t ∧ until_open t = (t, None).
Proof.
  unfold text_ok. induction t as [|c t IH]; [done|]. cbn [contains_char]. intros [Hc [IH1 IH2]%IH]%orb_false_iff.
  split; [intros r; change (String c t +:+ ?x) with (String c (t +:+ x))|];
    rewrite until_open_cons by done; by rewrite ?IH1, ?IH2.
Qed.

(** ** Parsing what was printed *)

Lemma until_close_cons c s :
  Ascii.eqb "}" c = false → until_close (String c s) = '(a, r) ← until_close s; Some (String c a, r).
Proof. intros Hc. rewrite Ascii.eqb_sym in Hc. cbn [until_close]. destruct s; [done|]. by rewrite Hc. Qed.

Lemma until_close_app a r : contains_char "}" a = false → until_close (a +:+ "}}" +:+ r) = Some (a, r).
Proof.
  induction a as [|c a IH]; [done|]. cbn [contains_char]. intros [Hc Ha]%orb_false_iff.
  change (String c a +:+ ?x) with (String c (a +:+ x)). by rewrite until_close_cons, IH.
Qed.

Definition action_text (a : action) : string :=
  match a with AField f => "." +:+ f | AIf f => "if ." +:+ f | AEnd => "end" end.
Definition action_ok (a : action) : Prop := match a with AField f | AIf f => name_ok f | AEnd => True end.

Lemma letter_visible c : letter c = true → visible c = true ∧ Ascii.eqb "}" c = false.
Proof.
  assert (∀ c, implb (letter c) (visible c && negb (Ascii.eqb "}" c)) = true) as Hall
    by (apply forall_ascii; reflexivity).
  specialize (Hall c). intros Hc. rewrite Hc in Hall. cbn in Hall.
  by apply andb_true_iff in Hall as [? ?%negb_true_iff].
Qed.

Lemma letters_visible f : string_forall letter f = true → string_forall visible f = true ∧ contains_char "}" f = false.
Proof.
  induction f as [|c f IH]; [done|]. cbn [string_forall contains_char].
  intros [[Hv Hc]%letter_visible Hf]%andb_true_iff.
  destruct (IH Hf) as [-> ->]. by rewrite Hv, Hc.
Qed.

(** A name after a text without spaces at its start. *)
Lemma name_framed p c f : visible c = true → name_ok f → framed (String c p +:+ f).
Proof.
  intros Hc [Hf Hl]. destruct (letters_visible f Hl) as [Hv _]. destruct (visible_last f Hf Hv) as (s & d & -> & Hd).
  exists c, (p +:+ s +:+ str1 d), d, (String c p +:+ s). by rewrite <- sapp_assoc.
Qed.

Lemma field_name_dot f : name_ok f → field_name ("." +:+ f) = Some f.
Proof. intros [Hf Hl]. cbn. rewrite Hl. by destruct f. Qed.

Lemma parse_action_text a : action_ok a → parse_action (action_text a) = Some a.
Proof.
  destruct a as [f|f|]; cbn [action_ok]; [..|done]; intros Hf; unfold parse_action, action_text.
  - rewrite TrimSpace_framed by by apply (name_framed "" "."). by rewrite field_name_dot.
  - rewrite TrimSpace_framed by by apply (name_framed "f ." "i").
    cbn [String.append String.eqb Ascii.eqb eqb]. change (HasPrefix _ _) with true. cbv iota.
    change (TrimPrefix _ _) with ("." +:+ f). rewrite TrimSpace_framed by by apply (name_framed "" ".").
    by rewrite field_name_dot.
Qed.

Lemma action_text_closed a : action_ok a → contains_char "}" (action_text a) = false.
Proof. destruct a as [f|f|]; cbn; [..|done]; intros [_ Hf]; by apply letters_visible in Hf as [_ ->]. Qed.

(** The texts and actions of a template. *)
Fixpoint tokens (t : template) : list (string * action) * string :=
  match t with
  | Done t => ([], t)
  | Then t f rest => ((t, AField f) :: (tokens rest).1, (tokens rest).2)
  | Cond t f body rest =>
      ((t, AIf f) :: (tokens body).1 ++ ((tokens body).2, AEnd) :: (tokens rest).1, (tokens rest).2)
  end.

Definition print_token (tok : string * action) : string := tok.1 +:+ "{{" +:+ action_text tok.2 +:+ "}}".

Lemma text_of_tokens t : text_of t = Join "" (map print_token (tokens t).1) +:+ (tokens t).2.
Proof.
  induction t as [t|t f rest IH|t f body IHb rest IH]; [done|..].
  - cbn [text_of tokens fst snd map]. rewrite Join_empty_cons, IH. unfold print_token. cbn [fst snd action_text].
    by rewrite <- !sapp_assoc.
  - cbn [text_of tokens fst snd map]. rewrite Join_empty_cons, map_app, Join_empty_app. cbn [map].
    rewrite Join_empty_cons, IH, IHb. unfold print_token. cbn [fst snd action_text]. by rewrite <- !sapp_assoc.
Qed.

Definition token_ok (tok : string * action) : Prop := text_ok tok.1 ∧ action_ok tok.2.

Lemma tokens_ok t e : template_ok e t → Forall token_ok (tokens t).1 ∧ 
  if e then text_ok (tokens t).2 else until_open (tokens t).2 = ((tokens t).2, None).
Proof.
  revert e. induction t as [t|t f rest IH|t f body IHb rest IH]; intros e; cbn [template_ok tokens fst snd].
  - by intros Ht.
  - intros (Ht & Hf & Hr). destruct (IH e Hr) as [H1 H2]. split; [by constructor|done].
  - intros (Ht & Hf & Hb & Hr). destruct (IHb true Hb) as [H1 H2], (IH e Hr) as [H3 H4]. split; [|done].
    constructor; [done|]. apply Forall_app. split; [done|]. by constructor.
Qed.

Lemma lex_tokens toks last fuel :
  Forall token_ok toks → until_open last = (last, None) → (length toks < fuel)%nat →
  lex fuel (Join "" (map print_token toks) +:+ last) = Some (toks, last).
Proof.
  intros Ht Hl. revert fuel. induction Ht as [|[t a] toks [Ht Ha] _ IH]; intros [|fuel] Hfuel; cbn in Hfuel; [lia..| |lia|].
  - change (Join "" (map print_token []) +:+ last) with last. cbn [lex]. by rewrite Hl.
  - cbn [map]. rewrite Join_empty_cons. unfold print_token at 1. cbn [fst snd] in *. rewrite <- !sapp_assoc.
    cbn [lex]. rewrite Ht, until_close_app by by apply action_text_closed. cbn [mbind option_bind].
    rewrite parse_action_text by done. cbn [mbind option_bind]. by rewrite IH by lia.
Qed.

Lemma build_tokens t ends : foldr build (Some (Done (tokens t).2, ends)) (tokens t).1 = Some (t, ends).
Proof.
  revert ends. induction t as [t|t f rest IH|t f body IHb rest IH]; intros ends; [done|..]; cbn [tokens fst snd foldr].
  - by rewrite IH.
  - rewrite foldr_app. cbn [foldr]. rewrite IH. cbn [build mbind option_bind fst snd]. by rewrite IHb.
Qed.

Lemma tokens_length toks last : (length toks ≤ String.length (Join "" (map print_token toks) +:+ last))%nat.
Proof.
  rewrite slength_app. induction toks as [|[t a] toks IH]; cbn [length]; [lia|].
  cbn [map]. rewrite Join_empty_cons, slength_app. unfold print_token at 1. cbn [fst snd].
  rewrite !slength_app. cbn [String.length]. lia.
Qed.

(** Parsing the text of a template gives the template back. *)
Lemma Parse_text_of t : template_ok false t → Parse (text_of t) = Some t.
Proof.
  intros [Hl Ht]%(tokens_ok t false). unfold Parse. rewrite text_of_tokens, lex_tokens; [|done..|].
  - cbn [mbind option_bind]. by rewrite build_tokens.
  - apply Nat.lt_succ_r, tokens_length.
Qed.
