(* ===== verification/StaticAssets.v ===== *)
(** * StaticAssets: the embedded files and templates

    [static_assets.go].  The files that [go:embed] puts into the program are the function
    [embedded] of [Runtime]; what the templates do with them is [GoTemplate]. *)

From S2P Require Import Prelude GoStrings GoPath GoFmt Http Handlers GoTemplate.

(** The data of the two templates. *)
Definition tmplData (Prefix Version : string) (f : string) : option string :=
  if String.eqb f "Prefix" then Some Prefix
  else if String.eqb f "Version" then Some Version
  else None.

Section StaticAssets.
Context `{Runtime}.

(** A file that is not embedded, a template that does not parse or names another field
    panics. *)
Definition mustRenderTemplate (name : string) (data : string → option string) : outcome gerror string :=
  match staticAsset name with
  | None => Panic ("open static/" +:+ name +:+ ": file does not exist")
  | Some text =>
      match Parse text with
      | None => Panic ("template: " +:+ name)
      | Some t =>
          match Execute data t with
          | None => Panic ("template: " +:+ name +:+ ": can't evaluate field")
          | Some s => Ok s
          end
      end
  end.

(** The templates that [New] renders are embedded, and only use the data that it has. *)
Definition templates_embedded : Prop :=
  Forall (λ name, ∃ t, staticAsset name = Some (text_of t) ∧ template_ok false t ∧
                       Forall (λ f, f ∈ ["Prefix"; "Version"]) (fields t))
    ["index.html.tmpl"; "forms-post.html.tmpl"].

Lemma mustRenderTemplate_ok name Prefix Version t :
  staticAsset name = Some (text_of t) → template_ok false t →
  Forall (λ f, f ∈ ["Prefix"; "Version"]) (fields t) →
  ∃ page, mustRenderTemplate name (tmplData Prefix Version) = Ok page ∧
          Execute (tmplData Prefix Version) t = Some page.
Proof.
  intros Ha Ht Hf. destruct (Execute_total (tmplData Prefix Version) t) as [page E].
  { eapply Forall_impl; [exact Hf|]. intros f Hin. unfold tmplData.
    assert (f = "Prefix" ∨ f = "Version") as [-> | ->] by set_solver; by eexists. }
  exists page. split; [|done]. unfold mustRenderTemplate. rewrite Ha, Parse_text_of by done. by rewrite E.
Qed.

(** ** Names of assets *)

Lemma clean_elem rooted out e : elem_ok e → clean_step rooted out e = e :: out.
Proof.
  intros [H1 H2 H3 _]. unfold clean_step.
  by rewrite (proj2 (String.eqb_neq _ _) H1), (proj2 (String.eqb_neq _ _) H2), (proj2 (String.eqb_neq _ _) H3).
Qed.

(** Under the directory, the elements that [path.Join] leaves. *)
Lemma staticAsset_elems name l e :
  name ≠ "" → fold_left (clean_step false) (Split "/" name) ["static"] = e :: l →
  staticAsset name = embedded (Join "/" (rev (e :: l))).
Proof.
  intros Hn Hl. unfold staticAsset. f_equal. destruct name as [|c name]; [done|].
  set (n := String c name) in *. change (path_Join ["static"; n]) with (Clean ("static" +:+ str1 "/" +:+ n)). unfold Clean.
  change (String.eqb ("static" +:+ str1 "/" +:+ n) "") with false.
  change (HasPrefix ("static" +:+ str1 "/" +:+ n) "/") with false. cbv iota zeta.
  rewrite Split_app by done. cbn [fold_left]. change (clean_step false [] "static") with ["static"]. rewrite Hl.
  destruct (rev (e :: l)) as [|x k] eqn:E; [|done].
  apply (f_equal length) in E. by rewrite length_rev in E.
Qed.

Lemma staticAsset_elem name : elem_ok name → staticAsset name = embedded ("static/" +:+ name).
Proof.
  intros Hn. apply (staticAsset_elems name ["static"] name); [apply Hn|].
  rewrite Split_no_sep_id by apply Hn. by apply (clean_elem false ["static"]).
Qed.

(** The name is cleaned together with its directory: elements of the name that go up are
    not stopped, so that the kind of an image names any asset. *)
Lemma staticAsset_up d name :
  elem_ok d → elem_ok name → staticAsset (d +:+ "/../" +:+ name) = staticAsset name.
Proof.
  intros Hd Hn. rewrite (staticAsset_elem name Hn).
  apply (staticAsset_elems _ ["static"] name); [intros E; apply (elem_nonempty d Hd); by destruct d|].
  change (d +:+ "/../" +:+ name) with (d +:+ str1 "/" +:+ (".." +:+ str1 "/" +:+ name)).
  rewrite !Split_app, Split_no_sep_id by (done || apply Hd || apply Hn). cbn [fold_left].
  rewrite (clean_elem _ _ d Hd). unfold clean_step at 2. cbn [String.eqb Ascii.eqb orb].
  rewrite (proj2 (String.eqb_neq _ _) (elem_dotdot d Hd)). by apply (clean_elem false ["static"]).
Qed.
End StaticAssets.
