(* ===== verification/Cookies.v ===== *)
(** * Cookies: reading and setting cookies

    The cookies of package [net/http] as far as the handlers use them, the handlers
    [Cookies], [SetCookies] and [DeleteCookies] of [handlers.go], and what a client gets
    back that returns the cookies it was given. *)

From S2P Require Import Prelude GoStrings GoNum GoTime GoFmt Json Responses GoURL.
From S2P Require Import Http HttpLaws Handles Bodies Bin Pipeline Handlers.

(** ** [http.TimeFormat] *)

(** The civil date of a number of days since 1970-01-01. *)
Definition civil (days : Z) : Z * Z * Z :=
  let z := days + 719468 in
  let era := z / 146097 in
  let doe := z mod 146097 in
  let yoe := (doe - doe / 1460 + doe / 36524 - doe / 146096) / 365 in
  let doy := doe - (365 * yoe + yoe / 4 - yoe / 100) in
  let mp := (5 * doy + 2) / 153 in
  let d := doy - (153 * mp + 2) / 5 + 1 in
  let m := if mp <? 10 then mp + 3 else mp - 9 in
  (yoe + era * 400 + (if m <=? 2 then 1 else 0), m, d).

Definition nth_name (l : list string) (i : Z) : string := default "" (l !! Z.to_nat i).

Definition formatHTTP (nanos : Z) : string :=
  let secs := nanos / Second in
  let days := secs / 86400 in
  let t := secs mod 86400 in
  let '(y, m, d) := civil days in
  nth_name ["Sun"; "Mon"; "Tue"; "Wed"; "Thu"; "Fri"; "Sat"] ((days + 4) mod 7) +:+ ", "
  +:+ pad_left 2 d +:+ " "
  +:+ nth_name ["Jan"; "Feb"; "Mar"; "Apr"; "May"; "Jun"; "Jul"; "Aug"; "Sep"; "Oct"; "Nov"; "Dec"] (m - 1)
  +:+ " " +:+ pad_left 4 y +:+ " " +:+ pad_left 2 (t / 3600) +:+ ":" +:+ pad_left 2 (t / 60 mod 60)
  +:+ ":" +:+ pad_left 2 (t mod 60) +:+ " GMT".

Example formatHTTP_ex :
  map formatHTTP [0; 951827696 * Second; 1735689599 * Second]
  = ["Thu, 01 Jan 1970 00:00:00 GMT"; "Tue, 29 Feb 2000 12:34:56 GMT"; "Tue, 31 Dec 2024 23:59:59 GMT"].
Proof. vm_compute. reflexivity. Qed.

(** ** Cookies of [net/http] *)

Definition isToken (s : string) : bool := nonempty s && string_forall header_byte_ok s.

Definition validCookieValueByte (c : ascii) : bool :=
  (32 <=? code c) && (code c <? 127) && negb (contains_char c (DQUOTE +:+ ";\")).

Fixpoint string_filter (p : ascii → bool) (s : string) : string :=
  match s with
  | "" => ""
  | String c s' => if p c then String c (string_filter p s') else string_filter p s'
  end.

Definition sanitizeCookieValue (v : string) : string :=
  let v := string_filter validCookieValueByte v in
  if ContainsAny v " ," then DQUOTE +:+ v +:+ DQUOTE else v.

Record Cookie := MkCookie {
  ck_Name : string;
  ck_Value : string;
  ck_Expires : option Z;
  ck_expired : bool;           (* a negative [MaxAge] *)
}.

(** [Cookie.String] of a cookie for HTTP only; [Expires] before 1601 is left out. *)
Definition cookie_String (c : Cookie) : string :=
  if negb (isToken (ck_Name c)) then ""
  else
    ck_Name c +:+ "=" +:+ sanitizeCookieValue (ck_Value c)
    +:+ match ck_Expires c with
        | Some t => if -11644473600 <=? t / Second then "; Expires=" +:+ formatHTTP t else ""
        | None => ""
        end
    +:+ (if ck_expired c then "; Max-Age=0" else "") +:+ "; HttpOnly".

Definition SetCookie (c : Cookie) : M unit :=
  let v := cookie_String c in
  if nonempty v then AddHeader "Set-Cookie" v else mret tt.

(** [textproto.TrimString] *)
Definition TrimString (s : string) : string :=
  let blank := [str1 " "; str1 (chr 9); str1 LF; str1 CR] in
  let l := strip_any blank (String.length s) s in
  srev (strip_any blank (String.length l) (srev l)).

(** [parseCookieValue] with quotes allowed. *)
Definition parseCookieValue (raw : string) : option string :=
  let raw := if (1 <? slen raw) && HasPrefix raw DQUOTE && HasSuffix raw DQUOTE
             then stake (String.length raw - 2) (sdrop 1 raw) else raw in
  if string_forall validCookieValueByte raw then Some raw else None.

Definition readCookie (part : string) : option (string * string) :=
  let part := TrimString part in
  if String.eqb part "" then None
  else
    let '(name, val, _) := Cut "=" part in
    let name := TrimString name in
    if negb (isToken name) then None
    else val ← parseCookieValue val; Some (name, val).

Definition readCookies (hs : headers) : list (string * string) :=
  flat_map (λ line, omap readCookie (Split ";" (TrimString line))) (default [] (hs !! "Cookie")).

(** ** The handlers *)

Section Cookies.
Context `{GoStd} (h : HTTPBin).

Definition Cookies : HandlerFunc :=
  r ← get_req;
  let cookies := foldl (λ m c, <[c.1 := c.2]> m) (∅ : gmap string string) (readCookies (RHeader r)) in
  writeJSON 200 (cookiesResponse cookies).

Fixpoint setCookies (f : string → Cookie) (ks : list string) : M unit :=
  match ks with
  | [] => mret tt
  | k :: ks => _ ← SetCookie (f k); setCookies f ks
  end.

Definition SetCookies : HandlerFunc :=
  r ← get_req;
  let params := Query (URL r) in
  ks ← range_keys params;
  _ ← setCookies (λ k, MkCookie k (Values_Get k params) None false) ks;
  doRedirect h "/cookies" 302.

Definition DeleteCookies : HandlerFunc :=
  r ← get_req;
  let params := Query (URL r) in
  ks ← range_keys params;
  t ← time_Now;
  _ ← setCookies (λ k, MkCookie k (Values_Get k params) (Some (t - 24 * 365 * Hour)) true) ks;
  doRedirect h "/cookies" 302.
End Cookies.

Example readCookies_ex :
  readCookies {["Cookie" := ["a=1; b=" +:+ DQUOTE +:+ "x y" +:+ DQUOTE +:+ " ;c; =d; e f=1"]]}
  = [("a", "1"); ("b", "x y"); ("c", "")].
Proof. vm_compute. reflexivity. Qed.
