(* ===== verification/Samples.v ===== *)
(** * Samples: a concrete server and requests for the witnesses *)

From S2P Require Import Prelude GoStrings GoNum GoTime GoFmt Json GoURL Cache Http GoNet ClientIP.
From S2P Require Import Bin Pipeline Handlers RequestBody.

#[export] Existing Instance ascii_std.

(** Terminals that answer nothing. *)
#[export] Instance sample_targets : PipelineTargets := {|
  ImageAccept := mret tt; Image := mret tt; doImage := λ _, mret tt; Links := mret tt;
  Cache := mret tt; CacheControl := mret tt; Base64 := mret tt; DigestAuth := mret tt |}.

(** No embedded files, hashes that keep their input, and a generator that counts. *)
#[export] Instance sample_runtime : Runtime := {|
   embedded := λ name,
    if String.eqb name "static/index.html.tmpl" then Some "<a href={{.Prefix}}/>{{if .Version}}{{.Version}}{{end}}</a>"
    else if String.eqb name "static/forms-post.html.tmpl" then Some "<form action={{.Prefix}}/post>" else None; GoVersion := "go1.22"; formatRFC1123 := Itoa; formatTime := Itoa;
  sha1_Sum := id; source := λ seed i, (seed + Z.of_nat i) * 2 ^ 32; pdqsort := λ l, seq 0 (length l) |}.

(** Compressors that store, and decoders that know nothing. *)
#[export] Instance sample_codecs : Codecs := {|
  json_Decode := λ _, inl (New "unexpected end of JSON input"); ReadForm := λ _ _, inl (New "no form");
  gzip_Compress := id; zlib_Compress := id; DumpRequest_wire := λ r, inr (Body r) |}.

Definition sample_bin : HTTPBin := {|
  MaxBodySize := DefaultMaxBodySize;
  MaxDuration := DefaultMaxDuration;
  DefaultParams_ := DefaultDefaultParams;
  AllowedRedirectDomains := [];
  unsafeAllowDangerousResponses := false;
  env := None;
  forbiddenRedirectError := "";
  hostname := DefaultHostname;
  prefix := "";
  statusSpecialCases := λ _, None;
  excludeHeadersProcessor := None;
  maxSSECount := 10000;
  trustedProxies := [];
  trustedProxiesConfigured := false;
  version := "";
  indexHTML := "";
  formsPostHTML := "";
  maxConcurrentRequests := 0;
  rateLimiter := None;
  rateLimitUseSubnets := false;
  observed := false;
  imageConverters := ∅;
  terminalHandlers := ∅;
|}.

Definition sample_request (method path query : string) : Request :=
  let u := MkUrl "" "" None "" path "" false query "" "" false in
  MkRequest method u (RequestURI u) ∅ "localhost" "192.0.2.1:1234" false [] "" None ∅.

Definition sample_world (r : Request) : World :=
  MkWorld r (Base new_response) 0 None (λ n, Z.of_nat n * 7919) 0
    (MkCaches (newImageCache 64) (newPDFCache 64)) Kept.

Definition sample_post (contentType body : string) : World :=
  let u := MkUrl "" "" None "" "/post" "" false "" "" "" false in
  sample_world (MkRequest "POST" u "/post" (Header_Set "Content-Type" contentType ∅) "localhost"
    "192.0.2.1:1234" false [] body None ∅).

Definition GET (path : string) : World := sample_world (sample_request "GET" path "").
