(* ===== verification/MixSpec.v ===== *)
(** * MixSpec: the meaning of a list of directives

    [Mix] interprets its directives one after the other over mutable variables.
    The specification is declarative: each directive means an effect, and a list of
    effects means the status and the body that come last, the headers in order and
    the sum of the delays.  [Mix_refines] says that the handler does exactly that. *)

From S2P Require Import Prelude GoStrings GoNum GoTime Utf8 Base64 GoFmt Json GoURL Http HttpLaws.
From S2P Require Import Handles Delay DelaySpec Bin Mix Pipeline Samples.

(** A header that a request may set: on the allow list, without CR or LF. *)
Definition header_ok (nv : string * string) : Prop :=
  nv.1 ≠ "" ∧ isAllowedMixHeader nv.1 = true ∧
  ContainsAny nv.1 CRLF = false ∧ ContainsAny nv.2 CRLF = false.

(** ** Meaning *)

Inductive effect :=
| EStatus (code : Z)
| EHeader (name val : string)
| EDelay (d : Z)
| EBody (b : string).

Section Meaning.
Context `{GoStd} (h : HTTPBin).

Definition meaning (d : mixDirective) : outcome gerror effect :=
  match kind d with
  | KStatus =>
      EStatus <$> map_err (λ e, Errorf "invalid status in /mix: %w" [AErr e])
                    (parseStatusCode (value d))
  | KHeader =>
      match Cut ":" (value d) with
      | (_, _, false) =>
          Err (Errorf "invalid header directive %q: must be name:value" [AStr (value d)])
      | (name, val, true) =>
          let name := RemoveChars CRLF name in
          if isAllowedMixHeader name then Ok (EHeader name (RemoveChars CRLF val))
          else Err (Errorf "header %q is not allowed in /mix" [AStr name])
      end
  | KDelay =>
      EDelay <$> map_err (λ e, Errorf "invalid delay in /mix: %w" [AErr e])
                   (parseBoundedDuration (value d) 0 (MaxDuration h))
  | KBody =>
      EBody <$> map_err (λ e, Errorf "invalid base64 body in /mix: %w" [AErr e])
                  (decodeMixBody (value d))
  end.

(** The effects of a list: those before the first error, and that error. *)
Fixpoint meanings (l : list mixDirective) : list effect * option gerror :=
  match l with
  | [] => ([], None)
  | d :: l' =>
      match meaning d with
      | Ok e => let '(es, err) := meanings l' in (e :: es, err)
      | Err e => ([], Some e)
      | Panic _ => ([], None)
      end
  end.
End Meaning.

Definition statuses (es : list effect) : list Z :=
  omap (λ e, match e with EStatus c => Some c | _ => None end) es.
Definition bodies (es : list effect) : list string :=
  omap (λ e, match e with EBody b => Some b | _ => None end) es.
Definition delays (es : list effect) : list Z :=
  omap (λ e, match e with EDelay d => Some d | _ => None end) es.
Definition set_headers (es : list effect) : list (string * string) :=
  omap (λ e, match e with EHeader n v => Some (n, v) | _ => None end) es.

Definition sum (l : list Z) : Z := foldr Z.add 0 l.
Definition set_all (hs : list (string * string)) (m : headers) : headers :=
  foldl (λ m nv, Header_Set nv.1 nv.2 m) m hs.

(** The status and the body that come last. *)
Definition final_status (es : list effect) : Z := default 200 (last (statuses es)).
Definition final_body (es : list effect) : string := default "" (last (bodies es)).

(** ** The interpreter computes the meaning *)

Definition apply_effect (st : mixState) (e : effect) : mixState :=
  match e with
  | EStatus c => MkMixState c (mix_body st) (totalDelay st)
  | EHeader _ _ => st
  | EDelay d => MkMixState (mix_status st) (mix_body st) (wrap64 (totalDelay st + d))
  | EBody b => MkMixState (mix_status st) b (totalDelay st)
  end.

Definition with_headers (hs : list (string * string)) (s : World) : World :=
  set_wr (set_header (set_all hs) (wr s)) s.

Lemma with_headers_nil s : with_headers [] s = s.
Proof.
  unfold with_headers. change (set_all []) with (id : headers → headers).
  by rewrite set_header_id, set_wr_id.
Qed.

Lemma with_headers_cons nv hs s :
  with_headers hs (set_wr (set_header (Header_Set nv.1 nv.2) (wr s)) s) = with_headers (nv :: hs) s.
Proof. unfold with_headers. cbn. by rewrite set_header_compose. Qed.

Section Refinement.
Context `{GoStd} (h : HTTPBin).

Lemma decodeMixBody_never_panics v w : decodeMixBody v ≠ Panic w.
Proof. unfold decodeMixBody. by destruct (DecodeString URLEncoding v), (DecodeString StdEncoding v). Qed.

Lemma meaning_never_panics d w : meaning h d ≠ Panic w.
Proof.
  unfold meaning. destruct (kind d); cbn.
  - destruct (parseStatusCode (value d)) eqn:E; try done. by apply parseStatusCode_never_panics in E.
  - destruct (Cut ":" (value d)) as [[n v] []]; [|done]. by destruct (isAllowedMixHeader _).
  - destruct (parseBoundedDuration _ _ _) eqn:E; try done.
    by apply parseBoundedDuration_never_panics in E.
  - destruct (decodeMixBody (value d)) eqn:E; try done. by apply decodeMixBody_never_panics in E.
Qed.

Lemma mixStep_meaning st d s :
  mixStep h st d s =
  match meaning h d with
  | Ok e => (Ok (apply_effect st e), with_headers (set_headers [e]) s)
  | Err e => (Err e, s)
  | Panic w => (Panic w, s)
  end.
Proof.
  unfold mixStep, meaning. destruct (kind d); unfold mbind, GoM_bind, lift.
  - destruct (parseStatusCode (value d)); cbn; by rewrite ?with_headers_nil.
  - destruct (Cut ":" (value d)) as [[n v] []]; [|done].
    by destruct (isAllowedMixHeader (RemoveChars CRLF n)).
  - destruct (parseBoundedDuration _ _ _); cbn; by rewrite ?with_headers_nil.
  - destruct (decodeMixBody (value d)); cbn; by rewrite ?with_headers_nil.
Qed.

Lemma mixLoop_meanings l st s :
  let '(es, err) := meanings h l in
  mixLoop h st l s =
  (match err with None => Ok (foldl apply_effect st es) | Some e => Err e end,
   with_headers (set_headers es) s).
Proof.
  revert st s. induction l as [|d l IH]; intros st s; cbn [meanings mixLoop].
  - cbn. by rewrite with_headers_nil.
  - unfold mbind, GoM_bind. rewrite mixStep_meaning.
    destruct (meaning h d) as [e|e|w] eqn:E; [| |by apply meaning_never_panics in E].
    + specialize (IH (apply_effect st e) (with_headers (set_headers [e]) s)).
      destruct (meanings h l) as [es err]. rewrite IH. f_equal.
      destruct e; cbn; rewrite ?with_headers_nil; try done. apply (with_headers_cons (_, _)).
    + cbn. by rewrite with_headers_nil.
Qed.

(** *** Well-formed effects *)

Definition effect_ok (e : effect) : Prop :=
  match e with
  | EStatus c => 100 ≤ c ≤ 599
  | EHeader n v => header_ok (n, v)
  | EDelay d => 0 ≤ d ≤ MaxDuration h
  | EBody _ => True
  end.

Lemma fmap_Ok {E A B} (f : A → B) (m : outcome E A) b :
  f <$> m = Ok b ↔ ∃ a, m = Ok a ∧ b = f a.
Proof. destruct m; cbn; split; try (by intros (?&[=]&?)); try done; [intros [= <-]; eauto|by intros (?&[= ->]&->)]. Qed.

Lemma map_err_Ok {E E' A} (f : E → E') (m : outcome E A) a : map_err f m = Ok a ↔ m = Ok a.
Proof. destruct m; cbn; split; congruence. Qed.

Lemma meaning_ok d e : meaning h d = Ok e → effect_ok e.
Proof.
  unfold meaning. destruct (kind d).
  - intros (c & Hc%map_err_Ok & ->)%fmap_Ok. by apply parseStatusCode_Ok in Hc as [].
  - destruct (Cut ":" (value d)) as [[n v] []]; [|done]. cbv zeta.
    destruct (isAllowedMixHeader (RemoveChars CRLF n)) eqn:E; [|done]. intros [= <-].
    split; cbn [fst]; [by intros Hn; rewrite Hn in E|]. split; [done|]. split; apply RemoveChars_none.
  - intros (c & Hc%map_err_Ok & ->)%fmap_Ok. by apply parseBoundedDuration_Ok in Hc as [].
  - by intros (c & _ & ->)%fmap_Ok.
Qed.

Lemma meanings_ok l : Forall effect_ok (meanings h l).1.
Proof.
  induction l as [|d l IH]; cbn; [done|]. destruct (meaning h d) as [e|e|w] eqn:E; [|done..].
  destruct (meanings h l). constructor; [by eapply meaning_ok|done].
Qed.

Lemma meanings_length l : (length (meanings h l).1 ≤ length l)%nat.
Proof.
  induction l as [|d l IH]; cbn; [lia|]. destruct (meaning h d); cbn; [|lia..].
  destruct (meanings h l). cbn in *. lia.
Qed.

Lemma parse_segments_length segs ds :
  parse_segments segs = Ok ds → (length ds ≤ length segs)%nat.
Proof.
  revert ds. induction segs as [|seg segs IH]; intros ds; cbn [parse_segments length].
  - intros [= <-]. cbn. lia.
  - destruct (String.eqb seg ""); [intros Hd; apply IH in Hd; lia|].
    destruct (Cut "=" seg) as [[k v] []]; [|done]. destruct (mix_kind k); [|done].
    intros (ds' & Hd & [= <-])%outcome_bind_Ok. apply IH in Hd. cbn. lia.
Qed.

Lemma parseMixDirectives_length path ds :
  parseMixDirectives path = Ok ds → (length ds ≤ 20)%nat.
Proof.
  unfold parseMixDirectives. cbv zeta. destruct (_ || _); [intros [= <-]; cbn; lia|].
  destruct (20 <? _) eqn:E; [done|]. reflect_bools. intros Hd%parse_segments_length. lia.
Qed.

Lemma parse_segments_never_panics segs w : parse_segments segs ≠ Panic w.
Proof.
  induction segs as [|seg segs IH]; cbn [parse_segments]; [done|].
  destruct (String.eqb seg ""); [done|]. destruct (Cut "=" seg) as [[k v] []]; [|done].
  destruct (mix_kind k); [|done]. destruct (parse_segments segs); cbn; congruence.
Qed.

Lemma parseMixDirectives_never_panics path w : parseMixDirectives path ≠ Panic w.
Proof.
  unfold parseMixDirectives. cbv zeta. destruct (_ || _); [done|].
  destruct (20 <? _); [done|]. apply parse_segments_never_panics.
Qed.

Lemma last_cons_default {A} (l : list A) (a d : A) :
  default d (last (a :: l)) = default a (last l).
Proof. rewrite last_cons. by destruct (last l). Qed.

(** Twenty delays of the maximum do not overflow a [Duration] (14 years). *)
Context (Hmax : 0 ≤ MaxDuration h ≤ 2 ^ 58).

Lemma sum_delays_cons e es :
  sum (delays (e :: es)) = (match e with EDelay d => d | _ => 0 end) + sum (delays es).
Proof. by destruct e. Qed.

Lemma sum_delays_bound es :
  Forall effect_ok es → 0 ≤ sum (delays es) ≤ MaxDuration h * Z.of_nat (length es).
Proof.
  induction 1 as [|e es He _ IH]; [cbn; lia|]. cbn [length]. rewrite Nat2Z.inj_succ, sum_delays_cons.
  destruct e as [c|n v|d|b]; cbn [effect_ok] in He; lia.
Qed.

Lemma fold_effects es st :
  Forall effect_ok es → 0 ≤ totalDelay st →
  totalDelay st + MaxDuration h * Z.of_nat (length es) ≤ maxInt64 →
  foldl apply_effect st es =
  MkMixState (default (mix_status st) (last (statuses es)))
    (default (mix_body st) (last (bodies es))) (totalDelay st + sum (delays es)).
Proof.
  intros Hes. revert st. induction Hes as [|e es He Hes IH]; intros [c0 b0 t0] H0 Hb; cbn [totalDelay] in *.
  - cbn. f_equal. lia.
  - cbn [foldl length] in *. rewrite Nat2Z.inj_succ in Hb. rewrite sum_delays_cons.
    pose proof (sum_delays_bound es Hes). unfold maxInt64 in *.
    destruct e as [c|n v|d|b]; cbn [apply_effect effect_ok] in *; cbn [mix_status mix_body totalDelay];
      rewrite IH; cbn [mix_status mix_body totalDelay]; unwrap64; try lia;
      cbn [statuses bodies omap list_omap]; fold (statuses es); fold (bodies es);
      f_equal; rewrite ?last_cons_default; done || lia.
Qed.

(** *** The response *)

Lemma mixRespond_fresh st s :
  final (mix_status st) → fresh s →
  ∃ s', mixRespond st s = (Ok tt, s') ∧ status (wr s') = Some (mix_status st) ∧ now s' = now s ∧
    ∀ k, CanonicalHeaderKey k ≠ CanonicalHeaderKey "Content-Length" →
      Header_Get k (sent (wr s')) = Header_Get k (rHeader (base (wr s))).
Proof.
  intros Hc [Ht Hs]. unfold mixRespond, mbind, GoM_bind, WriteHeader.
  destruct (w_WriteHeader_final _ (wr s) Hc Ht Hs) as (w1 & E1 & Hw1 & Ht1).
  pose proof (w_WriteHeader_base _ _ _ Ht E1) as Eb. destruct (nonempty (mix_body st)); rewrite E1.
  - unfold Write. cbn [wr set_wr].
    destruct (w_Write_sent (mix_body st) w1 _ Ht1 Hw1) as (n & w2 & E2 & Hw2 & Ht2). rewrite E2.
    eexists. split; [done|]. split; [done|]. split; [done|]. intros k Hk. cbn [wr set_wr].
    rewrite (w_Write_header _ _ _ _ _ Ht1 Hw1 E2). by eapply base_WriteHeader_header.
  - eexists. split; [done|]. split; [done|]. split; [done|]. intros k Hk. cbn [wr set_wr].
    by eapply base_WriteHeader_header.
Qed.

(** What the client gets for the effects [es] in the state [s]. *)
Definition delivers (es : list effect) (s s' : World) : Prop :=
  now s' = now s + sum (delays es) ∧
  (final (final_status es) →
     status (wr s') = Some (final_status es) ∧
     ∀ k, CanonicalHeaderKey k ≠ CanonicalHeaderKey "Content-Length" →
       Header_Get k (sent (wr s')) = Header_Get k (set_all (set_headers es) (rHeader (base (wr s))))).

(** [r] is [mixRespond] after the headers and a wait. *)
Lemma mixFinish_delivers es s :
  fresh s → Forall effect_ok es → sum (delays es) ≤ MaxDuration h →
  let st := MkMixState (final_status es) (final_body es) (sum (delays es)) in
  let '(o, s') := mixFinish h st (with_headers (set_headers es) s) in
  (final (final_status es) → o = Ok tt) ∧
  (delivers es s s' ∨
   (∃ t, gone s = Some t ∧ t < now s + sum (delays es) ∧ now s' = Z.max (now s) t ∧
      status (wr s') = None)).
Proof.
  intros Hf Hes Hb st. unfold mixFinish, delivers.
  change (totalDelay st) with (sum (delays es)). ztest.
  set (s0 := with_headers _ s).
  assert (fresh s0) as Hf0 by (by apply fresh_header).
  assert (∀ s1 : World, wr s1 = wr s0 → now s1 = now s + sum (delays es) →
    let '(o, s') := mixRespond st s1 in
    (final (final_status es) → o = Ok tt) ∧ now s' = now s + sum (delays es) ∧
    (final (final_status es) →
       status (wr s') = Some (final_status es) ∧
       ∀ k, CanonicalHeaderKey k ≠ CanonicalHeaderKey "Content-Length" →
         Header_Get k (sent (wr s'))
         = Header_Get k (set_all (set_headers es) (rHeader (base (wr s)))))) as Hgo.
  { intros s1 Hw Hn. assert (now (mixRespond st s1).2 = now s1) as Hn1.
    { unfold mixRespond, mbind, GoM_bind, WriteHeader, Write.
      by repeat case_match; simplify_eq. }
    destruct (mixRespond st s1) as [o s'] eqn:E. cbn [snd] in Hn1. split.
    - intros Hfin. destruct (mixRespond_fresh st s1 Hfin) as (s2 & E2 & _);
        [by destruct Hf0 as [? ?]; split; rewrite Hw|]. congruence.
    - split; [lia|]. intros Hfin.
      destruct (mixRespond_fresh st s1 Hfin) as (s2 & E2 & H1 & _ & H2);
        [by destruct Hf0 as [? ?]; split; rewrite Hw|]. assert (s2 = s') as <- by congruence.
      split; [done|]. intros k Hk. rewrite (H2 k Hk), Hw. unfold s0, with_headers.
      cbn [wr set_wr]. by rewrite rHeader_set_header. }
  destruct (0 <? sum (delays es)) eqn:E0; reflect_bools.
  - unfold mbind, GoM_bind, Sleep. change (gone s0) with (gone s). change (now s0) with (now s).
    destruct (gone s) as [t|] eqn:Eg.
    + destruct (t <? now s + sum (delays es)) eqn:Et; reflect_bools.
      * cbn. split; [done|]. right. exists t. by destruct Hf0 as [_ ?].
      * pose proof (Hgo (set_now (now s + sum (delays es)) s0) eq_refl eq_refl) as Hr.
        destruct (mixRespond st _) as [o s']. naive_solver.
    + pose proof (Hgo (set_now (now s + sum (delays es)) s0) eq_refl eq_refl) as Hr.
      destruct (mixRespond st _) as [o s']. naive_solver.
  - pose proof (sum_delays_bound es Hes).
    pose proof (Hgo s0 eq_refl ltac:(change (now s0) with (now s); lia)) as Hr.
    destruct (mixRespond st _) as [o s']. naive_solver.
Qed.

(** (C2) [/mix] does what its directives mean.  A path that does not parse, a directive
    without a meaning or a total delay above the maximum is answered with 400 at once.
    Otherwise the handler waits for the sum of the delays and answers with the last
    status and every header, all of them allowed and free of CR and LF; a client that
    goes away while it waits gets nothing. *)
Theorem Mix_refines s :
  fresh s →
  let refused := ∃ s', Mix h s = (Ok tt, s') ∧ status (wr s') = Some 400 ∧ now s' = now s in
  match parseMixDirectives (Path (URL (req s))) with
  | Panic _ => False
  | Err _ => refused
  | Ok ds =>
      let '(es, err) := meanings h ds in
      Forall header_ok (set_headers es) ∧
      match err with
      | Some _ => refused
      | None =>
          if MaxDuration h <? sum (delays es) then refused
          else let '(o, s') := Mix h s in
            (final (final_status es) → o = Ok tt) ∧
            (delivers es s s' ∨
             (∃ t, gone s = Some t ∧ t < now s + sum (delays es) ∧ now s' = Z.max (now s) t ∧
                status (wr s') = None))
      end
  end.
Proof.
  intros Hf refused. subst refused. unfold Mix. unfold mbind, GoM_bind, get_req.
  destruct (parseMixDirectives (Path (URL (req s)))) as [ds|e|w] eqn:Ep;
    [| |by apply parseMixDirectives_never_panics in Ep].
  - pose proof (meanings_ok ds) as Hok. pose proof (meanings_length ds) as Hlen.
    pose proof (parseMixDirectives_length _ _ Ep) as H20.
    pose proof (mixLoop_meanings ds (MkMixState 200 "" 0) s) as Hl.
    destruct (meanings h ds) as [es err]. cbn [fst] in *. split.
    { clear -Hok. induction Hok as [|e es He _ IH]; [constructor|].
      destruct e; cbn; try done. by constructor. }
    unfold try_, lift. rewrite Hl.
    assert (fresh (with_headers (set_headers es) s)) as Hf0 by (by apply fresh_header).
    destruct err as [e|].
    + destruct (writeError_fresh 400 (Some e) _ ltac:(by apply final_200) Hf0) as (s' & -> & []).
      eauto.
    + assert (0 ≤ MaxDuration h * Z.of_nat (length es) ≤ 2 ^ 63 - 1) as Hn by nia.
      rewrite fold_effects by (cbn [totalDelay]; unfold maxInt64; done || lia).
      cbn [mix_status mix_body totalDelay]. rewrite Z.add_0_l.
      destruct (MaxDuration h <? sum (delays es)) eqn:Em; reflect_bools.
      * unfold mixFinish. cbn [totalDelay]. ztest.
        destruct (writeError_fresh 400 (Some (Errorf "total delay %s exceeds maximum %s"
          [ADur (sum (delays es)); ADur (MaxDuration h)])) _ ltac:(by apply final_200) Hf0)
          as (s' & -> & []). eauto.
      * by apply mixFinish_delivers.
  - unfold try_, lift.
    destruct (writeError_fresh 400 (Some e) s ltac:(by apply final_200) Hf) as (s' & -> & []). eauto.
Qed.
End Refinement.

(** ** [Mix] is a handler *)

#[export] Instance Handles_mixStep `{GoStd} h st d : Handles (mixStep h st d).
Proof. unfold mixStep. handler. Qed.
#[export] Instance Handles_mixLoop `{GoStd} h st l : Handles (mixLoop h st l).
Proof. revert st. induction l; intros st; cbn [mixLoop]; handler. Qed.
#[export] Instance Handles_mixFinish `{GoStd} h st : Handles (mixFinish h st).
Proof. unfold mixFinish, mixRespond. handler. Qed.
#[export] Instance Handles_Mix `{GoStd} h : Handles (Mix h).
Proof. unfold Mix. handler. Qed.

#[export] Typeclasses Opaque mixStep mixLoop mixFinish Mix.

(** ** Witness *)

Definition mix_request : World := GET "/mix/s=418/d=1s/h=x-a:b/b64=aGk=/d=500ms".

Lemma Mix_refines_witness :
  let es := [EStatus 418; EDelay Second; EHeader "x-a" "b"; EBody "hi"; EDelay (500 * Millisecond)] in
  let '(o, s') := Mix sample_bin mix_request in
  o = Ok tt ∧ delivers es mix_request s' ∧ status (wr s') = Some 418 ∧ now s' = 1500 * Millisecond.
Proof.
  pose proof (Mix_refines sample_bin ltac:(by_computation) mix_request ltac:(by split)) as E.
  cbv zeta in E.
  replace (parseMixDirectives (Path (URL (req mix_request))))
    with (Ok (E := gerror) [MkMixDirective KStatus "418"; MkMixDirective KDelay "1s";
           MkMixDirective KHeader "x-a:b"; MkMixDirective KBody "aGk="; MkMixDirective KDelay "500ms"])
    in E by (vm_compute; reflexivity).
  set (es := (meanings _ _)) in E.
  assert (es = ([EStatus 418; EDelay Second; EHeader "x-a" "b"; EBody "hi";
                 EDelay (500 * Millisecond)], None)) as Ees by (vm_compute; reflexivity).
  rewrite Ees in E. destruct E as [_ E].
  replace (MaxDuration sample_bin <? _) with false in E by (vm_compute; reflexivity).
  destruct (Mix sample_bin mix_request) as [o s']. destruct E as [Ho E].
  assert (final 418) as Hfin by (apply final_200; lia).
  split; [exact (Ho Hfin)|]. destruct E as [E|(t & Ht & _)]; [|discriminate Ht].
  split; [exact E|]. destruct E as [E1 E2]. split; [exact (proj1 (E2 Hfin))|].
  rewrite E1. vm_compute. reflexivity.
Defined.
