(* ===== verification/Auth.v ===== *)
(** * Auth: basic, bearer and digest authentication

    The handlers of [handlers.go] that check an [Authorization] header. *)

From S2P Require Import Prelude GoStrings GoNum GoFloat GoFmt Base64 Json Responses GoURL Http Digest.
From S2P Require Import Bin Handlers.

(** [r.BasicAuth()] *)
Definition parseBasicAuth (auth : string) : option (string * string) :=
  if (slen auth <? 6) || negb (String.eqb (lower_ascii_str (stake 6 auth)) "basic ") then None
  else match DecodeString StdEncoding (sdrop 6 auth) with
       | Ok c => match Cut ":" (of_bytes c) with
                 | (username, password, true) => Some (username, password)
                 | _ => None
                 end
       | _ => None
       end.

Definition BasicAuth_of (r : Request) : option (string * string) :=
  let auth := Header_Get "Authorization" (RHeader r) in
  if String.eqb auth "" then None else parseBasicAuth auth.

Section Auth.
Context `{GoStd, Runtime, Hashes} (h : HTTPBin).

Definition BasicAuth : HandlerFunc :=
  r ← get_req;
  let '(givenUser, givenPass) := default ("", "") (BasicAuth_of r) in
  let authorized := String.eqb givenUser (PathValue "user" r)
                    && String.eqb givenPass (PathValue "password" r) in
  _ ← (if negb authorized then SetHeader "WWW-Authenticate" fakeRealm else mret tt);
  writeJSON (if authorized then 200 else 401) (authResponse authorized givenUser).

Definition HiddenBasicAuth : HandlerFunc :=
  r ← get_req;
  let '(givenUser, givenPass) := default ("", "") (BasicAuth_of r) in
  let authorized := String.eqb givenUser (PathValue "user" r)
                    && String.eqb givenPass (PathValue "password" r) in
  if negb authorized then writeError 404 None
  else writeJSON 200 (authResponse authorized givenUser).

Definition Bearer : HandlerFunc :=
  r ← get_req;
  match Fields (Header_Get "Authorization" (RHeader r)) with
  | [scheme; token] =>
      if String.eqb scheme "Bearer"
      then writeJSON 200 (bearerResponse true token)
      else _ ← SetHeader "WWW-Authenticate" "Bearer"; writeError 401 None
  | _ => _ ← SetHeader "WWW-Authenticate" "Bearer"; writeError 401 None
  end.

Definition DigestAuth : HandlerFunc :=
  r ← get_req;
  let qop := ToLower (PathValue "qop" r) in
  let user := PathValue "user" r in
  let password := PathValue "password" r in
  let algoName := ToUpper (PathValue "algorithm" r) in
  let algoName := if String.eqb algoName "" then "MD5" else algoName in
  if negb (String.eqb qop "auth") then
    writeError 400 (Some (Errorf ("invalid QOP directive: %q != " +:+ DQUOTE +:+ "auth" +:+ DQUOTE)
      [AStr qop]))
  else if negb (String.eqb algoName "MD5") && negb (String.eqb algoName "SHA-256") then
    writeError 400 (Some (Errorf "invalid algorithm: %s must be one of MD5 or SHA-256" [AStr algoName]))
  else
    let algorithm := if String.eqb algoName "SHA-256" then SHA256 else MD5 in
    ok ← lift (Check r user password);
    if negb ok then
      entropy ← rand_Read 32;
      t ← time_Now;
      _ ← SetHeader "WWW-Authenticate" (Challenge entropy (formatTime t) "go-httpbin" algorithm);
      writeError 401 None
    else writeJSON 200 (authResponse true user).
End Auth.
