(* ===== verification/Redirects.v ===== *)
(** * Redirects: chains of redirects, links and other small endpoints

    The remaining handlers of [handlers.go] that answer at once: the redirects
    that count down, the pages of links, caching headers, content negotiation. *)

From S2P Require Import Prelude GoStrings GoNum GoFloat GoTime GoFmt Json Responses GoURL GoNet.
From S2P Require Import Http Digest Delay ClientIP Bin Pipeline Handlers.

Section Redirects.
Context `{GoStd, Runtime} (h : HTTPBin).

Definition redirectLocation (r : Request) (relative : bool) (n : Z) : string :=
  let path :=
    if n <? 1 then "/get"
    else if relative then "/relative-redirect/" +:+ Itoa n
    else "/absolute-redirect/" +:+ Itoa n in
  if relative then path
  else Url_String (set_RawQuery "" (set_Path path (getURL r))).

Definition handleRedirect (relative : bool) : HandlerFunc :=
  r ← get_req;
  match AtoiE (PathValue "numRedirects" r) with
  | Err e => writeError 400 (Some (Errorf "invalid redirect count: %w" [AErr e]))
  | Panic w => panic w
  | Ok n =>
      if n <? 1 then writeError 400 (Some (New "redirect count must be > 0"))
      else doRedirect h (redirectLocation r relative (wrap64 (n - 1))) 302
  end.

Definition Redirect : HandlerFunc :=
  r ← get_req;
  let relative := negb (String.eqb (ToLower (Values_Get "absolute" (Query (URL r)))) "true") in
  handleRedirect relative.

Definition RelativeRedirect : HandlerFunc := handleRedirect true.
Definition AbsoluteRedirect : HandlerFunc := handleRedirect false.

(** ** Links *)

Fixpoint linkItems (n offset : Z) (is_ : list Z) : M unit :=
  match is_ with
  | [] => mret tt
  | i :: is' =>
      _ ← Write (if i =? offset then Itoa i +:+ " "
                 else anchor (prefix h +:+ "/links/" +:+ Itoa n +:+ "/" +:+ Itoa i) (Itoa i) +:+ " ");
      linkItems n offset is'
  end.

(** [range n]: the integers from 0, none when [n] is not positive. *)
Definition range (n : Z) : list Z := map Z.of_nat (seq 0 (Z.to_nat n)).

Definition doLinksPage (n offset : Z) : HandlerFunc :=
  _ ← AddHeader "Content-Type" htmlContentType;
  _ ← WriteHeader 200;
  _ ← Write "<html><head><title>Links</title></head><body>";
  _ ← linkItems n offset (range n);
  Write "</body></html>".

Definition LinksHandler : HandlerFunc :=
  r ← get_req;
  match AtoiE (PathValue "numLinks" r) with
  | Err e => writeError 400 (Some (Errorf "invalid link count: %w" [AErr e]))
  | Panic w => panic w
  | Ok n =>
      if (n <? 0) || (256 <? n)
      then writeError 400 (Some (Errorf "invalid link count: %d must be in range [0, 256]" [AInt n]))
      else if nonempty (PathValue "offset" r) then
        match AtoiE (PathValue "offset" r) with
        | Err e => writeError 400 (Some (Errorf "invalid offset: %w" [AErr e]))
        | Panic w => panic w
        | Ok offset => doLinksPage n offset
        end
      else
        _ ← modify_req (λ r, set_URL (set_Path (Path (URL r) +:+ "/0") (URL r)) r);
        r' ← get_req;
        doRedirect h (Url_String (URL r')) 302
  end.

(** ** Fixed pages and echoes of the server *)

Definition HTML : HandlerFunc := b ← mustStaticAsset "moby.html"; writeHTML b 200.
Definition Robots : HandlerFunc :=
  writeResponse 200 textContentType (lines ["User-agent: *"; "Disallow: /deny"; ""]).
Definition Deny : HandlerFunc := writeResponse 200 textContentType "YOU SHOULDN'T BE HERE".
Definition XML : HandlerFunc := b ← mustStaticAsset "sample.xml"; writeResponse 200 "application/xml" b.
Definition JSON : HandlerFunc :=
  _ ← SetHeader "Content-Type" jsonContentType;
  _ ← WriteHeader 200;
  b ← mustStaticAsset "sample.json"; Write b.
Definition Hostname : HandlerFunc := writeJSON 200 (hostnameResponse (hostname h)).
Definition Version : HandlerFunc :=
  writeJSON 200 (versionResponse (version h) GoVersion).

(** [uuidv4]: the version and variant bits over random bytes. *)
Definition uuid_bytes (buff : list byte) : list byte :=
  let at_ i := byte_Z (nth i buff Byte.x00) in
  <[8%nat := Z_byte (Z.lor (Z.land (at_ 8%nat) 0x3f) 0x80)]>
    (<[6%nat := Z_byte (Z.lor (Z.land (at_ 6%nat) 0x0f) 0x40)]> buff).

Definition uuidv4 : M string :=
  buff ← rand_Read 16;
  let b := uuid_bytes buff in
  mret (hex_bytes (take 4 b) +:+ "-" +:+ hex_bytes (take 2 (drop 4 b)) +:+ "-" +:+ hex_bytes (take 2 (drop 6 b))
        +:+ "-" +:+ hex_bytes (take 2 (drop 8 b)) +:+ "-" +:+ hex_bytes (drop 10 b)).

Definition UUID : HandlerFunc := u ← uuidv4; writeJSON 200 (uuidResponse u).

(** ** Caching *)

Definition sha1hash (input : string) : string := hex_bytes (sha1_Sum (to_bytes input)).

Definition CacheHandler : HandlerFunc :=
  r ← get_req;
  if nonempty (Header_Get "If-Modified-Since" (RHeader r))
     || nonempty (Header_Get "If-None-Match" (RHeader r))
  then WriteHeader 304
  else
    t ← time_Now;
    let lastModified := formatRFC1123 t in
    _ ← AddHeader "Last-Modified" lastModified;
    _ ← AddHeader "ETag" (sha1hash lastModified);
    Get h.

Definition CacheControlHandler : HandlerFunc :=
  r ← get_req;
  match ParseIntE (PathValue "numSeconds" r) with
  | Err e => writeError 400 (Some (Errorf "invalid seconds: %w" [AErr e]))
  | Panic w => panic w
  | Ok seconds => _ ← AddHeader "Cache-Control" ("public, max-age=" +:+ Itoa seconds); Get h
  end.

(** ** Images *)

Definition doImageHandler (kind : string) : HandlerFunc :=
  match staticAsset ("image." +:+ kind) with
  | None => writeError 404 None
  | Some img =>
      writeResponse 200 (if String.eqb kind "svg" then "image/svg+xml" else "image/" +:+ kind) img
  end.

(** The kind that [ImageAccept] chooses. *)
Definition acceptKind (accept : string) : option string :=
  if String.eqb accept "" then Some "png"
  else if Contains accept "image/*" then Some "png"
  else if Contains accept "image/png" then Some "png"
  else if Contains accept "image/webp" then Some "webp"
  else if Contains accept "image/svg+xml" then Some "svg"
  else if Contains accept "image/jpeg" then Some "jpeg"
  else if Contains accept "image/avif" then Some "avif"
  else None.

(** ** Problem details *)

(** [w.(interface{ StatusOverride() int })] *)
Definition StatusOverride : M (option Z) := λ s,
  (Ok (match wr s with OverrideRW _ c _ => Some c | _ => None end), s).

Definition ProblemDetails : HandlerFunc :=
  r ← get_req;
  let q := Query (URL r) in
  let rawStatus := Values_Get "status" q in
  ow ← StatusOverride;
  let respond (status : Z) : M unit :=
    let or k d := if nonempty (Values_Get k q) then Values_Get k q else d in
    _ ← SetHeader "Content-Type" problemContentType;
    _ ← WriteHeader status;
    mustMarshalJSON (problemDetailResponse (or "type" "about:blank") (or "title" (StatusText status)) status
                       (Values_Get "detail" q) (Values_Get "instance" q)) in
  if nonempty rawStatus then
    try_ (lift (parseStatusCode rawStatus)) (λ e, writeError 400 (Some e)) respond
  else respond (default 200 ow).

(** ** Content negotiation *)

Record acceptEntry := MkAcceptEntry { mediaType : string; quality : float64 }.

Fixpoint param_quality (q : float64) (params : list string) : float64 :=
  match params with
  | [] => q
  | p :: params' =>
      let p := TrimSpace p in
      let q' := if HasPrefix p "q=" then
                  match ParseFloat (TrimPrefix p "q=") with Ok x => x | _ => q end
                else q in
      param_quality q' params'
  end.

Definition accept_entry (part : string) : acceptEntry :=
  let '(mt, params, _) := Cut ";" part in
  MkAcceptEntry (TrimSpace mt)
    (if nonempty params then param_quality fone (Split ";" params) else fone).

Fixpoint accept_entries (parts : list string) : list acceptEntry :=
  match parts with
  | [] => []
  | part :: parts' =>
      let part := TrimSpace part in
      if String.eqb part "" then accept_entries parts'
      else accept_entry part :: accept_entries parts'
  end.

(** [sort.Slice] by falling quality: insertion from the right for at most twelve entries;
    for more, what the library makes of their qualities. *)
Fixpoint insert_back (x : acceptEntry) (rev_sorted : list acceptEntry) : list acceptEntry :=
  match rev_sorted with
  | [] => [x]
  | y :: l => if fltb (quality y) (quality x) then y :: insert_back x l else x :: rev_sorted
  end.

Definition sort_entries (l : list acceptEntry) : list acceptEntry :=
  if (length l <=? 12)%nat then rev (foldl (λ acc x, insert_back x acc) [] l)
  else omap (λ i, l !! i) (pdqsort (map quality l)).

Definition parseAcceptHeader (accept : string) : list acceptEntry :=
  if String.eqb accept "" then [] else sort_entries (accept_entries (Split "," accept)).

Definition negotiateTypes (mt : string) : option string :=
  assoc mt [("application/json", jsonContentType); ("text/html", htmlContentType);
            ("text/plain", textContentType); ("application/xml", "application/xml; charset=utf-8");
            ("image/png", "image/png")].

Fixpoint negotiate (entries : list acceptEntry) : option string :=
  match entries with
  | [] => None
  | e :: l =>
      if String.eqb (mediaType e) "*/*" then Some jsonContentType
      else match negotiateTypes (mediaType e) with Some ct => Some ct | None => negotiate l end
  end.

Definition Negotiate : HandlerFunc :=
  r ← get_req;
  let accept := Header_Get "Accept" (RHeader r) in
  let entries := parseAcceptHeader accept in
  _ ← SetHeader "Vary" "Accept";
  let found := match entries with [] => Some jsonContentType | _ => negotiate entries end in
  match found with
  | Some ct => writeJSON 200 (JObj [("content_type", JStr ct)])
  | None => writeError 406 (Some (Errorf "no matching content type for Accept: %s" [AStr accept]))
  end.
End Redirects.
