(* ===== verification/Images.v ===== *)
(** * Images: generated images and their handlers

    [generateImage] of [helpers.go], and [Image] and [ImageAccept] of [handlers.go].
    The encoders of the image formats and the system that runs converters are the class
    [ImageCodecs]; products and sums of floats are not fused. *)

From S2P Require Import Prelude GoStrings GoNum GoFloat GoTime GoFmt Json GoURL GoNet GoRand.
From S2P Require Import Converters Digest Cache Http Delay ClientIP Bin Pipeline Handlers Redirects.

(** [image.RGBA]: a square, its pixels by rows, four bytes each. *)
Record RGBA := MkRGBA { side : Z; Pix : list Z }.

Class ImageCodecs := {
  png_Encode : RGBA → gerror + string;
  jpeg_Encode : Z → RGBA → gerror + string;        (* by quality *)
  tool : Z → converterConfig → string → toolAnswers;
}.

(** ** Generation *)

Definition fsqrt : float64 → float64 := SFsqrt 53 1024.
Definition float_int (x : float64) : Z := default 0 (ftrunc x).

(** The side of a square of so many pixels. *)
Definition imageSide (pixelCount : Z) : Z :=
  let side := float_int (fsqrt (of_Z pixelCount)) in
  if side <? 1 then 1 else if 4096 <? side then 4096 else side.

Section Generate.
Context `{Rand}.

(** One component of a pixel: [base ^ rng.Intn(noise)]. *)
Definition noisy (noise base : Z) (g : rng) : Z * rng :=
  let '(k, g) := Intn noise g in (Z.lxor base k mod 256, g).

(** [uint8(float64(a)*(1-t) + float64(b)*t)] *)
Definition blend (a b : Z) (t : float64) : Z :=
  float_int (fadd (fmul (of_Z a) (fsub fone t)) (fmul (of_Z b) t)) mod 256.

Definition pixelBase (grad : gradientConfig) (side x y : Z) : Z * Z * Z :=
  if String.eqb (g_Name grad) "default" then
    (Z.quot (x * 255) side, Z.quot (y * 255) side, Z.quot ((x + y) * 127) side)
  else
    let fx := fdiv (of_Z x) (of_Z side) in
    let fy := fdiv (of_Z y) (of_Z side) in
    let t := fdiv (fadd fx fy) (of_Z 2) in
    let '(r1, g1, b1) := g_Color1 grad in
    let '(r2, g2, b2) := g_Color2 grad in
    (blend r1 r2 t, blend g1 g2 t, blend b1 b2 t).

Definition noiseAmp (grad : gradientConfig) : Z := if g_Noise grad <? 1 then 1 else g_Noise grad.

Definition pixel (grad : gradientConfig) (side x y : Z) (g : rng) : list Z * rng :=
  let '(r0, g0, b0) := pixelBase grad side x y in
  let '(r, g) := noisy (noiseAmp grad) r0 g in
  let '(gr, g) := noisy (noiseAmp grad) g0 g in
  let '(b, g) := noisy (noiseAmp grad) b0 g in
  ([r; gr; b; 255], g).

(** The loop over the columns from [x] on, [n] left; then the loop over the rows.  The
    offsets [y*stride + x*4] follow each other. *)
Fixpoint imageRow (grad : gradientConfig) (side y : Z) (n : nat) (x : Z) (g : rng) : list Z * rng :=
  match n with
  | O => ([], g)
  | S n =>
      let '(p, g) := pixel grad side x y g in
      let '(rest, g) := imageRow grad side y n (x + 1) g in (p ++ rest, g)
  end.

Fixpoint imageRows (grad : gradientConfig) (side : Z) (n : nat) (y : Z) (g : rng) : list Z * rng :=
  match n with
  | O => ([], g)
  | S n =>
      let '(row, g) := imageRow grad side y (Z.to_nat side) 0 g in
      let '(rest, g) := imageRows grad side n (y + 1) g in (row ++ rest, g)
  end.

Definition drawImage (pixelCount : Z) (grad : gradientConfig) (seed : Z) : RGBA :=
  let side := imageSide pixelCount in
  MkRGBA side (imageRows grad side (Z.to_nat side) 0 (NewSource seed)).1.

Definition encoded (contentType : string) (r : gerror + string) : outcome gerror (string * string) :=
  match r with inl e => Err e | inr data => Ok (data, contentType) end.

(** The data of the image and its type. *)
Definition generateImage `{ImageCodecs} (format : string) (targetSize : Z) (grad : gradientConfig)
    (seed : Z) : outcome gerror (string * string) :=
  if String.eqb format "png" then encoded "image/png" (png_Encode (drawImage targetSize grad seed))
  else if String.eqb format "jpeg"
  then encoded "image/jpeg" (jpeg_Encode 85 (drawImage (targetSize * 2) grad seed))
  else Err (Errorf "unsupported format for generation: %s" [AStr format]).
End Generate.

Example imageSide_ex : map imageSide [0; 51200; 512000; 2 * 2097152; 10 ^ 9] = [1; 226; 715; 2048; 4096].
Proof. vm_compute. reflexivity. Qed.

(** ** The handlers *)

Definition imageExtToHandlerKind (ext : string) : option string :=
  if String.eqb ext ".png" then Some "png"
  else if String.eqb ext ".jpeg" then Some "jpeg"
  else if String.eqb ext ".jpg" then Some "jpeg"
  else if String.eqb ext ".svg" then Some "svg"
  else if String.eqb ext ".webp" then Some "webp"
  else if String.eqb ext ".avif" then Some "avif"
  else None.

Definition imageTarget (size : string) : outcome gerror Z :=
  if String.eqb size "small" then Ok (50 * 1024)
  else if String.eqb size "medium" then Ok (500 * 1024)
  else if String.eqb size "large" then Ok (2 * 1024 * 1024)
  else Err (Errorf "invalid size %q: must be small, medium, or large" [AStr size]).

Definition converted (kind : string) : bool := String.eqb kind "avif" || String.eqb kind "webp".

(** The format that is generated: a PNG where it is converted. *)
Definition genFormat (kind : string) : string := if converted kind then "png" else kind.

Definition sha1hashBytes `{Runtime} (data : string) : string := hex_bytes (sha1_Sum (to_bytes data)).

Section Handlers.
Context `{GoStd, Runtime, Rand, ImageCodecs} (h : HTTPBin).

Definition imgCache_get (key : imageCacheKey) : M (option imageCacheEntry) := λ s,
  (Ok (cache_get key (c_images (caches s))), s).

Definition imgCache_put (key : imageCacheKey) (entry : imageCacheEntry) : M unit := λ s,
  let c := c_images (caches s) in
  let order := iteration_order (rnd s (rndi s)) (c_entries c) in
  (Ok tt, MkWorld (req s) (wr s) (now s) (gone s) (rnd s) (S (rndi s))
            (MkCaches (cache_put order key entry c) (c_documents (caches s))) (link s)).

(** The system answers each conversion anew. *)
Definition runTool (conv : converterConfig) (pngData : string) : M (outcome gerror string) := λ s,
  (Ok (convertImageFormat (tool (rnd s (rndi s)) conv pngData) pngData conv).1,
   MkWorld (req s) (wr s) (now s) (gone s) (rnd s) (S (rndi s)) (caches s) (link s)).

Definition seedOf (nocache : bool) : M Z := if nocache then time_Now else mret 42.

(** The status of an error and the error. *)
Definition convertImage (kind : string) (image : string * string) : M (Z * gerror + string * string) :=
  if converted kind then
    match imageConverters h !! kind with
    | None => mret (inl (501, Errorf "no %s conversion tool available; install avifenc/cwebp/magick/ffmpeg"
                                [AStr kind]))
    | Some conv =>
        result ← runTool conv image.1;
        match result with
        | Ok data => mret (inr (data, "image/" +:+ kind))
        | Err e => mret (inl (500, e))
        | Panic w => panic w
        end
    end
  else mret (inr image).

Definition imageETag (data : string) : string := DQUOTE +:+ sha1hashBytes data +:+ DQUOTE.

Definition sizedImage (kind : string) (nocache : bool) (grad : gradientConfig) (targetSize : Z) : HandlerFunc :=
  if String.eqb (genFormat kind) "png" || String.eqb (genFormat kind) "jpeg" then
    seed ← seedOf nocache;
    let key := MkImageCacheKey kind targetSize grad in
    hit ← (if nocache then mret None else imgCache_get key);
    match hit with
    | Some entry =>
        _ ← SetHeader "Cache-Control" "public, max-age=86400";
        _ ← SetHeader "ETag" (ie_etag entry);
        writeResponse 200 (ie_contentType entry) (ie_data entry)
    | None =>
        try_ (lift (generateImage (genFormat kind) targetSize grad seed)) (λ e, writeError 500 (Some e)) (λ image,
        result ← convertImage kind image;
        match result with
        | inl (code, e) => writeError code (Some e)
        | inr (data, contentType) =>
            _ ← (if nocache then SetHeader "Cache-Control" "no-cache, no-store, must-revalidate"
                 else
                   _ ← imgCache_put key (MkImageCacheEntry data contentType (imageETag data));
                   _ ← SetHeader "Cache-Control" "public, max-age=86400";
                   SetHeader "ETag" (imageETag data));
            writeResponse 200 contentType data
        end)
    end
  else
    writeError 400 (Some (Errorf "size parameter only supported for png, jpeg, avif, and webp, not %s"
                            [AStr kind])).

(** A vanity name like photo.png stands for a kind. *)
Definition vanityKind (kind : string) : option string := imageExtToHandlerKind (ToLower (Ext kind)).

Definition ImageHandler : HandlerFunc :=
  r ← get_req;
  let name := PathValue "kind" r in
  let kind := default name (vanityKind name) in
  _ ← match vanityKind name with
      | Some resolved => modify_req (SetPathValue "kind" resolved)
      | None => mret tt
      end;
  let params := Query (URL r) in
  try_ (lift (parseGradientConfig params)) (λ e, writeError 400 (Some e)) (λ grad,
  let nocache := String.eqb (Values_Get "nocache" params) "1" || String.eqb (Values_Get "no-cache" params) "1" in
  let sizeParam := Values_Get "size" params in
  if nonempty sizeParam then
    try_ (lift (imageTarget sizeParam)) (λ e, writeError 400 (Some e)) (sizedImage kind nocache grad)
  else doImageHandler kind).

Definition ImageAcceptHandler : HandlerFunc :=
  r ← get_req;
  match acceptKind (Header_Get "Accept" (RHeader r)) with
  | None => writeError 415 None
  | Some kind =>
      let params := Query (URL r) in
      if nonempty (Values_Get "size" params) || nonempty (Values_Get "gradient" params)
         || nonempty (Values_Get "color1" params)
      then _ ← modify_req (SetPathValue "kind" kind); ImageHandler
      else doImageHandler kind
  end.
End Handlers.
