(* ===== verification/Streams.v ===== *)
(** * Streams: responses written over time or in pieces

    [Drip], [Bytes] and [StreamBytes], [Stream] and [SSE] of [handlers.go], and the
    synthetic byte stream of [helpers.go] behind [Range].  Writing takes no time, so
    a ticker fires one pause after the previous event. *)

From S2P Require Import Prelude GoStrings GoNum GoFloat GoTime GoFmt Json Responses GoURL GoNet.
From S2P Require Import RateLimit Http Delay ClientIP Bin Handlers.

(** [time.NewTicker(d)] panics unless [0 < d]. *)
Definition NewTicker (d : Z) : M unit :=
  if d <=? 0 then panic "non-positive interval for NewTicker" else mret tt.

(** An optional query parameter: its default, or what [parse] makes of it. *)
Definition optional {A} (raw : string) (def : A) (parse : string → M A) : M A :=
  if nonempty raw then parse raw else mret def.

Definition wrap_err {A} (format : string) (m : outcome gerror A) : M A :=
  lift (map_err (λ e, Errorf format [AErr e]) m).

Section Streams.
Context `{GoStd, Runtime} (h : HTTPBin).

(** ** Drip *)

Fixpoint repeat_string (n : nat) (s : string) : string :=
  match n with O => "" | S n' => s +:+ repeat_string n' s end.

(** The byte-by-byte loop: no pause after the last of the [n] bytes. *)
Fixpoint dripLoop (n : nat) (pause : Z) : M unit :=
  match n with
  | O => mret tt
  | S n' =>
      _ ← Write "*";
      _ ← Flush;
      if (n' =? 0)%nat then mret tt
      else
        tick ← Sleep pause;
        if (tick : bool) then dripLoop n' pause else mret tt
  end.

Definition dripTimings (duration delay pause : Z) : string :=
  encodeServerTimings
    [MkServerTiming "total_duration" (wrap64 (delay + duration)) "total request duration";
     MkServerTiming "initial_delay" delay "initial delay";
     MkServerTiming "write_duration" duration "duration of writes after initial delay";
     MkServerTiming "pause_per_write" pause "computed pause between writes"].

Definition dripWrite (duration delay numBytes code : Z) : M unit :=
  let pause := computePausePerWrite duration numBytes in
  _ ← SetHeader "Content-Type" textContentType;
  _ ← SetHeader "Content-Length" (Itoa numBytes);
  _ ← SetHeader "Server-Timing" (dripTimings duration delay pause);
  _ ← WriteHeader code;
  if pause =? 0 then
    if numBytes <? 0 then panic "bytes: negative Repeat count"
    else Write (repeat_string (Z.to_nat numBytes) "*")
  else _ ← NewTicker pause; dripLoop (Z.to_nat numBytes) pause.

Record dripParams := MkDripParams {
  drip_duration : Z;
  drip_delay : Z;
  drip_numBytes : Z;
  drip_code : Z;
}.

Definition parseDrip (q : values) : M dripParams :=
  duration ← optional (Values_Get "duration" q) (DripDuration (DefaultParams_ h))
    (λ v, wrap_err "invalid duration: %w" (parseBoundedDuration v 0 (MaxDuration h)));
  delay ← optional (Values_Get "delay" q) (DripDelay (DefaultParams_ h))
    (λ v, wrap_err "invalid delay: %w" (parseBoundedDuration v 0 (MaxDuration h)));
  numBytes ← optional (Values_Get "numbytes" q) (DripNumBytes (DefaultParams_ h))
    (λ v, n ← wrap_err "invalid numbytes: %w" (ParseIntE v);
          if (n <? 1) || (MaxBodySize h <? n)
          then throw (Errorf "invalid numbytes: %d not in range [1, %d]"
                        [AInt n; AInt (MaxBodySize h)])
          else mret n);
  code ← optional (Values_Get "code" q) 200 (λ v, lift (parseStatusCode v));
  if MaxDuration h <? wrap64 (duration + delay)
  then throw (Errorf "too much time: %v+%v > %v" [ADur duration; ADur delay; ADur (MaxDuration h)])
  else mret (MkDripParams duration delay numBytes code).

Definition dripRun (p : dripParams) : M unit :=
  let write := dripWrite (drip_duration p) (drip_delay p) (drip_numBytes p) (drip_code p) in
  if 0 <? drip_delay p then
    elapsed ← Sleep (drip_delay p);
    if (elapsed : bool) then write else WriteHeader 499
  else write.

Definition Drip : HandlerFunc :=
  r ← get_req;
  try_ (parseDrip (Query (URL r))) (λ e, writeError 400 (Some e)) dripRun.

(** ** Bytes *)

Definition writeChunk (streaming : bool) (chunk : list byte) : M unit :=
  _ ← Write (of_bytes chunk);
  if streaming then Flush else mret tt.

(** The loop over the random bytes [i], [i+1], ...; [chunk] is the chunk so far. *)
Fixpoint bytesLoop (streaming : bool) (chunkSize : Z) (rng : nat → Z) (n i : nat)
    (chunk : list byte) : M unit :=
  match n with
  | O => if (0 <? length chunk)%nat then writeChunk streaming chunk else mret tt
  | S n' =>
      let chunk := chunk ++ [rng_byte rng i] in
      if blen chunk =? chunkSize
      then _ ← writeChunk streaming chunk; bytesLoop streaming chunkSize rng n' (S i) []
      else bytesLoop streaming chunkSize rng n' (S i) chunk
  end.

Definition handleBytes (streaming : bool) : HandlerFunc :=
  r ← get_req;
  let q := Query (URL r) in
  let fail e := writeError 400 (Some e) in
  try_ (wrap_err "invalid byte count: %w" (AtoiE (PathValue "numBytes" r))) fail (λ numBytes,
  try_ (parseSeed (Values_Get "seed" q))
    (λ e, fail (Errorf "invalid seed: %w" [AErr e])) (λ rng,
  if numBytes <? 0 then
    fail (Errorf "invalid byte count: %d must be greater than 0" [AInt numBytes])
  else if numBytes =? 0 then
    _ ← SetHeader "Content-Length" "0"; WriteHeader 200
  else if MaxBodySize h <? numBytes then
    fail (Errorf "invalid byte count: %d not in range [1, %d]" [AInt numBytes; AInt (MaxBodySize h)])
  else
    let chunkSize : M Z :=
      if streaming
      then optional (Values_Get "chunk_size" q) (10 * 1024)
             (λ v, wrap_err "invalid chunk_size: %w" (AtoiE v))
      else _ ← SetHeader "Content-Length" (Itoa numBytes); mret numBytes in
    try_ chunkSize fail (λ chunkSize,
    _ ← SetHeader "Content-Type" binaryContentType;
    _ ← WriteHeader 200;
    bytesLoop streaming chunkSize rng (Z.to_nat numBytes) 0 []))).

Definition BytesHandler : HandlerFunc := handleBytes false.
Definition StreamBytes : HandlerFunc := handleBytes true.

(** ** Stream *)

Fixpoint streamLoop (fields : list (string * json)) (ids : list Z) : M unit :=
  match ids with
  | [] => mret tt
  | i :: ids' =>
      _ ← Write (Marshal (streamResponse i fields) +:+ str1 LF);
      _ ← Flush;
      streamLoop fields ids'
  end.

Definition clampLines (n : Z) : Z := if 100 <? n then 100 else if n <? 1 then 1 else n.

Definition Stream : HandlerFunc :=
  r ← get_req;
  try_ (wrap_err "invalid count: %w" (AtoiE (PathValue "numLines" r)))
    (λ e, writeError 400 (Some e)) (λ n,
  hs ← getRequestHeaders (excludeHeadersProcessor h);
  r' ← get_req;
  streamLoop (streamFields (Query (URL r')) hs (h_getClientIP h r') (Url_String (getURL r')))
    (map Z.of_nat (seq 0 (Z.to_nat (clampLines n))))).

(** ** Server-sent events *)

Definition NL : string := str1 LF.

Definition writeServerSentEvent (id ts : Z) (eventName : string) : M unit :=
  _ ← Write ("id: " +:+ Itoa id +:+ NL);
  _ ← Write (if nonempty eventName
             then "event: " +:+ RemoveChars (str1 CR) (RemoveChars NL eventName) +:+ NL
             else "event: ping" +:+ NL);
  _ ← Write "data: ";
  _ ← Write (Marshal (serverSentEvent id (ts / Millisecond)) +:+ NL);
  Write NL.

Record sseParams := MkSSEParams {
  sse_count : Z;
  sse_duration : Z;
  sse_delay : Z;
  sse_event : string;
  sse_retry : Z;
  sse_failAfter : Z;
  sse_lastEventID : Z;
}.

Definition parseSSE (r : Request) (q : values) : M sseParams :=
  count ← optional (Values_Get "count" q) (SSECount (DefaultParams_ h))
    (λ v, n ← wrap_err "invalid count: %w" (AtoiE v);
          if (n <? 1) || (maxSSECount h <? n)
          then throw (Errorf "invalid count: must in range [1, %d]" [AInt (maxSSECount h)])
          else mret n);
  duration ← optional (Values_Get "duration" q) (SSEDuration (DefaultParams_ h))
    (λ v, wrap_err "invalid duration: %w" (parseBoundedDuration v 1 (MaxDuration h)));
  delay ← optional (Values_Get "delay" q) (SSEDelay (DefaultParams_ h))
    (λ v, wrap_err "invalid delay: %w" (parseBoundedDuration v 0 (MaxDuration h)));
  let event := RemoveChars (str1 CR) (RemoveChars NL (Values_Get "event" q)) in
  retry ← optional (Values_Get "retry" q) 0
    (λ v, match AtoiE v with
          | Ok n => if n <? 0 then throw (New "invalid retry: must be a non-negative integer")
                    else mret n
          | _ => throw (New "invalid retry: must be a non-negative integer")
          end);
  failAfter ← optional (Values_Get "fail_after" q) 0
    (λ v, match AtoiE v with
          | Ok n => if n <? 1 then throw (New "invalid fail_after: must be a positive integer")
                    else mret n
          | _ => throw (New "invalid fail_after: must be a positive integer")
          end);
  lastEventID ← optional (Header_Get "Last-Event-ID" (RHeader r)) 0
    (λ v, wrap_err "invalid Last-Event-ID: %w" (AtoiE v));
  mret (MkSSEParams count duration delay event retry failAfter lastEventID).

(** The events [i], [i+1], ... of which [n] remain. *)
Fixpoint sseLoop (p : sseParams) (startID pause : Z) (n : nat) (i : Z) : M unit :=
  match n with
  | O => mret tt
  | S n' =>
      if (0 <? sse_failAfter p) && (sse_failAfter p <=? i) then mret tt
      else
        t ← time_Now;
        _ ← writeServerSentEvent (wrap64 (startID + i)) t (sse_event p);
        _ ← Flush;
        if (n' =? 0)%nat then mret tt
        else
          tick ← Sleep pause;
          if (tick : bool) then sseLoop p startID pause n' (i + 1) else mret tt
  end.

Definition sseEvents (p : sseParams) (pause : Z) : M unit :=
  _ ← SetHeader "Content-Type" sseContentType;
  _ ← WriteHeader 200;
  _ ← (if 0 <? sse_retry p
       then _ ← Write ("retry: " +:+ Itoa (sse_retry p) +:+ NL +:+ NL); Flush
       else mret tt);
  let startID := wrap64 (sse_lastEventID p + 1) in
  if sse_count p =? 1 then
    t ← time_Now;
    _ ← writeServerSentEvent startID t (sse_event p);
    Flush
  else
    _ ← NewTicker pause;
    sseLoop p startID pause (Z.to_nat (sse_count p)) 0.

(** The deferred function: the trailer, also after a panic. *)
Definition deferred (m : M unit) (d : M unit) : M unit := λ s,
  let '(o, s1) := m s in
  match d s1 with
  | (Ok _, s2) => (o, s2)
  | (o2, s2) => (o2, s2)
  end.

Definition sseTrailer (start : Z) (p : sseParams) (pause : Z) : M unit :=
  t ← time_Now;
  AddHeader "Server-Timing" (encodeServerTimings
    [MkServerTiming "total_duration" (time_Sub t start) "total request duration";
     MkServerTiming "initial_delay" (sse_delay p) "initial delay";
     MkServerTiming "write_duration" (sse_duration p) "duration of writes after initial delay";
     MkServerTiming "pause_per_write" pause "computed pause between writes"]).

Definition sseRun (start : Z) (p : sseParams) : M unit :=
  if MaxDuration h <? wrap64 (sse_duration p + sse_delay p) then http_Error "Too much time" 400
  else
    let pause := computePausePerWrite (sse_duration p) (sse_count p) in
    let events : M unit :=
      _ ← AddHeader "Trailer" "Server-Timing";
      deferred (sseEvents p pause) (sseTrailer start p pause) in
    if 0 <? sse_delay p then
      elapsed ← Sleep (sse_delay p);
      if (elapsed : bool) then events else WriteHeader 499
    else events.

Definition SSE : HandlerFunc :=
  start ← time_Now;
  r ← get_req;
  try_ (parseSSE r (Query (URL r))) (λ e, writeError 400 (Some e)) (sseRun start).
End Streams.

(** ** The synthetic byte stream *)

Record syntheticByteStream := MkStream {
  st_size : Z;
  st_factory : Z → byte;
  st_pausePerByte : Z;
  st_offset : Z;
}.

(** [duration / time.Duration(size)] panics when the size is zero. *)
Definition newSyntheticByteStream (size duration : Z) (factory : Z → byte)
    : outcome gerror syntheticByteStream :=
  if size =? 0 then Panic "runtime error: integer divide by zero"
  else Ok (MkStream size factory (wrap64 (Z.quot duration size)) 0).

Record readResult := MkReadResult {
  rr_data : list byte;      (* what is written into the buffer, from its start *)
  rr_n : Z;
  rr_eof : bool;
  rr_pause : Z;             (* what [Read] sleeps *)
}.

(** [Read] into a buffer of [len] bytes. *)
Definition stream_Read (len : Z) (s : syntheticByteStream) : readResult * syntheticByteStream :=
  let start := st_offset s in
  let e := wrap64 (start + len) in
  let eof := st_size s <=? e in
  let e := if eof then st_size s else e in
  let data := map (λ i, st_factory s (start + Z.of_nat i)) (seq 0 (Z.to_nat (e - start))) in
  (MkReadResult data (wrap64 (e - start)) eof
     (if 0 <? st_pausePerByte s then wrap64 (st_pausePerByte s * wrap64 (e - start)) else 0),
   MkStream (st_size s) (st_factory s) (st_pausePerByte s) e).

Definition SeekStart : Z := 0.
Definition SeekCurrent : Z := 1.
Definition SeekEnd : Z := 2.

(** An offset that [Seek] refuses is stored all the same. *)
Definition stream_Seek (offset whence : Z) (s : syntheticByteStream)
    : outcome gerror Z * syntheticByteStream :=
  let to o :=
    (if o <? 0 then Err (New "Seek: invalid offset") else Ok o,
     MkStream (st_size s) (st_factory s) (st_pausePerByte s) o) in
  if whence =? SeekStart then to offset
  else if whence =? SeekCurrent then to (wrap64 (st_offset s + offset))
  else if whence =? SeekEnd then to (wrap64 (st_size s - offset))
  else (Err (New "Seek: invalid whence"), s).

(** The bytes of [Range]: the alphabet over and over. *)
Definition rangeByte (offset : Z) : byte := Z_byte (97 + Z.rem offset 26).
