(* ===== verification/ServeContent.v ===== *)
(** * ServeContent: [http.ServeContent], and the handlers [Range] and [ETag]

    The part of [net/http] that answers conditional and range requests, for contents
    behind the interface [io.ReadSeeker], and the two handlers of [handlers.go] that use
    it.  The parser of HTTP dates is the class [HttpTime]. *)

From S2P Require Import Prelude GoStrings GoNum GoFloat GoTime GoFmt Json GoURL GoNet Http Digest Delay.
From S2P Require Import ClientIP Bin Pipeline Cookies Handlers Streams.

(** ** [io.ReadSeeker] *)

Record ReadSeeker (S : Type) := MkReadSeeker {
  rs_Read : Z → S → list byte * bool * Z * S;    (* the bytes, [io.EOF], and what it sleeps *)
  rs_Seek : Z → Z → S → outcome gerror Z * S;    (* by offset and whence *)
}.
Arguments rs_Read {S}.
Arguments rs_Seek {S}.

Definition syntheticReader : ReadSeeker syntheticByteStream := {|
  rs_Read len s := let '(r, s') := stream_Read len s in (rr_data r, rr_eof r, rr_pause r, s');
  rs_Seek := stream_Seek |}.

(** [bytes.Reader]: the bytes and the position. *)
Definition bytesReader : ReadSeeker (list byte * Z) := {|
  rs_Read len '(l, i) :=
    if blen l <=? i then ([], true, 0, (l, i))
    else let data := take (Z.to_nat len) (drop (Z.to_nat i) l) in (data, false, 0, (l, i + blen data));
  rs_Seek offset whence '(l, i) :=
    let to o := if o <? 0 then (Err (New "bytes.Reader.Seek: negative position"), (l, i)) else (Ok o, (l, o)) in
    if whence =? SeekStart then to offset
    else if whence =? SeekCurrent then to (i + offset)
    else if whence =? SeekEnd then to (blen l + offset)
    else (Err (New "bytes.Reader.Seek: invalid whence"), (l, i)) |}.

(** ** Ranges *)

Record httpRange := MkRange { ra_start : Z; ra_length : Z }.

Inductive rangeError := ErrInvalidRange | ErrNoOverlap.

(** A non-negative number. *)
Definition range_number (s : string) : option Z :=
  match ParseInt 64 s with Ok i => if i <? 0 then None else Some i | _ => None end.

(** One range; [Ok None] when it starts after the end. *)
Definition parse_one_range (size : Z) (ra : string) : outcome rangeError (option httpRange) :=
  let '(start, stop, found) := Cut "-" ra in
  let start := TrimString start in
  let stop := TrimString stop in
  if negb found then Err ErrInvalidRange
  else if String.eqb start "" then
    if String.eqb stop "" || HasPrefix stop "-" then Err ErrInvalidRange
    else match range_number stop with
         | None => Err ErrInvalidRange
         | Some i => let i := Z.min i size in Ok (Some (MkRange (size - i) i))
         end
  else
    match range_number start with
    | None => Err ErrInvalidRange
    | Some i =>
        if size <=? i then Ok None
        else if String.eqb stop "" then Ok (Some (MkRange i (size - i)))
        else match ParseInt 64 stop with
             | Ok j => if j <? i then Err ErrInvalidRange
                       else Ok (Some (MkRange i (Z.min j (size - 1) - i + 1)))
             | _ => Err ErrInvalidRange
             end
    end.

Fixpoint parse_ranges (size : Z) (pieces : list string) : outcome rangeError (list httpRange * bool) :=
  match pieces with
  | [] => Ok ([], false)
  | ra :: pieces =>
      let ra := TrimString ra in
      if String.eqb ra "" then parse_ranges size pieces
      else
        r ← parse_one_range size ra;
        '(rs, noOverlap) ← parse_ranges size pieces;
        Ok (match r with Some r => (r :: rs, noOverlap) | None => (rs, true) end)
  end.

Definition parseRange (s : string) (size : Z) : outcome rangeError (list httpRange) :=
  if String.eqb s "" then Ok []
  else if negb (HasPrefix s "bytes=") then Err ErrInvalidRange
  else
    '(ranges, noOverlap) ← parse_ranges size (Split "," (TrimPrefix s "bytes="));
    match ranges with
    | [] => if (noOverlap : bool) then Err ErrNoOverlap else Ok []
    | _ => Ok ranges
    end.

Definition rangeErrorText (e : rangeError) : string :=
  match e with ErrInvalidRange => "invalid range" | ErrNoOverlap => "invalid range: failed to overlap" end.

Definition contentRange (r : httpRange) (size : Z) : string :=
  "bytes " +:+ Itoa (ra_start r) +:+ "-" +:+ Itoa (ra_start r + ra_length r - 1) +:+ "/" +:+ Itoa size.

Definition sumRangesSize (ranges : list httpRange) : Z := foldl (λ n r, wrap64 (n + ra_length r)) 0 ranges.

(** ** Conditional requests *)

Class HttpTime := { ParseTime : string → option Z }.       (* nanoseconds *)

Inductive condResult := condNone | condTrue | condFalse.

Definition etag_char (c : ascii) : bool :=
  let v := code c in (v =? 0x21) || ((0x23 <=? v) && (v <=? 0x7E)) || (0x80 <=? v).

(** The rest of a tag after its opening quote: the tag, closed, and what follows it. *)
Fixpoint scan_tag (s : string) : option (string * string) :=
  match s with
  | "" => None
  | String c s =>
      if String.eqb (str1 c) DQUOTE then Some (DQUOTE, s)
      else if etag_char c then
        match scan_tag s with Some (t, r) => Some (String c t, r) | None => None end
      else None
  end.

Definition scanETag (s : string) : option (string * string) :=
  let s := TrimString s in
  let weak := HasPrefix s "W/" in
  let body := if weak then sdrop 2 s else s in
  if HasPrefix body DQUOTE then
    match scan_tag (sdrop 1 body) with
    | Some (t, r) => Some ((if weak then "W/" else "") +:+ DQUOTE +:+ t, r)
    | None => None
    end
  else None.

Definition etagStrongMatch (a b : string) : bool := String.eqb a b && negb (String.eqb a "") && HasPrefix a DQUOTE.
Definition etagWeakMatch (a b : string) : bool := String.eqb (TrimPrefix a "W/") (TrimPrefix b "W/").

(** Whether one of the tags of a list matches; an asterisk always does. *)
Fixpoint tags_match (fuel : nat) (matches : string → bool) (s : string) : bool :=
  match fuel with
  | O => false
  | S fuel =>
      let s := TrimString s in
      match s with
      | "" => false
      | String c rest =>
          if Ascii.eqb c "," then tags_match fuel matches rest
          else if Ascii.eqb c "*" then true
          else match scanETag s with
               | None => false
               | Some (tag, remain) => matches tag || tags_match fuel matches remain
               end
      end
  end.
Definition tag_list (matches : string → bool) (s : string) : bool := tags_match (S (String.length s)) matches s.

Definition seconds (nanos : Z) : Z := nanos / Second.

Section Serve.
Context `{GoStd, Runtime, HttpTime}.

(** [None] is the zero time. *)
Implicit Type modtime : option Z.

Definition checkIfMatch (w r : headers) : condResult :=
  let im := Header_Get "If-Match" r in
  if String.eqb im "" then condNone
  else if tag_list (λ tag, etagStrongMatch tag (Header_Get "ETag" w)) im then condTrue else condFalse.

Definition checkIfUnmodifiedSince (r : headers) modtime : condResult :=
  let ius := Header_Get "If-Unmodified-Since" r in
  match modtime with
  | Some m => if String.eqb ius "" then condNone
              else match ParseTime ius with
                   | None => condNone
                   | Some t => if seconds m * Second <=? t then condTrue else condFalse
                   end
  | None => condNone
  end.

Definition checkIfNoneMatch (w r : headers) : condResult :=
  let inm := Header_Get "If-None-Match" r in
  if String.eqb inm "" then condNone
  else if tag_list (λ tag, etagWeakMatch tag (Header_Get "ETag" w)) inm then condFalse else condTrue.

Definition safe (method : string) : bool := String.eqb method "GET" || String.eqb method "HEAD".

Definition checkIfModifiedSince (method : string) (r : headers) modtime : condResult :=
  let ims := Header_Get "If-Modified-Since" r in
  match modtime with
  | Some m => if negb (safe method) || String.eqb ims "" then condNone
              else match ParseTime ims with
                   | None => condNone
                   | Some t => if seconds m * Second <=? t then condFalse else condTrue
                   end
  | None => condNone
  end.

Definition checkIfRange (method : string) (w r : headers) modtime : condResult :=
  let ir := Header_Get "If-Range" r in
  if negb (safe method) || String.eqb ir "" then condNone
  else match scanETag ir with
       | Some (tag, _) => if etagStrongMatch tag (Header_Get "ETag" w) then condTrue else condFalse
       | None =>
           match modtime, ParseTime ir with
           | Some m, Some t => if seconds t =? seconds m then condTrue else condFalse
           | _, _ => condFalse
           end
       end.

(** The status that ends the request, or the range header to obey. *)
Definition checkPreconditions (method : string) (w r : headers) modtime : Z + string :=
  let ch := match checkIfMatch w r with condNone => checkIfUnmodifiedSince r modtime | c => c end in
  match ch with
  | condFalse => inl 412
  | _ =>
      let rangeHeader :=
        let range := Header_Get "Range" r in
        if negb (String.eqb range "") &&
           match checkIfRange method w r modtime with condFalse => true | _ => false end
        then "" else range in
      match checkIfNoneMatch w r with
      | condFalse => inl (if safe method then 304 else 412)
      | condNone => match checkIfModifiedSince method r modtime with
                    | condFalse => inl 304
                    | _ => inr rangeHeader
                    end
      | condTrue => inr rangeHeader
      end
  end.
End Serve.

(** ** Writing *)

(** [w.Write(b)] with its count. *)
Definition WriteCount (b : string) : M Z := λ s,
  match w_Write b (wr s) with
  | Ok (n, w) => (Ok n, set_wr w s)
  | Err e => (Err e, s)
  | Panic p => (Panic p, s)
  end.

(** [time.Sleep] *)
Definition time_Sleep (d : Z) : M unit := λ s, (Ok tt, set_now (now s + Z.max 0 d) s).

(** Write all of [b]; whether it was accepted. *)
Definition WriteAll (b : string) : M bool := n ← WriteCount b; mret (slen b <=? n).

Section Content.
Context {S : Type} (rs : ReadSeeker S).

(** [io.CopyN]: buffers of 32 KB; the state of the content after it, and whether
    everything was written. *)
Fixpoint copyN (fuel : nat) (left : Z) (st : S) : M (bool * S) :=
  match fuel with
  | O => mret (true, st)
  | Datatypes.S fuel =>
      if left <=? 0 then mret (true, st)
      else
        let '(data, eof, pause, st) := rs_Read rs (Z.min left 32768) st in
        _ ← time_Sleep pause;
        ok ← (match data with [] => mret true | _ => WriteAll (of_bytes data) end : M bool);
        if negb ok then mret (false, st)
        else if eof then mret (true, st)
        else copyN fuel (left - blen data) st
  end.

(** One more read than there are bytes is enough. *)
Definition CopyN (n : Z) (st : S) : M (bool * S) := copyN (Datatypes.S (Z.to_nat n)) n st.

Definition CRLF : string := str1 CR +:+ str1 LF.

(** The header of a part of a multipart body. *)
Definition partHeader (first : bool) (boundary ctype : string) (size : Z) (r : httpRange) : string :=
  (if first then "" else CRLF) +:+ "--" +:+ boundary +:+ CRLF
  +:+ "Content-Range: " +:+ contentRange r size +:+ CRLF
  +:+ "Content-Type: " +:+ ctype +:+ CRLF +:+ CRLF.
Definition closing (boundary : string) : string := CRLF +:+ "--" +:+ boundary +:+ "--" +:+ CRLF.

(** [rangesMIMESize] *)
Definition rangesMIMESize (boundary ctype : string) (size : Z) (ranges : list httpRange) : Z :=
  foldl Z.add 0 (imap (λ i r, slen (partHeader (i =? 0)%nat boundary ctype size r) + ra_length r) ranges)
  + slen (closing boundary).

Fixpoint copyParts (first : bool) (boundary ctype : string) (size : Z) (ranges : list httpRange) (st : S) : M unit :=
  match ranges with
  | [] => _ ← WriteAll (closing boundary); mret tt
  | r :: ranges =>
      ok ← WriteAll (partHeader first boundary ctype size r);
      if negb ok then mret tt
      else
        let '(res, st) := rs_Seek rs (ra_start r) SeekStart st in
        match res with
        | Ok _ =>
            '(ok, st) ← CopyN (ra_length r) st;
            if negb (ok : bool) then mret tt else copyParts false boundary ctype size ranges st
        | _ => mret tt
        end
  end.

Section Serve.
Context `{GoStd, Runtime, HttpTime}.

Definition serveError (text : string) (code : Z) : M unit :=
  _ ← header_op (λ h, foldr Header_Del h ["Cache-Control"; "Content-Encoding"; "Etag"; "Last-Modified"]);
  http_Error text code.

Definition writeNotModified : M unit :=
  _ ← header_op (λ h,
        let h := foldr Header_Del h ["Content-Type"; "Content-Length"; "Content-Encoding"] in
        if nonempty (Header_Get "Etag" h) then Header_Del "Last-Modified" h else h);
  WriteHeader 304.

(** The size of the content, which is then at its start. *)
Definition contentSize (st : S) : outcome gerror Z * S :=
  let '(size, st) := rs_Seek rs 0 SeekEnd st in
  match size with
  | Ok n => let '(r, st) := rs_Seek rs 0 SeekStart st in
            (match r with Ok _ => Ok n | _ => Err (New "seeker can't seek") end, st)
  | _ => (Err (New "seeker can't seek"), st)
  end.

(** The headers and the status of a content of so many bytes, and the bytes unless they
    are not asked for. *)
Definition sendContent (code sendSize : Z) (ranges : bool) (send : M unit) : M unit :=
  _ ← SetHeader "Accept-Ranges" "bytes";
  hs ← get_header;
  _ ← (if ranges || negb (nonempty (Header_Get "Content-Encoding" hs))
       then SetHeader "Content-Length" (Itoa sendSize) else mret tt);
  _ ← WriteHeader code;
  r ← get_req;
  if String.eqb (Method r) "HEAD" then mret tt else send.

Definition serveRanges (ranges : list httpRange) (size : Z) (st : S) : M unit :=
  hs ← get_header;
  let ctype := Header_Get "Content-Type" hs in
  match ranges with
  | [] => sendContent 200 size false (_ ← CopyN size st; mret tt)
  | [ra] =>
      let '(res, st) := rs_Seek rs (ra_start ra) SeekStart st in
      match res with
      | Err e => serveError (Error e) 416
      | Panic w => panic w
      | Ok _ =>
          _ ← SetHeader "Content-Range" (contentRange ra size);
          sendContent 206 (ra_length ra) true (_ ← CopyN (ra_length ra) st; mret tt)
      end
  | _ =>
      b ← rand_Read 30;
      let boundary := hex_bytes b in
      _ ← SetHeader "Content-Type" ("multipart/byteranges; boundary=" +:+ boundary);
      sendContent 206 (rangesMIMESize boundary ctype size ranges) true
        (copyParts true boundary ctype size ranges st)
  end.

(** The content type is set by the callers. *)
Definition ServeContent (modtime : option Z) (st : S) : M unit :=
  _ ← match modtime with Some t => SetHeader "Last-Modified" (formatHTTP t) | None => mret tt end;
  r ← get_req;
  hs ← get_header;
  match checkPreconditions (Method r) hs (RHeader r) modtime with
  | inl code => if code =? 304 then writeNotModified else WriteHeader code
  | inr rangeReq =>
      let '(size, st) := contentSize st in
      match size with
      | Err e => serveError (Error e) 500
      | Panic w => panic w
      | Ok size =>
          match parseRange rangeReq size with
          | Ok ranges => serveRanges (if size <? sumRangesSize ranges then [] else ranges) size st
          | Err ErrNoOverlap =>
              if size =? 0 then serveRanges [] size st
              else
                _ ← SetHeader "Content-Range" ("bytes */" +:+ Itoa size);
                serveError (rangeErrorText ErrNoOverlap) 416
          | Err e => serveError (rangeErrorText e) 416
          | Panic w => panic w
          end
      end
  end.
End Serve.
End Content.

(** ** The handlers *)

Section Handlers.
Context `{GoStd, Runtime, HttpTime} (h : HTTPBin).

Definition rangeDuration (q : values) : outcome gerror Z :=
  let raw := Values_Get "duration" q in
  if nonempty raw
  then map_err (λ e, Errorf "invalid duration: %w" [AErr e]) (parseBoundedDuration raw 0 (MaxDuration h))
  else Ok 0.

Definition Range : HandlerFunc :=
  r ← get_req;
  try_ (lift (ParseIntE (PathValue "numBytes" r)))
    (λ e, writeError 400 (Some (Errorf "invalid count: %w" [AErr e]))) (λ numBytes,
  try_ (lift (rangeDuration (Query (URL r)))) (λ e, writeError 400 (Some e)) (λ duration,
  _ ← AddHeader "ETag" ("range" +:+ Itoa numBytes);
  _ ← AddHeader "Accept-Ranges" "bytes";
  _ ← SetHeader "Content-Type" textContentType;
  if (numBytes <=? 0) || (MaxBodySize h <? numBytes)
  then writeError 400 (Some (Errorf "invalid count: %d not in range [1, %d]" [AInt numBytes; AInt (MaxBodySize h)]))
  else
    content ← lift (newSyntheticByteStream numBytes duration rangeByte);
    ServeContent syntheticReader None content)).

Definition ETag : HandlerFunc :=
  r ← get_req;
  _ ← SetHeader "ETag" (DQUOTE +:+ PathValue "etag" r +:+ DQUOTE);
  _ ← SetHeader "Content-Type" textContentType;
  fs ← noBodyResponse h;
  t ← time_Now;
  ServeContent bytesReader (Some t) (to_bytes (Encode (JObj fs)), 0).
End Handlers.
