(* ===== verification/StreamsSpec.v ===== *)
(** * StreamsSpec: what is written over time, byte by byte

    [Drip] writes exactly the bytes it announces, in at least the time it was asked
    for; [Bytes] and [StreamBytes] write the same bytes whatever the chunks; the
    synthetic stream reads the same whatever the buffers. *)

From S2P Require Import Prelude GoStrings GoNum GoFloat GoTime GoFmt Json GoURL GoNet.
From S2P Require Import RateLimit Http HttpLaws Handles Bodies Delay DelaySpec ClientIP Bin Pipeline.
From S2P Require Import Samples Handlers Streams.

(** ** Starting a response *)

Lemma declared_length_del h : declared_length (Header_Del "Content-Length" h) = None.
Proof.
  unfold declared_length, Header_Get, Header_Del. rewrite lookup_delete_eq. reflexivity.
Qed.

Lemma declared_length_set n h :
  0 ≤ n ≤ maxInt64 → declared_length (Header_Set "Content-Length" (Itoa n) h) = Some n.
Proof.
  unfold maxInt64. intros Hn. unfold declared_length. rewrite Header_Get_Set.
  pose proof (Atoi_Itoa n) as E. unfold Atoi in E. rewrite E by (unfold in_int64, minInt64, maxInt64; lia).
  by ztest.
Qed.

Lemma declared_length_ne k v h :
  CanonicalHeaderKey "Content-Length" ≠ CanonicalHeaderKey k →
  declared_length (Header_Set k v h) = declared_length h.
Proof. intros Hk. unfold declared_length. by rewrite Header_Get_Set_ne. Qed.

Lemma base_WriteHeader_declared c r r1 :
  final c → rStatus r = None → base_WriteHeader c r = Ok r1 →
  contentLength r1 = declared_length (rHeader r).
Proof.
  intros [Hc Hi] Hr. unfold base_WriteHeader. rewrite Hr, Hi. ztest. cbn [orb]. intros [= <-].
  cbn [contentLength]. destruct (declared_length (rHeader r)) eqn:E; [done|].
  apply declared_length_del.
Qed.

(** A response to start: nothing is sent or written. *)
Record startable (s : World) : Prop := {
  start_direct : direct (wr s);
  start_status : status (wr s) = None;
  start_body : body (wr s) = "";
}.

Lemma startable_fresh s : startable s → fresh s.
Proof. intros []. split; [by apply direct_transparent|done]. Qed.

Lemma startable_header f s : startable s → startable (set_wr (set_header f (wr s)) s).
Proof.
  intros []. split; cbn; [|by rewrite set_header_status|by rewrite set_header_body].
  by eapply same_shape_direct, start_direct0; apply set_header_shape.
Qed.

Lemma WriteHeader_opens c s :
  final c → bodyAllowed c = true → startable s →
  ∃ s', WriteHeader c s = (Ok tt, s') ∧ body_open c (wr s') ∧ body (wr s') = "" ∧
    declared (wr s') = declared_length (rHeader (base (wr s))) ∧ now s' = now s ∧ gone s' = gone s.
Proof.
  intros Hc Hb [Hp Hs He]. unfold WriteHeader.
  destruct (w_WriteHeader_final c (wr s) Hc (direct_transparent _ Hp) Hs) as (w & E & Hw & _).
  rewrite E. eexists. split; [done|]. cbn [wr set_wr]. split.
  { split; try done. eapply same_shape_direct, Hp. by eapply w_WriteHeader_shape. }
  split; [by rewrite (w_WriteHeader_body _ _ _ E)|]. split; [|done].
  apply w_WriteHeader_base in E; [|by apply direct_transparent].
  by apply (base_WriteHeader_declared c).
Qed.

(** ** Drip *)

Lemma repeat_string_length n : slen (repeat_string n "*") = Z.of_nat n.
Proof.
  induction n as [|n IH]; [done|]. cbn [repeat_string]. rewrite slen_app, IH.
  change (slen "*") with 1. lia.
Qed.

Lemma dripLoop_appends n pause c s :
  0 < pause → body_open c (wr s) → room (Z.of_nat (S n)) (wr s) → stays (Z.of_nat n * pause) s →
  ∃ s', dripLoop (S n) pause s = (Ok tt, s') ∧
    appended c (repeat_string (S n) "*") (Z.of_nat n * pause) s s'.
Proof.
  intros Hp. revert s. induction n as [|n IH]; intros s Ho Hr Hs.
  - cbn [dripLoop]. unfold mbind, GoM_bind.
    destruct (Write_appends "*" c s Ho Hr) as (s1 & -> & A1).
    destruct (Flush_appends c s1 (app_open _ _ _ _ _ A1)) as (s2 & -> & A2).
    exists s2. split; [done|]. exact (appended_trans _ _ _ _ _ _ _ _ A1 A2).
  - change (dripLoop (S (S n)) pause) with
      (_ ← Write "*"; _ ← Flush; tick ← Sleep pause;
       if (tick : bool) then dripLoop (S n) pause else mret tt).
    unfold mbind, GoM_bind.
    destruct (Write_appends "*" c s Ho) as (s1 & -> & A1); [by eapply room_mono, Hr; change (slen "*") with 1; lia|].
    destruct (Flush_appends c s1 (app_open _ _ _ _ _ A1)) as (s2 & -> & A2).
    pose proof (appended_trans _ _ _ _ _ _ _ _ A1 A2) as A12.
    destruct (Sleep_appends pause c s2 (app_open _ _ _ _ _ A2)) as (s3 & -> & A3).
    { intros t Ht. rewrite (app_gone _ _ _ _ _ A12) in Ht. specialize (Hs t Ht).
      rewrite (app_now _ _ _ _ _ A12). nia. }
    pose proof (appended_trans _ _ _ _ _ _ _ _ A12 A3) as A13.
    destruct (IH s3 (app_open _ _ _ _ _ A3)) as (s4 & -> & A4).
    { eapply appended_room; [exact A13|]. eapply room_mono, Hr.
      rewrite !slen_app. change (slen "*") with 1. change (slen "") with 0. lia. }
    { intros t Ht. rewrite (app_gone _ _ _ _ _ A13) in Ht. specialize (Hs t Ht).
      rewrite (app_now _ _ _ _ _ A13). nia. }
    exists s4. split; [done|]. pose proof (appended_trans _ _ _ _ _ _ _ _ A13 A4) as A.
    replace (Z.of_nat (S n) * pause) with (0 + 0 + pause + Z.of_nat n * pause) by nia. exact A.
Qed.

Section Drip.
Context `{GoStd, Runtime} (h : HTTPBin).

(** A configuration whose defaults are sensible: no parameter can overflow. *)
Record drip_defaults : Prop := {
  dd_duration : 0 ≤ DripDuration (DefaultParams_ h) ≤ 2 ^ 61;
  dd_delay : 0 ≤ DripDelay (DefaultParams_ h) ≤ 2 ^ 61;
  dd_numBytes : 1 ≤ DripNumBytes (DefaultParams_ h) ≤ 2 ^ 61;
  dd_maxDuration : 0 ≤ MaxDuration h ≤ 2 ^ 61;
  dd_maxBodySize : MaxBodySize h ≤ 2 ^ 61;
}.

Record drip_ok (p : dripParams) : Prop := {
  dok_duration : 0 ≤ drip_duration p;
  dok_delay : 0 ≤ drip_delay p;
  dok_total : drip_duration p + drip_delay p ≤ MaxDuration h;
  dok_numBytes : 1 ≤ drip_numBytes p ≤ 2 ^ 61;
  dok_code : 100 ≤ drip_code p ≤ 599;
}.

(** A parser of parameters: no panic, no effect, and what it accepts is as told. *)
Definition parses {A} (P : A → Prop) (m : M A) : Prop :=
  ∀ s, match m s with
       | (Ok a, s') => s' = s ∧ P a
       | (Err _, s') => s' = s
       | (Panic _, _) => False
       end.

Lemma parses_bind {A B} P Q (m : M A) (k : A → M B) :
  parses P m → (∀ a, P a → parses Q (k a)) → parses Q (m ≫= k).
Proof.
  intros Hm Hk s. unfold mbind, GoM_bind. specialize (Hm s). destruct (m s) as [[a|e|w] s1]; [|done..].
  destruct Hm as [-> Ha]. by apply Hk.
Qed.

Lemma parses_ret {A} (P : A → Prop) a : P a → parses P (mret a).
Proof. by intros Ha s. Qed.
Lemma parses_throw {A} (P : A → Prop) e : parses P (throw e).
Proof. by intros s. Qed.

Lemma parses_lift {A} (P : A → Prop) (o : outcome gerror A) :
  (∀ a, o = Ok a → P a) → (∀ w, o ≠ Panic w) → parses P (lift o).
Proof. intros Ho Hw s. unfold lift. destruct o; [by split; [|apply Ho]|done|by eapply Hw]. Qed.

Lemma parses_wrap_err {A} (P : A → Prop) f (o : outcome gerror A) :
  (∀ a, o = Ok a → P a) → (∀ w, o ≠ Panic w) → parses P (wrap_err f o).
Proof.
  intros Ho Hw. apply parses_lift.
  - intros a Ha. apply Ho. destruct o; cbn in Ha; congruence.
  - intros w. destruct o as [a|e|w']; [done|done|]. by destruct (Hw w').
Qed.

Lemma parses_optional {A} (P : A → Prop) raw def (f : string → M A) :
  P def → (∀ v, parses P (f v)) → parses P (optional raw def f).
Proof. intros Hd Hf. unfold optional. destruct (nonempty raw); [apply Hf|by apply parses_ret]. Qed.

Lemma ParseIntE_never_panics v w : ParseIntE v ≠ Panic w.
Proof.
  unfold ParseIntE, numErr. destruct (ParseInt 64 v) eqn:E; [done..|]. by apply ParseInt_never_panics in E.
Qed.

Lemma parseDrip_ok q : drip_defaults → parses drip_ok (parseDrip h q).
Proof.
  intros [D1 D2 D3 D4 D5]. unfold parseDrip.
  assert (∀ f v, parses (λ d, 0 ≤ d ≤ 2 ^ 61) (wrap_err f (parseBoundedDuration v 0 (MaxDuration h)))) as Hd.
  { intros f v. apply parses_wrap_err; [|intros w; apply parseBoundedDuration_never_panics].
    intros d Hd. apply parseBoundedDuration_Ok in Hd as [_ ?]. lia. }
  eapply (parses_bind (λ d, 0 ≤ d ≤ 2 ^ 61)).
  { apply parses_optional; [done|]. intros v. apply Hd. }
  intros du Hdu.
  eapply (parses_bind (λ d, 0 ≤ d ≤ 2 ^ 61)).
  { apply parses_optional; [done|]. intros v. apply Hd. }
  intros de Hde.
  eapply (parses_bind (λ n, 1 ≤ n ≤ 2 ^ 61)); [apply parses_optional; [lia|]|].
  { intros v. eapply (parses_bind (λ _, True)).
    - apply parses_wrap_err; [done|]. intros w. apply ParseIntE_never_panics.
    - intros n _. destruct (n <? 1) eqn:E1, (MaxBodySize h <? n) eqn:E2; cbn [orb];
        try apply parses_throw. reflect_bools. apply parses_ret. lia. }
  intros n Hn. eapply (parses_bind (λ c, 100 ≤ c ≤ 599)); [apply parses_optional; [lia|]|].
  { intros v. apply parses_lift; [|intros w; apply parseStatusCode_never_panics].
    intros c Hc. by apply parseStatusCode_Ok in Hc as []. }
  intros c Hc. rewrite wrap64_id by (unfold in_int64, minInt64, maxInt64; lia).
  destruct (MaxDuration h <? du + de) eqn:E; [apply parses_throw|]. reflect_bools.
  apply parses_ret. split; cbn; lia.
Qed.

(** The time that a drip takes. *)
Definition drip_elapsed (p : dripParams) : Z :=
  drip_delay p
  + (drip_numBytes p - 1) * computePausePerWrite (drip_duration p) (drip_numBytes p).

Lemma dripWrite_drips p s :
  drip_defaults → drip_ok p → final (drip_code p) → bodyAllowed (drip_code p) = true → startable s →
  stays (drip_elapsed p - drip_delay p) s →
  ∃ s', dripWrite (drip_duration p) (drip_delay p) (drip_numBytes p) (drip_code p) s = (Ok tt, s') ∧
    body_open (drip_code p) (wr s') ∧
    body (wr s') = repeat_string (Z.to_nat (drip_numBytes p)) "*" ∧
    declared (wr s') = Some (drip_numBytes p) ∧ now s' = now s + (drip_elapsed p - drip_delay p).
Proof.
  intros [] [] Hf Hb Hs Hst. unfold drip_elapsed in *. revert Hst.
  set (pause := computePausePerWrite _ _). set (n := drip_numBytes p) in *. intros Hst.
  unfold dripWrite. fold n pause. unfold mbind, GoM_bind. rewrite !SetHeader_run. cbn [wr set_wr].
  set (s1 := set_wr _ (set_wr _ (set_wr _ s))).
  assert (startable s1) as Hs1 by (by apply startable_header, startable_header, startable_header).
  destruct (WriteHeader_opens (drip_code p) s1 Hf Hb Hs1) as (s2 & -> & Ho & He & Hd & Hn & Hg).
  assert (declared (wr s2) = Some n) as Hd2.
  { rewrite Hd. unfold s1. cbn [wr set_wr]. rewrite !rHeader_set_header.
    rewrite declared_length_ne by done. apply declared_length_set. unfold maxInt64. lia. }
  assert (now s2 = now s) as Hn2 by (by rewrite Hn). assert (gone s2 = gone s) as Hg2 by (by rewrite Hg).
  assert (room n (wr s2)) as Hr by (unfold room; rewrite Hd2, He; change (slen "") with 0; lia).
  destruct (computePausePerWrite_bounds (drip_duration p) n) as [B1 B2]; [lia..|]. fold pause in B1, B2.
  destruct (pause =? 0) eqn:E0; reflect_bools.
  - ztest. destruct (Write_appends (repeat_string (Z.to_nat n) "*") (drip_code p) s2 Ho) as (s3 & -> & []).
    { by rewrite repeat_string_length, Z2Nat.id by lia. }
    exists s3. split; [done|]. split; [done|]. split; [by rewrite app_body, He|].
    split; [by rewrite app_declared|]. rewrite E0. lia.
  - assert (0 < pause) as Hp.
    { destruct (Z.eq_dec n 1) as [E|E]; [rewrite B1 in * by done; lia|]. nia. }
    unfold NewTicker. ztest. destruct (Z.to_nat n) as [|k] eqn:Ek; [lia|].
    assert (Z.of_nat k = n - 1) as Hk by lia.
    destruct (dripLoop_appends k pause (drip_code p) s2 Hp Ho) as (s3 & E & []).
    { by replace (Z.of_nat (S k)) with n by lia. }
    { intros t Ht. rewrite Hg2 in Ht. specialize (Hst t Ht). rewrite Hn2, Hk. lia. }
    unfold mret, GoM_ret. rewrite E. exists s3. split; [done|]. split; [done|].
    split; [by rewrite app_body, He|]. split; [by rewrite app_declared|]. rewrite app_now, Hn2, Hk. lia.
Qed.

(** (C3) [Drip] keeps its promises.  Parameters that do not parse are answered with 400.
    Otherwise, for a client that stays and a status that allows a body, the response
    declares and carries exactly [numBytes] bytes; it takes the delay and at least the
    duration, and less than a nanosecond per byte more, within the maximum; with a
    single byte it takes the delay only, and the duration is ignored. *)
Theorem drip_exact s :
  drip_defaults → startable s →
  match (parseDrip h (Query (URL (req s))) s).1 with
  | Panic _ => False
  | Err _ => ∃ s', Drip h s = (Ok tt, s') ∧ answered 400 s s'
  | Ok p =>
      1 ≤ drip_numBytes p ∧ drip_delay p + drip_duration p ≤ MaxDuration h ∧
      (if drip_numBytes p =? 1 then drip_elapsed p = drip_delay p
       else drip_delay p + drip_duration p ≤ drip_elapsed p
            < drip_delay p + drip_duration p + drip_numBytes p) ∧
      (final (drip_code p) → bodyAllowed (drip_code p) = true → stays (drip_elapsed p) s →
       ∃ s', Drip h s = (Ok tt, s') ∧
         status (wr s') = Some (drip_code p) ∧ declared (wr s') = Some (drip_numBytes p) ∧
         body (wr s') = repeat_string (Z.to_nat (drip_numBytes p)) "*" ∧
         now s' = now s + drip_elapsed p)
  end.
Proof.
  intros Hdef Hs. unfold Drip, mbind, GoM_bind, get_req, try_.
  pose proof (parseDrip_ok (Query (URL (req s))) Hdef s) as Hp.
  destruct (parseDrip h (Query (URL (req s))) s) as [[p|e|w] s1]; cbn [fst]; [| |done].
  - destruct Hp as [-> Hp]. pose proof Hp as [H1 H2 H3 H4 H5]. pose proof Hdef as [D1 D2 D3 D4 D5].
    destruct (computePausePerWrite_bounds (drip_duration p) (drip_numBytes p)) as [B1 B2]; [lia..|].
    split; [lia|]. split; [lia|]. split.
    { unfold drip_elapsed. destruct (drip_numBytes p =? 1) eqn:E; reflect_bools; [rewrite E; lia|].
      assert (1 < drip_numBytes p) as Hn by lia. specialize (B2 Hn). lia. }
    intros Hf Hb Hst. unfold dripRun. destruct (0 <? drip_delay p) eqn:E; reflect_bools.
    + unfold mbind, GoM_bind, Sleep.
      assert (∀ s1, wr s1 = wr s → now s1 = now s + drip_delay p → gone s1 = gone s →
        ∃ s', dripWrite (drip_duration p) (drip_delay p) (drip_numBytes p) (drip_code p) s1 = (Ok tt, s') ∧
          status (wr s') = Some (drip_code p) ∧ declared (wr s') = Some (drip_numBytes p) ∧
          body (wr s') = repeat_string (Z.to_nat (drip_numBytes p)) "*" ∧
          now s' = now s + drip_elapsed p) as Hgo.
      { intros s1 Hw Hn Hg. destruct (dripWrite_drips p s1 Hdef Hp Hf Hb) as (s' & E' & [] & ? & ? & ?).
        - destruct Hs. split; by rewrite Hw.
        - intros t Ht. rewrite Hg in Ht. specialize (Hst t Ht). lia.
        - exists s'. repeat split; try done. lia. }
      destruct (gone s) as [t|] eqn:Eg; [|by apply Hgo]. specialize (Hst t Eg).
      assert (drip_delay p ≤ drip_elapsed p) as Hle.
      { unfold drip_elapsed. destruct (Z.eq_dec (drip_numBytes p) 1) as [E1|E1]; [rewrite E1; lia|].
        assert (1 < drip_numBytes p) as Hn by lia. specialize (B2 Hn). nia. }
      ztest. by apply Hgo.
    + destruct (dripWrite_drips p s Hdef Hp Hf Hb Hs) as (s' & E' & [] & ? & ? & ?).
      { intros t Ht. specialize (Hst t Ht). lia. }
      exists s'. repeat split; try done. lia.
  - subst s1. apply writeError_fresh; [by apply final_200|by apply startable_fresh].
Qed.
End Drip.

(** ** Bytes *)

Section Bytes.
Context `{GoStd, Runtime} (h : HTTPBin).

Lemma AtoiE_range v n : AtoiE v = Ok n → in_int64 n.
Proof.
  unfold AtoiE, numErr. destruct (Atoi v) as [x| |] eqn:E; cbn; [|done..]. intros [= <-].
  unfold Atoi in E. apply ParseInt_range in E; [|done]. unfold in_int64, minInt64, maxInt64. lia.
Qed.

Lemma writeChunk_appends streaming chunk c s :
  body_open c (wr s) → room (blen chunk) (wr s) →
  ∃ s', writeChunk streaming chunk s = (Ok tt, s') ∧ appended c (of_bytes chunk) 0 s s'.
Proof.
  intros Ho Hr. unfold writeChunk, mbind, GoM_bind.
  destruct (Write_appends (of_bytes chunk) c s Ho) as (s1 & -> & A1); [by rewrite of_bytes_length|].
  destruct streaming; [|by exists s1].
  destruct (Flush_appends c s1 (app_open _ _ _ _ _ A1)) as (s2 & -> & A2). exists s2. split; [done|].
  pose proof (appended_trans _ _ _ _ _ _ _ _ A1 A2) as A. by rewrite sapp_nil_r in A.
Qed.

Lemma bytesLoop_appends streaming size rng n i chunk c s :
  body_open c (wr s) → room (blen chunk + Z.of_nat n) (wr s) →
  ∃ s', bytesLoop streaming size rng n i chunk s = (Ok tt, s') ∧
    appended c (of_bytes (chunk ++ map (rng_byte rng) (seq i n))) 0 s s'.
Proof.
  revert i chunk s. induction n as [|n IH]; intros i chunk s Ho Hr; cbn [bytesLoop seq map].
  - rewrite app_nil_r. destruct chunk as [|b chunk]; [by exists s; split; [|apply appended_refl]|].
    apply writeChunk_appends; [done|]. by rewrite Z.add_0_r in Hr.
  - set (chunk' := chunk ++ [rng_byte rng i]).
    assert (blen chunk' = blen chunk + 1) as Hl.
    { unfold chunk', blen. rewrite length_app. cbn [length]. lia. }
    replace (chunk ++ rng_byte rng i :: map (rng_byte rng) (seq (S i) n))
      with (chunk' ++ map (rng_byte rng) (seq (S i) n)) by (unfold chunk'; by rewrite <- app_assoc).
    destruct (blen chunk' =? size).
    + unfold mbind, GoM_bind.
      destruct (writeChunk_appends streaming chunk' c s Ho) as (s1 & -> & A1).
      { eapply room_mono, Hr. lia. }
      destruct (IH (S i) [] s1 (app_open _ _ _ _ _ A1)) as (s2 & -> & A2).
      { eapply appended_room; [exact A1|]. rewrite of_bytes_length. eapply room_mono, Hr.
        change (blen []) with 0. lia. }
      exists s2. split; [done|]. rewrite of_bytes_app. exact (appended_trans _ _ _ _ _ _ _ _ A1 A2).
    + apply IH; [done|]. eapply room_mono, Hr. lia.
Qed.

(** (C32) [Bytes] and [StreamBytes] answer with the same bytes: the first [n] of the
    seeded generator, whether they are written at once or streamed in chunks of any
    size, even of zero or a negative one; and a seed makes the body reproducible. *)
Theorem bytes_any_chunks streaming n seed s :
  startable s → declared_length (rHeader (base (wr s))) = None →
  let q := Query (URL (req s)) in
  AtoiE (PathValue "numBytes" (req s)) = Ok n → 1 ≤ n ≤ MaxBodySize h →
  parseSeedInt64 (now s) (Values_Get "seed" q) = Ok seed →
  (streaming = true → Values_Get "chunk_size" q = "" ∨ is_ok (AtoiE (Values_Get "chunk_size" q)) = true) →
  ∃ s', handleBytes h streaming s = (Ok tt, s') ∧ status (wr s') = Some 200 ∧ now s' = now s ∧
    body (wr s') = of_bytes (map (rng_byte (source seed)) (seq 0 (Z.to_nat n))).
Proof.
  intros Hs Hd q Hn Hr Hseed Hc. unfold handleBytes, mbind, GoM_bind, get_req. fold q.
  unfold try_ at 1, wrap_err at 1, lift at 1. rewrite Hn. cbn [map_err].
  unfold try_ at 1, parseSeed, mbind, GoM_bind, time_Now, lift. rewrite Hseed.
  unfold mret at 1, GoM_ret at 1. ztest.
  set (hd0 := rHeader (base (wr s))) in *.
  assert (∃ size hs, (if streaming
      then optional (Values_Get "chunk_size" q) (10 * 1024) (λ v, wrap_err "invalid chunk_size: %w" (AtoiE v))
      else _ ← SetHeader "Content-Length" (Itoa n); mret n) s
    = (Ok size, set_wr (set_header hs (wr s)) s) ∧
    (declared_length (hs hd0) = None ∨ declared_length (hs hd0) = Some n)) as (size & hs & Esz & Hhs).
  { destruct streaming.
    - assert (∃ z, optional (Values_Get "chunk_size" q) (10 * 1024)
        (λ v, wrap_err "invalid chunk_size: %w" (AtoiE v)) s = (Ok z, s)) as [z E].
      { unfold optional. destruct (Hc eq_refl) as [E|E]; [rewrite E; by eexists|].
        destruct (nonempty _); [|by eexists]. unfold wrap_err, lift.
        destruct (AtoiE (Values_Get "chunk_size" q)); [by eexists|done..]. }
      exists z, id. rewrite set_header_id, set_wr_id. by split; [|left].
    - eexists n, _. split; [reflexivity|]. right. apply declared_length_set.
      apply AtoiE_range in Hn. unfold in_int64 in Hn. lia. }
  unfold mbind, GoM_bind in Esz. unfold try_. rewrite Esz, SetHeader_run. cbn [wr set_wr].
  set (s1 := set_wr _ (set_wr _ s)).
  assert (startable s1) as Hs1 by (by apply startable_header, startable_header).
  destruct (WriteHeader_opens 200 s1) as (s2 & -> & Ho & He & Hd2 & Hn2 & _); [by apply final_200|done..|].
  assert (room (blen [] + Z.of_nat (Z.to_nat n)) (wr s2)) as Hroom.
  { unfold room. rewrite Hd2, He. unfold s1. cbn [wr set_wr]. rewrite !rHeader_set_header.
    rewrite declared_length_ne by done. change (slen "") with 0. change (blen []) with 0.
    fold hd0. destruct Hhs as [-> | ->]; [done|lia]. }
  destruct (bytesLoop_appends streaming size (source seed) (Z.to_nat n) 0 [] 200 s2 Ho Hroom)
    as (s3 & -> & [A1 A2 A3 A4 A5]).
  exists s3. split; [done|]. split; [by destruct A1|].
  split; [rewrite A4, Hn2; cbn; lia|]. by rewrite A2, He.
Qed.
End Bytes.

(** ** The synthetic byte stream *)

Section Synthetic.
Context (size duration : Z) (factory : Z → byte).
Context (Hsize : 1 ≤ size ≤ 2 ^ 61) (Hduration : 0 ≤ duration ≤ 2 ^ 61).

(** The [k] bytes from [o] on. *)
Definition window (o k : Z) : list byte :=
  map (λ i, factory (o + Z.of_nat i)) (seq 0 (Z.to_nat k)).

Lemma window_app o a b : 0 ≤ a → 0 ≤ b → window o (a + b) = window o a ++ window (o + a) b.
Proof.
  intros Ha Hb. unfold window. rewrite Z2Nat.inj_add, seq_app, map_app by lia. f_equal.
  cbn [plus]. rewrite <- (Nat.add_0_r (Z.to_nat a)) at 1. rewrite <- fmap_add_seq.
  change (map ?f (?g <$> ?l)) with (map f (map g l)). rewrite map_map. apply map_ext. intros i. f_equal. lia.
Qed.

(** Reads into buffers of the lengths [lens]: the bytes, the time slept and whether
    the last read has reached the end. *)
Fixpoint reads (lens : list Z) (s : syntheticByteStream)
    : list byte * Z * bool * syntheticByteStream :=
  match lens with
  | [] => ([], 0, false, s)
  | len :: lens' =>
      let '(r, s1) := stream_Read len s in
      let '(data, slept, eof, s2) := reads lens' s1 in
      (rr_data r ++ data, rr_pause r + slept, match lens' with [] => rr_eof r | _ => eof end, s2)
  end.

(** The stream at the offset [o]. *)
Definition at_offset (o : Z) : syntheticByteStream :=
  MkStream size factory (Z.quot duration size) o.

Lemma new_at_offset : newSyntheticByteStream size duration factory = Ok (at_offset 0).
Proof.
  unfold newSyntheticByteStream, at_offset. ztest.
  rewrite Z.quot_div_nonneg by lia. rewrite wrap64_id; [done|].
  assert (0 ≤ duration / size ≤ duration); [|unfold in_int64, minInt64, maxInt64; lia].
  split; [apply Z.div_pos; lia|apply Z.div_le_upper_bound; nia].
Qed.

Lemma pause_bound n : 0 ≤ n ≤ size → 0 ≤ Z.quot duration size * n ≤ duration.
Proof.
  intros Hn. rewrite Z.quot_div_nonneg by lia. pose proof (Z.div_mod duration size ltac:(lia)).
  pose proof (Z.mod_pos_bound duration size). assert (0 ≤ duration / size) by (apply Z.div_pos; lia). nia.
Qed.

Lemma stream_Read_at len o :
  0 ≤ o ≤ size → 0 ≤ len ≤ 2 ^ 61 →
  let n := Z.min len (size - o) in
  stream_Read len (at_offset o) =
  (MkReadResult (window o n) n (size <=? o + len) (Z.quot duration size * n), at_offset (o + n)).
Proof.
  intros Ho Hl n. unfold stream_Read. cbn [st_offset st_size st_factory st_pausePerByte at_offset].
  rewrite (wrap64_id (o + len)) by (unfold in_int64, minInt64, maxInt64; lia).
  assert ((if size <=? o + len then size else o + len) = o + n) as ->.
  { unfold n. destruct (size <=? o + len) eqn:E; reflect_bools; lia. }
  replace (o + n - o) with n by lia. assert (0 ≤ n ≤ size) as Hn by lia.
  pose proof (pause_bound n Hn) as Hp. unfold window. f_equal. f_equal.
  - apply wrap64_id. unfold in_int64, minInt64, maxInt64. lia.
  - rewrite (wrap64_id n) by (unfold in_int64, minInt64, maxInt64; lia).
    rewrite (wrap64_id (_ * n)) by (unfold in_int64, minInt64, maxInt64; lia).
    destruct (0 <? Z.quot duration size) eqn:E; reflect_bools; [done|].
    assert (0 ≤ Z.quot duration size) by (rewrite Z.quot_div_nonneg by lia; apply Z.div_pos; lia). nia.
Qed.

Definition total (lens : list Z) : Z := foldr Z.add 0 lens.

Lemma reads_at lens o :
  0 ≤ o ≤ size → Forall (λ len, 0 ≤ len ≤ 2 ^ 61) lens →
  let n := Z.min (total lens) (size - o) in
  reads lens (at_offset o) =
  (window o n, Z.quot duration size * n,
   match lens with [] => false | _ => size <=? o + total lens end, at_offset (o + n)).
Proof.
  intros Ho Hl. revert o Ho. induction Hl as [|len lens Hlen Hl IH]; intros o Ho n.
  - replace n with 0 by (unfold n; cbn; lia). rewrite Z.mul_0_r, Z.add_0_r. done.
  - assert (0 ≤ total lens) as Ht.
    { clear -Hl. induction Hl; cbn; [lia|]. change (foldr Z.add 0 l) with (total l). lia. }
    cbn [reads]. rewrite stream_Read_at by done. set (n1 := Z.min len (size - o)).
    rewrite IH by (unfold n1; lia). cbn [rr_data rr_pause rr_eof].
    change (total (len :: lens)) with (len + total lens) in *.
    set (n2 := Z.min (total lens) (size - (o + n1))).
    assert (n = n1 + n2) as Hn by (unfold n, n1, n2; lia).
    rewrite <- window_app by (unfold n1, n2; lia). rewrite <- Hn, <- Z.mul_add_distr_l, <- Hn.
    replace (o + n1 + n2) with (o + n) by lia. f_equal. f_equal.
    destruct lens as [|len' lens]; [f_equal; cbn; lia|].
    destruct (size <=? o + n1 + _) eqn:E1, (size <=? o + (len + _)) eqn:E2; try done; reflect_bools;
      unfold n1 in E1; lia.
Qed.

(** (C37) Reading a new stream through buffers of any lengths yields its bytes in order,
    once, up to the size; the last read reports the end exactly when it is reached;
    and reading all of it sleeps for at most the duration, however it is cut. *)
Theorem stream_reads s lens :
  newSyntheticByteStream size duration factory = Ok s →
  Forall (λ len, 0 ≤ len ≤ 2 ^ 61) lens → lens ≠ [] →
  ∃ slept s', reads lens s = (window 0 (Z.min (total lens) size), slept, size <=? total lens, s') ∧
    0 ≤ slept ≤ duration ∧ st_offset s' = Z.min (total lens) size.
Proof.
  rewrite new_at_offset. intros [= <-] Hl Hne.
  assert (0 ≤ total lens) as Ht.
  { clear -Hl. induction Hl; cbn; [lia|]. change (foldr Z.add 0 l) with (total l). lia. }
  rewrite reads_at by (done || lia). rewrite Z.sub_0_r, Z.add_0_l.
  eexists _, _. split; [destruct lens; [done|reflexivity]|]. split; [apply pause_bound; lia|done].
Qed.
End Synthetic.

(** ** Witnesses *)

Definition drip_request : World :=
  sample_world (sample_request "GET" "/drip" "duration=1s&delay=500ms&numbytes=4&code=201").

Lemma drip_exact_witness :
  ∃ s', Drip sample_bin drip_request = (Ok tt, s') ∧
    status (wr s') = Some 201 ∧ declared (wr s') = Some 4 ∧ body (wr s') = "****" ∧
    now s' = 1500 * Millisecond + 2.
Proof.
  assert (drip_defaults sample_bin) as Hd by (split; by_computation).
  assert (startable drip_request) as Hs by (split; done).
  pose proof (drip_exact sample_bin drip_request Hd Hs) as E.
  replace ((parseDrip sample_bin (Query (URL (req drip_request))) drip_request).1)
    with (Ok (E := gerror) (MkDripParams Second (500 * Millisecond) 4 201)) in E by (vm_compute; reflexivity).
  destruct E as (_ & _ & _ & E). destruct E as (s' & E1 & E2 & E3 & E4 & E5).
  - apply final_200. cbn. lia.
  - reflexivity.
  - intros t [=].
  - exists s'. split; [exact E1|]. split; [exact E2|]. split; [exact E3|]. split; [exact E4|].
    rewrite E5. vm_compute. reflexivity.
Defined.

Definition bytes_request (path query n : string) : World :=
  sample_world (SetPathValue "numBytes" n (sample_request "GET" path query)).

Lemma bytes_any_chunks_witness :
  ∃ s', handleBytes sample_bin true (bytes_request "/stream-bytes/5" "seed=65&chunk_size=2" "5") = (Ok tt, s') ∧
    status (wr s') = Some 200 ∧ now s' = 0 ∧ body (wr s') = "ABCDE".
Proof.
  destruct (bytes_any_chunks sample_bin true 5 65
    (bytes_request "/stream-bytes/5" "seed=65&chunk_size=2" "5")) as (s' & E1 & E2 & E3 & E4).
  - split; done.
  - reflexivity.
  - vm_compute. reflexivity.
  - by_computation.
  - vm_compute. reflexivity.
  - intros _. right. vm_compute. reflexivity.
  - exists s'. split; [exact E1|]. split; [exact E2|]. split; [exact E3|]. rewrite E4.
    vm_compute. reflexivity.
Defined.

Lemma stream_reads_witness :
  ∃ slept s', reads [2; 0; 5] (MkStream 4 rangeByte 25 0) = (to_bytes "abcd", slept, true, s') ∧
    0 ≤ slept ≤ 100 ∧ st_offset s' = 4.
Proof.
  destruct (stream_reads 4 100 rangeByte ltac:(lia) ltac:(lia) (MkStream 4 rangeByte 25 0) [2; 0; 5])
    as (slept & s' & E & H).
  - vm_compute. reflexivity.
  - repeat constructor; lia.
  - discriminate.
  - exists slept, s'. split; [|exact H]. rewrite E. vm_compute. reflexivity.
Defined.
