(* ===== verification/HandlersSpec.v ===== *)
(** * HandlersSpec: markup does not reach a browser, except through headers

    A response whose Content-Type a browser might render has an escaped body; the
    check of [/response-headers] looks at one value of one spelling of the name, so
    that other values of the header escape it. *)

From S2P Require Import Prelude GoStrings GoNum GoFloat GoTime Base64 GoFmt Json Responses GoURL GoNet GoMime.
From S2P Require Import Http HttpLaws Handles Bodies Delay DelaySpec ClientIP Bin Handlers Samples.
From S2P Require Import Streams StreamsSpec.

(** ** Handlers *)

Section Instances.
Context `{GoStd, Runtime} (h : HTTPBin).

#[export] Typeclasses Opaque getRequestHeaders noBodyResponse Get mustStaticAsset range_keys range_order time_Now
  doStatus SetHeaders AddHeaders AddAll Float64.

#[export] Instance Handles_range_keys {A} (m : gmap string A) : Handles (range_keys m).
Proof. by intros s. Qed.
#[export] Instance Handles_time_Now : Handles time_Now.
Proof. by intros s. Qed.
#[export] Instance Handles_range_order {A} : Handles (range_order (A := A)).
Proof. by intros s. Qed.
#[export] Instance Handles_mustStaticAsset n : Handles (mustStaticAsset n).
Proof. unfold mustStaticAsset. handler. Qed.
#[export] Instance Handles_getRequestHeaders f : Handles (getRequestHeaders f).
Proof. unfold getRequestHeaders. handler. Qed.
#[export] Instance Handles_noBodyResponse : Handles (noBodyResponse h).
Proof. unfold noBodyResponse. handler. Qed.
#[export] Instance Handles_Get : Handles (Get h).
Proof. unfold Get. handler. Qed.
#[export] Instance Handles_SetHeaders hs : Handles (SetHeaders hs).
Proof. induction hs as [|[k v] hs]; cbn [SetHeaders]; handler. Qed.
#[export] Instance Handles_doStatus c : Handles (doStatus h c).
Proof. unfold doStatus. handler. Qed.
#[export] Instance Handles_Float64 : Handles Float64.
Proof. unfold Float64. handler. Qed.
#[export] Instance Handles_Status : Handles (Status h).
Proof. unfold Status. handler. Qed.
#[export] Instance Handles_Unstable : Handles Unstable.
Proof. unfold Unstable, parseSeed. handler. Qed.
#[export] Instance Handles_AddHeaders k vs : Handles (AddHeaders k vs).
Proof. induction vs; cbn [AddHeaders]; handler. Qed.
#[export] Instance Handles_AddAll args ks : Handles (AddAll args ks).
Proof. induction ks; cbn [AddAll]; handler. Qed.
#[export] Instance Handles_ResponseHeaders : Handles (ResponseHeaders h).
Proof. unfold ResponseHeaders. handler. Qed.
#[export] Instance Handles_Echo : Handles (Echo h).
Proof. unfold Echo. handler. Qed.
#[export] Instance Handles_Base64Handler : Handles (Base64Handler h).
Proof. unfold Base64Handler. handler. Qed.
End Instances.

(** ** Escaping *)

Section Escaping.
Context `{GoStd, Runtime} (h : HTTPBin).

(** What [writeResponse] sends: the body may be refused, but not altered. *)
Lemma writeResponse_sends c ct b s :
  final c → startable s →
  ∃ s', writeResponse c ct b s = (Ok tt, s') ∧ status (wr s') = Some c ∧
    Header_Get "Content-Type" (sent (wr s')) = ct ∧ (body (wr s') = "" ∨ body (wr s') = b).
Proof.
  intros Hc Hs. unfold writeResponse, mbind, GoM_bind. rewrite SetHeader_run.
  pose proof (startable_header (Header_Set "Content-Type" ct) s Hs) as Hs1.
  set (s1 := set_wr _ s) in *. pose proof (startable_fresh _ Hs1) as [Ht1 Hf1]. unfold WriteHeader.
  destruct (w_WriteHeader_final c (wr s1) Hc Ht1 Hf1) as (w & E & Hw & Ht). rewrite E.
  assert (body w = "") as Hb by (rewrite (w_WriteHeader_body _ _ _ E); by destruct Hs1).
  assert (direct w) as Hd by (eapply same_shape_direct, (start_direct _ Hs1); by eapply w_WriteHeader_shape).
  assert (Header_Get "Content-Type" (sent w) = ct) as Hct.
  { pose proof (w_WriteHeader_base _ _ _ Ht1 E) as Eb. unfold sent.
    rewrite (base_WriteHeader_header _ _ _ _ Hc Hf1 Eb) by done.
    unfold s1. cbn [wr set_wr]. rewrite rHeader_set_header. apply Header_Get_Set. }
  unfold Write. cbn [wr set_wr].
  destruct (w_Write_sent b w c Ht Hw) as (n & w2 & E2 & Hw2 & Ht2). rewrite E2.
  eexists. split; [done|]. cbn [wr set_wr]. split; [done|]. split; [by rewrite (w_Write_header _ _ _ _ _ Ht Hw E2)|].
  apply w_Write_direct in E2; [|done]. rewrite Hb in E2. exact E2.
Qed.

(** What a browser may run as a document, after the standard on MIME types: HTML, PDF and
    any XML type are scriptable, a stream of parts may hold one of them, and the contents
    decide for a type that is unknown or malformed. *)
Definition scriptable (mediatype : string) : bool :=
  HasSuffix mediatype "+xml" ||
  bool_decide (mediatype ∈ ["text/html"; "text/xml"; "application/xml"; "application/pdf"]).
Definition sniffed (mediatype : string) : bool :=
  bool_decide (mediatype ∈ ["unknown/unknown"; "application/unknown"; "*/*"]).
Definition renders (contentType : string) : bool :=
  match ParseMediaType contentType with
  | None => true
  | Some mt => scriptable mt || sniffed mt || HasPrefix mt "multipart/"
  end.

(** The types that skip the escaping are not among them. *)
Lemma dangerous_renders ct : isDangerousContentType ct = false → renders ct = false.
Proof.
  unfold isDangerousContentType, renders. destruct (ParseMediaType ct) as [mt|]; [|done].
  intros Hm%negb_false_iff%bool_decide_eq_true. unfold safeContentTypes in Hm.
  rewrite !elem_of_cons, elem_of_nil in Hm. destruct Hm as [-> | [-> | [-> | [-> | []]]]]; reflexivity.
Qed.

(** The response is one that a browser does not render, or it has no markup. *)
Definition harmless (s : World) : Prop :=
  renders (Header_Get "Content-Type" (sent (wr s))) = false ∨
  ContainsAny (body (wr s)) markup = false.

Lemma writeResponse_harmless c ct b s :
  final c → startable s → isDangerousContentType ct = false ∨ ContainsAny b markup = false →
  harmless (writeResponse c ct b s).2.
Proof.
  intros Hc Hs Hb. destruct (writeResponse_sends c ct b s Hc Hs) as (s' & -> & _ & Hct & Hbody).
  unfold harmless. cbn [snd]. rewrite Hct. destruct Hb as [?|Hb]; [left; by apply dangerous_renders|right].
  by destruct Hbody as [-> | ->].
Qed.

Lemma writeError_harmless c e s : final c → startable s → harmless (writeError c e s).2.
Proof.
  intros Hc Hs. apply (writeResponse_harmless c jsonContentType); [done|done|]. left. vm_compute. done.
Qed.

(** (C5) [Echo] and [Base64] never answer with markup under a Content-Type that a browser
    may run as a document (HTML, PDF, an XML type, a multipart type, or one that is unknown
    or malformed), whatever the request, its body and the type it asks for, unless the
    operator allows dangerous responses. *)
Theorem escaped_or_safe m s :
  m = Echo h ∨ m = Base64Handler h → unsafeAllowDangerousResponses h = false → startable s →
  harmless (m s).2.
Proof.
  intros Hm Hu Hs. assert (final 200 ∧ final 400) as [H2 H4] by (split; by apply final_200).
  destruct Hm as [-> | ->].
  - unfold Echo, mbind, GoM_bind, get_req, mustEscapeResponse. rewrite Hu.
    destruct (BodyEnd (req s)); [by apply writeError_harmless|].
    set (ct := if nonempty _ then _ else _). destruct (isDangerousContentType ct) eqn:E;
      apply writeResponse_harmless; auto using EscapeString_safe.
  - unfold Base64Handler, mbind, GoM_bind, get_req, mustEscapeResponse. rewrite Hu.
    destruct (newBase64Helper (req s)) as [op data]. unfold try_, lift.
    destruct (base64_transform op data (MaxBodySize h)) as [result|e|w].
    + set (ct := if String.eqb _ _ then _ else _). destruct (isDangerousContentType ct) eqn:E;
        apply writeResponse_harmless; auto using EscapeString_safe.
    + by apply writeError_harmless.
    + right. cbn [snd]. destruct Hs as [_ _ ->]. done.
Qed.
End Escaping.

(** ** Response headers *)

Section ResponseHeaders.
Context `{GoStd, Runtime} (h : HTTPBin).

Definition add_headers (k : string) (vs : list string) (m : headers) : headers :=
  foldl (λ m v, Header_Add k v m) m vs.
Definition add_all (args : values) (ks : list string) (m : headers) : headers :=
  foldl (λ m k, add_headers k (default [] (args !! k)) m) m ks.

Lemma AddHeaders_run k vs s :
  AddHeaders k vs s = (Ok tt, set_wr (set_header (add_headers k vs) (wr s)) s).
Proof.
  revert s. induction vs as [|v vs IH]; intros s; cbn [AddHeaders].
  - change (add_headers k []) with (id : headers → headers). by rewrite set_header_id, set_wr_id.
  - unfold mbind, GoM_bind, AddHeader, header_op. rewrite IH. cbn [wr set_wr].
    by rewrite set_header_compose.
Qed.

Lemma AddAll_run args ks s :
  AddAll args ks s = (Ok tt, set_wr (set_header (add_all args ks) (wr s)) s).
Proof.
  revert s. induction ks as [|k ks IH]; intros s; cbn [AddAll].
  - change (add_all args []) with (id : headers → headers). by rewrite set_header_id, set_wr_id.
  - unfold mbind, GoM_bind. rewrite AddHeaders_run, IH. cbn [wr set_wr]. by rewrite set_header_compose.
Qed.

(** The values of a canonical key. *)
Definition vals (key : string) (m : headers) : list string := default [] (m !! key).

Lemma vals_Add key k v m :
  vals key (Header_Add k v m)
  = if String.eqb (CanonicalHeaderKey k) key then vals key m ++ [v] else vals key m.
Proof.
  unfold vals, Header_Add. destruct (String.eqb_spec (CanonicalHeaderKey k) key) as [<-|Hn].
  - by rewrite lookup_insert_eq.
  - by rewrite lookup_insert_ne.
Qed.

Lemma vals_add_headers key k vs m :
  vals key (add_headers k vs m)
  = if String.eqb (CanonicalHeaderKey k) key then vals key m ++ vs else vals key m.
Proof.
  revert m. induction vs as [|v vs IH]; intros m; cbn [add_headers foldl].
  - rewrite app_nil_r. by destruct (String.eqb _ _).
  - change (foldl _ _ vs) with (add_headers k vs (Header_Add k v m)). rewrite IH, vals_Add.
    destruct (String.eqb _ _); [by rewrite <- app_assoc|done].
Qed.

Lemma vals_add_all_elem key k v args ks m :
  k ∈ ks → CanonicalHeaderKey k = key → v ∈ default [] (args !! k) → v ∈ vals key (add_all args ks m).
Proof.
  intros Hk <- Hv.
  assert (∀ ks m, v ∈ vals (CanonicalHeaderKey k) m → v ∈ vals (CanonicalHeaderKey k) (add_all args ks m)) as Hm.
  { intros ks0. induction ks0 as [|k' ks0 IH]; intros m0 Hv0; [done|]. cbn [add_all foldl]. apply IH.
    rewrite vals_add_headers. destruct (String.eqb _ _); set_solver. }
  revert m. induction ks as [|k' ks IH]; intros m; [set_solver|]. cbn [add_all foldl].
  apply elem_of_cons in Hk as [<-|Hk]; [|by apply IH].
  apply Hm. rewrite vals_add_headers, String.eqb_refl. set_solver.
Qed.

Lemma vals_add_all_other key args ks m :
  (∀ k, k ∈ ks → CanonicalHeaderKey k ≠ key) → vals key (add_all args ks m) = vals key m.
Proof.
  revert m. induction ks as [|k ks IH]; intros m Hk; [done|]. cbn [add_all foldl].
  change (foldl _ _ ks) with (add_all args ks (add_headers k (default [] (args !! k)) m)).
  rewrite IH by set_solver. rewrite vals_add_headers.
  destruct (String.eqb_spec (CanonicalHeaderKey k) key); [|done]. by destruct (Hk k); [set_solver|].
Qed.

Lemma declared_length_vals m : vals "Content-Length" m = [] → declared_length m = None.
Proof.
  unfold declared_length, Header_Get, vals. change (CanonicalHeaderKey "Content-Length") with "Content-Length".
  by destruct (m !! "Content-Length") as [[|]|].
Qed.

(** A first [Write] sends the header as it is. *)
Lemma w_Write_first b w :
  direct w → status w = None → vals "Content-Length" (rHeader (base w)) = [] →
  ∃ n w', w_Write b w = Ok (n, w') ∧ status w' = Some 200 ∧ body w' = body w +:+ b ∧
    ∀ key, key ≠ "Content-Length" → vals key (sent w') = vals key (rHeader (base w)).
Proof.
  unfold w_Write, status, body, sent. intros Hd Hs Hl.
  induction w as [r|w IH st z| |]; cbn in *; [| |done..].
  - destruct (base_WriteHeader_final 200 r) as (r1 & E & Hr1); [by apply final_200|done|].
    assert (ensure_header r = r1) as Er by (unfold ensure_header; by rewrite E).
    assert (contentLength r1 = None) as Hcl.
    { rewrite (base_WriteHeader_declared 200 r r1) by (done || by apply final_200).
      by apply declared_length_vals. }
    assert (rBody r1 = rBody r) as Hb by (rewrite <- Er; apply ensure_header_body).
    assert (sentHeader r1 = Header_Del "Content-Length" (rHeader r)) as Hsent.
    { unfold base_WriteHeader in E. rewrite Hs in E. cbn in E.
      rewrite declared_length_vals in E by done. by injection E as <-. }
    unfold base_Write. rewrite Er, Hcl, Hr1. cbn.
    eexists _, _. split; [reflexivity|]. cbn. split; [done|]. split; [by rewrite Hb|].
    intros key Hk. rewrite Hsent. unfold vals, Header_Del. by rewrite lookup_delete_ne.
  - destruct (IH Hd Hs Hl) as (n & w' & -> & H1 & H2 & H3). by eexists _, _.
Qed.

(** [/response-headers] escapes its body by the first value of the exact parameter
    [Content-Type] only: when that value is harmless, every other value is sent as a
    Content-Type too, and the body repeats the parameters without escaping them. *)
Theorem response_headers_unescaped s ct cts :
  startable s → vals "Content-Length" (rHeader (base (wr s))) = [] →
  let args := Query (URL (req s)) in
  args !! "Content-Type" = Some (ct :: cts) → ct ≠ "" → isDangerousContentType ct = false →
  (∀ k, is_Some (args !! k) → CanonicalHeaderKey k ≠ "Content-Length") →
  ∃ s', ResponseHeaders h s = (Ok tt, s') ∧ status (wr s') = Some 200 ∧
    body (wr s') = Encode (jvalues args) ∧ ∀ v, v ∈ cts → v ∈ vals "Content-Type" (sent (wr s')).
Proof.
  intros Hs Hl args Hct Hne Hsafe Hk. unfold ResponseHeaders, mbind, GoM_bind, get_req. fold args.
  assert (Values_Get "Content-Type" args = ct) as Hg by (unfold Values_Get; by rewrite Hct).
  rewrite Hg. unfold nonempty. apply String.eqb_neq in Hne. rewrite Hne. cbn [negb].
  unfold range_keys at 1. set (ks := iteration_order _ args). rewrite AddAll_run.
  unfold mustEscapeResponse. rewrite Hsafe.
  replace (if unsafeAllowDangerousResponses h then false else false) with false
    by (by destruct (unsafeAllowDangerousResponses h)).
  unfold mret, GoM_ret, mustMarshalJSON, Write. cbn [wr set_wr].
  set (w := set_header (add_all args ks) (wr s)).
  assert (direct w) as Hd by (eapply same_shape_direct, (start_direct _ Hs); apply set_header_shape).
  destruct (w_Write_first (Encode (jvalues args)) w Hd) as (n & w' & -> & H1 & H2 & H3).
  - unfold w. rewrite set_header_status. by destruct Hs.
  - unfold w. rewrite rHeader_set_header, vals_add_all_other; [done|].
    intros k Hin. apply Hk. by apply iteration_order_elem in Hin.
  - eexists. split; [done|]. cbn [wr set_wr]. split; [done|]. split.
    { rewrite H2. unfold w. rewrite set_header_body. by destruct Hs as [_ _ ->]. }
    intros v Hv. rewrite H3 by done. unfold w. rewrite rHeader_set_header.
    apply (vals_add_all_elem _ "Content-Type"); [|done|by rewrite Hct; set_solver].
    apply iteration_order_elem. by eexists.
Qed.
End ResponseHeaders.

(** ** Witnesses *)

Definition echo_request (ct b : string) : World :=
  sample_world (set_Body b None (set_RHeader (Header_Set "Content-Type" ct ∅)
    (sample_request "POST" "/echo" ""))).

Lemma escaped_or_safe_witness :
  harmless (Echo sample_bin (echo_request "text/html" "<script>")).2.
Proof.
  apply (escaped_or_safe sample_bin (Echo sample_bin)); [by left|reflexivity|]. split; done.
Defined.

(** Without a Content-Type, the default type is itself taken for a dangerous one. *)
Example echo_default_type :
  body (wr (Echo sample_bin (echo_request "" "<")).2) = "&lt;".
Proof. vm_compute. reflexivity. Qed.

Lemma response_headers_unescaped_witness :
  let q := "Content-Type=text/plain&Content-Type=text/html&x=<script>" in
  let s := sample_world (sample_request "GET" "/response-headers" q) in
  ∃ s', ResponseHeaders sample_bin s = (Ok tt, s') ∧
    Contains (body (wr s')) "<script>" = true ∧ "text/html" ∈ vals "Content-Type" (sent (wr s')).
Proof.
  intros q s.
  destruct (response_headers_unescaped sample_bin s "text/plain" ["text/html"]) as (s' & E & _ & Hb & Hv).
  - split; done.
  - reflexivity.
  - vm_compute. reflexivity.
  - discriminate.
  - vm_compute. reflexivity.
  - intros k [vs Hk]. unfold s in Hk. cbn [URL req sample_world sample_request] in Hk.
    apply elem_of_map_to_list in Hk.
    replace (map_to_list _) with [("Content-Type", ["text/plain"; "text/html"]); ("x", ["<script>"])]
      in Hk by (vm_compute; reflexivity).
    apply elem_of_cons in Hk as [[= -> _]|Hk]; [discriminate|].
    apply list_elem_of_singleton in Hk as [= -> _]. discriminate.
  - exists s'. split; [exact E|]. split; [rewrite Hb; vm_compute; reflexivity|].
    apply Hv, list_elem_of_here.
Defined.
