(* ===== verification/BodySpec.v ===== *)
(** * BodySpec: a request with a body is answered with that body

    [RequestWithBody] always answers: with 400 and the error, or with 200 and a JSON
    object in which the body of the request can be recovered, and in which a form is
    the values it was encoded from. *)

From S2P Require Import Prelude GoStrings GoNum GoTime Utf8 Base64 GoFmt Json Responses GoURL GoNet GoMime.
From S2P Require Import Http HttpLaws Handles Bodies Delay ClientIP Bin Pipeline Handlers.
From S2P Require Import RequestBody Samples Streams StreamsSpec HandlersSpec.

(** ** Exact responses *)

(** A response to start in which no length was declared. *)
Record blank (s : World) : Prop := {
  blank_startable : startable s;
  blank_length : rHeader (base (wr s)) !! "Content-Length" = None;
}.

Lemma declared_length_None h : h !! "Content-Length" = None → declared_length h = None.
Proof.
  intros E. unfold declared_length, Header_Get.
  change (CanonicalHeaderKey "Content-Length") with "Content-Length". by rewrite E.
Qed.

Lemma blank_header k v s :
  CanonicalHeaderKey k ≠ "Content-Length" → blank s →
  blank (set_wr (set_header (Header_Set k v) (wr s)) s).
Proof.
  intros Hk [Hs Hl]. split; [by apply startable_header|]. cbn [wr set_wr].
  rewrite rHeader_set_header. unfold Header_Set. by rewrite lookup_insert_ne.
Qed.

(** The response is complete, with the status and the body. *)
Record answers (c : Z) (b : string) (s : World) : Prop := {
  ans_status : status (wr s) = Some c;
  ans_body : body (wr s) = b;
}.

Lemma writeResponse_answers c ct b s :
  final c → bodyAllowed c = true → blank s →
  ∃ s', writeResponse c ct b s = (Ok tt, s') ∧ answers c b s'.
Proof.
  intros Hc Hb Hs. unfold writeResponse, mbind, GoM_bind. rewrite SetHeader_run.
  assert (blank (set_wr (set_header (Header_Set "Content-Type" ct) (wr s)) s)) as [Hs1 Hl]
    by by apply blank_header.
  set (s1 := set_wr _ s) in *.
  destruct (WriteHeader_opens c s1 Hc Hb Hs1) as (s2 & -> & Ho & He & Hd & _ & _).
  rewrite declared_length_None in Hd by done.
  destruct (Write_appends b c s2 Ho) as (s3 & -> & []); [by unfold room; rewrite Hd|].
  exists s3. split; [done|]. split; [apply app_open|]. by rewrite app_body, He.
Qed.

Lemma writeJSON_answers c v s :
  final c → bodyAllowed c = true → blank s →
  ∃ s', writeJSON c v s = (Ok tt, s') ∧ answers c (Encode v) s'.
Proof. apply writeResponse_answers. Qed.

(** The response helpers leave the caches alone. *)
Lemma writeResponse_caches c ct b s s' o : writeResponse c ct b s = (o, s') → caches s' = caches s.
Proof.
  unfold writeResponse, mbind, GoM_bind. rewrite SetHeader_run. unfold WriteHeader, Write.
  intros E. repeat (case_match; simplify_eq/=; try done).
Qed.

(** ** The request is not consumed by its inspection *)

(** What [parseBody] reads of a request. *)
Definition same_content (r r' : Request) : Prop :=
  Method r' = Method r ∧ URL r' = URL r ∧ Body r' = Body r ∧ BodyEnd r' = BodyEnd r ∧
  Header_Get "Content-Type" (RHeader r') = Header_Get "Content-Type" (RHeader r).

Lemma parseBody_same `{Codecs} order r r' resp :
  same_content r r' → parseBody order r' resp = parseBody order r resp.
Proof.
  intros (Hm & Hu & Hb & He & Hc). unfold parseBody, ParseForm, ParseMultipartForm.
  by rewrite Hm, Hu, Hb, He, Hc.
Qed.

(** ** Files *)

Definition readable (fs : list FileHeader) (contents : list string) : Prop :=
  Forall2 (λ f c, f = inr (inr c)) fs contents.

Lemma readFiles_readable fs contents : readable fs contents → readFiles fs = Ok contents.
Proof. induction 1 as [|f c fs cs -> _ IH]; [done|]. cbn. by rewrite IH. Qed.

Lemma readFiles_never_panics fs w : readFiles fs ≠ Panic w.
Proof.
  induction fs as [|f fs IH]; [done|]. cbn. destruct f as [|[]]; [done..|]. cbn.
  by destruct (readFiles fs).
Qed.

Lemma parseFiles_never_panics keys m files w : parseFiles keys m files ≠ Panic w.
Proof.
  revert files. induction keys as [|k keys IH]; intros files; [done|]. cbn [parseFiles].
  pose proof (readFiles_never_panics (default [] (m !! k)) w) as Hr. destruct (readFiles _); cbn; [apply IH|done|].
  congruence.
Qed.

Definition contents_of (m : gmap string (list FileHeader)) (contents : values) : Prop :=
  ∀ k, match m !! k, contents !! k with
       | Some fs, Some cs => readable fs cs
       | None, None => True
       | _, _ => False
       end.

(** When every file can be read, the answer has the contents of all of them, in whatever
    order the map is traversed. *)
Lemma parseFiles_all keys m contents :
  contents_of m contents → (∀ k, k ∈ keys ↔ is_Some (m !! k)) → parseFiles keys m ∅ = Ok contents.
Proof.
  intros Hc Hk.
  assert (∀ l files, (∀ k, k ∈ l → is_Some (m !! k)) →
    ∃ r, parseFiles l m files = Ok r ∧ ∀ k, r !! k = if decide (k ∈ l) then contents !! k else files !! k) as Hl.
  { induction l as [|k l IH]; intros files Hin; [by exists files|]. cbn [parseFiles].
    destruct (Hin k) as [fs Hfs]; [by left|]. rewrite Hfs. change (default [] (Some fs)) with fs.
    pose proof (Hc k) as Hck. rewrite Hfs in Hck. destruct (contents !! k) as [cs|] eqn:Ecs; [|done].
    rewrite (readFiles_readable _ _ Hck). cbn [mbind outcome_bind].
    destruct (IH (<[k := cs]> files)) as (r & -> & Hr); [by intros x Hx; apply Hin; right|].
    exists r. split; [done|]. intros x. rewrite Hr. destruct (decide (x = k)) as [->|Hne].
    - rewrite lookup_insert_eq. repeat case_decide; first [congruence|set_solver].
    - rewrite lookup_insert_ne by done. repeat case_decide; first [done|set_solver]. }
  destruct (Hl keys ∅) as (r & -> & Hr); [intros k; by apply Hk|]. f_equal. apply map_eq. intros k. rewrite Hr.
  destruct (decide (k ∈ keys)) as [Hin|Hnin]; [done|]. specialize (Hc k).
  destruct (m !! k) eqn:E; [by destruct Hnin; apply Hk|]. rewrite lookup_empty. by destruct (contents !! k).
Qed.

Section BodySpec.
Context `{GoStd, Runtime, Codecs} (h : HTTPBin).

Definition inspected : list string := ["args"; "headers"; "method"; "origin"; "url"].

Lemma noBodyResponse_run s :
  ∃ fs s', noBodyResponse h s = (Ok fs, s') ∧ map fst fs = inspected ∧
    wr s' = wr s ∧ same_content (req s) (req s').
Proof.
  eexists _, _. split; [reflexivity|]. split; [reflexivity|]. split; [reflexivity|].
  cbn. case_match; cbn; repeat split; try done; cbn; by rewrite ?Header_Get_Set_ne by done.
Qed.

(** *** What a client reads of the answer *)

(** The fields before the one of the body: a client reads them, under their names. *)
Definition readable_fields (fs : list (string * json)) : Prop :=
  ∃ kw, Forall2 (field_reads 100) fs kw ∧ map fst kw = inspected.

Lemma fields_read n fs :
  Forall (λ kv, ∃ w, read_as n kv.2 w) fs →
  ∃ kw, Forall2 (field_reads n) fs kw ∧ map fst kw = map replaced (map fst fs).
Proof.
  induction 1 as [|[k v] fs [w Hw] _ (kw & IH & E)]; [by exists []|].
  exists ((replaced k, w) :: kw). split; [by constructor|]. cbn [map fst]. by rewrite E.
Qed.

Lemma jvalues_read n m : ∃ w, read_as (S (S (S n))) (jvalues m) w.
Proof.
  unfold jvalues, json_map. set (fs := omap _ _).
  destruct (fields_read (S (S n)) fs) as (kw & Hkw & _); [|eexists; by apply reads_obj].
  apply Forall_forall. intros [k v] Hin. apply list_elem_of_omap in Hin as (x & _ & Hx).
  destruct (m !! x) as [l|]; [|done]. injection Hx as <- <-. exists (JArr (map (JStr ∘ replaced) l)).
  apply reads_arr, Forall2_fmap_l, Forall2_fmap_r, Forall2_same_length_lookup_2; [done|].
  intros i a b Ha Hb. rewrite Ha in Hb. injection Hb as <-. apply reads_str.
Qed.

Lemma noBodyResponse_reads s fs s' : noBodyResponse h s = (Ok fs, s') → readable_fields fs.
Proof.
  assert (∀ A Hs m o u, readable_fields (noBodyFields A Hs m o u false false)) as Hf.
  { intros A Hs m o u. destruct (fields_read 100 (noBodyFields A Hs m o u false false)) as (kw & Hkw & E).
    - repeat constructor; cbn [snd]; try apply jvalues_read; eexists; apply reads_str.
    - exists kw. split; [done|]. rewrite E. vm_compute. reflexivity. }
  intros [= <- _]. apply Hf.
Qed.

Lemma blank_wr s s' : wr s' = wr s → blank s → blank s'.
Proof. intros E [[] ?]. split; [split|]; by rewrite E. Qed.

(** The fields that depend on the body. *)
Definition bodyFields (resp : bodyResponse) : list (string * json) :=
  [("data", JStr (Data resp)); ("files", jvalues (Files resp));
   ("form", jvalues (Form resp)); ("json", JSON_ resp)].

Definition parseError (e : gerror) : gerror := Errorf "error parsing request body: %w" [AErr e].

Lemma RequestWithBody_run s :
  blank s →
  ∃ order, (∀ m k, k ∈ order m ↔ is_Some (m !! k)) ∧
  match parseBody order (req s) nilResponse with
  | Ok resp => ∃ fs s', RequestWithBody h s = (Ok tt, s') ∧ (map fst fs = inspected ∧ readable_fields fs) ∧
      answers 200 (Encode (JObj (fs ++ bodyFields resp))) s'
  | Err e => ∃ s', RequestWithBody h s = (Ok tt, s') ∧
      answers 400 (Encode (errorRespnose 400 (Error (parseError e)))) s'
  | Panic _ => True
  end.
Proof.
  intros Hs. destruct (noBodyResponse_run s) as (fs & s1 & E & Hfs & Hw & Hr).
  pose proof (noBodyResponse_reads s fs s1 E) as Hread. pose proof (blank_wr s s1 Hw Hs) as Hs1.
  unfold RequestWithBody, mbind, GoM_bind. rewrite E. unfold get_req, try_, lift, range_order.
  set (s1' := MkWorld _ _ _ _ _ _ _ _). assert (blank s1') as Hs1' by by apply (blank_wr s1).
  exists (λ m, iteration_order (rnd s1 (rndi s1)) m). split; [intros m k; apply iteration_order_elem|]. rewrite (parseBody_same _ (req s) (req s1)) by done.
  destruct (parseBody _ _ _) as [resp|e|p]; [| |done].
  - destruct (writeJSON_answers 200 (JObj (fs ++ bodyFields resp)) s1') as (s2 & E2 & Ha);
      [by apply final_200|done|done|]. exists fs, s2. by rewrite <- E2.
  - destruct (writeJSON_answers 400 (errorRespnose 400 (Error (parseError e))) s1') as (s2 & E2 & Ha);
      [by apply final_200|done|done|]. exists s2. by rewrite <- E2.
Qed.

(** ** Recovering the body *)

(** The types whose body is parsed; every other body can only fail to be read. *)
Definition parsedTypes : list string :=
  ["application/x-www-form-urlencoded"; "multipart/form-data"; "application/json"].
Definition contentType (r : Request) : string :=
  (Cut ";" (Header_Get "Content-Type" (RHeader r))).1.1.

(** [data] is the body, or a data URL of the body under its type. *)
Definition shows (ct body data : string) : Prop :=
  if bool_decide (body = "" ∨ ct ∈ ["text/html"; "text/plain"] ++ parsedTypes) then data = body
  else data = "data:" +:+ (if String.eqb ct "" then binaryContentType else ct) +:+ ";base64,"
              +:+ EncodeToString URLEncoding (to_bytes body).

(** What a client that reads the string [data] makes of it: the body, in which a byte that
    is not UTF-8 is U+FFFD, or else, after the last comma, the base64 of the body. *)
Definition recovers (ct body data : string) : Prop :=
  if bool_decide (body = "" ∨ ct ∈ ["text/html"; "text/plain"] ++ parsedTypes)
  then data = replaced body ∧ (utf8_Valid (to_bytes body) = true → data = body)
  else ∃ type b64, data = "data:" +:+ type +:+ ";base64," +:+ b64 ∧
         contains_char "," b64 = false ∧ DecodeString URLEncoding b64 = Ok (to_bytes body).

Lemma shows_recovers ct body data : shows ct body data → recovers ct body (replaced data).
Proof.
  unfold shows, recovers. case_bool_decide as Hd.
  { intros ->. split; [done|apply replaced_valid]. }
  set (type := if String.eqb ct "" then _ else _). set (b64 := EncodeToString _ _). intros ->.
  pose proof (EncodeToString_text URLEncoding (to_bytes body)) as Hb. fold b64 in Hb.
  exists (replaced type), b64. split; [|split; [|apply DecodeString_EncodeToString]].
  - change (";base64," +:+ b64) with (String ";" ("base64," +:+ b64)).
    rewrite (sapp_assoc "data:" type), replaced_app by reflexivity.
    assert (replaced (String ";" ("base64," +:+ b64)) = String ";" ("base64," +:+ b64)) as ->.
    { apply replaced_valid. apply utf8_Valid_ascii. change (String ";" ("base64," +:+ b64)) with (";base64," +:+ b64).
      rewrite to_bytes_app. apply Forall_app_2; [by repeat constructor|]. revert Hb. clear.
      induction b64 as [|c s IH]; [constructor|]. cbn [string_forall]. intros [Hc Hs]%andb_true_iff.
      rewrite to_bytes_cons. constructor; [rewrite byte_code|by apply IH].
      unfold text_char in Hc. reflect_bools. done. }
    cbn [String.append]. by rewrite !replaced_cons by reflexivity.
  - apply (string_forall_contains text_char); [done|reflexivity].
Qed.

Lemma parseBody_shows order r :
  match parseBody order r nilResponse with
  | Ok resp => BodyEnd r = None ∧ shows (contentType r) (Body r) (Data resp)
  | Err e => BodyEnd r = Some e ∨ (BodyEnd r = None ∧ Body r ≠ "" ∧ contentType r ∈ parsedTypes)
  | Panic _ => False
  end.
Proof.
  unfold parseBody, contentType, shows. destruct (BodyEnd r) as [e|]; [by left|].
  destruct (slen (Body r) =? 0) eqn:E0; reflect_bools.
  { rewrite bool_decide_true by (by left; destruct (Body r)). by destruct (Body r). }
  assert (Body r ≠ "") as Hne by (by intros E; rewrite E in E0).
  destruct (Cut ";" _) as [[ct b] f]. cbn [fst snd].
  destruct (decide (ct ∈ ["text/html"; "text/plain"] ++ parsedTypes)) as [Hin|Hout].
  - rewrite bool_decide_true by (by right).
    apply elem_of_app in Hin as [Hin|Hin].
    + apply elem_of_cons in Hin as [->|[->|[]%elem_of_nil]%elem_of_cons]; by cbn.
    + pose proof Hin as Hin'.
      apply elem_of_cons in Hin as [->|[->|[->|[]%elem_of_nil]%elem_of_cons]%elem_of_cons]; cbn.
      * destruct (ParseForm _ _) as [? []]; cbn; auto.
      * unfold ParseMultipartForm. destruct (ReadForm _ _) as [|[form files]]; cbn; [by right|].
        destruct (ParseQuery_error _); cbn; [auto|].
        pose proof (parseFiles_never_panics (order files) files ∅) as Hp.
        destruct (parseFiles _ _ _) as [?|e|w]; cbn; [auto|auto|by destruct (Hp w)].
      * destruct (json_Decode _); cbn; auto.
  - rewrite bool_decide_false by naive_solver.
    assert (∀ x, x ∈ ["text/html"; "text/plain"] ++ parsedTypes → String.eqb ct x = false) as Hf.
    { intros x Hx. apply String.eqb_neq. by intros ->. }
    rewrite !Hf by (apply (bool_decide_unpack _); reflexivity). cbn.
    by split.
Qed.


(** ** Forms *)

Definition formMethods : list string := ["GET"; "DELETE"; "POST"; "PUT"; "PATCH"].

Lemma parseBody_form order r v :
  (∀ k, v !! k ≠ Some []) → Body r = Values_Encode v → BodyEnd r = None →
  slen (Values_Encode v) ≤ maxFormSize → Method r ∈ formMethods →
  Header_Get "Content-Type" (RHeader r) = "application/x-www-form-urlencoded" →
  ParseQuery_error (RawQuery (URL r)) = None →
  parseBody order r nilResponse = Ok (MkBodyResponse (Values_Encode v) ∅ v JNull).
Proof.
  intros Hv Hb He Hl Hm Hc Hq. unfold parseBody. rewrite He, Hb, Hc.
  destruct (slen (Values_Encode v) =? 0) eqn:E0; reflect_bools.
  - assert (Values_Encode v = "") as E by (by destruct (Values_Encode v)).
    rewrite E. rewrite <- (ParseQuery_Encode v Hv), E. reflexivity.
  - change (Cut ";" _) with ("application/x-www-form-urlencoded", "", false). cbn [String.eqb Ascii.eqb Bool.eqb orb].
    set (m := if (_ : bool) then "POST" else Method r).
    assert (m ∈ ["POST"; "PUT"; "PATCH"]) as Hm'.
    { unfold m, formMethods in *. repeat (apply elem_of_cons in Hm as [Hm|Hm];
        [rewrite Hm; apply (bool_decide_unpack _); reflexivity|]). by apply elem_of_nil in Hm. }
    unfold ParseForm. rewrite bool_decide_true by done. rewrite Hc, Hb. unfold parsePostForm.
    change (Cut ";" _) with ("application/x-www-form-urlencoded", "", false). cbn -[maxFormSize slen].
    ztest. rewrite Hq, ParseQuery_error_Encode. cbn. by rewrite ParseQuery_Encode.
Qed.

(** (C20) A form that is encoded and posted comes back: the answer has the values that the
    client encoded, and its "data" is their encoding, for GET and DELETE too. *)
Theorem form_posted s v :
  blank s → (∀ k, v !! k ≠ Some []) →
  Body (req s) = Values_Encode v → BodyEnd (req s) = None →
  slen (Values_Encode v) ≤ maxFormSize → Method (req s) ∈ formMethods →
  Header_Get "Content-Type" (RHeader (req s)) = "application/x-www-form-urlencoded" →
  ParseQuery_error (RawQuery (URL (req s))) = None →
  ∃ fs s', RequestWithBody h s = (Ok tt, s') ∧ map fst fs = inspected ∧
    answers 200 (Encode (JObj (fs ++ bodyFields (MkBodyResponse (Values_Encode v) ∅ v JNull)))) s'.
Proof.
  intros Hs Hv Hb He Hl Hm Hc Hq. destruct (RequestWithBody_run s Hs) as (order & _ & Hrun).
  rewrite (parseBody_form order (req s) v) in Hrun by done. destruct Hrun as (fs & s' & E & [Hfs _] & Ha). by exists fs, s'.
Qed.

(** A multipart body comes back as its values and the contents of its files, when those
    can be read. *)
Theorem multipart_posted s form files contents :
  blank s → BodyEnd (req s) = None → Body (req s) ≠ "" → contentType (req s) = "multipart/form-data" →
  ReadForm (Header_Get "Content-Type" (RHeader (req s))) (Body (req s)) = inr (form, files) →
  contents_of files contents → ParseQuery_error (RawQuery (URL (req s))) = None →
  ∃ fs s', RequestWithBody h s = (Ok tt, s') ∧ map fst fs = inspected ∧
    answers 200 (Encode (JObj (fs ++ bodyFields (MkBodyResponse (Body (req s)) contents form JNull)))) s'.
Proof.
  intros Hs He Hb Hct Hf Hc Hq. destruct (RequestWithBody_run s Hs) as (order & Horder & Hrun).
  replace (parseBody order (req s) nilResponse) with
    (Ok (E := gerror) (MkBodyResponse (Body (req s)) contents form JNull)) in Hrun;
    [destruct Hrun as (fs & s' & E & [Hfs _] & Ha); by exists fs, s'|]. symmetry.
  unfold parseBody, contentType in *. rewrite He.
  destruct (slen (Body (req s)) =? 0) eqn:E0; reflect_bools; [by destruct (Body (req s))|].
  destruct (Cut ";" _) as [[ct b] f]. cbn [fst] in Hct. subst ct. cbn [String.eqb Ascii.eqb Bool.eqb orb].
  unfold ParseMultipartForm. rewrite Hf, Hq. cbn [result mbind outcome_bind].
  by rewrite (parseFiles_all _ files contents) by (done || apply Horder).
Qed.
End BodySpec.



(** Text that is not UTF-8 is not recovered: two bodies of one byte have the same answer. *)
Example text_body_lost :
  let answer b := body (wr (RequestWithBody sample_bin (sample_post "text/plain" (of_bytes [b]))).2) in
  answer xff = answer xfe ∧ field_of "data" (answer xff) = Some (JStr (of_bytes [xef; xbf; xbd])).
Proof. split; vm_compute; reflexivity. Qed.

Definition sample_form : values := {["a" := ["1"; "x y"]; "b" := ["&"]]}.
Example sample_form_encoded : Values_Encode sample_form = "a=1&a=x+y&b=%26".
Proof. vm_compute. reflexivity. Qed.

Lemma form_posted_witness :
  let s := sample_post "application/x-www-form-urlencoded" (Values_Encode sample_form) in
  ∃ fs s', RequestWithBody sample_bin s = (Ok tt, s') ∧ map fst fs = inspected ∧
    answers 200 (Encode (JObj (fs ++ bodyFields
      (MkBodyResponse (Values_Encode sample_form) ∅ sample_form JNull)))) s'.
Proof.
  intros s. apply (form_posted sample_bin s sample_form).
  - done.
  - intros k. unfold sample_form. destruct (decide (k = "a")) as [->|Ha]; [done|]. rewrite lookup_insert_ne by done.
    destruct (decide (k = "b")) as [->|Hb]; [done|]. by rewrite lookup_singleton_ne.
  - vm_compute. reflexivity.
  - reflexivity.
  - vm_compute. discriminate.
  - apply (bool_decide_unpack _). reflexivity.
  - reflexivity.
  - vm_compute. reflexivity.
Defined.
