(* ===== verification/ServeContentSpec.v ===== *)
(** * ServeContentSpec: ranges of a content

    For every content that keeps the promises of [io.ReadSeeker] ([Seekable]),
    [ServeContent] sends exactly the bytes that the range header asks for.  The synthetic
    stream and [bytes.Reader] keep them; so do, in particular, [Range] and [ETag]. *)

From S2P Require Import Prelude GoStrings GoNum GoFloat GoTime GoFmt Json GoURL GoNet.
From S2P Require Import Http HttpLaws Digest Handles Bodies Delay DelaySpec ClientIP Bin Pipeline Cookies.
From S2P Require Import Handlers RequestBody Samples Streams ServeContent StreamsSpec HandlersSpec BodySpec.

(** ** What a content promises *)

(** The bytes from [o] on, [k] of them. *)
Definition piece (content : list byte) (o k : Z) : list byte := take (Z.to_nat k) (drop (Z.to_nat o) content).

Lemma piece_length content o k : 0 ≤ o → 0 ≤ k → o + k ≤ blen content → blen (piece content o k) = k.
Proof. intros Ho Hk Hl. unfold piece, blen in *. rewrite length_take, length_drop. lia. Qed.

Lemma piece_app content o a b :
  0 ≤ o → 0 ≤ a → 0 ≤ b → piece content o (a + b) = piece content o a ++ piece content (o + a) b.
Proof.
  intros Ho Ha Hb. unfold piece. rewrite !Z2Nat.inj_add by lia. rewrite <- (drop_drop content).
  by rewrite take_take_drop.
Qed.

Lemma piece_all content : piece content 0 (blen content) = content.
Proof. unfold piece, blen. by rewrite Nat2Z.id, drop_0, firstn_all. Qed.

(** Seeking positions the content, reading gives the bytes there, [pace] nanoseconds
    each, and [io.EOF] at the end only (and there, when there is nothing to read). *)
Class Seekable {S} (rs : ReadSeeker S) (content : list byte) (pace : Z) (position : S → Z → Prop) : Prop := {
  seekable_pace : 0 ≤ pace;
  seek_start st p o : position st p → 0 ≤ o ≤ blen content →
    ∃ st', rs_Seek rs o SeekStart st = (Ok o, st') ∧ position st' o;
  seek_end st p : position st p →
    ∃ st', rs_Seek rs 0 SeekEnd st = (Ok (blen content), st') ∧ position st' (blen content);
  read_at st o len : position st o → 0 ≤ o ≤ blen content → 0 < len ≤ 32768 →
    let n := Z.min len (blen content - o) in
    ∃ eof st', rs_Read rs len st = (piece content o n, eof, pace * n, st') ∧ position st' (o + n) ∧
      (eof = true → o + n = blen content) ∧ (n = 0 → eof = true);
}.

#[export] Instance bytesReader_Seekable content :
  Seekable bytesReader content 0 (λ st p, st = (content, p)).
Proof.
  split.
  - done.
  - intros st p o -> Ho. exists (content, o). cbn. by ztest.
  - intros st p ->. exists (content, blen content). cbn. rewrite Z.add_0_r.
    assert (0 ≤ blen content) by (unfold blen; lia). by ztest.
  - intros st o len -> Ho Hl n. cbn. destruct (blen content <=? o) eqn:E; reflect_bools.
    + assert (n = 0) as Hn by lia. exists true, (content, o). rewrite Hn. split; [done|]. rewrite Z.add_0_r.
      split; [done|]. split; [lia|done].
    + exists false, (content, o + n).
      assert (take (Z.to_nat len) (drop (Z.to_nat o) content) = piece content o n) as ->.
      { unfold piece, n. destruct (Z.min_spec len (blen content - o)) as [[_ ->]|[Hle ->]]; [done|].
        rewrite !take_ge; [done|..]; rewrite length_drop; unfold blen in *; lia. }
      rewrite piece_length by lia. split; [done|]. split; [done|]. split; [done|lia].
Qed.

Section Synthetic.
Context (size duration : Z) (factory : Z → byte).
Context (Hsize : 1 ≤ size ≤ 2 ^ 61) (Hduration : 0 ≤ duration ≤ 2 ^ 61).

Lemma window_piece o k :
  0 ≤ o → 0 ≤ k → o + k ≤ size → window factory o k = piece (window factory 0 size) o k.
Proof.
  intros Ho Hk Hl. apply list_eq. intros i. unfold piece, window.
  change (map ?f ?l) with (f <$> l). rewrite list_lookup_fmap.
  destruct (decide (i < Z.to_nat k)%nat) as [Hi|Hi].
  - rewrite lookup_seq_lt, lookup_take_lt, lookup_drop by lia. rewrite list_lookup_fmap, lookup_seq_lt by lia.
    cbn. do 2 f_equal. lia.
  - rewrite lookup_seq_ge, lookup_take_ge by lia. done.
Qed.

Lemma window_length o k : 0 ≤ k → blen (window factory o k) = k.
Proof. intros Hk. unfold blen, window. rewrite length_map, length_seq. lia. Qed.

#[export] Instance syntheticReader_Seekable :
  Seekable syntheticReader (window factory 0 size) (Z.quot duration size)
    (λ st p, st = at_offset size duration factory p).
Proof.
  split.
  - rewrite Z.quot_div_nonneg by lia. apply Z.div_pos; lia.
  - intros st p o -> Ho. eexists. cbn. ztest. done.
  - intros st p ->. rewrite window_length by lia. eexists. cbn. rewrite Z.sub_0_r.
    rewrite wrap64_id by (unfold in_int64, minInt64, maxInt64; lia). ztest. done.
  - intros st o len -> Ho Hl n. subst n. rewrite window_length in * by lia. cbn [rs_Read syntheticReader].
    rewrite stream_Read_at by lia. set (n := Z.min len (size - o)). cbn [rr_data rr_eof rr_pause]. eexists _, _.
    rewrite window_piece by lia. split; [done|]. split; [done|]. split; intros Hn; reflect_bools; [lia|].
    apply Z.leb_le. lia.
Qed.
End Synthetic.

(** ** Copying *)

Lemma WriteHeader_sends c s :
  final c → bodyAllowed c = true → startable s →
  ∃ s', WriteHeader c s = (Ok tt, s') ∧ body_open c (wr s') ∧ body (wr s') = "" ∧
    declared (wr s') = declared_length (rHeader (base (wr s))) ∧ now s' = now s ∧ gone s' = gone s ∧
    req s' = req s ∧
    ∀ k, CanonicalHeaderKey k ≠ CanonicalHeaderKey "Content-Length" →
      Header_Get k (sent (wr s')) = Header_Get k (rHeader (base (wr s))).
Proof.
  intros Hc Hb Hs. destruct (WriteHeader_opens c s Hc Hb Hs) as (s' & E & Ho & He & Hd & Hn & Hg).
  exists s'. repeat (split; [done|]). revert E. unfold WriteHeader.
  destruct (w_WriteHeader c (wr s)) as [w| |] eqn:E; [|done..]. intros [= <-]. split; [done|]. intros k Hk.
  destruct Hs as [Hp Hst _]. apply w_WriteHeader_base in E; [|by apply direct_transparent].
  exact (base_WriteHeader_header _ _ _ k Hc Hst E Hk).
Qed.

Lemma WriteAll_appends b c s :
  body_open c (wr s) → room (slen b) (wr s) → ∃ s', WriteAll b s = (Ok true, s') ∧ appended c b 0 s s'.
Proof.
  intros Ho Hr. unfold WriteAll, WriteCount, mbind, GoM_bind.
  destruct (w_Write_all b (wr s) c Ho Hr) as (w' & -> & H1 & H2 & H3 & H4). cbn [wr set_wr].
  rewrite Z.leb_refl. eexists. split; [done|]. split; try done. cbn. lia.
Qed.

Lemma time_Sleep_appends d c s :
  0 ≤ d → body_open c (wr s) → ∃ s', time_Sleep d s = (Ok tt, s') ∧ appended c "" d s s'.
Proof.
  intros Hd Ho. eexists. split; [reflexivity|]. split; try done; cbn; [by rewrite sapp_nil_r|lia].
Qed.

Section Copy.
Context {S : Type} (rs : ReadSeeker S) (content : list byte) (pace : Z) (position : S → Z → Prop).
Context `{!Seekable rs content pace position}.

Lemma copyN_appends fuel left st o c s :
  (Z.to_nat left < fuel)%nat → position st o → 0 ≤ o → 0 ≤ left → o + left ≤ blen content →
  body_open c (wr s) → room left (wr s) →
  ∃ st' s', copyN rs fuel left st s = (Ok (true, st'), s') ∧ position st' (o + left) ∧
    appended c (of_bytes (piece content o left)) (pace * left) s s'.
Proof.
  pose proof (seekable_pace (rs := rs)) as Hpace.
  revert left st o s. induction fuel as [|fuel IH]; intros left st o s Hf Hp Ho Hl Hle Hb Hr; [lia|].
  cbn [copyN]. destruct (left <=? 0) eqn:E0; reflect_bools.
  { assert (left = 0) as -> by lia. exists st, s. split; [done|]. rewrite Z.add_0_r. split; [done|].
    rewrite Z.mul_0_r. change (of_bytes (piece content o 0)) with "". by apply appended_refl. }
  destruct (read_at (content := content) st o (Z.min left 32768) Hp ltac:(lia) ltac:(lia)) as (eof & st1 & E & Hp1 & He1 & _).
  assert (Z.min (Z.min left 32768) (blen content - o) = Z.min left 32768) as Hn by lia.
  rewrite Hn in E, Hp1, He1. set (n := Z.min left 32768) in *. rewrite E.
  assert (1 ≤ n ≤ left) as Hn1 by lia. pose proof (piece_length content o n ltac:(lia) ltac:(lia) ltac:(lia)) as Hlen.
  destruct (time_Sleep_appends (pace * n) c s ltac:(nia) Hb) as (s1 & E1 & A1).
  assert (room n (wr s1)) as Hr1.
  { eapply appended_room; [exact A1|]. change (slen "") with 0. eapply room_mono, Hr. lia. }
  destruct (WriteAll_appends (of_bytes (piece content o n)) c s1) as (s2 & E2 & A2); [apply A1| |].
  { by rewrite of_bytes_length, Hlen. }
  unfold mbind, GoM_bind. rewrite E1. clear Hn.
  assert (piece content o n ≠ []) as Hne by (intros Hz; rewrite Hz in Hlen; unfold blen in Hlen; cbn in Hlen; lia).
  destruct (piece content o n) as [|x l] eqn:Ep; [done|]. rewrite <- Ep in *. clear Hne. rewrite E2. cbn [negb].
  pose proof (appended_trans _ _ _ _ _ _ _ _ A1 A2) as A.
  destruct eof.
  - specialize (He1 eq_refl). assert (n = left) as Hnl by lia. exists st1, s2. split; [done|].
    rewrite <- Hnl. split; [done|]. by rewrite Z.add_0_r in A.
  - rewrite Hlen. destruct (IH (left - n) st1 (o + n) s2) as (st' & s' & E' & Hp' & A'); [lia|done|lia|lia|lia| | |].
    { apply A. }
    { eapply appended_room; [exact A|]. rewrite slen_app, of_bytes_length, Hlen. change (slen "") with 0.
      eapply room_mono, Hr. lia. }
    exists st', s'. split; [done|]. replace (o + n + (left - n)) with (o + left) in Hp' by lia. split; [done|].
    pose proof (appended_trans _ _ _ _ _ _ _ _ A A') as A''. cbn [String.append] in A''.
    rewrite <- of_bytes_app, <- piece_app in A'' by lia.
    replace (n + (left - n)) with left in A'' by lia.
    by replace (pace * n + 0 + pace * (left - n)) with (pace * left) in A'' by lia.
Qed.

Lemma CopyN_appends n st o c s :
  position st o → 0 ≤ o → 0 ≤ n → o + n ≤ blen content → body_open c (wr s) → room n (wr s) →
  ∃ st' s', CopyN rs n st s = (Ok (true, st'), s') ∧ position st' (o + n) ∧
    appended c (of_bytes (piece content o n)) (pace * n) s s'.
Proof. intros. apply copyN_appends; (done || lia). Qed.
End Copy.

(** ** Ranges are within the content *)

Definition within (size : Z) (r : httpRange) : Prop :=
  0 ≤ ra_start r ∧ 0 ≤ ra_length r ∧ ra_start r + ra_length r ≤ size.

Lemma parse_one_range_within size ra r : 0 ≤ size → parse_one_range size ra = Ok (Some r) → within size r.
Proof.
  intros Hsize. unfold parse_one_range, within. destruct (Cut "-" ra) as [[start stop] found].
  destruct (negb found); [done|].
  destruct (String.eqb (TrimString start) "").
  - destruct (_ || _); [done|]. destruct (range_number _) as [i|] eqn:E; [|done]. intros [= <-]. cbn.
    assert (0 ≤ i); [|lia]. revert E. unfold range_number. destruct (ParseInt 64 _); [|done..].
    destruct (_ <? _) eqn:E; [done|]. intros [= <-]. reflect_bools. lia.
  - destruct (range_number _) as [i|] eqn:E; [|done].
    assert (0 ≤ i) as Hi.
    { revert E. unfold range_number. destruct (ParseInt 64 _); [|done..].
      destruct (_ <? _) eqn:E; [done|]. intros [= <-]. reflect_bools. lia. }
    destruct (size <=? i) eqn:E1; [done|]. destruct (String.eqb _ ""); [intros [= <-]; cbn; reflect_bools; lia|].
    destruct (ParseInt 64 _) as [j| |]; [|done..]. destruct (j <? i) eqn:E2; [done|]. intros [= <-]. cbn.
    reflect_bools. lia.
Qed.

Lemma parse_ranges_within size pieces ranges b :
  0 ≤ size → parse_ranges size pieces = Ok (ranges, b) → Forall (within size) ranges.
Proof.
  intros Hsize. revert ranges b. induction pieces as [|ra pieces IH]; intros ranges b; cbn [parse_ranges].
  { intros [= <- _]. by apply Forall_nil. }
  destruct (String.eqb _ ""); [apply IH|]. intros (r & Er & ([rs nb] & Ers & E)%outcome_bind_Ok)%outcome_bind_Ok.
  specialize (IH _ _ Ers). destruct r as [r|]; injection E as <- <-; [|done].
  constructor; [by eapply parse_one_range_within|done].
Qed.

Lemma parseRange_within size s ranges : 0 ≤ size → parseRange s size = Ok ranges → Forall (within size) ranges.
Proof.
  intros Hsize. unfold parseRange. destruct (String.eqb s ""); [intros [= <-]; by apply Forall_nil|].
  destruct (negb _); [done|]. intros ([rs nb] & E & Er)%outcome_bind_Ok.
  apply parse_ranges_within in E; [|done]. destruct rs as [|r rs]; [|by injection Er as <-].
  destruct nb; [done|]. injection Er as <-. by apply Forall_nil.
Qed.

Lemma parse_one_range_no_panic size ra w : parse_one_range size ra ≠ Panic w.
Proof. unfold parse_one_range. by repeat case_match. Qed.

Lemma parseRange_no_panic s size w : parseRange s size ≠ Panic w.
Proof.
  unfold parseRange. destruct (String.eqb s ""); [done|]. destruct (negb _); [done|].
  assert (∀ pieces w, parse_ranges size pieces ≠ Panic w) as Hp.
  { clear. induction pieces as [|ra pieces IH]; intros w; cbn [parse_ranges]; [done|].
    destruct (String.eqb _ ""); [done|]. pose proof (parse_one_range_no_panic size (TrimString ra)) as H1.
    destruct (parse_one_range _ _) as [r| |p]; cbn; [|done|naive_solver].
    destruct (parse_ranges size pieces) as [[rs nb]| |p]; cbn; [by destruct r|done|naive_solver]. }
  specialize (Hp (Split "," (TrimPrefix s "bytes="))).
  destruct (parse_ranges _ _) as [[rs nb]| |p]; cbn; [by destruct rs, nb|done|naive_solver].
Qed.

(** ** Sending *)

Definition head_request (s : World) : bool := String.eqb (Method (req s)) "HEAD".

(** The response to [s] is complete: the status, the length and, unless only the headers
    were asked for, the bytes, in the time [t]; other headers are those that were set. *)
Record served (c : Z) (b : string) (t : Z) (s s' : World) : Prop := {
  srv_status : status (wr s') = Some c;
  srv_body : body (wr s') = if head_request s then "" else b;
  srv_length : declared (wr s') = Some (slen b);
  srv_now : now s' = now s + if head_request s then 0 else t;
  srv_header k : CanonicalHeaderKey k ∉ ["Accept-Ranges"; "Content-Length"] →
    Header_Get k (sent (wr s')) = Header_Get k (rHeader (base (wr s)));
}.

Lemma sendContent_serves c n ranges send b t s :
  final c → bodyAllowed c = true → blank s →
  Header_Get "Content-Encoding" (rHeader (base (wr s))) = "" → slen b = n → n ≤ maxInt64 →
  (∀ s1, body_open c (wr s1) → room n (wr s1) → ∃ s2, send s1 = (Ok tt, s2) ∧ appended c b t s1 s2) →
  ∃ s', sendContent c n ranges send s = (Ok tt, s') ∧ served c b t s s'.
Proof.
  intros Hc Ha Hs Hce Hn Hmax Hsend. pose proof (slen_nonneg b).
  unfold sendContent, mbind, GoM_bind. rewrite SetHeader_run. unfold get_header. cbn [wr set_wr].
  rewrite rHeader_set_header, Header_Get_Set_ne, Hce, orb_true_r by done.
  rewrite SetHeader_run. cbn [wr set_wr].
  match goal with |- context [WriteHeader c ?x] => set (s1 := x) end.
  assert (blank (set_wr (set_header (Header_Set "Accept-Ranges" "bytes") (wr s)) s)) as Hs0 by by apply blank_header.
  assert (startable s1) as Hs1 by apply (startable_header _ _ (blank_startable _ Hs0)).
  destruct (WriteHeader_sends c s1 Hc Ha Hs1) as (s2 & -> & Ho & He & Hd & Hnow & _ & Hr & Hh).
  assert (declared (wr s2) = Some n) as Hd2.
  { rewrite Hd. unfold s1. cbn [wr set_wr]. rewrite rHeader_set_header. apply declared_length_set. lia. }
  assert (∀ k, CanonicalHeaderKey k ∉ ["Accept-Ranges"; "Content-Length"] →
    Header_Get k (sent (wr s2)) = Header_Get k (rHeader (base (wr s)))) as Hh2.
  { intros k Hk. rewrite Hh by set_solver. unfold s1. cbn [wr set_wr]. rewrite !rHeader_set_header.
    change (CanonicalHeaderKey "Content-Length") with "Content-Length".
    rewrite !Header_Get_Set_ne; [done|..]; set_solver. }
  unfold get_req. cbn [req]. rewrite Hr. change (req s1) with (req s). fold (head_request s).
  destruct (head_request s) eqn:Hhead.
  - exists s2. split; [done|]. split; rewrite ?Hhead; [apply Ho|done|by rewrite Hd2, Hn| |done].
    rewrite Hnow. cbn. lia.
  - destruct (Hsend s2 Ho) as (s3 & E & A). { unfold room. rewrite Hd2, He. change (slen "") with 0. lia. }
    exists s3. split; [done|]. split; rewrite ?Hhead; [apply A| | | |].
    + by rewrite (app_body _ _ _ _ _ A), He.
    + by rewrite (app_declared _ _ _ _ _ A), Hd2, Hn.
    + rewrite (app_now _ _ _ _ _ A), Hnow. done.
    + intros k Hk. rewrite (app_sent _ _ _ _ _ A). by apply Hh2.
Qed.

Lemma blank_op f s :
  blank s → (∀ h, h !! "Content-Length" = None → f h !! "Content-Length" = None) →
  blank (set_wr (set_header f (wr s)) s).
Proof.
  intros [Hs Hl] Hf. split; [by apply startable_header|]. cbn [wr set_wr]. rewrite rHeader_set_header. by apply Hf.
Qed.

Lemma Header_Del_None k k' (h : headers) : h !! k = None → Header_Del k' h !! k = None.
Proof. unfold Header_Del. intros Hk. apply lookup_delete_None. by right. Qed.

(** An error of [net/http] keeps most of the headers that were set. *)
Lemma http_Error_answers text c s :
  final c → bodyAllowed c = true → blank s →
  ∃ s', http_Error text c s = (Ok tt, s') ∧ answers c (text +:+ str1 LF) s' ∧
    ∀ k, CanonicalHeaderKey k ∉ ["Content-Length"; "Content-Type"; "X-Content-Type-Options"] →
      Header_Get k (sent (wr s')) = Header_Get k (rHeader (base (wr s))).
Proof.
  intros Hc Ha Hs. unfold http_Error, header_op, mbind, GoM_bind.
  set (s2 := set_wr (set_header (Header_Del "Content-Length") (wr s)) s).
  assert (blank s2) as Hs2 by (apply blank_op; [done|]; intros hd Hh; by apply Header_Del_None).
  rewrite !SetHeader_run. cbn [wr set_wr].
  match goal with |- context [WriteHeader c ?x] => set (s3 := x) end.
  assert (blank s3) as [Hs3 Hl3] by (apply (blank_header _ _ (set_wr _ s2)); [done|]; by apply (blank_header _ _ s2)).
  destruct (WriteHeader_sends c s3 Hc Ha Hs3) as (s4 & -> & Ho & He & Hd & _ & _ & _ & Hh).
  rewrite declared_length_None in Hd by done.
  destruct (Write_appends (text +:+ str1 LF) c s4 Ho) as (s5 & -> & []); [by unfold room; rewrite Hd|].
  exists s5. split; [done|]. split; [split; [apply app_open|]; by rewrite app_body, He|].
  intros k Hk. rewrite app_sent, Hh by set_solver. unfold s3, s2. cbn [wr set_wr]. rewrite !rHeader_set_header.
  change (CanonicalHeaderKey "Content-Length") with "Content-Length" in *.
  rewrite !Header_Get_Set_ne, Header_Get_Del_ne; [done|..]; set_solver.
Qed.

Lemma serveError_answers text c s :
  final c → bodyAllowed c = true → blank s →
  ∃ s', serveError text c s = (Ok tt, s') ∧ answers c (text +:+ str1 LF) s'.
Proof.
  intros Hc Ha Hs. unfold serveError, header_op, mbind, GoM_bind.
  match goal with |- context [set_wr (set_header ?f (wr s)) s] => set (s1 := set_wr (set_header f (wr s)) s) end.
  assert (blank s1) as Hs1 by (apply blank_op; [done|]; intros hd Hh; cbn; by repeat apply Header_Del_None).
  destruct (http_Error_answers text c s1 Hc Ha Hs1) as (s' & E & A & _). by exists s'.
Qed.

(** ** Several ranges *)

Section Ranges.
Context {S : Type} (rs : ReadSeeker S) (content : list byte) (pace : Z) (position : S → Z → Prop).
Context `{!Seekable rs content pace position}.
Let size : Z := blen content.

(** The body of a multipart answer. *)
Fixpoint multipart (first : bool) (boundary ctype : string) (ranges : list httpRange) : string :=
  match ranges with
  | [] => closing boundary
  | r :: ranges =>
      partHeader first boundary ctype size r +:+ of_bytes (piece content (ra_start r) (ra_length r))
      +:+ multipart false boundary ctype ranges
  end.

Fixpoint lengths (ranges : list httpRange) : Z :=
  match ranges with [] => 0 | r :: ranges => ra_length r + lengths ranges end.

Lemma multipart_size boundary ctype ranges :
  Forall (within size) ranges →
  rangesMIMESize boundary ctype size ranges = slen (multipart true boundary ctype ranges).
Proof.
  intros Hw. unfold rangesMIMESize.
  assert (∀ a i, foldl Z.add a (imap (λ j r,
      slen (partHeader (i + j =? 0)%nat boundary ctype size r) + ra_length r) ranges) + slen (closing boundary)
    = a + slen (multipart (i =? 0)%nat boundary ctype ranges)) as Hgen.
  { induction Hw as [|r ranges (H1 & H2 & H3) Hw IH]; intros a i; [done|]. rewrite imap_cons. cbn [foldl multipart].
    rewrite Nat.add_0_r, !slen_app, of_bytes_length, piece_length by done.
    erewrite imap_ext by (intros j x _; cbn; by rewrite Nat.add_succ_r). rewrite (IH _ (Datatypes.S i)). cbn [Nat.eqb]. lia. }
  exact (Hgen 0 0%nat).
Qed.

Lemma copyParts_appends first boundary ctype ranges st p c s :
  Forall (within size) ranges → position st p → body_open c (wr s) →
  room (slen (multipart first boundary ctype ranges)) (wr s) →
  ∃ s', copyParts rs first boundary ctype size ranges st s = (Ok tt, s') ∧
    appended c (multipart first boundary ctype ranges) (pace * lengths ranges) s s'.
Proof.
  intros Hw. revert first st p s. induction Hw as [|r ranges (H1 & H2 & H3) Hw IH]; intros first st p s Hp Ho Hr;
    cbn [copyParts multipart lengths] in *; unfold mbind, GoM_bind.
  - destruct (WriteAll_appends (closing boundary) c s Ho Hr) as (s1 & -> & A). exists s1.
    split; [done|]. by rewrite Z.mul_0_r.
  - set (ph := partHeader _ _ _ _ _) in *. set (rest := multipart false _ _ _) in *.
    rewrite !slen_app, of_bytes_length, piece_length in Hr by done.
    pose proof (slen_nonneg rest). pose proof (slen_nonneg ph).
    destruct (WriteAll_appends ph c s Ho) as (s1 & -> & A1); [eapply room_mono, Hr; lia|]. cbn [negb].
    destruct (seek_start (content := content) st p (ra_start r) Hp) as (st1 & -> & Hp1); [lia|].
    assert (room (ra_length r + slen rest) (wr s1)) as Hr1 by (eapply appended_room; [exact A1|]; eapply room_mono, Hr; lia).
    destruct (CopyN_appends rs content pace position (ra_length r) st1 (ra_start r) c s1) as (st2 & s2 & -> & Hp2 & A2);
      [done|lia|lia|done|apply A1|eapply room_mono, Hr1; lia|]. cbn [negb].
    destruct (IH false st2 _ s2 Hp2) as (s3 & -> & A3); [apply A2| |].
    { fold rest. eapply appended_room; [exact A2|]. rewrite of_bytes_length, piece_length by lia.
      eapply room_mono, Hr1. lia. }
    exists s3. split; [done|]. pose proof (appended_trans _ _ _ _ _ _ _ _ A1 (appended_trans _ _ _ _ _ _ _ _ A2 A3)) as A.
    by replace (0 + (pace * ra_length r + pace * lengths ranges)) with (pace * (ra_length r + lengths ranges)) in A by lia.
Qed.

Section Serve.
Context `{GoStd, Runtime, HttpTime}.

(** What the ranges of a request are answered with: all of the content; one piece of it,
    with its place; or the pieces as the parts of a multipart body. *)
Definition with_header (k v : string) (s : World) : World := set_wr (set_header (Header_Set k v) (wr s)) s.

Definition ranges_served (ranges : list httpRange) (s s' : World) : Prop :=
  match ranges with
  | [] => served 200 (of_bytes content) (pace * size) s s'
  | [r] => served 206 (of_bytes (piece content (ra_start r) (ra_length r))) (pace * ra_length r)
             (with_header "Content-Range" (contentRange r size) s) s'
  | _ => ∃ boundary, slen boundary = 60 ∧
           served 206 (multipart true boundary (Header_Get "Content-Type" (rHeader (base (wr s)))) ranges)
             (pace * lengths ranges)
             (with_header "Content-Type" ("multipart/byteranges; boundary=" +:+ boundary) s) s'
  end.

Lemma rand_Read_run n s :
  ∃ l i, rand_Read n s = (Ok l, MkWorld (req s) (wr s) (now s) (gone s) (rnd s) i (caches s) (link s)) ∧ length l = n.
Proof.
  revert s. induction n as [|n IH]; intros s; [exists [], (rndi s); by destruct s|].
  cbn [rand_Read]. unfold mbind, GoM_bind, Int63n. cbn [Z.leb Z.compare].
  destruct (IH (MkWorld (req s) (wr s) (now s) (gone s) (rnd s) (Datatypes.S (rndi s)) (caches s) (link s))) as (l & i & -> & Hl).
  eexists _, i. split; [reflexivity|]. cbn. by rewrite Hl.
Qed.

Lemma hex_bytes_length l : slen (hex_bytes l) = 2 * Z.of_nat (length l).
Proof.
  induction l as [|b l IH]; [done|]. cbn [hex_bytes length]. rewrite slen_app, IH, Nat2Z.inj_succ.
  change (slen (hex_n 2 (byte_Z b))) with 2. lia.
Qed.

(** The sizes that are declared are below the largest int64. *)
Definition moderate (ranges : list httpRange) (ctype : string) : Prop :=
  ∀ boundary, slen boundary = 60 → slen (multipart true boundary ctype ranges) ≤ maxInt64.

Lemma serveRanges_serves ranges st p s :
  position st p → blank s → Header_Get "Content-Encoding" (rHeader (base (wr s))) = "" →
  p = 0 → size ≤ maxInt64 → Forall (within size) ranges →
  moderate ranges (Header_Get "Content-Type" (rHeader (base (wr s)))) →
  ∃ s', serveRanges rs ranges size st s = (Ok tt, s') ∧ ranges_served ranges s s'.
Proof.
  intros Hp Hs Hce -> Hmax Hw Hmod. assert (0 ≤ size) as Hsz by (unfold size, blen; lia).
  unfold serveRanges, mbind, GoM_bind, get_header. destruct ranges as [|r [|r2 ranges]].
  - apply sendContent_serves; [by apply final_200|done..|by rewrite of_bytes_length|done|].
    intros s1 Ho Hr. rewrite <- (piece_all content).
    destruct (CopyN_appends rs content pace position size st 0 200 s1) as (st2 & s2 & E & _ & A); [done|lia|done|unfold size; lia|done|done|].
    exists s2. by rewrite E.
  - apply Forall_cons in Hw as [(B1 & B2 & B3) _].
    destruct (seek_start (content := content) st 0 (ra_start r) Hp) as (st1 & -> & Hp1); [unfold size in *; lia|].
    rewrite SetHeader_run. apply (sendContent_serves 206 (ra_length r) true _ _ _ (with_header _ _ s)); [by apply final_200|done| | | |lia|].
    + by apply blank_header.
    + unfold with_header. cbn [wr set_wr]. by rewrite rHeader_set_header, Header_Get_Set_ne.
    + by rewrite of_bytes_length, piece_length.
    + intros s1 Ho Hr.
      destruct (CopyN_appends rs content pace position (ra_length r) st1 (ra_start r) 206 s1) as (st2 & s2 & E & _ & A); [done..|].
      exists s2. by rewrite E.
  - destruct (rand_Read_run 30 s) as (l & i & -> & Hl). set (boundary := hex_bytes l).
    assert (slen boundary = 60) as Hb by (unfold boundary; by rewrite hex_bytes_length, Hl).
    rewrite SetHeader_run. cbn [wr set_wr]. set (s1 := set_wr _ _).
    set (ctype := Header_Get "Content-Type" (rHeader (base (wr s)))) in *.
    destruct (sendContent_serves 206 (rangesMIMESize boundary ctype size (r :: r2 :: ranges)) true
      (copyParts rs true boundary ctype size (r :: r2 :: ranges) st)
      (multipart true boundary ctype (r :: r2 :: ranges)) (pace * lengths (r :: r2 :: ranges)) s1) as (s' & E & Hsrv).
    + by apply final_200.
    + done.
    + apply (blank_wr (with_header "Content-Type" ("multipart/byteranges; boundary=" +:+ boundary) s)); [done|].
      by apply blank_header.
    + unfold s1. cbn [wr set_wr]. by rewrite rHeader_set_header, Header_Get_Set_ne.
    + by rewrite multipart_size.
    + rewrite multipart_size by done. by apply Hmod.
    + intros s2 Ho Hr. rewrite multipart_size in Hr by done.
      by apply (copyParts_appends true boundary ctype _ st 0 206 s2).
    + exists s'. split; [exact E|]. exists boundary. split; [done|]. destruct Hsrv. by split.
Qed.

(** No header of the request makes it conditional. *)
Definition unconditional (r : headers) : Prop :=
  Forall (λ k, Header_Get k r = "")
    ["If-Match"; "If-Unmodified-Since"; "If-None-Match"; "If-Modified-Since"; "If-Range"].

Lemma checkPreconditions_none method w r modtime :
  unconditional r → checkPreconditions method w r modtime = inr (Header_Get "Range" r).
Proof.
  unfold unconditional. rewrite !Forall_cons. intros (E1 & E2 & E3 & E4 & E5 & _).
  unfold checkPreconditions, checkIfMatch, checkIfUnmodifiedSince, checkIfNoneMatch, checkIfModifiedSince, checkIfRange.
  rewrite E1, E2, E3, E4, E5. cbn [String.eqb]. rewrite !orb_true_r, andb_false_r.
  by destruct modtime.
Qed.

Lemma contentSize_run st p :
  position st p → ∃ st', contentSize rs st = (Ok size, st') ∧ position st' 0.
Proof.
  intros Hp. unfold contentSize. destruct (seek_end (content := content) st p Hp) as (st1 & -> & Hp1).
  destruct (seek_start (content := content) st1 _ 0 Hp1) as (st2 & -> & Hp2); [unfold blen; lia|].
  by exists st2.
Qed.

Definition stamped (modtime : option Z) (s : World) : World :=
  match modtime with Some t => with_header "Last-Modified" (formatHTTP t) s | None => s end.

(** The preconditions hold. *)
Definition unprevented (modtime : option Z) (s : World) : Prop :=
  checkPreconditions (Method (req s)) (rHeader (base (wr (stamped modtime s)))) (RHeader (req s)) modtime
  = inr (Header_Get "Range" (RHeader (req s))).

Lemma ServeContent_serves modtime st p s :
  position st p → blank s → Header_Get "Content-Encoding" (rHeader (base (wr s))) = "" →
  0 < size ≤ maxInt64 → unprevented modtime s →
  (∀ ranges, parseRange (Header_Get "Range" (RHeader (req s))) size = Ok ranges →
     moderate ranges (Header_Get "Content-Type" (rHeader (base (wr s))))) →
  ∃ s', ServeContent rs modtime st s = (Ok tt, s') ∧
    match parseRange (Header_Get "Range" (RHeader (req s))) size with
    | Ok ranges => ranges_served (if size <? sumRangesSize ranges then [] else ranges) (stamped modtime s) s'
    | Err e => answers 416 (rangeErrorText e +:+ str1 LF) s'
    | Panic _ => False
    end.
Proof.
  intros Hp Hs Hce Hsize Hu Hmod. unfold ServeContent, mbind, GoM_bind.
  set (stamp := match modtime with Some t => _ | None => _ end).
  assert (stamp s = (Ok tt, stamped modtime s)) as -> by by destruct modtime.
  clear stamp. set (s0 := stamped modtime s).
  assert (blank s0) as Hs0 by (unfold s0, stamped; destruct modtime; [by apply blank_header|done]).
  assert (req s0 = req s) as Hr0 by (unfold s0; by destruct modtime).
  assert (∀ k, CanonicalHeaderKey k ≠ CanonicalHeaderKey "Last-Modified" →
    Header_Get k (rHeader (base (wr s0))) = Header_Get k (rHeader (base (wr s)))) as Hh.
  { intros k Hk. unfold s0, stamped. destruct modtime; [|done]. unfold with_header. cbn [wr set_wr].
    by rewrite rHeader_set_header, Header_Get_Set_ne. }
  unfold get_req, get_header. rewrite Hr0. unfold unprevented in Hu. fold s0 in Hu. rewrite Hu.
  destruct (contentSize_run st p Hp) as (st1 & -> & Hp1).
  destruct (parseRange _ size) as [ranges|e|w] eqn:E; [| |by destruct (parseRange_no_panic _ _ _ E)].
  - apply (serveRanges_serves _ st1 0 s0); [done|done|by rewrite Hh|done|lia| |].
    + destruct (_ <? _); [by apply Forall_nil|]. apply (parseRange_within size) in E; [done|lia].
    + rewrite Hh by done. destruct (_ <? _); [|by apply Hmod].
      intros boundary Hb. cbn [multipart]. unfold closing. rewrite !slen_app, Hb. vm_compute. discriminate.
  - destruct e.
    + apply serveError_answers; [by apply final_200|done|done].
    + destruct (size =? 0) eqn:E0; reflect_bools; [lia|]. rewrite SetHeader_run.
      apply serveError_answers; [by apply final_200|done|by apply blank_header].
Qed.
End Serve.
End Ranges.

(** ** The size of a multipart answer *)

Lemma split_length sep s : Z.of_nat (length (Split sep s)) ≤ slen s + 1.
Proof.
  unfold slen. induction s as [|c s IH]; [done|]. cbn [Split String.length].
  destruct (Ascii.eqb _ _); [cbn [length]; lia|]. destruct (Split sep s); cbn [length] in *; lia.
Qed.

Lemma parse_ranges_length size pieces ranges b :
  parse_ranges size pieces = Ok (ranges, b) → (length ranges ≤ length pieces)%nat.
Proof.
  revert ranges b. induction pieces as [|ra pieces IH]; intros ranges b; cbn [parse_ranges].
  { intros [= <- _]. cbn. lia. }
  destruct (String.eqb _ ""); [intros E; apply IH in E; cbn; lia|].
  intros (r & _ & ([rs nb] & Ers & E)%outcome_bind_Ok)%outcome_bind_Ok. apply IH in Ers.
  destruct r; injection E as <- _; cbn; lia.
Qed.

Lemma parseRange_length size s ranges :
  parseRange s size = Ok ranges → Z.of_nat (length ranges) ≤ slen s + 1.
Proof.
  unfold parseRange. pose proof (slen_nonneg s).
  destruct (String.eqb s ""); [intros [= <-]; cbn; lia|]. destruct (negb (HasPrefix s "bytes=")); [done|].
  intros ([rs nb] & E & Er)%outcome_bind_Ok. apply parse_ranges_length in E.
  pose proof (split_length "," (TrimPrefix s "bytes=")) as Hl.
  assert (slen (TrimPrefix s "bytes=") ≤ slen s).
  { unfold TrimPrefix. destruct (HasPrefix s _); [|lia]. unfold slen.
    assert (∀ n s, String.length (sdrop n s) ≤ String.length s)%nat as Hd; [|specialize (Hd (String.length "bytes=") s); lia].
    clear. induction n as [|n IH]; intros [|c s]; cbn; try lia. specialize (IH s). lia. }
  destruct rs as [|r rs]; [destruct nb; [done|]; injection Er as <-; cbn; lia|]. injection Er as <-. lia.
Qed.

Lemma contentRange_length r size :
  within size r → size ≤ 2 ^ 40 → slen (contentRange r size) ≤ 80.
Proof.
  intros (H1 & H2 & H3) Hs. unfold contentRange. rewrite !slen_app.
  pose proof (Itoa_length_int64 (ra_start r)). pose proof (Itoa_length_int64 size).
  pose proof (Itoa_length_int64 (ra_start r + ra_length r - 1)). unfold in_int64, minInt64, maxInt64 in *.
  change (slen "bytes ") with 6. change (slen "-") with 1. change (slen "/") with 1. lia.
Qed.

Lemma multipart_bound content first boundary ctype ranges :
  blen content ≤ 2 ^ 40 → Forall (within (blen content)) ranges → slen boundary = 60 → slen ctype ≤ 100 →
  slen (multipart content first boundary ctype ranges) ≤ Z.of_nat (length ranges) * (2 ^ 40 + 400) + 100.
Proof.
  intros Hs Hw Hb Hc. revert first. induction Hw as [|r ranges Hr Hw IH]; intros first; cbn [multipart length].
  - unfold closing. rewrite !slen_app, Hb. change (slen CRLF) with 2. change (slen "--") with 2. lia.
  - rewrite !slen_app, of_bytes_length, piece_length by apply Hr. specialize (IH false). rewrite Nat2Z.inj_succ.
    assert (slen (partHeader first boundary ctype (blen content) r) ≤ 300); [|destruct Hr as (H1 & H2 & H3); lia].
    unfold partHeader. rewrite !slen_app, Hb. pose proof (contentRange_length r _ Hr Hs).
    change (slen CRLF) with 2. change (slen "--") with 2. change (slen "Content-Range: ") with 15.
    change (slen "Content-Type: ") with 14. assert (slen (if first then "" else CRLF) ≤ 2) by by destruct first.
    lia.
Qed.

(** ** The range endpoint *)

Section RangeHandler.
Context `{GoStd, Runtime, HttpTime} (h : HTTPBin).

Lemma AddHeader_run k v s : AddHeader k v s = (Ok tt, set_wr (set_header (Header_Add k v) (wr s)) s).
Proof. done. Qed.

(** The state in which the content is served: its type and its tag are set. *)
Definition range_state (n : Z) (s : World) : World :=
  with_header "Content-Type" textContentType
    (let op f s := set_wr (set_header f (wr s)) s in
     op (Header_Add "Accept-Ranges" "bytes") (op (Header_Add "ETag" ("range" +:+ Itoa n)) s)).

(** (C22) /range/n, for the n that are allowed, serves the ranges that are asked for: every
    range lies within the n bytes of the alphabet over and over; without a range, or with
    more than there is, all of them are sent; one range is sent with its place, several as
    the parts of a multipart body; the length is declared, HEAD gets no body, and the
    bytes take at most the duration.  A range that is not valid or has no overlap with
    the bytes is answered with 416. *)
Theorem Range_serves s n d :
  blank s → Header_Get "Content-Encoding" (rHeader (base (wr s))) = "" →
  PathValue "numBytes" (req s) = Itoa n → 1 ≤ n ≤ MaxBodySize h → MaxBodySize h ≤ 2 ^ 40 →
  rangeDuration h (Query (URL (req s))) = Ok d → MaxDuration h ≤ 2 ^ 61 →
  unconditional (RHeader (req s)) → slen (Header_Get "Range" (RHeader (req s))) ≤ 2 ^ 20 →
  let content := window rangeByte 0 n in
  ∃ s', Range h s = (Ok tt, s') ∧
    match parseRange (Header_Get "Range" (RHeader (req s))) n with
    | Ok ranges => Forall (within n) ranges ∧
        0 ≤ Z.quot d n * n ≤ d ∧
        ranges_served content (Z.quot d n) (if n <? sumRangesSize ranges then [] else ranges) (range_state n s) s'
    | Err e => answers 416 (rangeErrorText e +:+ str1 LF) s'
    | Panic _ => False
    end.
Proof.
  intros Hs Hce Hn Hrange Hmax Hd Hdur Hu Hlen content.
  assert (0 ≤ d ≤ 2 ^ 61) as Hd2.
  { revert Hd. unfold rangeDuration. destruct (nonempty _); [|intros [= <-]; lia].
    destruct (parseBoundedDuration _ _ _) as [d'| |] eqn:E; cbn; [|done..]. intros [= <-].
    apply parseBoundedDuration_Ok in E as [_ ?]. lia. }
  assert (blen content = n) as Hsize by (apply window_length; lia).
  unfold Range, mbind, GoM_bind, get_req, try_, lift. rewrite Hn. unfold ParseIntE.
  change (ParseInt 64 (Itoa n)) with (Atoi (Itoa n)). rewrite Atoi_Itoa by (unfold in_int64, minInt64, maxInt64; lia).
  change (numErr "ParseInt" (Itoa n) (Ok n)) with (Ok (E := gerror) n). rewrite Hd. cbn beta iota.
  rewrite !AddHeader_run, SetHeader_run. cbn [wr set_wr].
  set (s3 := set_wr (set_header (Header_Set "Content-Type" textContentType) _) _).
  assert (s3 = range_state n s) as E3 by done. clearbody s3. subst s3.
  replace (n <=? 0) with false by lia. replace (MaxBodySize h <? n) with false by lia. cbn [orb].
  rewrite (new_at_offset n d rangeByte) by lia.
  assert (blank (range_state n s)) as Hs3.
  { apply blank_header; [done|]. do 2 (apply blank_op; [|intros hd Hh; by apply lookup_insert_None]). done. }
  pose proof (syntheticReader_Seekable n d rangeByte ltac:(lia) ltac:(lia)) as Hseek. fold content in Hseek.
  destruct (ServeContent_serves syntheticReader content (Z.quot d n)
    (λ st p, st = at_offset n d rangeByte p) None (at_offset n d rangeByte 0) 0 (range_state n s))
    as (s' & E & Hresp).
  - done.
  - done.
  - unfold range_state, with_header. cbn [wr set_wr]. rewrite !rHeader_set_header, Header_Get_Set_ne by done.
    revert Hce. unfold Header_Get, Header_Add. by rewrite !lookup_insert_ne.
  - rewrite Hsize. unfold maxInt64. lia.
  - by apply checkPreconditions_none.
  - rewrite Hsize. intros ranges Er boundary Hb. change (req (range_state n s)) with (req s) in Er.
    unfold range_state, with_header. cbn [wr set_wr]. rewrite rHeader_set_header, Header_Get_Set.
    pose proof (multipart_bound content true boundary textContentType ranges) as Hbound. rewrite Hsize in Hbound.
    specialize (Hbound ltac:(lia) (parseRange_within n _ _ ltac:(lia) Er) Hb ltac:(vm_compute; discriminate)).
    apply parseRange_length in Er. unfold maxInt64. lia.
  - exists s'. split; [exact E|]. change (req (range_state n s)) with (req s) in Hresp. rewrite Hsize in Hresp.
    destruct (parseRange _ n) as [ranges|e|] eqn:Er; [|done..].
    split; [by apply (parseRange_within n _ _ ltac:(lia) Er)|]. split; [|exact Hresp].
    apply pause_bound; lia.
Qed.
End RangeHandler.

(** No date is understood. *)
#[export] Instance sample_http_time : HttpTime := {| ParseTime := λ _, None |}.

Definition sample_range_request (path numBytes range : string) : World :=
  let r := sample_request "GET" path "" in
  sample_world (SetPathValue "numBytes" numBytes
    (MkRequest (Method r) (URL r) (RequestURI_ r) (Header_Set "Range" range ∅) (Host r) (RemoteAddr r)
       (TLS r) (TransferEncoding r) (Body r) (BodyEnd r) (PathValues r))).

Lemma Range_serves_witness :
  let s := sample_range_request "/range/10" "10" "bytes=2-5" in
  ∃ s', Range sample_bin s = (Ok tt, s') ∧
    ranges_served (window rangeByte 0 10) 0 [MkRange 2 4] (range_state 10 s) s'.
Proof.
  intros s. destruct (Range_serves sample_bin s 10 0) as (s' & E & Hr).
  - done.
  - reflexivity.
  - reflexivity.
  - split; [done|]. vm_compute. discriminate.
  - vm_compute. discriminate.
  - vm_compute. reflexivity.
  - vm_compute. discriminate.
  - unfold unconditional. repeat constructor.
  - vm_compute. discriminate.
  - exists s'. split; [exact E|].
    replace (parseRange (Header_Get "Range" (RHeader (req s))) 10) with (Ok (E := rangeError) [MkRange 2 4]) in Hr
      by (vm_compute; reflexivity).
    apply Hr.
Defined.
