(* ===== verification/PipelineParse.v ===== *)
(** * PipelineParse: the pipeline grammar

    The parser always answers, what it accepts prints back to a path that it
    accepts with the same result, and a redirect terminal leads to the same
    pipeline with one redirect less. *)

From S2P Require Import Prelude GoStrings GoNum GoFmt GoPath Pipeline.

(** ** The segments of a result *)

Definition mod_segments (m : pipelineStep) : list string := step_name m :: step_args m.
Definition term_segments (t : pipelineStep) : list string :=
  Split "/" (step_name t) ++ step_args t.
Definition result_segments (r : pipelineResult) : list string :=
  concat (map mod_segments (modifiers r)) ++ term_segments (terminal r).

(** The path that the modifiers and the terminal spell. *)
Definition print_pipeline (r : pipelineResult) : string :=
  buildModifierPrefix (modifiers r) +:+ step_path (terminal r).

Lemma step_path_term t : step_path t = path_of (term_segments t).
Proof.
  unfold step_path, term_segments. rewrite path_of_app, path_of_Split, <- sapp_assoc.
  done.
Qed.

Lemma step_path_mod m :
  contains_char "/" (step_name m) = false → step_path m = path_of (mod_segments m).
Proof.
  intros H. rewrite step_path_term. unfold term_segments, mod_segments.
  by rewrite Split_no_sep_id.
Qed.

Lemma prefix_path_of ms :
  Forall (λ m, contains_char "/" (step_name m) = false) ms →
  buildModifierPrefix ms = path_of (concat (map mod_segments ms)).
Proof.
  unfold buildModifierPrefix. induction 1 as [|m ms Hm _ IH]; [done|].
  cbn [map concat]. by rewrite Join_empty_cons, path_of_app, IH, step_path_mod.
Qed.

(** ** The tables *)

Lemma assoc_elem {A} k (l : list (string * A)) v : assoc k l = Some v → (k, v) ∈ l.
Proof.
  induction l as [|[k' v'] l IH]; [done|]. cbn [assoc].
  destruct (String.eqb_spec k k') as [->|_]; [intros [= ->]; set_solver|].
  intros H. apply list_elem_of_further. by apply IH.
Qed.

Lemma forall_assoc {A} (P : string * A → bool) l k v :
  forallb P l = true → assoc k l = Some v → P (k, v) = true.
Proof.
  intros H Hk%assoc_elem. rewrite forallb_forall in H. by apply H, list_elem_of_In.
Qed.

Lemma modifier_no_slash seg n :
  pipelineModifierDefs seg = Some n → contains_char "/" seg = false.
Proof.
  intros H. apply negb_true_iff.
  by apply (forall_assoc (λ kv, negb (contains_char "/" kv.1)) modifier_table seg n).
Qed.

(** The first halves of the two-segment terminals. *)
Definition two_seg_heads : list string := ["cookies"; "encoding"; "forms"; "dump"].

Lemma two_seg_head a b :
  contains_char "/" a = false → is_terminal (a +:+ "/" +:+ b) = true → a ∈ two_seg_heads.
Proof.
  intros Ha. unfold is_terminal, pipelineTerminals.
  destruct (assoc _ _) as [d|] eqn:E; [|done]. intros _.
  eapply (forall_assoc (λ kv, match Cut "/" kv.1 with
    | (x, _, true) => bool_decide (x ∈ two_seg_heads) | _ => true end)) in E; [|done].
  cbn [fst] in E. change ("/" +:+ b) with (String "/" b) in E.
  rewrite Cut_found in E by done. by apply bool_decide_eq_true in E.
Qed.

(** ** The loop *)

(** A segment and what follows it, taken as a modifier. *)
Definition takes_modifier (seg : string) (rest : list string) : option nat :=
  match pipelineModifierDefs seg with
  | Some args => if negb (is_terminal seg) || (args <? length rest)%nat then Some args else None
  | None => None
  end.

Lemma parse_loop_eq f mods seg rest :
  parse_loop (S f) mods (seg :: rest) =
  match takes_modifier seg rest with
  | Some args =>
      if (length rest <? args)%nat then Err (Errorf "modifier %q requires a value" [AStr seg])
      else parse_loop f (mods ++ [MkStep seg (take args rest)]) (drop args rest)
  | None => t ← parse_terminal seg rest; Ok (MkPipelineResult mods t)
  end.
Proof.
  cbn [parse_loop]. unfold takes_modifier.
  destruct (pipelineModifierDefs seg) as [[|args]|]; [| |done];
    destruct (negb (is_terminal seg) || _); try done.
Qed.

Lemma parse_loop_fuel f1 f2 mods rem :
  (length rem ≤ f1)%nat → (length rem ≤ f2)%nat →
  parse_loop f1 mods rem = parse_loop f2 mods rem.
Proof.
  revert f2 mods rem. induction f1 as [|f1 IH]; intros f2 mods rem H1 H2.
  - destruct rem; [by destruct f2|cbn in H1; lia].
  - destruct rem as [|seg rest]; [by destruct f2|]. destruct f2 as [|f2]; [cbn in H2; lia|].
    cbn [length] in H1, H2. rewrite !parse_loop_eq.
    destruct (takes_modifier seg rest) as [args|]; [|done].
    destruct (length rest <? args)%nat; [done|]. apply IH; rewrite length_drop; lia.
Qed.

Lemma parse_terminal_never_panics seg rest w : parse_terminal seg rest ≠ Panic w.
Proof. unfold parse_terminal. repeat case_match; done. Qed.

Lemma parse_loop_never_panics f mods rem w :
  (length rem ≤ f)%nat → parse_loop f mods rem ≠ Panic w.
Proof.
  revert mods rem. induction f as [|f IH]; intros mods rem Hf.
  - by destruct rem; [|cbn in Hf; lia].
  - destruct rem as [|seg rest]; [done|]. cbn [length] in Hf. rewrite parse_loop_eq.
    destruct (takes_modifier seg rest) as [args|].
    + destruct (length rest <? args)%nat; [done|]. apply IH. rewrite length_drop. lia.
    + destruct (parse_terminal seg rest) eqn:E; [done..|].
      by apply parse_terminal_never_panics in E.
Qed.

(** What the loop has accepted: modifiers with their arguments, and a terminal
    that was not taken for a modifier. *)
Definition mod_ok (m : pipelineStep) : Prop :=
  pipelineModifierDefs (step_name m) = Some (length (step_args m)).

Lemma parse_loop_sound f mods rem r :
  parse_loop f mods rem = Ok r →
  ∃ ms seg tail, r = MkPipelineResult (mods ++ ms) (terminal r) ∧
    Forall mod_ok ms ∧ rem = concat (map mod_segments ms) ++ seg :: tail ∧
    takes_modifier seg tail = None ∧ parse_terminal seg tail = Ok (terminal r).
Proof.
  revert mods rem. induction f as [|f IH]; intros mods rem.
  { destruct rem; cbn; done. }
  destruct rem as [|seg rest]; [done|]. rewrite parse_loop_eq.
  destruct (takes_modifier seg rest) as [args|] eqn:Et.
  - destruct (length rest <? args)%nat eqn:El; [done|]. apply Nat.ltb_ge in El.
    intros (ms & seg' & tail & Hr & Hms & Hrem & Ht & Hp)%IH.
    exists (MkStep seg (take args rest) :: ms), seg', tail. repeat split; try done.
    + by rewrite <- app_assoc in Hr.
    + constructor; [|done]. unfold mod_ok, takes_modifier in *. cbn [step_name step_args].
      rewrite length_take_le by done.
      destruct (pipelineModifierDefs seg) as [n|]; [|done].
      destruct (negb (is_terminal seg) || _); congruence.
    + cbn. f_equal. by rewrite <- app_assoc, <- Hrem, take_drop.
  - intros (t & Hp & [= <-])%outcome_bind_Ok. exists [], seg, rest. repeat split; try done.
    by rewrite app_nil_r.
Qed.

(** Modifiers in front of anything are taken as such. *)
Lemma parse_loop_modifiers f mods ms rest :
  Forall mod_ok ms → rest ≠ [] →
  (length (concat (map mod_segments ms) ++ rest) ≤ f)%nat →
  parse_loop f mods (concat (map mod_segments ms) ++ rest)
  = parse_loop f (mods ++ ms) rest.
Proof.
  intros Hms Hrest. revert f mods. induction Hms as [|m ms Hm _ IH]; intros f mods Hf.
  { by rewrite app_nil_r. }
  destruct m as [seg args].
  change (concat (map mod_segments (MkStep seg args :: ms)) ++ rest)
    with (seg :: (args ++ concat (map mod_segments ms)) ++ rest) in *.
  rewrite <- app_assoc in *.
  set (tail := concat (map mod_segments ms) ++ rest) in *.
  destruct f as [|f]; [cbn in Hf; lia|]. rewrite parse_loop_eq.
  unfold mod_ok in Hm. cbn [step_name step_args] in Hm.
  assert (tail ≠ []) as Ht by (unfold tail; destruct rest; [done|by destruct (concat _)]).
  assert (length args < length (args ++ tail))%nat as Hlen
    by (rewrite length_app; destruct tail; [done|cbn; lia]).
  unfold takes_modifier. rewrite Hm, (proj2 (Nat.ltb_lt _ _) Hlen), orb_true_r.
  rewrite (proj2 (Nat.ltb_ge _ _)) by lia.
  rewrite take_app_length, drop_app_length.
  cbn [length] in Hf. unfold tail in *. rewrite length_app in Hf.
  rewrite IH by lia. rewrite <- app_assoc.
  apply parse_loop_fuel; rewrite length_app in Hf; lia.
Qed.

(** ** The terminal *)

Lemma parse_two_Some seg tail t :
  parse_two (seg :: tail) = Some t →
  ∃ b rest, tail = b :: rest ∧ t = MkStep (seg +:+ "/" +:+ b) rest.
Proof.
  destruct tail as [|b rest]; [done|]. cbn. destruct (is_terminal _); [|done].
  intros [= <-]. eauto.
Qed.

(** Reading the printed terminal again gives the same terminal. *)
Lemma parse_terminal_again seg tail t :
  Forall elem_ok (seg :: tail) → parse_terminal seg tail = Ok t →
  ∃ tail', term_segments t = seg :: tail' ∧ parse_terminal seg tail' = Ok t ∧
    (length tail' ≤ length tail)%nat ∧ Forall elem_ok (seg :: tail').
Proof.
  intros Hok Hp. apply Forall_cons in Hok as [Hseg Htail].
  assert (contains_char "/" seg = false) as Hs by by apply elem_slash.
  pose proof Hp as Hp'. unfold parse_terminal in Hp. destruct (parse_two (seg :: tail)) as [t'|] eqn:E2.
  - injection Hp as ->. destruct (parse_two_Some _ _ _ E2) as (b & rest & -> & ->).
    exists (b :: rest). repeat split; try done; [|by constructor].
    unfold term_segments. cbn [step_name step_args].
    apply Forall_cons in Htail as [[_ _ _ Hb] _].
    change ("/" +:+ b) with (String "/" b). rewrite Split_append.
    by rewrite (Split_no_sep_id "/" seg Hs), (Split_no_sep_id "/" b Hb).
  - destruct (pipelineTerminals seg) as [def|] eqn:Ed; [|done].
    destruct (_ && (_ <? t_args def)) eqn:E3; [done|].
    destruct ((0 <=? t_args def) && (t_args def <? _)) eqn:E4; injection Hp as <-;
      unfold term_segments; cbn [step_name step_args]; rewrite Split_no_sep_id by done.
    + apply andb_true_iff in E4 as [E4 E5]. reflect_bools.
      set (n := Z.to_nat (t_args def)) in *.
      assert (n ≤ length tail)%nat as Hn by lia.
      exists (take n tail). repeat split; try done; [|rewrite length_take; lia|].
      * unfold parse_terminal. replace (parse_two (seg :: take n tail)) with (@None pipelineStep).
        -- rewrite Ed, length_take_le by done. rewrite !andb_false_intro2 by (apply Z.ltb_ge; lia).
           done.
        -- destruct tail as [|b tail'], n; try done. cbn in E2 |- *. by destruct (is_terminal _).
      * constructor; [done|]. by apply Forall_take.
    + exists tail. repeat split; try done. by constructor.
Qed.

Lemma takes_modifier_shorter seg tail tail' :
  takes_modifier seg tail = None → (length tail' ≤ length tail)%nat →
  takes_modifier seg tail' = None.
Proof.
  unfold takes_modifier. destruct (pipelineModifierDefs seg) as [n|]; [|done].
  destruct (negb (is_terminal seg)); [done|]. cbn [orb].
  destruct (Nat.ltb_spec n (length tail)); [done|]. intros _ ?.
  by rewrite (proj2 (Nat.ltb_ge _ _)) by lia.
Qed.
