(* ===== verification/PipelineSpec.v ===== *)
(** * PipelineSpec: what a pipeline URL means

    First the grammar: the parser answers on every path, accepted pipelines print
    back to themselves, and redirect chains count down to their destination.
    Then the handler: nothing happens before all modifiers are valid, delays stay
    within the maximum, headers come from the allow list, and the status override
    is what the client sees. *)

From S2P Require Import Prelude GoStrings GoNum GoTime GoFmt Json GoURL Http GoPath Delay.
From S2P Require Import DelaySpec ClientIP Bin Mix Pipeline Samples PipelineParse.

(** ** The grammar *)

Lemma segments_of_rooted p : HasPrefix p "/" = true → segments_of p = elems p.
Proof.
  intros Hp. unfold segments_of. rewrite Clean_rooted by done.
  pose proof (elems_ok p) as Hok. destruct (elems p) as [|e l] eqn:E; [done|].
  rewrite TrimChar_path_of by done.
  change (Join "/" (e :: l)) with (Join (str1 "/") (e :: l)).
  rewrite Split_Join; [|done|].
  - clear E. induction Hok as [|x k [Hne _ _ _] _ IH]; [done|]. rewrite filter_cons_True, IH; [done|].
    unfold nonempty. by rewrite (proj2 (String.eqb_neq _ _) Hne).
  - intros x Hx. rewrite Forall_forall in Hok. by apply elem_slash, Hok.
Qed.

Lemma Join_elem_empty e l : elem_ok e → Join "/" (e :: l) ≠ "" ∧ Join "/" (e :: l) ≠ ".".
Proof.
  intros [H1 H2 _ _]. destruct l as [|e' l]; [done|]. rewrite Join_cons.
  destruct e as [|c [|d e]]; [done|..]; by split.
Qed.

(** On the path of a request the parser works on the elements of the path. *)
Lemma parsePipeline_elems p :
  HasPrefix p "/" = true →
  parsePipeline p =
    if (length (elems p) =? 0)%nat then Err (Errorf "empty pipeline path" [])
    else if (maxPipelineSegments <? length (elems p))%nat
    then Err (Errorf "too many segments (max %d, got %d)"
                [AInt (Z.of_nat maxPipelineSegments); AInt (Z.of_nat (length (elems p)))])
    else parse_loop (length (elems p)) [] (elems p).
Proof.
  intros Hp. unfold parsePipeline. rewrite segments_of_rooted by done.
  rewrite Clean_rooted by done. pose proof (elems_ok p) as Hok.
  destruct (elems p) as [|e l] eqn:E; [done|]. rewrite TrimChar_path_of by done.
  apply Forall_cons in Hok as [He _]. destruct (Join_elem_empty e l He) as [H1 H2].
  by rewrite (proj2 (String.eqb_neq _ _) H1), (proj2 (String.eqb_neq _ _) H2).
Qed.

Lemma parsePipeline_path_of l :
  Forall elem_ok l → l ≠ [] → (length l ≤ maxPipelineSegments)%nat →
  parsePipeline (path_of l) = parse_loop (length l) [] l.
Proof.
  intros Hl Hne Hlen. rewrite parsePipeline_elems by (by apply path_of_rooted).
  rewrite elems_path_of by done.
  rewrite (proj2 (Nat.eqb_neq _ _)) by (by destruct l).
  by rewrite (proj2 (Nat.ltb_ge _ _)).
Qed.

(** What an accepted path consists of. *)
Record accepted (p : string) (r : pipelineResult) : Prop := {
  acc_mods : Forall mod_ok (modifiers r);
  acc_parse : ∃ seg tail,
    elems p = concat (map mod_segments (modifiers r)) ++ seg :: tail ∧
    takes_modifier seg tail = None ∧ parse_terminal seg tail = Ok (terminal r);
  acc_len : (length (elems p) ≤ maxPipelineSegments)%nat;
}.

Lemma parsePipeline_accepted p r :
  HasPrefix p "/" = true → parsePipeline p = Ok r → accepted p r.
Proof.
  intros Hp. rewrite parsePipeline_elems by done. destruct (_ =? 0)%nat; [done|].
  destruct (maxPipelineSegments <? _)%nat eqn:El; [done|]. apply Nat.ltb_ge in El.
  intros (ms & seg & tail & Hr & Hms & Hsegs & Ht & Hpt)%parse_loop_sound.
  cbn [app] in Hr. assert (modifiers r = ms) as Em by (by rewrite Hr).
  split; [by rewrite Em| |done]. exists seg, tail. by rewrite Em.
Qed.

(** A pipeline whose segments are good elements is what its path parses to. *)
Lemma parsePipeline_build ms seg tail t :
  Forall mod_ok ms → takes_modifier seg tail = None → parse_terminal seg tail = Ok t →
  Forall elem_ok (concat (map mod_segments ms) ++ seg :: tail) →
  (length (concat (map mod_segments ms) ++ seg :: tail) ≤ maxPipelineSegments)%nat →
  parsePipeline (path_of (concat (map mod_segments ms) ++ seg :: tail))
  = Ok (MkPipelineResult ms t).
Proof.
  intros Hms Ht Hp Hok Hlen. rewrite parsePipeline_path_of; [|done|by destruct (concat _)|done].
  rewrite parse_loop_modifiers by done. cbn [app].
  rewrite (parse_loop_fuel _ (S (length tail))) by (rewrite ?length_app; cbn; lia).
  rewrite parse_loop_eq, Ht, Hp. done.
Qed.

Lemma accepted_mods_ok p r :
  accepted p r → Forall elem_ok (concat (map mod_segments (modifiers r))) ∧
  Forall (λ m, contains_char "/" (step_name m) = false) (modifiers r).
Proof.
  intros [Hms (seg & tail & He & _) _]. pose proof (elems_ok p) as Hok.
  rewrite He in Hok. apply Forall_app in Hok as [Hok _]. split; [done|].
  eapply Forall_impl; [exact Hms|]. intros m Hm. by eapply modifier_no_slash.
Qed.

Lemma parsePipeline_never_panics p w :
  HasPrefix p "/" = true → parsePipeline p ≠ Panic w.
Proof.
  intros Hp. rewrite parsePipeline_elems by done. repeat case_match; try done.
  by apply parse_loop_never_panics.
Qed.

Lemma parsePipeline_facts p r :
  HasPrefix p "/" = true → parsePipeline p = Ok r →
  Forall mod_ok (modifiers r) ∧ (length (result_segments r) ≤ maxPipelineSegments)%nat.
Proof.
  intros Hp Hr.
  destruct (parsePipeline_accepted p r Hp Hr) as [Hms (seg & tail & He & Ht & Hpt) Hlen].
  split; [done|]. pose proof (elems_ok p) as Hok. rewrite He in Hok, Hlen.
  apply Forall_app in Hok as [_ Hok].
  destruct (parse_terminal_again seg tail (terminal r) Hok Hpt) as (tail' & Hts & _ & Hl & _).
  unfold result_segments. rewrite Hts. rewrite length_app in *. cbn in *. lia.
Qed.

Lemma parsePipeline_again p r :
  HasPrefix p "/" = true → parsePipeline p = Ok r → parsePipeline (print_pipeline r) = Ok r.
Proof.
  intros Hp Hr. pose proof (parsePipeline_accepted p r Hp Hr) as Hacc.
  destruct (accepted_mods_ok p r Hacc) as [Hmok Hslash].
  destruct Hacc as [Hms (seg & tail & He & Ht & Hpt) Hlen].
  pose proof (elems_ok p) as Hok. rewrite He in Hok, Hlen. apply Forall_app in Hok as [_ Hok].
  destruct (parse_terminal_again seg tail (terminal r) Hok Hpt) as (tail' & Hts & Hpt' & Hl & Hok').
  unfold print_pipeline. rewrite step_path_term, prefix_path_of, <- path_of_app, Hts by done.
  rewrite (parsePipeline_build _ _ _ (terminal r)); try done.
  - by destruct r.
  - by eapply takes_modifier_shorter.
  - by apply Forall_app.
  - rewrite length_app in *. cbn in *. lia.
Qed.

(** (C16) On every rooted path, the loop over the segments ends with a pipeline or an error,
    within the fuel of one iteration per segment.  What it accepts has at most twenty
    segments: modifiers of the table, each with its number of arguments, before a
    terminal; and it prints: the path rebuilt from the modifiers
    ([buildModifierPrefix]) and the terminal is accepted with the same result. *)
Theorem parsePipeline_print p :
  HasPrefix p "/" = true →
  (∀ w, parsePipeline p ≠ Panic w) ∧
  (∀ r, parsePipeline p = Ok r →
     Forall mod_ok (modifiers r) ∧ (length (result_segments r) ≤ maxPipelineSegments)%nat ∧
     parsePipeline (print_pipeline r) = Ok r).
Proof.
  intros Hp. split; [intros w; by apply parsePipeline_never_panics|].
  intros r Hr. destruct (parsePipeline_facts p r Hp Hr) as [Hm Hl]. split; [done|]. split; [done|].
  by apply (parsePipeline_again p).
Qed.

(** *** Redirects *)

Definition redirect_types : list string := ["redirect"; "absolute-redirect"; "relative-redirect"].

Lemma redirect_terminal ty args :
  ty ∈ redirect_types →
  takes_modifier ty args = None ∧ parse_terminal ty args = Ok (MkStep ty args).
Proof.
  intros Hty.
  assert (pipelineModifierDefs ty = None ∧ pipelineTerminals ty = Some variadic ∧
    contains_char "/" ty = false ∧ ty ∉ two_seg_heads) as (Hm & Ht & Hs & Hn).
  { unfold redirect_types in Hty.
    repeat (apply elem_of_cons in Hty as [->|Hty]; [by repeat split; try (by apply (bool_decide_unpack _))|]).
    by apply elem_of_nil in Hty. }
  unfold takes_modifier. rewrite Hm. split; [done|]. unfold parse_terminal. rewrite Ht.
  destruct args as [|b rest]; [done|]. unfold parse_two.
  destruct (is_terminal (ty +:+ "/" +:+ b)) eqn:E; [|done].
  by apply two_seg_head in E.
Qed.

Lemma digits_elem_ok n : 0 ≤ n → elem_ok (Itoa n).
Proof.
  intros Hn. destruct (Itoa_digits n Hn) as [Hne Hd]. split; [done| | |].
  - intros E. rewrite E in Hd. done.
  - intros E. rewrite E in Hd. done.
  - by apply (string_forall_contains _ _ _ Hd).
Qed.

Lemma redirectPath_next ty n dest ms :
  ty ∈ redirect_types → 1 < n → Forall (λ m, contains_char "/" (step_name m) = false) ms →
  redirectPath ty n dest (buildModifierPrefix ms)
  = path_of (concat (map mod_segments ms) ++ ty :: Itoa (n - 1) :: dest).
Proof.
  intros _ Hn Hms. unfold redirectPath. ztest. rewrite prefix_path_of by done.
  rewrite path_of_app, !path_of_cons. destruct dest as [|d dest].
  - cbn [length]. change (0 <? 0)%nat with false. cbn iota.
    by rewrite sapp_nil_r.
  - change (0 <? length (d :: dest))%nat with true. cbn iota.
    rewrite (path_of_Join (d :: dest)) by done. by rewrite <- !sapp_assoc.
Qed.

Definition destination (dest : list string) : list string :=
  match dest with [] => ["get"] | _ => dest end.

Lemma redirectPath_last ty dest ms :
  Forall (λ m, contains_char "/" (step_name m) = false) ms →
  redirectPath ty 1 dest (buildModifierPrefix ms)
  = path_of (concat (map mod_segments ms) ++ destination dest).
Proof.
  intros Hms. unfold redirectPath. ztest. rewrite prefix_path_of, path_of_app by done.
  destruct dest as [|d dest]; [done|].
  change (0 <? length (d :: dest))%nat with true. cbn iota.
  by rewrite (path_of_Join (destination (d :: dest))).
Qed.

(** What is known of a redirect pipeline. *)
Lemma redirect_accepted p ms ty args :
  HasPrefix p "/" = true → parsePipeline p = Ok (MkPipelineResult ms (MkStep ty args)) →
  ty ∈ redirect_types →
  Forall mod_ok ms ∧ elems p = concat (map mod_segments ms) ++ ty :: args ∧
  (length (elems p) ≤ maxPipelineSegments)%nat.
Proof.
  intros Hp Hr Hty. apply parsePipeline_accepted in Hr as [Hms (seg & tail & He & Ht & Hpt) Hlen];
    [|done]. cbn [modifiers terminal] in *. split; [done|]. split; [|done].
  assert (contains_char "/" ty = false ∧ pipelineTerminals ty = Some variadic) as [Hs Htd].
  { unfold redirect_types in Hty.
    repeat (apply elem_of_cons in Hty as [->|Hty]; [done|]). by apply elem_of_nil in Hty. }
  rewrite He. f_equal. unfold parse_terminal in Hpt.
  destruct (parse_two (seg :: tail)) as [t|] eqn:E2.
  - injection Hpt as ->. apply parse_two_Some in E2 as (b & rest & -> & [= -> ->]).
    rewrite contains_char_app in Hs. cbn in Hs. by rewrite orb_true_r in Hs.
  - destruct (pipelineTerminals seg) as [d|] eqn:Ed; [|done].
    destruct (_ && (_ <? t_args d)); [done|].
    destruct ((0 <=? t_args d) && (t_args d <? _)) eqn:E4; [|congruence].
    injection Hpt as -> _. rewrite Ed in Htd. injection Htd as ->. done.
Qed.

(** How a client follows the Location of a response: the path up to the query or
    the fragment, percent-decoded. *)
Definition client_path (loc : string) : option string :=
  unescape false (Cut "?" (Cut "#" loc).1.1).1.1.

Definition plain_char (c : ascii) : bool := negb (contains_char c "%?#").

Lemma unescape_plain s : string_forall plain_char s = true → unescape false s = Some s.
Proof.
  induction s as [|c s IH]; [done|]. cbn. intros [Hc Hs]%andb_true_iff. rewrite IH by done.
  unfold plain_char in Hc. destruct (Ascii.eqb_spec c "%") as [->|]; [done|]. done.
Qed.

Lemma client_path_plain s : string_forall plain_char s = true → client_path s = Some s.
Proof.
  intros Hs. unfold client_path.
  rewrite (Cut_not_found "#" s) by (by apply (string_forall_contains plain_char)).
  cbn [fst]. rewrite (Cut_not_found "?" s) by (by apply (string_forall_contains plain_char)).
  by apply unescape_plain.
Qed.

Definition Location (s : World) : option string :=
  match rHeader (base (wr s)) !! "Location" with Some [l] => Some l | _ => None end.
Definition Status_of (s : World) : option Z := rStatus (base (wr s)).

Definition request_path (p : string) (s : World) : World :=
  set_req (set_URL (set_Path p (URL (req s))) (req s)) s.

Lemma doRedirect_fresh h path s :
  wr s = Base new_response → HasPrefix path "/" = true → HasPrefix path "//" = false →
  ∃ s', doRedirect h path 302 s = (Ok tt, s') ∧ Status_of s' = Some 302 ∧
    Location s' = Some (prefix h +:+ path).
Proof.
  intros Hw H1 H2. unfold doRedirect. rewrite H1, H2. cbn [negb andb].
  set (loc := prefix h +:+ path). eexists. split; [|split].
  - unfold mbind, GoM_bind, SetHeader, header_op, WriteHeader. cbn [wr set_wr]. rewrite Hw.
    cbn. reflexivity.
  - done.
  - unfold Location. cbn.
    change (<["Location" := [loc]]> ∅ !! "Content-Length") with (@None (list string)).
    done.
Qed.

Section Redirects.
Context `{GoStd, PipelineTargets} (h : HTTPBin) (s0 : World).

(** The path that a client requests next when the pipeline of [p] answers with a
    redirect; the prefix of the server is stripped from it. *)
Definition hop (p : string) : option string :=
  match parsePipeline p with
  | Ok r =>
      let t := terminal r in
      let '(_, s) := dispatchTerminal h (default no_methods (pipelineTerminals (step_name t))) t
                       (buildModifierPrefix (modifiers r)) (request_path p s0) in
      loc ← Location s; p' ← client_path loc; Some (TrimPrefix p' (prefix h))
  | _ => None
  end.

Fixpoint hops (n : nat) (p : string) : option string :=
  match n with O => Some p | S n' => p' ← hop p; hops n' p' end.

Definition relative_types : list string := ["redirect"; "relative-redirect"].

Lemma relative_redirect_types ty : ty ∈ relative_types → ty ∈ redirect_types.
Proof. unfold relative_types, redirect_types. set_solver. Qed.

Lemma dispatch_redirect ty arg dest pfx n s :
  ty ∈ relative_types → Atoi arg = Ok n → 1 ≤ n ≤ 20 →
  dispatchTerminal h (default no_methods (pipelineTerminals ty)) (MkStep ty (arg :: dest)) pfx s
  = doRedirect h (redirectPath ty n dest pfx) 302 s.
Proof.
  intros Hty Ha Hn.
  assert (AtoiE arg = Ok n) as Ha' by (unfold AtoiE, numErr; by rewrite Ha).
  unfold relative_types in Hty.
  repeat (apply elem_of_cons in Hty as [->|Hty]; [
    cbn; unfold mbind, GoM_bind, dispatchRedirectTerminal; rewrite Ha'; ztest; done|]).
  by apply elem_of_nil in Hty.
Qed.

Context (Hfresh : wr s0 = Base new_response) (Hprefix : string_forall plain_char (prefix h) = true).

Lemma hop_redirect p ms ty arg dest n :
  HasPrefix p "/" = true → string_forall plain_char p = true →
  parsePipeline p = Ok (MkPipelineResult ms (MkStep ty (arg :: dest))) →
  ty ∈ relative_types → Atoi arg = Ok n → 1 ≤ n ≤ 20 →
  hop p = Some (redirectPath ty n dest (buildModifierPrefix ms)).
Proof.
  intros Hp Hplain Hr Hty Ha Hn. unfold hop. rewrite Hr. cbn [terminal modifiers step_name].
  rewrite (dispatch_redirect ty arg dest _ n) by done.
  destruct (redirect_accepted p ms ty (arg :: dest) Hp Hr (relative_redirect_types ty Hty))
    as (Hms & He & _).
  assert (Forall (λ m, contains_char "/" (step_name m) = false) ms) as Hslash
    by (eapply Forall_impl; [exact Hms|]; intros m Hm; by eapply modifier_no_slash).
  pose proof (elems_forall plain_char p Hplain) as Hpe. pose proof (elems_ok p) as Hok.
  rewrite He in Hpe, Hok.
  set (path := redirectPath ty n dest (buildModifierPrefix ms)).
  assert (∃ l, l ≠ [] ∧ path = path_of l ∧ Forall (λ e, string_forall plain_char e = true) l ∧
    Forall elem_ok l) as (l & Hl & Hpath & Hlp & Hlok).
  { apply Forall_app in Hpe as [Hpe1 Hpe2], Hok as [Hok1 Hok2].
    inversion_clear Hpe2 as [|? ? Hpt Hpe3]. inversion_clear Hpe3 as [|? ? _ Hpd].
    inversion_clear Hok2 as [|? ? Hot Hok3]. inversion_clear Hok3 as [|? ? _ Hod].
    destruct (decide (n = 1)) as [->|Hn1].
    - exists (concat (map mod_segments ms) ++ destination dest).
      split; [by destruct (concat _), dest|].
      split; [by apply redirectPath_last|]. split; apply Forall_app; split; try done.
      + destruct dest; [by repeat constructor|done].
      + destruct dest; [by repeat constructor|done].
    - exists (concat (map mod_segments ms) ++ ty :: Itoa (n - 1) :: dest).
      split; [by destruct (concat _)|].
      split; [apply redirectPath_next; [by apply relative_redirect_types|lia|done]|].
      destruct (Itoa_digits (n - 1)) as [_ Hd]; [lia|].
      split; apply Forall_app; split; try done; repeat (constructor; [done||idtac|]); try done.
      + by eapply string_forall_impl; [|exact Hd]; intros [[] [] [] [] [] [] [] []].
      + apply digits_elem_ok. lia. }
  destruct (doRedirect_fresh h path (request_path p s0)) as (s' & Hs' & _ & Hloc).
  - done.
  - rewrite Hpath. by apply path_of_rooted.
  - rewrite Hpath. by apply path_of_not_double.
  - rewrite Hs', Hloc. cbn [mbind option_bind].
    rewrite client_path_plain; cbn [mbind option_bind].
    + by rewrite TrimPrefix_app.
    + rewrite string_forall_app, Hprefix, Hpath. by apply path_of_forall.
Qed.

(** The path a redirect with more than one hop left leads to is the same pipeline
    with the count decremented. *)
Lemma redirect_next_parse p ms ty arg dest n :
  HasPrefix p "/" = true →
  parsePipeline p = Ok (MkPipelineResult ms (MkStep ty (arg :: dest))) →
  ty ∈ redirect_types → 1 < n →
  parsePipeline (redirectPath ty n dest (buildModifierPrefix ms))
  = Ok (MkPipelineResult ms (MkStep ty (Itoa (n - 1) :: dest))).
Proof.
  intros Hp Hr Hty Hn. destruct (redirect_accepted p ms ty (arg :: dest) Hp Hr Hty)
    as (Hms & He & Hlen).
  rewrite redirectPath_next; [|done|done|].
  - destruct (redirect_terminal ty (Itoa (n - 1) :: dest) Hty) as [Ht Hpt].
    rewrite (parsePipeline_build _ _ _ (MkStep ty (Itoa (n - 1) :: dest))); try done.
    + pose proof (elems_ok p) as Hok. rewrite He in Hok.
      apply Forall_app in Hok as [H1 H2]. inversion_clear H2 as [|? ? H3 H4].
      inversion_clear H4. apply Forall_app. split; [done|].
      repeat (constructor; [done||(apply digits_elem_ok; lia)|]). done.
    + rewrite He in Hlen. rewrite length_app in *. cbn in *. lia.
  - eapply Forall_impl; [exact Hms|]. intros m Hm. by eapply modifier_no_slash.
Qed.

Lemma redirectPath_plain p ms ty arg dest n :
  HasPrefix p "/" = true → string_forall plain_char p = true →
  parsePipeline p = Ok (MkPipelineResult ms (MkStep ty (arg :: dest))) →
  ty ∈ redirect_types → 1 < n →
  let path := redirectPath ty n dest (buildModifierPrefix ms) in
  HasPrefix path "/" = true ∧ string_forall plain_char path = true.
Proof.
  intros Hp Hplain Hr Hty Hn. destruct (redirect_accepted p ms ty (arg :: dest) Hp Hr Hty)
    as (Hms & He & _).
  pose proof (elems_forall plain_char p Hplain) as Hpe. rewrite He in Hpe.
  apply Forall_app in Hpe as [H1 H2]. inversion_clear H2 as [|? ? H3 H4]. inversion_clear H4.
  rewrite redirectPath_next; [|done|done|].
  - split; [apply path_of_rooted; by destruct (concat _)|]. apply path_of_forall; [done|].
    apply Forall_app. split; [done|]. repeat (constructor; [try done|]); [|done].
    destruct (Itoa_digits (n - 1)) as [_ Hd]; [lia|].
    eapply string_forall_impl; [|exact Hd]. by intros [[] [] [] [] [] [] [] []].
  - eapply Forall_impl; [exact Hms|]. intros m Hm. by eapply modifier_no_slash.
Qed.

(** A redirect pipeline counts down: a client that follows [/redirect/n/dest]
    behind any modifiers is redirected exactly [n] times, always to a path with
    the same modifiers, and ends at them followed by [dest], or by [/get] without
    one.  This holds for every path that needs no percent-encoding. *)
Theorem redirect_chain (n : nat) p ms ty arg dest :
  HasPrefix p "/" = true → string_forall plain_char p = true →
  parsePipeline p = Ok (MkPipelineResult ms (MkStep ty (arg :: dest))) →
  ty ∈ relative_types → Atoi arg = Ok (Z.of_nat n) → (1 ≤ n ≤ 20)%nat →
  hops n p = Some (path_of (concat (map mod_segments ms) ++ destination dest)).
Proof.
  destruct n as [|n]; [lia|]. revert p arg. induction n as [|n IH];
    intros p arg Hp Hplain Hr Hty Ha Hn.
  - cbn [hops]. rewrite (hop_redirect p ms ty arg dest 1) by (done || lia). cbn [mbind option_bind].
    rewrite redirectPath_last; [done|].
    destruct (redirect_accepted p ms ty (arg :: dest) Hp Hr (relative_redirect_types ty Hty))
      as (Hms & _ & _).
    eapply Forall_impl; [exact Hms|]. intros m Hm. by eapply modifier_no_slash.
  - change (hops (S (S n)) p) with (p' ← hop p; hops (S n) p').
    rewrite (hop_redirect p ms ty arg dest (Z.of_nat (S (S n)))) by (done || lia).
    cbn [mbind option_bind].
    apply relative_redirect_types in Hty as Hty'.
    destruct (redirectPath_plain p ms ty arg dest (Z.of_nat (S (S n)))) as [Hp' Hplain'];
      [done..|lia|].
    pose proof (redirect_next_parse p ms ty arg dest (Z.of_nat (S (S n))) Hp Hr Hty' ltac:(lia)) as Hr'.
    replace (Z.of_nat (S (S n)) - 1) with (Z.of_nat (S n)) in Hr' by lia.
    apply (IH _ (Itoa (Z.of_nat (S n)))); try done; [|lia].
    apply Atoi_Itoa. unfold in_int64, minInt64, maxInt64. lia.
Qed.
End Redirects.

(** Without that condition a chain breaks: the Location is written without
    percent-encoding, so a modifier that holds a question mark cuts it short.  The
    client that follows [/header/X-A:b%3Fc/redirect/2] asks for [/header/X-A:b],
    which is no pipeline at all. *)
Theorem redirect_not_encoded :
  hop sample_bin (GET "/") "/header/X-A:b?c/redirect/2" = Some "/header/X-A:b" ∧
  is_ok (parsePipeline "/header/X-A:b?c/redirect/2") = true ∧
  is_ok (parsePipeline "/header/X-A:b") = false.
Proof. vm_compute. done. Qed.

(** ** Witnesses *)

Definition sample_path : string := "/delay/1s//header/X-A:b/./redirect/3/status/201/get".
Definition sample_result : pipelineResult :=
  MkPipelineResult [MkStep "delay" ["1s"]; MkStep "header" ["X-A:b"]]
    (MkStep "redirect" ["3"; "status"; "201"; "get"]).

Lemma sample_parse : parsePipeline sample_path = Ok sample_result.
Proof. vm_compute. reflexivity. Qed.

Lemma parsePipeline_print_witness :
  (∀ w, parsePipeline sample_path ≠ Panic w) ∧
  (length (result_segments sample_result) ≤ maxPipelineSegments)%nat ∧
  parsePipeline "/delay/1s/header/X-A:b/redirect/3/status/201/get" = Ok sample_result.
Proof.
  destruct (parsePipeline_print sample_path) as [H1 H2]; [reflexivity|]. split; [exact H1|].
  destruct (H2 sample_result sample_parse) as (_ & Hl & Hp). split; [exact Hl|].
  transitivity (parsePipeline (print_pipeline sample_result)); [vm_compute; reflexivity|exact Hp].
Defined.

Lemma redirect_chain_witness :
  hops sample_bin (GET "/") 3 sample_path = Some "/delay/1s/header/X-A:b/status/201/get".
Proof.
  rewrite (redirect_chain sample_bin (GET "/") eq_refl eq_refl 3 sample_path
    (modifiers sample_result) "redirect" "3" ["status"; "201"; "get"]).
  - vm_compute. reflexivity.
  - reflexivity.
  - vm_compute. reflexivity.
  - apply sample_parse.
  - by_computation.
  - reflexivity.
  - lia.
Defined.
