(* ===== verification/PipelineHandler.v ===== *)
(** * PipelineHandler: what the pipeline handler does to the response

    [Pipeline] is split in phases: nothing is written and no time passes before
    every modifier is valid, the delays stay within the maximum, and only then
    the response starts, from the writer that was given. *)

From S2P Require Import Prelude GoStrings GoNum GoTime GoFmt Json GoURL Http HttpLaws Handles.
From S2P Require Import GoPath Delay DelaySpec ClientIP Bin Mix MixSpec Pipeline Samples PipelineParse.
From S2P Require Import PipelineSpec.

(** ** States of the validation *)

(** Only the query of the request may differ. *)
Record untouched (s s' : World) : Prop := {
  unt_wr : wr s' = wr s;
  unt_now : now s' = now s;
  unt_gone : gone s' = gone s;
  unt_rnd : rnd s' = rnd s ∧ rndi s' = rndi s;
  unt_req : ∃ q, req s' = set_URL (set_RawQuery q (URL (req s))) (req s);
}.

Lemma set_RawQuery_id u : set_RawQuery (RawQuery u) u = u.
Proof. by destruct u. Qed.
Lemma set_URL_id r : set_URL (URL r) r = r.
Proof. by destruct r. Qed.

#[export] Instance untouched_refl : Reflexive untouched.
Proof.
  intros s. split; try done. exists (RawQuery (URL (req s))).
  by rewrite set_RawQuery_id, set_URL_id.
Qed.

#[export] Instance untouched_trans : Transitive untouched.
Proof.
  intros s1 s2 s3 [W1 N1 G1 [R1 I1] [q1 Q1]] [W2 N2 G2 [R2 I2] [q2 Q2]].
  split; try congruence; [split; congruence|].
  exists q2. by rewrite Q2, Q1.
Qed.

Definition delay_ok (max : Z) (d : parsedDelay) : Prop :=
  0 ≤ d_min d ∧ d_min d ≤ d_max d ≤ max.

Definition sum_max (ds : list parsedDelay) : Z := foldr (λ d a, d_max d + a) 0 ds.

Record validated_ok (max : Z) (n : nat) (v : validated) : Prop := {
  vok_total : v_totalDelay v = sum_max (v_delays v);
  vok_count : (length (v_delays v) ≤ n)%nat;
  vok_delays : Forall (delay_ok max) (v_delays v);
  vok_headers : Forall header_ok (v_headers v);
  vok_status : ∀ c, v_status v = Some c → 100 ≤ c ≤ 599;
}.

Lemma sum_max_app a b : sum_max (a ++ b) = sum_max a + sum_max b.
Proof. induction a; simpl; lia. Qed.

Lemma sum_max_bound max ds :
  0 ≤ max → Forall (delay_ok max) ds → 0 ≤ sum_max ds ≤ max * Z.of_nat (length ds).
Proof.
  intros Hm. induction 1 as [|d ds [H1 H2] _ IH]; cbn [length]; [cbn; lia|].
  change (sum_max (d :: ds)) with (d_max d + sum_max ds). lia.
Qed.

Section Handler.
Context `{GoStd, PipelineTargets} (h : HTTPBin).
(** Twenty delays of the maximum do not overflow a [Duration] (14 years). *)
Context (Hmax : 0 ≤ MaxDuration h ≤ 2 ^ 58).

Definition step_result (n : nat) (s : World) (o : outcome gerror validated * World) : Prop :=
  untouched s o.2 ∧
  match o.1 with
  | Ok v => validated_ok (MaxDuration h) (S n) v
  | Err _ => True
  | Panic _ => False
  end.

Lemma validateDelay_ok n name a args v s :
  (n ≤ 20)%nat → validated_ok (MaxDuration h) n v →
  step_result n s (validateDelay h (MkStep name (a :: args)) v s).
Proof.
  intros Hn [Ht Hc Hd Hh Hs]. unfold validateDelay, mbind, GoM_bind, arg0, lift.
  cbn [step_args step_name mret GoM_ret].
  destruct (parseDelayRange a (MaxDuration h)) as [[x y]|e|w] eqn:E; cbn.
  - apply parseDelayRange_bounds in E. split; [reflexivity|]. cbn.
    pose proof (sum_max_bound _ _ (proj1 Hmax) Hd).
    split; cbn; try done.
    + rewrite sum_max_app. cbn. rewrite wrap64_id; [lia|].
      unfold in_int64, minInt64, maxInt64. nia.
    + rewrite length_app. cbn. lia.
    + apply Forall_app. split; [done|]. constructor; [|done]. unfold delay_ok. cbn. lia.
  - by split; [reflexivity|].
  - by apply parseDelayRange_never_panics in E.
Qed.

Lemma validateHeader_ok n name a args v s :
  validated_ok (MaxDuration h) n v →
  step_result n s (validateHeader (MkStep name (a :: args)) v s).
Proof.
  intros [Ht Hc Hd Hh Hs]. unfold validateHeader, mbind, GoM_bind, arg0.
  cbn [step_args mret GoM_ret].
  pose proof (Cut_spec ":" a) as Hcut. destruct (Cut ":" a) as [[nm val] found].
  destruct (negb found || String.eqb nm "") eqn:E1; [by split; [reflexivity|]|].
  destruct (isAllowedMixHeader nm) eqn:E2; [|by split; [reflexivity|]].
  destruct (ContainsAny a CRLF) eqn:E3; [by split; [reflexivity|]|].
  split; [reflexivity|]. reflect_bools. subst found. destruct Hcut as [-> _].
  rewrite ContainsAny_app in E3. apply orb_false_iff in E3 as [E3 E4].
  cbn [ContainsAny] in E4. apply orb_false_iff in E4 as [_ E4].
  split; cbn; try done; [lia|]. apply Forall_app. split; [done|]. by repeat constructor.
Qed.

Lemma validateStatus_ok n name a args v s :
  validated_ok (MaxDuration h) n v →
  step_result n s (validateStatus (MkStep name (a :: args)) v s).
Proof.
  intros [Ht Hc Hd Hh Hs]. unfold validateStatus, mbind, GoM_bind, arg0, lift.
  cbn [step_args mret GoM_ret].
  destruct (parseStatusCode a) as [c|e|w] eqn:E; cbn.
  - split; [reflexivity|]. split; cbn; try done; [lia|].
    intros c' Hc'. destruct (v_status v); [by apply Hs|].
    injection Hc' as <-. by apply parseStatusCode_Ok in E as [_ ?].
  - by split; [reflexivity|].
  - by apply parseStatusCode_never_panics in E.
Qed.

Lemma validated_ok_S n v : validated_ok (MaxDuration h) n v → validated_ok (MaxDuration h) (S n) v.
Proof. intros [Ht Hc Hd Hh Hs]. split; try done. lia. Qed.

Lemma nocache_untouched s : untouched s (set_req (nocacheQuery (req s)) s).
Proof. split; try done. by eexists. Qed.

Lemma validateStep_ok n m v s :
  (n ≤ 20)%nat → mod_ok m → validated_ok (MaxDuration h) n v →
  step_result n s (validateStep h m v s).
Proof.
  intros Hn Hm Hv. destruct m as [name args]. unfold mod_ok in Hm. cbn [step_name step_args] in Hm.
  assert (pipelineModifierDefs name = Some 1%nat → ∃ a, args = [a]) as Hargs.
  { rewrite Hm. intros [= Hl]. destruct args as [|a [|? ?]]; try done. by exists a. }
  unfold validateStep. cbn [step_name].
  destruct (String.eqb_spec name "delay") as [->|_].
  { destruct (Hargs eq_refl) as [a ->]. by apply validateDelay_ok. }
  destruct (String.eqb_spec name "response_delay") as [->|_].
  { destruct (Hargs eq_refl) as [a ->]. by apply validateDelay_ok. }
  destruct (String.eqb_spec name "header") as [->|_].
  { destruct (Hargs eq_refl) as [a ->]. by apply validateHeader_ok. }
  destruct (String.eqb_spec name "status") as [->|_].
  { destruct (Hargs eq_refl) as [a ->]. by apply validateStatus_ok. }
  cbn [orb]. destruct (_ || _).
  - split; [apply nocache_untouched|by apply validated_ok_S].
  - split; [reflexivity|by apply validated_ok_S].
Qed.

Lemma validateAll_ok ms n v s :
  (n + length ms ≤ 20)%nat → Forall mod_ok ms → validated_ok (MaxDuration h) n v →
  untouched s (validateAll h ms v s).2 ∧
  match (validateAll h ms v s).1 with
  | Ok v' => validated_ok (MaxDuration h) (n + length ms) v'
  | Err _ => True
  | Panic _ => False
  end.
Proof.
  intros Hn Hms. revert n v s Hn. induction Hms as [|m ms Hm _ IH]; intros n v s Hn Hv.
  - split; [reflexivity|]. by rewrite Nat.add_0_r.
  - cbn [validateAll length] in *. unfold mbind, GoM_bind.
    destruct (validateStep_ok n m v s) as [Hu Hr]; [lia|done|done|].
    destruct (validateStep h m v s) as [[v'|e|w] s']; cbn [fst snd] in Hu, Hr; [|done..].
    destruct (IH (S n) v' s') as [Hu' Hr']; [lia|done|]. split; [by transitivity s'|].
    by rewrite Nat.add_succ_r.
Qed.

(** ** The delays *)

Lemma drawDelay_ok d s :
  delay_ok (MaxDuration h) d →
  ∃ x s', drawDelay d s = (Ok x, s') ∧ d_min d ≤ x ≤ d_max d ∧ waited 0 s s'.
Proof.
  intros (H1 & H2 & H3). unfold drawDelay. destruct (d_min d <? d_max d) eqn:E; reflect_bools.
  - unfold mbind, GoM_bind, Int63n.
    rewrite wrap64_id by (unfold in_int64, minInt64, maxInt64; lia).
    destruct (_ <=? 0) eqn:E0; reflect_bools; [lia|].
    pose proof (Z.mod_pos_bound (rnd s (rndi s)) (d_max d - d_min d + 1)).
    eexists _, _. split; [reflexivity|].
    rewrite wrap64_id by (unfold in_int64, minInt64, maxInt64; lia).
    split; [lia|]. split; cbn; done || lia.
  - eexists _, _. split; [reflexivity|]. split; [lia|]. split; cbn; done || lia.
Qed.

Lemma applyDelays_ok ds acc s :
  Forall (delay_ok (MaxDuration h)) ds → 0 ≤ acc → acc + sum_max ds ≤ 2 ^ 63 - 1 →
  ∃ o s' t, applyDelays ds acc s = (Ok o, s') ∧ waited t s s' ∧ 0 ≤ t ≤ sum_max ds ∧
    (∀ a, o = Some a → a = acc + t).
Proof.
  intros Hds. revert acc s. induction Hds as [|d ds Hd Hds IH]; intros acc s Hacc Hsum.
  - exists (Some acc), s, 0. split; [done|]. split; [split; done || lia|].
    split; [cbn; lia|]. intros a [= <-]. lia.
  - change (sum_max (d :: ds)) with (d_max d + sum_max ds) in *.
    cbn [applyDelays]. unfold mbind, GoM_bind.
    destruct (drawDelay_ok d s Hd) as (x & s1 & -> & Hx & W1).
    pose proof (sum_max_bound _ _ (proj1 Hmax) Hds) as Hs. destruct Hd as (? & ? & ?).
    destruct (0 <? x) eqn:E; reflect_bools.
    + destruct (Sleep_ok x s1 E) as (b & s2 & t & -> & W2 & Ht & Hb).
      destruct b.
      * rewrite (proj1 Hb eq_refl) in *.
        rewrite wrap64_id by (unfold in_int64, minInt64, maxInt64; lia).
        destruct (IH (acc + x) s2) as (o & s3 & t' & -> & W3 & Ht' & Ho); [lia..|].
        exists o, s3, (x + t'). split; [done|].
        split; [by apply (waited_trans 0 _ _ s1), (waited_trans x _ _ s2)|].
        split; [lia|]. intros a Ha. rewrite (Ho a Ha). lia.
      * exists None, s2, t. split; [done|]. split; [by apply (waited_trans 0 _ _ s1)|].
        split; [lia|done].
    + destruct (IH acc s1) as (o & s3 & t' & -> & W3 & Ht' & Ho); [lia..|].
      exists o, s3, t'. split; [done|]. split; [by apply (waited_trans 0 _ _ s1)|].
      split; [lia|done].
Qed.

(** ** The phases *)

(** How the handler ends. *)
Inductive pipeline_outcome (s : World) : Prop :=
| Rejected e s1 :
    Pipeline h s = writeError 400 (Some e) s1 → untouched s s1 → pipeline_outcome s
| ClientGone s1 s2 t :
    Pipeline h s = (Ok tt, s2) → untouched s s1 → waited t s1 s2 →
    0 ≤ t ≤ MaxDuration h → pipeline_outcome s
| Responds v r a s1 s2 :
    parsePipeline (Path (URL (req s))) = Ok r →
    Pipeline h s = respond h v r a s2 → untouched s s1 → waited a s1 s2 →
    0 ≤ a ≤ MaxDuration h → Forall header_ok (v_headers v) →
    (∀ c, v_status v = Some c → 100 ≤ c ≤ 599) → pipeline_outcome s.

(** [Pipeline] after a path that parses. *)
Definition afterParse (r : pipelineResult) : M unit :=
  try_ (validateAll h (modifiers r) (MkValidated 0 [] [] None))
    (λ e, writeError 400 (Some e)) (λ v,
  if MaxDuration h <? v_totalDelay v then
    writeError 400 (Some (Errorf "total delay %s exceeds maximum %s"
      [ADur (v_totalDelay v); ADur (MaxDuration h)]))
  else
    slept ← applyDelays (v_delays v) 0;
    match slept with
    | None => mret tt
    | Some actualDelay => respond h v r actualDelay
    end).

Lemma modifiers_length r : (length (modifiers r) ≤ length (result_segments r))%nat.
Proof.
  unfold result_segments. rewrite length_app.
  assert (∀ ms, (length ms ≤ length (concat (map mod_segments ms)))%nat) as H1;
    [|specialize (H1 (modifiers r)); lia].
  induction ms as [|m ms IH]; [done|]. cbn. rewrite length_app. lia.
Qed.

(** (C1) The handler rejects a path with status 400 before it has waited or written
    anything, or it has waited for at most the maximum duration, in total, when
    the client goes away or the response starts.  Until then the response writer
    is untouched and of the request only the query may have changed; the headers
    to be set are on the allow list and free of CR and LF.  It never panics on the
    way. *)
Theorem Pipeline_phases s :
  HasPrefix (Path (URL (req s))) "/" = true → pipeline_outcome s.
Proof.
  intros Hp.
  assert (Pipeline h s = match parsePipeline (Path (URL (req s))) with
    | Ok r => afterParse r s
    | Err e => writeError 400 (Some e) s
    | Panic w => (Panic w, s) end) as HP.
  { unfold Pipeline, afterParse, mbind, GoM_bind, get_req, try_, lift.
    by destruct (parsePipeline _). }
  destruct (parsePipeline (Path (URL (req s)))) as [r|e|w] eqn:Er.
  - destruct (parsePipeline_facts _ _ Hp Er) as [Hms Hlen].
    destruct (validateAll_ok (modifiers r) 0 (MkValidated 0 [] [] None) s) as [Hu Hv];
      [pose proof (modifiers_length r); unfold maxPipelineSegments in *; lia|done|by split|].
    unfold afterParse, try_ in HP.
    destruct (validateAll h (modifiers r) _ s) as [[v|e|w] s1]; cbn [fst snd] in Hu, Hv; [| |done].
    + destruct Hv as [Ht Hc Hd Hh Hs]. destruct (MaxDuration h <? v_totalDelay v) eqn:E.
      { by eapply Rejected. }
      reflect_bools. pose proof (sum_max_bound _ _ (proj1 Hmax) Hd).
      destruct (applyDelays_ok (v_delays v) 0 s1 Hd) as (o & s2 & t & Ha & W & Hb & Ho); [lia..|].
      unfold mbind, GoM_bind in HP. rewrite Ha in HP. destruct o as [a|].
      * rewrite (Ho a eq_refl), Z.add_0_l in *. eapply Responds; try done. lia.
      * eapply ClientGone; try done. lia.
    + by eapply Rejected.
  - eapply Rejected; [exact HP|reflexivity].
  - by apply (parsePipeline_never_panics (Path (URL (req s))) w) in Er.
Qed.
End Handler.

(** ** The status override *)

(** What a handler can do with its writer. *)
Inductive rw_op :=
| OpHeader (f : headers → headers)
| OpWriteHeader (code : Z)
| OpWrite (b : string)
| OpFlush.

Definition rw_step (op : rw_op) (w : writer) : outcome gerror writer :=
  match op with
  | OpHeader f => Ok (set_header f w)
  | OpWriteHeader c => w_WriteHeader c w
  | OpWrite b => '(_, w') ← w_Write b w; Ok w'
  | OpFlush => Ok (w_Flush w)
  end.

Fixpoint rw_run (ops : list rw_op) (w : writer) : outcome gerror writer :=
  match ops with
  | [] => Ok w
  | op :: ops' => w' ← rw_step op w; rw_run ops' w'
  end.

(** The first thing that is sent; [None] when nothing is. *)
Fixpoint first_sent (ops : list rw_op) : option rw_op :=
  match ops with
  | [] => None
  | OpHeader _ :: ops' => first_sent ops'
  | op :: _ => Some op
  end.

(** Once a status is sent, nothing changes it. *)
Lemma override_sent ops w c sent d :
  transparent w → status w = Some sent →
  ∃ w', rw_run ops (OverrideRW w c d) = Ok w' ∧ status w' = Some sent.
Proof.
  revert w d. induction ops as [|op ops IH]; intros w d Ht Hs; [by eexists|].
  destruct op as [f|c'|b|]; cbn [rw_run rw_step].
  - apply IH; [by apply set_header_transparent|by rewrite set_header_status].
  - cbn [w_WriteHeader]. destruct d; [by apply IH|].
    destruct (w_WriteHeader_sent c w sent Ht Hs) as (w1 & -> & Hs1 & Ht1). by apply IH.
  - unfold w_Write. cbn [w_HeaderWrite].
    assert (∃ w1, w_HeaderWrite (if d then None else Some c) b w
      = (w' ← Ok w1; w_Write b w') ∧ status w1 = Some sent ∧ transparent w1) as (w1 & -> & Hs1 & Ht1).
    { destruct d; [by exists w|]. rewrite w_HeaderWrite_spec.
      destruct (w_WriteHeader_sent c w sent Ht Hs) as (w1 & -> & Hs1 & Ht1). by exists w1. }
    cbn. destruct (w_Write_sent b w1 sent Ht1 Hs1) as (n & w2 & -> & Hs2 & Ht2). by apply IH.
  - destruct (w_Flush_sent w sent Ht Hs). by apply IH.
Qed.

(** (C34) The override wins: whatever codes a terminal writes, even one that
    [WriteHeader] would refuse, the response has the status of the modifier and
    nothing panics, unless the terminal flushes before it has sent anything: then
    the response is a 200. *)
Theorem override_wins ops w c :
  final c → transparent w → status w = None →
  ∃ w', rw_run ops (OverrideRW w c false) = Ok w' ∧
    status w' = match first_sent ops with
                | None => None
                | Some OpFlush => Some 200
                | Some _ => Some c
                end.
Proof.
  intros Hc. revert w. induction ops as [|op ops IH]; intros w Ht Hs; [by eexists|].
  destruct op as [f|c'|b|]; cbn [rw_run rw_step first_sent].
  - apply IH; [by apply set_header_transparent|by rewrite set_header_status].
  - cbn [w_WriteHeader].
    destruct (w_WriteHeader_final c w Hc Ht Hs) as (w1 & -> & Hs1 & Ht1). cbn.
    apply override_sent; done.
  - unfold w_Write. cbn [w_HeaderWrite]. rewrite w_HeaderWrite_spec.
    destruct (w_WriteHeader_final c w Hc Ht Hs) as (w1 & -> & Hs1 & Ht1). cbn.
    destruct (w_Write_sent b w1 c Ht1 Hs1) as (n & w2 & -> & Hs2 & Ht2). cbn.
    apply override_sent; done.
  - destruct (w_Flush_fresh w Ht Hs) as [Hs1 Ht1]. cbn. apply override_sent; done.
Qed.

Lemma applyHeaders_only hs : header_only (applyHeaders hs).
Proof. induction hs as [|[n v] hs IH]; cbn [applyHeaders]; auto with go. Qed.

(** The method of a terminal is checked before the override applies: a request
    with another method is answered with 405, even behind a status modifier, and
    the terminal does not run. *)
Theorem respond_method `{GoStd, PipelineTargets} h v result a s def :
  pipelineTerminals (step_name (terminal result)) = Some def →
  methods def ≠ [] → Method (req s) ∉ methods def → fresh s →
  ∃ s', respond h v result a s = (Ok tt, s') ∧ answered 405 s s'.
Proof.
  intros Hdef Hne Hm Hf. unfold respond. rewrite Hdef.
  change (default no_methods (Some def)) with def. set (m1 := if 0 <? a then _ else _).
  assert (header_only m1) as H1 by (unfold m1; destruct (0 <? a); auto with go).
  unfold mbind at 1, GoM_bind at 1. destruct (H1 s) as [f1 ->].
  unfold mbind at 1, GoM_bind at 1.
  destruct (applyHeaders_only (v_headers v) (set_wr (set_header f1 (wr s)) s)) as [f2 ->].
  unfold mbind at 1, GoM_bind at 1, get_req. cbn [req set_wr wr].
  rewrite (bool_decide_eq_false_2 _ Hm). cbn [negb].
  replace (0 <? length (methods def))%nat with true by (by destruct (methods def)). cbn [andb].
  set (s2 := set_wr _ _).
  assert (fresh s2) as Hf2 by (by apply (fresh_header f2), (fresh_header f1)).
  destruct (writeError_fresh 405 (Some (Errorf "method %s not allowed for /%s"
      [AStr (Method (req s)); AStr (step_name (terminal result))])) s2)
    as (s' & E & [A1 A2 A3 A4]); [by apply final_200|done|].
  exists s'. split; [exact E|]. by split.
Qed.

(** ** Witnesses *)

Lemma Pipeline_phases_witness :
  pipeline_outcome sample_bin (GET "/delay/1s-3s/header/X-A:b/status/201/get").
Proof.
  apply (Pipeline_phases sample_bin); [vm_compute; split; discriminate|reflexivity].
Defined.

Lemma override_wins_witness :
  ∃ w', rw_run [OpHeader (Header_Set "X-A" "b"); OpWriteHeader 4242; OpWrite "x"; OpFlush]
          (OverrideRW (MetaRW (Base new_response) 0 0) 503 false) = Ok w' ∧ status w' = Some 503.
Proof.
  apply (override_wins [OpHeader (Header_Set "X-A" "b"); OpWriteHeader 4242; OpWrite "x"; OpFlush]
    (MetaRW (Base new_response) 0 0) 503); [by apply final_200|exact I|reflexivity].
Defined.

Lemma respond_method_witness :
  ∃ s', respond sample_bin (MkValidated 0 [] [("X-A", "b")] (Some 200))
          (MkPipelineResult [] (MkStep "post" [])) 5 (GET "/status/200/post") = (Ok tt, s') ∧
        answered 405 (GET "/status/200/post") s'.
Proof.
  apply (respond_method sample_bin _ (MkPipelineResult [] (MkStep "post" [])) 5
    (GET "/status/200/post") (only ["POST"])).
  - reflexivity.
  - discriminate.
  - by_computation.
  - split; [exact I|reflexivity].
Defined.

(** ** [Pipeline] is a handler, when its terminals are *)

Class TargetsHandle `{PipelineTargets} (h : HTTPBin) : Prop := {
  ImageAccept_handles :: Handles ImageAccept;
  Image_handles :: Handles Image;
  doImage_handles k :: Handles (doImage k);
  Links_handles :: Handles Links;
  Cache_handles :: Handles Cache;
  CacheControl_handles :: Handles CacheControl;
  Base64_handles :: Handles Base64;
  DigestAuth_handles :: Handles DigestAuth;
  terminals_handle n m : terminalHandlers h !! n = Some m → Handles m;
}.

#[export] Typeclasses Opaque ImageAccept Image doImage Links Cache CacheControl Base64 DigestAuth
  arg0 validateStep validateAll applyDelays applyHeaders doRedirect setPathValues invalidArg
  dispatchRedirectTerminal dispatchImageTerminal dispatchTerminal Pipeline.

Section Handles.
Context `{GoStd} `{PipelineTargets} (h : HTTPBin) {Hh : TargetsHandle h}.

#[export] Instance Handles_arg0 m : Handles (arg0 m).
Proof. unfold arg0. handler. Qed.
#[export] Instance Handles_validateStep m v : Handles (validateStep h m v).
Proof. unfold validateStep, validateDelay, validateHeader, validateStatus. handler. Qed.
#[export] Instance Handles_validateAll ms v : Handles (validateAll h ms v).
Proof. revert v. induction ms as [|m ms IH]; intros v; cbn [validateAll]; handler. Qed.
#[export] Instance Handles_applyDelays ds a : Handles (applyDelays ds a).
Proof. revert a. induction ds as [|d ds IH]; intros a; cbn [applyDelays]; unfold drawDelay; handler. Qed.
#[export] Instance Handles_applyHeaders hs : Handles (applyHeaders hs).
Proof. induction hs as [|[n v] hs]; cbn [applyHeaders]; handler. Qed.
#[export] Instance Handles_doRedirect p c : Handles (doRedirect h p c).
Proof. unfold doRedirect. handler. Qed.
#[export] Instance Handles_setPathValues ns args : Handles (setPathValues ns args).
Proof. revert args. induction ns as [|n ns IH]; intros [|a args]; cbn [setPathValues]; unfold setPathValue; handler. Qed.
#[export] Instance Handles_invalidArg f args : Handles (invalidArg f args).
Proof. unfold invalidArg. handler. Qed.
#[export] Instance Handles_redirect t args p b : Handles (dispatchRedirectTerminal h t args p b).
Proof. unfold dispatchRedirectTerminal. handler. Qed.
#[export] Instance Handles_image args : Handles (dispatchImageTerminal args).
Proof.
  unfold dispatchImageTerminal, imageAs, dispatchImageByKind, setPath, setQuery, setPathValue. handler.
Qed.

#[export] Instance Handles_dispatchTerminal def t p : Handles (dispatchTerminal h def t p).
Proof.
  unfold dispatchTerminal, dispatchLinksTerminal, dispatchCacheTerminal, dispatchBase64Terminal,
    dispatchDigestAuthTerminal, dispatchBodyTerminal, setPath, setPathValue.
  handler. by eapply terminals_handle.
Qed.

#[export] Instance Handles_Pipeline : Handles (Pipeline h).
Proof. unfold Pipeline, respond. handler. Qed.
End Handles.
