(* ===== verification/RedirectsSpec.v ===== *)
(** * RedirectsSpec: the redirects count down to [/get]

    And the remaining handlers reach their client through the writer only. *)

From S2P Require Import Prelude GoStrings GoNum GoFloat GoTime GoFmt Json GoURL GoNet.
From S2P Require Import Http HttpLaws Digest Handles Bodies Delay DelaySpec ClientIP Bin Pipeline Handlers.
From S2P Require Import Samples Auth Redirects Streams StreamsSpec HandlersSpec PipelineHandler.

(** ** Handlers *)

Section Instances.
Context `{GoStd, Runtime, Hashes} (h : HTTPBin).

#[export] Typeclasses Opaque rand_Read handleRedirect linkItems uuidv4 StatusOverride bytesLoop dripLoop
  sseLoop streamLoop NewTicker writeServerSentEvent.

#[export] Instance Handles_rand_Read n : Handles (rand_Read n).
Proof. induction n; cbn [rand_Read]; handler. Qed.
#[export] Instance Handles_BasicAuth : Handles BasicAuth.
Proof. unfold BasicAuth. handler. Qed.
#[export] Instance Handles_HiddenBasicAuth : Handles HiddenBasicAuth.
Proof. unfold HiddenBasicAuth. handler. Qed.
#[export] Instance Handles_Bearer : Handles Bearer.
Proof. unfold Bearer. handler. Qed.
#[export] Instance Handles_DigestAuth : Handles DigestAuth.
Proof. unfold DigestAuth. handler. Qed.
#[export] Instance Handles_handleRedirect b : Handles (handleRedirect h b).
Proof. unfold handleRedirect. handler. Qed.
#[export] Instance Handles_linkItems n o is_ : Handles (linkItems h n o is_).
Proof. induction is_; cbn [linkItems]; handler. Qed.
#[export] Instance Handles_LinksHandler : Handles (LinksHandler h).
Proof. unfold LinksHandler, doLinksPage. handler. Qed.
#[export] Instance Handles_CacheHandler : Handles (CacheHandler h).
Proof. unfold CacheHandler. handler. Qed.
#[export] Instance Handles_CacheControlHandler : Handles (CacheControlHandler h).
Proof. unfold CacheControlHandler. handler. Qed.
#[export] Instance Handles_StatusOverride : Handles StatusOverride.
Proof. by intros s. Qed.
#[export] Instance Handles_ProblemDetails : Handles ProblemDetails.
Proof. unfold ProblemDetails. handler. Qed.
#[export] Instance Handles_Negotiate : Handles Negotiate.
Proof. unfold Negotiate. handler. Qed.
#[export] Instance Handles_UUID : Handles UUID.
Proof. unfold UUID, uuidv4. handler. Qed.
#[export] Instance Handles_NewTicker d : Handles (NewTicker d).
Proof. unfold NewTicker. handler. Qed.
#[export] Instance Handles_dripLoop n p : Handles (dripLoop n p).
Proof. induction n; cbn [dripLoop]; handler. Qed.
#[export] Instance Handles_Drip : Handles (Drip h).
Proof. unfold Drip, parseDrip, dripRun, dripWrite, optional, wrap_err. handler. Qed.
#[export] Instance Handles_bytesLoop b c rng n i chunk : Handles (bytesLoop b c rng n i chunk).
Proof.
  revert i chunk. induction n as [|n IH]; intros i chunk; cbn [bytesLoop]; unfold writeChunk; handler.
Qed.
#[export] Instance Handles_handleBytes b : Handles (handleBytes h b).
Proof. unfold handleBytes, parseSeed, optional, wrap_err. handler. Qed.
#[export] Instance Handles_streamLoop fs ids : Handles (streamLoop fs ids).
Proof. induction ids; cbn [streamLoop]; handler. Qed.
#[export] Instance Handles_Stream : Handles (Stream h).
Proof. unfold Stream, wrap_err. handler. Qed.
#[export] Instance Handles_writeServerSentEvent i t e : Handles (writeServerSentEvent i t e).
Proof. unfold writeServerSentEvent. handler. Qed.
#[export] Instance Handles_sseLoop p st pa n i : Handles (sseLoop p st pa n i).
Proof. revert i. induction n as [|n IH]; intros i; cbn [sseLoop]; handler. Qed.

Lemma Handles_deferred m d : Handles m → Handles d → Handles (deferred m d).
Proof.
  intros Hm Hd s. unfold deferred. pose proof (Hm s) as Hw1. destruct (m s) as [o s1].
  pose proof (Hd s1) as Hw2. destruct (d s1) as [[]]; (etrans; [exact Hw1|exact Hw2]).
Qed.

#[export] Instance Handles_SSE : Handles (SSE h).
Proof.
  unfold SSE, parseSSE, sseRun, sseEvents, sseTrailer, optional, wrap_err. handler;
    apply Handles_deferred; handler.
Qed.
End Instances.

(** ** Countdown *)

Section Countdown.
Context `{GoStd, Runtime} (h : HTTPBin).

Lemma doRedirect_sends path c s :
  final c → startable s → ∃ s', doRedirect h path c s = (Ok tt, s') ∧ status (wr s') = Some c ∧
    Header_Get "Location" (sent (wr s'))
    = (if HasPrefix path "/" && negb (HasPrefix path "//") then prefix h else "") +:+ path.
Proof.
  intros Hc Hs. unfold doRedirect, mbind, GoM_bind. rewrite SetHeader_run. set (loc := _ +:+ path).
  pose proof (startable_header (Header_Set "Location" loc) s Hs) as Hs1.
  set (s1 := set_wr _ s) in *. pose proof (startable_fresh _ Hs1) as [Ht1 Hf1]. unfold WriteHeader.
  destruct (w_WriteHeader_final c (wr s1) Hc Ht1 Hf1) as (w & E & Hw & Ht). rewrite E.
  eexists. split; [done|]. cbn [wr set_wr]. split; [done|].
  pose proof (w_WriteHeader_base _ _ _ Ht1 E) as Eb. unfold sent.
  rewrite (base_WriteHeader_header _ _ _ _ Hc Hf1 Eb) by done.
  unfold s1. cbn [wr set_wr]. rewrite rHeader_set_header. apply Header_Get_Set.
Qed.

(** [location m num loc]: asked with the count [num], [m] redirects to [loc]. *)
Definition location (m : HandlerFunc) (num loc : string) : Prop :=
  ∀ s, startable s → PathValue "numRedirects" (req s) = num →
    ∃ s', m s = (Ok tt, s') ∧ status (wr s') = Some 302 ∧
      Header_Get "Location" (sent (wr s')) = loc.

(** The number of redirects that a client follows from the count [num] to [/get]. *)
Inductive hops : nat → string → Prop :=
| hops_last num : location (RelativeRedirect h) num (prefix h +:+ "/get") → hops 1 num
| hops_next k num num' :
    location (RelativeRedirect h) num (prefix h +:+ "/relative-redirect/" +:+ num') →
    hops k num' → hops (S k) num.

Lemma relative_location n :
  1 ≤ n ≤ maxInt64 →
  location (RelativeRedirect h) (Itoa n)
    (prefix h +:+ (if n =? 1 then "/get" else "/relative-redirect/" +:+ Itoa (n - 1))).
Proof.
  unfold maxInt64. intros Hn s Hs Hp. unfold RelativeRedirect, handleRedirect, mbind, GoM_bind, get_req.
  rewrite Hp. unfold AtoiE. rewrite Atoi_Itoa by (unfold in_int64, minInt64, maxInt64; lia).
  cbn [numErr map_err]. ztest. unwrap64. unfold redirectLocation.
  destruct (doRedirect_sends (if n - 1 <? 1 then "/get" else "/relative-redirect/" +:+ Itoa (n - 1)) 302 s)
    as (s' & E & H1 & H2); [by apply final_200|done|].
  exists s'. split; [exact E|]. split; [done|]. rewrite H2.
  by destruct (Z.eqb_spec n 1) as [->|]; [|ztest].
Qed.

(** [/relative-redirect/n] redirects exactly [n] times, each time to one less, and
    then to [/get], always within the prefix of the server. *)
Theorem relative_redirects n :
  (1 ≤ n)%nat → Z.of_nat n ≤ maxInt64 → hops n (Itoa (Z.of_nat n)).
Proof.
  intros H1. induction H1 as [|n H1 IH]; intros Hn.
  - apply hops_last. apply (relative_location 1). unfold maxInt64. lia.
  - unfold maxInt64 in *. eapply (hops_next _ _ (Itoa (Z.of_nat n))); [|apply IH; lia].
    pose proof (relative_location (Z.of_nat (S n)) ltac:(unfold maxInt64; lia)) as Hl.
    revert Hl. ztest. by replace (Z.of_nat (S n) - 1) with (Z.of_nat n) by lia.
Qed.
End Countdown.

(** The absolute redirects leave the prefix of the server out. *)
Definition prefix_bin : HTTPBin := {|
  MaxBodySize := DefaultMaxBodySize;
  MaxDuration := DefaultMaxDuration;
  DefaultParams_ := DefaultDefaultParams;
  AllowedRedirectDomains := [];
  unsafeAllowDangerousResponses := false;
  env := None;
  forbiddenRedirectError := "";
  hostname := DefaultHostname;
  prefix := "/a";
  statusSpecialCases := createSpecialCases "/a";
  excludeHeadersProcessor := None;
  maxSSECount := 10000;
  trustedProxies := [];
  trustedProxiesConfigured := false;
  version := "";
  indexHTML := "";
  formsPostHTML := "";
  maxConcurrentRequests := 0;
  rateLimiter := None;
  rateLimitUseSubnets := false;
  observed := false;
  imageConverters := ∅;
  terminalHandlers := ∅;
|}.

Example absolute_redirect_drops_prefix :
  let s := sample_world (SetPathValue "numRedirects" "2" (sample_request "GET" "/absolute-redirect/2" "")) in
  Header_Get "Location" (sent (wr (AbsoluteRedirect prefix_bin s).2)) = "http://localhost/absolute-redirect/1".
Proof. vm_compute. reflexivity. Qed.

Lemma relative_redirects_witness : hops prefix_bin 3 "3".
Proof. apply (relative_redirects prefix_bin 3); [lia|vm_compute; discriminate]. Defined.
