(* ===== verification/CookiesSpec.v ===== *)
(** * CookiesSpec: cookies that are set come back *)

From S2P Require Import Prelude GoStrings GoNum GoTime GoFmt Json Responses GoURL GoPath.
From S2P Require Import Http HttpLaws Handles Bodies Bin Pipeline Handlers Cookies.
From S2P Require Import Streams StreamsSpec HandlersSpec RedirectsSpec Samples.

(** ** One cookie *)

Lemma blank_invisible : forallb invisible_start [str1 " "; str1 (chr 9); str1 LF; str1 CR] = true.
Proof. reflexivity. Qed.

Lemma TrimString_framed s : framed s → TrimString s = s.
Proof. apply (trim_framed _ _ s blank_invisible blank_invisible). Qed.

Lemma TrimString_space s : framed s → TrimString (" " +:+ s) = s.
Proof.
  intros Hf. rewrite <- (TrimString_framed s Hf) at 2.
  destruct Hf as (c1 & s1 & _ & _ & -> & _ & V1 & _). unfold TrimString.
  cbn [String.append String.length].
  change (strip_any ?p (S ?n) (String " " ?s)) with (strip_any p n s).
  by rewrite !strip_visible.
Qed.

(** A name and a value that a cookie can carry. *)
Definition cookie_ok (kv : string * string) : Prop :=
  isToken kv.1 = true ∧ string_forall validCookieValueByte kv.2 = true.

(** What a client sends back of a cookie. *)
Definition cookie_pair (kv : string * string) : string := kv.1 +:+ "=" +:+ sanitizeCookieValue kv.2.

Lemma token_char c :
  header_byte_ok c = true →
  visible c = true ∧ Ascii.eqb ";" c = false ∧ Ascii.eqb "=" c = false.
Proof.
  intros Hc.
  assert (negb (header_byte_ok c) || (visible c && negb (Ascii.eqb ";" c) && negb (Ascii.eqb "=" c)) = true) as H
    by (apply (forall_ascii (λ c, negb (header_byte_ok c) || (visible c && negb (Ascii.eqb ";" c)
          && negb (Ascii.eqb "=" c)))); vm_compute; reflexivity).
  rewrite Hc in H. cbn in H. rewrite !andb_true_iff, !negb_true_iff in H. tauto.
Qed.

Lemma value_char c :
  validCookieValueByte c = true →
  Ascii.eqb ";" c = false ∧ (contains_char c " ," = false → visible c = true) ∧
  HasPrefix (str1 c) DQUOTE = false.
Proof.
  intros Hc.
  assert (negb (validCookieValueByte c) || (negb (Ascii.eqb ";" c) && (contains_char c " ," || visible c)
    && negb (HasPrefix (str1 c) DQUOTE)) = true) as H
    by (apply (forall_ascii (λ c, negb (validCookieValueByte c) || (negb (Ascii.eqb ";" c)
          && (contains_char c " ," || visible c) && negb (HasPrefix (str1 c) DQUOTE)))); vm_compute; reflexivity).
  rewrite Hc in H. cbn [negb orb] in H. rewrite !andb_true_iff, !negb_true_iff, orb_true_iff in H.
  destruct H as [[H1 H2] H3]. split; [done|]. split; [|done]. intros E. destruct H2 as [H2|H2]; [congruence|done].
Qed.

Lemma string_filter_id p s : string_forall p s = true → string_filter p s = s.
Proof.
  induction s as [|c s IH]; [done|]. cbn. intros [Hc Hs]%andb_true_iff. by rewrite Hc, IH.
Qed.

Lemma forall_no_char p d s :
  (∀ c, p c = true → Ascii.eqb d c = false) → string_forall p s = true → contains_char d s = false.
Proof.
  intros Hp. induction s as [|c s IH]; [done|]. cbn. intros [Hc Hs]%andb_true_iff.
  by rewrite (Hp c Hc), IH.
Qed.

Lemma token_visible k : isToken k = true → k ≠ "" ∧ string_forall visible k = true ∧
  contains_char ";" k = false ∧ contains_char "=" k = false.
Proof.
  unfold isToken, nonempty. intros [Hn%negb_true_iff%String.eqb_neq Hk]%andb_true_iff.
  split; [done|]. split; [eapply string_forall_impl, Hk; intros c Hc; by apply token_char|].
  split; (eapply forall_no_char, Hk; intros c Hc; by apply token_char).
Qed.

Lemma cookie_no_semicolon kv : cookie_ok kv → contains_char ";" (cookie_pair kv) = false.
Proof.
  intros [Hk Hv]. unfold cookie_pair, sanitizeCookieValue.
  rewrite string_filter_id by done. destruct (token_visible _ Hk) as (_ & _ & E & _).
  assert (contains_char ";" kv.2 = false) as Ev by (eapply forall_no_char, Hv; intros c Hc; by apply value_char).
  rewrite !contains_char_app, E. cbn [contains_char]. destruct (ContainsAny _ _); [|by rewrite Ev].
  rewrite !contains_char_app, Ev. done.
Qed.

Lemma ContainsAny_visible v :
  string_forall validCookieValueByte v = true → ContainsAny v " ," = false → string_forall visible v = true.
Proof.
  induction v as [|c v IH]; [done|]. cbn [string_forall ContainsAny].
  intros [Hc Hv]%andb_true_iff [Ec Ev]%orb_false_iff.
  destruct (value_char c Hc) as (_ & H & _). rewrite (H Ec). by apply IH.
Qed.

Lemma framed_name k : isToken k = true → framed k.
Proof.
  intros Hk. destruct (token_visible k Hk) as (Hn & Hv & _).
  destruct (visible_last k Hn Hv) as (s & c & E & Hc). destruct k as [|d k]; [done|].
  exists d, k, c, s. split; [done|]. split; [done|]. split; [|done]. cbn in Hv. by apply andb_true_iff in Hv as [? _].
Qed.

Lemma cookie_framed kv : cookie_ok kv → framed (cookie_pair kv).
Proof.
  intros [Hk Hv]. destruct (framed_name _ Hk) as (c1 & s1 & _ & _ & E1 & _ & V1 & _).
  unfold cookie_pair. rewrite E1. unfold sanitizeCookieValue. rewrite string_filter_id by done.
  destruct (ContainsAny kv.2 " ,") eqn:E.
  - exists c1, (s1 +:+ "=" +:+ DQUOTE +:+ kv.2 +:+ DQUOTE), (chr 34), (String c1 s1 +:+ "=" +:+ DQUOTE +:+ kv.2).
    split; [done|]. split; [|done]. rewrite <- !sapp_assoc. done.
  - pose proof (ContainsAny_visible _ Hv E) as Hvis. destruct (decide (kv.2 = "")) as [->|Hne].
    + exists c1, (s1 +:+ "="), "="%char, (String c1 s1). done.
    + destruct (visible_last kv.2 Hne Hvis) as (s & c & Es & Hc). rewrite Es.
      exists c1, (s1 +:+ "=" +:+ s +:+ str1 c), c, (String c1 s1 +:+ "=" +:+ s).
      split; [done|]. split; [|done]. rewrite <- !sapp_assoc. done.
Qed.

Lemma parseCookieValue_sanitized v :
  string_forall validCookieValueByte v = true → parseCookieValue (sanitizeCookieValue v) = Some v.
Proof.
  intros Hv. unfold sanitizeCookieValue. rewrite string_filter_id by done. unfold parseCookieValue.
  destruct (ContainsAny v " ,") eqn:E.
  - assert (1 <? slen (DQUOTE +:+ v +:+ DQUOTE) = true) as ->.
    { rewrite !slen_app. change (slen DQUOTE) with 1. pose proof (slen_nonneg v). by ztest. }
    unfold HasPrefix. rewrite prefix_app, (sapp_assoc DQUOTE v DQUOTE), HasSuffix_app. cbn [andb].
    replace (stake _ _) with v; [by rewrite Hv|]. rewrite <- sapp_assoc.
    change (sdrop 1 (DQUOTE +:+ ?s)) with s. rewrite !slength_app. change (String.length DQUOTE) with 1%nat.
    replace (1 + (String.length v + 1) - 2)%nat with (String.length v) by lia. by rewrite stake_app.
  - assert (HasPrefix v DQUOTE = false) as Hp.
    { destruct v as [|c v]; [done|]. cbn in Hv. apply andb_true_iff in Hv as [Hc _].
      destruct (value_char c Hc) as (_ & _ & H). unfold HasPrefix, DQUOTE in *. cbn in *. by destruct (ascii_dec _ _). }
    rewrite Hp, andb_false_r. cbn [andb]. by rewrite Hv.
Qed.

Lemma readCookie_of t kv : cookie_ok kv → TrimString t = cookie_pair kv → readCookie t = Some kv.
Proof.
  intros Hok Ht. unfold readCookie. rewrite Ht. pose proof (cookie_framed _ Hok) as (c & s & _ & _ & E & _).
  destruct (String.eqb_spec (cookie_pair kv) "") as [E'|_]; [by rewrite E in E'|].
  destruct Hok as [Hk Hv]. destruct (token_visible _ Hk) as (_ & _ & _ & He). unfold cookie_pair.
  change ("=" +:+ sanitizeCookieValue kv.2) with (String "=" (sanitizeCookieValue kv.2)).
  rewrite Cut_found by done. rewrite (TrimString_framed _ (framed_name _ Hk)), Hk. cbn [negb].
  rewrite parseCookieValue_sanitized by done. by destruct kv.
Qed.

(** ** The header that a client sends *)

Definition cookie_header (l : list (string * string)) : string := Join "; " (map cookie_pair l).

Lemma Split_cookies kv l :
  Forall cookie_ok (kv :: l) →
  Split ";" (cookie_header (kv :: l)) = cookie_pair kv :: map (λ kv, " " +:+ cookie_pair kv) l.
Proof.
  revert kv. induction l as [|kv' l IH]; intros kv Hl; apply Forall_cons in Hl as [Hkv Hl];
    unfold cookie_header in *; cbn [map].
  - apply Split_no_sep_id. by apply cookie_no_semicolon.
  - rewrite Join_cons. change ("; " +:+ ?s) with (str1 ";" +:+ (" " +:+ s)).
    rewrite Split_app by (by apply cookie_no_semicolon). f_equal.
    specialize (IH kv' Hl). cbn [map] in IH. cbn [String.append Split]. rewrite IH. done.
Qed.

Lemma cookie_header_framed l : l ≠ [] → Forall cookie_ok l → framed (cookie_header l).
Proof.
  induction l as [|kv l IH]; [done|]. intros _ Hl. apply Forall_cons in Hl as [Hkv Hl].
  pose proof (cookie_framed _ Hkv) as (c1 & s1 & c2 & s2 & E1 & E2 & V1 & V2).
  destruct l as [|kv' l]; [by exists c1, s1, c2, s2|].
  destruct IH as (_ & _ & d & t & _ & E3 & _ & V3); [done|done|]. unfold cookie_header in *. cbn [map] in *.
  rewrite Join_cons, E3, E1. exists c1, (s1 +:+ "; " +:+ t +:+ str1 d), d, (String c1 s1 +:+ "; " +:+ t).
  split; [done|]. split; [|done]. by rewrite <- !sapp_assoc.
Qed.

Lemma readCookies_header l hs :
  Forall cookie_ok l → hs !! "Cookie" = Some [cookie_header l] → readCookies hs = l.
Proof.
  intros Hl Hh. unfold readCookies. rewrite Hh. cbn [default from_option flat_map]. unfold id. cbn [flat_map]. rewrite app_nil_r.
  destruct l as [|kv l]; [done|]. rewrite TrimString_framed by (by apply cookie_header_framed).
  rewrite Split_cookies by done. apply Forall_cons in Hl as [Hkv Hl]. cbn [omap list_omap].
  rewrite (readCookie_of _ kv) by (done || by apply TrimString_framed, cookie_framed).
  f_equal. clear Hh. induction Hl as [|kv' l Hkv' Hl IH]; [done|]. cbn [map omap list_omap].
  rewrite (readCookie_of _ kv') by (done || by apply TrimString_space, cookie_framed).
  f_equal. exact IH.
Qed.

(** ** Setting and reading back *)

Section Spec.
Context `{GoStd, Runtime} (h : HTTPBin).

(** A client that keeps its cookies sends back what precedes the first semicolon. *)
Definition client_header (lines : list string) : string :=
  Join "; " (map (λ l, (Cut ";" l).1.1) lines).

Lemma client_pair kv rest :
  cookie_ok kv → (Cut ";" (cookie_pair kv +:+ String ";" rest)).1.1 = cookie_pair kv.
Proof. intros Hok. by rewrite Cut_found by (by apply cookie_no_semicolon). Qed.

Lemma setCookies_run f ks s :
  (∀ k, k ∈ ks → cookie_String (f k) ≠ "") →
  setCookies f ks s
  = (Ok tt, set_wr (set_header (add_headers "Set-Cookie" (map (λ k, cookie_String (f k)) ks)) (wr s)) s).
Proof.
  intros Hf. rewrite <- AddHeaders_run. revert s. induction ks as [|k ks IH]; intros s; [done|].
  cbn [setCookies map AddHeaders]. unfold SetCookie, nonempty.
  destruct (String.eqb_spec (cookie_String (f k)) "") as [E|_]; [by apply Hf in E; [|left]|].
  cbn [negb]. unfold mbind, GoM_bind. destruct (AddHeader _ _ s) as [[] s1]; [|done..].
  apply IH. intros k' Hk'. apply Hf. by right.
Qed.

Definition new_cookie (params : values) (k : string) : Cookie := MkCookie k (Values_Get k params) None false.

Lemma new_cookie_String params k :
  isToken k = true →
  cookie_String (new_cookie params k) = cookie_pair (k, Values_Get k params) +:+ "; HttpOnly".
Proof.
  intros Hk. unfold cookie_String, new_cookie, cookie_pair. cbn [ck_Name ck_Value ck_Expires ck_expired].
  rewrite Hk. cbn [negb fst snd String.append]. by rewrite <- !sapp_assoc.
Qed.

(** What a redirect sends under another name than Location. *)
Lemma doRedirect_vals key path s s' :
  startable s → doRedirect h path 302 s = (Ok tt, s') →
  key ≠ "Location" → key ≠ "Content-Length" →
  vals key (sent (wr s')) = vals key (rHeader (base (wr s))).
Proof.
  intros Hs E Hl Hc. revert E. unfold doRedirect, mbind, GoM_bind. rewrite SetHeader_run.
  set (loc := _ +:+ path).
  pose proof (startable_header (Header_Set "Location" loc) s Hs) as Hs1.
  set (s1 := set_wr _ s) in *. pose proof (startable_fresh _ Hs1) as [Ht1 Hf1]. unfold WriteHeader.
  destruct (w_WriteHeader_final 302 (wr s1) (final_200 302 ltac:(lia)) Ht1 Hf1) as (w & E & Hw & Ht).
  rewrite E. intros [= <-]. cbn [wr set_wr]. pose proof (w_WriteHeader_base _ _ _ Ht1 E) as Eb.
  assert (vals key (sentHeader (base w)) = vals key (rHeader (base (wr s1)))) as Ev.
  { revert Eb. unfold base_WriteHeader. unfold status in Hf1. rewrite Hf1. cbn [Z.ltb Z.compare orb informational].
    intros [= <-]. cbn [sentHeader]. destruct (declared_length _); [done|].
    unfold vals, Header_Del. by rewrite lookup_delete_ne. }
  unfold sent. rewrite Ev. unfold s1. cbn [wr set_wr]. rewrite rHeader_set_header.
  unfold vals, Header_Set. by rewrite lookup_insert_ne.
Qed.

Lemma fold_cookies (V : string → string) ks (m : gmap string string) k :
  foldl (λ m (c : string * string), <[c.1 := c.2]> m) m (map (λ k, (k, V k)) ks) !! k
  = if bool_decide (k ∈ ks) then Some (V k) else m !! k.
Proof.
  revert m. induction ks as [|k' ks IH]; intros m; [done|]. cbn [map foldl fst snd]. rewrite IH.
  destruct (bool_decide_reflect (k ∈ ks)); [by rewrite bool_decide_eq_true_2 by (by right)|].
  destruct (decide (k = k')) as [->|Hk].
  - by rewrite lookup_insert_eq, bool_decide_eq_true_2 by left.
  - rewrite lookup_insert_ne by done. rewrite bool_decide_eq_false_2; [done|].
    by intros [?|?]%elem_of_cons.
Qed.

Lemma range_keys_run {A} (m : gmap string A) s :
  ∃ ks s', range_keys m s = (Ok ks, s') ∧ (∀ k, k ∈ ks ↔ is_Some (m !! k)) ∧ wr s' = wr s.
Proof. eexists _, _. split; [reflexivity|]. split; [|done]. intros k. apply iteration_order_elem. Qed.

(** (C21) What /cookies/set is asked to set comes back: for names and values that cookies
    can carry, a client that follows the redirect with the cookies it was given is
    answered by /cookies with the first value of every parameter, in whatever order the
    cookies were sent. *)
Theorem cookies_come_back s :
  let params := Query (URL (req s)) in
  startable s → rHeader (base (wr s)) !! "Set-Cookie" = None →
  (∀ k, is_Some (params !! k) → cookie_ok (k, Values_Get k params)) →
  ∃ s', SetCookies h s = (Ok tt, s') ∧ status (wr s') = Some 302 ∧
    Header_Get "Location" (sent (wr s')) = prefix h +:+ "/cookies" ∧
    ∀ s2, RHeader (req s2) !! "Cookie" = Some [client_header (vals "Set-Cookie" (sent (wr s')))] →
      Cookies s2 = writeJSON 200 (cookiesResponse (hd "" <$> params)) s2.
Proof.
  intros params Hs Hnc Hok. unfold SetCookies, mbind, GoM_bind, get_req. fold params.
  destruct (range_keys_run params s) as (ks & s1 & -> & Hks & Hw1).
  assert (∀ k, k ∈ ks → cookie_ok (k, Values_Get k params)) as Hcks by (intros k Hk; by apply Hok, Hks).
  rewrite (setCookies_run (new_cookie params)); cycle 1.
  { intros k Hk. destruct (Hcks k Hk) as [Ht _]. cbn in Ht. rewrite new_cookie_String by done.
    unfold cookie_pair. cbn [fst]. by destruct k. }
  set (lines := map _ ks). set (s2 := set_wr _ s1).
  assert (startable s2) as Hs2 by (apply startable_header; by destruct Hs; split; rewrite ?Hw1).
  destruct (doRedirect_sends h "/cookies" 302 s2) as (s3 & E & H1 & H2); [by apply final_200|done|].
  exists s3. split; [exact E|]. split; [done|]. split; [exact H2|]. intros s4 Hc.
  rewrite (doRedirect_vals "Set-Cookie" _ _ _ Hs2 E) in Hc by done.
  unfold s2 in Hc. cbn [wr set_wr] in Hc. rewrite rHeader_set_header, Hw1, vals_add_headers in Hc.
  change (String.eqb (CanonicalHeaderKey "Set-Cookie") "Set-Cookie") with true in Hc. cbn iota in Hc.
  unfold vals in Hc. rewrite Hnc in Hc. cbn [default from_option app] in Hc.
  set (l := map (λ k, (k, Values_Get k params)) ks).
  assert (client_header lines = cookie_header l) as El.
  { unfold client_header, cookie_header, lines, l. rewrite !map_map. f_equal.
    apply map_ext_in. intros k Hk%list_elem_of_In. pose proof (Hcks k Hk) as Hk'.
    rewrite new_cookie_String by apply Hk'. by apply client_pair. }
  change (id ?x) with x in Hc. rewrite El in Hc.
  unfold Cookies, mbind, GoM_bind, get_req. rewrite (readCookies_header l); [|..|exact Hc]; cycle 1.
  { apply Forall_forall. intros kv (k & -> & Hk)%list_elem_of_fmap. by apply Hcks. }
  do 5 f_equal. apply map_eq. intros k. unfold l. rewrite fold_cookies, lookup_fmap, lookup_empty.
  unfold Values_Get. case_bool_decide as Hk; rewrite Hks in Hk.
  - destruct Hk as [vs ->]. by destruct vs.
  - by rewrite <- eq_None_not_Some in Hk; rewrite Hk.
Qed.
End Spec.

Lemma cookies_come_back_witness :
  ∃ s', SetCookies sample_bin (sample_world (sample_request "GET" "/cookies/set" "a=1&b=x%20y")) = (Ok tt, s') ∧
    status (wr s') = Some 302 ∧
    ∀ s2, RHeader (req s2) !! "Cookie" = Some ["a=1; b=" +:+ DQUOTE +:+ "x y" +:+ DQUOTE] →
      Cookies s2 = writeJSON 200 (JObj [("cookies", JObj [("a", JStr "1"); ("b", JStr "x y")])]) s2.
Proof.
  destruct (cookies_come_back sample_bin
    (sample_world (sample_request "GET" "/cookies/set" "a=1&b=x%20y"))) as (s' & E & Hst & _ & Hc).
  - by split.
  - reflexivity.
  - intros k. set (params := Query _).
    assert (∀ k, k ∈ ["a"; "b"] → cookie_ok (k, Values_Get k params)) as Hk.
    { intros k' [->|[->|[]%elem_of_nil]%elem_of_cons]%elem_of_cons; split; vm_compute; reflexivity. }
    intros Hs. apply Hk. replace params with ({["a" := ["1"]; "b" := ["x y"]]} : values) in Hs
      by (vm_compute; reflexivity).
    destruct (decide (k ∈ ["a"; "b"])) as [|Hn]; [done|].
    assert (k ≠ "a" ∧ k ≠ "b") as [Ha Hb] by set_solver.
    rewrite (lookup_insert_ne _ "a" k) in Hs by done. rewrite lookup_singleton_ne in Hs by done.
    by destruct Hs.
  - exists s'. split; [exact E|]. split; [exact Hst|]. intros s2 Hh.
    refine (eq_trans (Hc s2 _) _); [|vm_compute (json_map _ _); reflexivity].
    rewrite Hh. vm_compute in E. injection E as <-. vm_compute. reflexivity.
Defined.
