(* ===== verification/EtagSpec.v ===== *)
(** * EtagSpec: revalidation with entity tags

    The lists of tags of [If-Match] and [If-None-Match] are read as the tags they name,
    and [ETag] answers by them: 412, 304, or the content under its tag. *)

From S2P Require Import Prelude GoStrings GoNum GoFloat GoTime GoFmt Json GoURL GoPath.
From S2P Require Import Http HttpLaws Digest Handles Bodies Bin Pipeline Cookies Handlers Streams.
From S2P Require Import ServeContent StreamsSpec HandlersSpec BodySpec CookiesSpec ServeContentSpec Samples.

(** ** Lists of tags *)

Definition quoted (t : string) : string := DQUOTE +:+ t +:+ DQUOTE.
Definition tag_ok (t : string) : Prop := string_forall etag_char t = true.

(** What a client writes into a header. *)
Definition tag_header (l : list string) : string := Join ", " (map quoted l).

Lemma DQUOTE_not_etag : etag_char (chr 34) = false.
Proof. reflexivity. Qed.

Lemma scan_tag_quoted t rest : tag_ok t → scan_tag (t +:+ DQUOTE +:+ rest) = Some (t +:+ DQUOTE, rest).
Proof.
  unfold tag_ok. induction t as [|c t IH]; [done|]. cbn [string_forall]. intros [Hc Ht]%andb_true_iff.
  cbn [String.append scan_tag]. rewrite IH by done.
  destruct (String.eqb_spec (str1 c) DQUOTE) as [E|_]; [|by rewrite Hc].
  unfold DQUOTE in E. injection E as ->. by rewrite DQUOTE_not_etag in Hc.
Qed.

Lemma tag_framed t rest : framed rest ∨ rest = "" → framed (quoted t +:+ rest).
Proof.
  intros [(_ & _ & c & s & _ & -> & _ & V)| ->].
  - exists (chr 34), (t +:+ DQUOTE +:+ s +:+ str1 c), c, (quoted t +:+ s).
    unfold quoted. rewrite <- !sapp_assoc. by repeat split.
  - exists (chr 34), (t +:+ DQUOTE), (chr 34), (DQUOTE +:+ t). unfold quoted.
    rewrite sapp_nil_r, <- !sapp_assoc. by repeat split.
Qed.

Lemma scanETag_quoted t rest :
  tag_ok t → framed rest ∨ rest = "" → scanETag (quoted t +:+ rest) = Some (quoted t, rest).
Proof.
  intros Ht Hr. unfold scanETag. rewrite TrimString_framed by by apply tag_framed.
  change (HasPrefix (quoted t +:+ rest) "W/") with false. cbn iota.
  unfold quoted, HasPrefix. rewrite <- !sapp_assoc, prefix_app. change (sdrop 1 (DQUOTE +:+ ?s)) with s.
  by rewrite scan_tag_quoted.
Qed.

Lemma tag_header_cons t u l : tag_header (t :: u :: l) = quoted t +:+ ", " +:+ tag_header (u :: l).
Proof. unfold tag_header. cbn [map]. by rewrite Join_cons. Qed.

Lemma comma_framed s : framed s → framed (", " +:+ s).
Proof.
  intros (_ & _ & c & s' & _ & -> & _ & V). exists ","%char, (" " +:+ s' +:+ str1 c), c, (", " +:+ s').
  by rewrite <- !sapp_assoc.
Qed.

Lemma tag_header_framed t l : framed (tag_header (t :: l)).
Proof.
  revert t. induction l as [|u l IH]; intros t.
  - rewrite <- (sapp_nil_r (tag_header [t])). apply tag_framed. by right.
  - rewrite tag_header_cons. apply tag_framed. left. apply comma_framed, IH.
Qed.

(** The fuel of the list is enough: a tag is not empty. *)
Lemma TrimString_shorter s : (String.length (TrimString s) ≤ String.length s)%nat.
Proof.
  unfold TrimString. rewrite srev_length. etrans; [apply strip_any_shorter|]. rewrite srev_length. apply strip_any_shorter.
Qed.

Lemma scan_tag_shorter s t r : scan_tag s = Some (t, r) → (String.length r ≤ String.length s)%nat.
Proof.
  revert t. induction s as [|c s IH]; intros t; [done|]. cbn [scan_tag]. destruct (String.eqb _ _); [intros [= _ <-]; cbn; lia|].
  destruct (etag_char c); [|done]. destruct (scan_tag s) as [[t' r']|]; [|done]. intros [= _ <-]. specialize (IH t' eq_refl). cbn. lia.
Qed.

Lemma scanETag_shorter s t r : scanETag s = Some (t, r) → (String.length r < String.length s)%nat.
Proof.
  unfold scanETag. pose proof (TrimString_shorter s) as Hs. set (body := if HasPrefix _ "W/" then _ else _).
  assert (String.length body ≤ String.length s)%nat as Hb by (unfold body; destruct (HasPrefix _ "W/"); rewrite ?sdrop_length; lia).
  destruct (HasPrefix body DQUOTE) eqn:Ed; [|done]. destruct (scan_tag (sdrop 1 body)) as [[t' r']|] eqn:E; [|done].
  intros [= _ <-]. apply scan_tag_shorter in E. rewrite sdrop_length in E. destruct body; [done|cbn in *; lia].
Qed.

Lemma tags_match_fuel n m matches s :
  (String.length s ≤ n)%nat → (String.length s ≤ m)%nat → tags_match n matches s = tags_match m matches s.
Proof.
  revert m s. induction n as [|n IH]; intros m s Hn Hm.
  - destruct s; [|cbn in Hn; lia]. by destruct m.
  - destruct m as [|m]; [destruct s; [done|cbn in Hm; lia]|]. cbn [tags_match]. pose proof (TrimString_shorter s) as Ht.
    destruct (TrimString s) as [|c rest]; [done|]. cbn [String.length] in Ht.
    destruct (Ascii.eqb c ","); [apply IH; lia|]. destruct (Ascii.eqb c "*"); [done|].
    destruct (scanETag (String c rest)) as [[tag remain]|] eqn:E; [|done]. apply scanETag_shorter in E. cbn [String.length] in E.
    f_equal. apply IH; lia.
Qed.

Lemma tags_match_quoted matches fuel t rest :
  tag_ok t → framed rest ∨ rest = "" →
  tags_match (S fuel) matches (quoted t +:+ rest) = matches (quoted t) || tags_match fuel matches rest.
Proof.
  intros Ht Hr. cbn [tags_match]. rewrite TrimString_framed by by apply tag_framed.
  rewrite scanETag_quoted by done. reflexivity.
Qed.

Lemma tags_match_comma matches fuel s :
  framed s → tags_match (S fuel) matches (", " +:+ s) = tags_match fuel matches (" " +:+ s).
Proof.
  intros Hs. cbn [tags_match]. rewrite TrimString_framed by by apply comma_framed. reflexivity.
Qed.

Lemma tags_match_space matches fuel s :
  framed s → tags_match fuel matches (" " +:+ s) = tags_match fuel matches s.
Proof.
  intros Hs. destruct fuel as [|fuel]; [done|]. cbn [tags_match].
  by rewrite TrimString_space, TrimString_framed by done.
Qed.

Lemma tags_match_header matches l fuel :
  Forall tag_ok l → (2 * length l ≤ fuel)%nat →
  tags_match fuel matches (tag_header l) = existsb (λ t, matches (quoted t)) l.
Proof.
  intros Hl. revert fuel. induction Hl as [|t l Ht Hl IH]; intros fuel Hf.
  { destruct fuel; done. }
  cbn [length existsb] in *. destruct fuel as [|fuel]; [lia|]. destruct l as [|u l].
  - rewrite <- (sapp_nil_r (tag_header [t])). rewrite (tags_match_quoted _ _ t "") by (done || by right).
    f_equal. destruct fuel; [lia|done].
  - cbn [length] in Hf. rewrite tag_header_cons.
    rewrite tags_match_quoted by (done || left; by apply comma_framed, tag_header_framed).
    f_equal. destruct fuel as [|fuel]; [lia|].
    rewrite tags_match_comma, tags_match_space by apply tag_header_framed. apply IH. cbn [length]. lia.
Qed.

Lemma tag_header_length l : (2 * length l ≤ String.length (tag_header l))%nat.
Proof.
  induction l as [|t [|u l] IH]; [done|..].
  - change (tag_header [t]) with (quoted t). unfold quoted. rewrite !slength_app.
    change (String.length DQUOTE) with 1%nat. cbn [length]. lia.
  - rewrite tag_header_cons, !slength_app. cbn [length] in *. unfold quoted. rewrite !slength_app.
    change (String.length DQUOTE) with 1%nat. change (String.length ", ") with 2%nat. lia.
Qed.

(** A list of tags matches when one of its tags does. *)
Lemma tag_list_header matches l :
  Forall tag_ok l → tag_list matches (tag_header l) = existsb (λ t, matches (quoted t)) l.
Proof. intros Hl. apply tags_match_header; [done|]. pose proof (tag_header_length l). lia. Qed.

Lemma quoted_inj a b : quoted a = quoted b → a = b.
Proof.
  unfold quoted. change (DQUOTE +:+ ?s) with (String (chr 34) s). intros [= E].
  revert b E. induction a as [|c a IH]; intros [|d b]; cbn; [done|..].
  - intros [= <- E]. by destruct b.
  - intros [= -> E]. by destruct a.
  - intros [= -> E]. f_equal. by apply IH.
Qed.

Lemma quoted_eqb a b : String.eqb (quoted a) (quoted b) = String.eqb a b.
Proof.
  destruct (String.eqb_spec a b) as [->|Hab]; [apply String.eqb_refl|].
  apply String.eqb_neq. by intros ?%quoted_inj.
Qed.

(** A tag is named. *)
Definition names (t : string) (l : list string) : bool := existsb (String.eqb t) l.

Lemma strong_names t l : Forall tag_ok l →
  tag_list (λ tag, etagStrongMatch tag (quoted t)) (tag_header l) = names t l.
Proof.
  intros Hl. rewrite tag_list_header by done. unfold names. clear Hl.
  induction l as [|u l IH]; [done|]. cbn [existsb]. rewrite <- IH. f_equal.
  unfold etagStrongMatch, HasPrefix. rewrite quoted_eqb, String.eqb_sym. unfold quoted at 2. rewrite prefix_app.
  unfold quoted. by rewrite !andb_true_r.
Qed.

Lemma weak_names t l : Forall tag_ok l →
  tag_list (λ tag, etagWeakMatch tag (quoted t)) (tag_header l) = names t l.
Proof.
  intros Hl. rewrite tag_list_header by done. unfold names. clear Hl.
  induction l as [|u l IH]; [done|]. cbn [existsb]. rewrite <- IH. f_equal.
  unfold etagWeakMatch. change (TrimPrefix (quoted ?a) "W/") with (quoted a). by rewrite quoted_eqb, String.eqb_sym.
Qed.

(** ** The handler *)

Section ETagHandler.
Context `{GoStd, Runtime, HttpTime} (h : HTTPBin).

(** The preconditions of a request with lists of tags only. *)
Definition verdict (method t : string) (ims inms : list string) : option Z :=
  if negb (names t ims) && (0 <? length ims)%nat then Some 412
  else if names t inms then Some (if safe method then 304 else 412)
  else None.

Record tagged (r : Request) (t : string) (ims inms : list string) : Prop := {
  tag_value : PathValue "etag" r = t;
  tag_ims : Header_Get "If-Match" (RHeader r) = tag_header ims ∧ Forall tag_ok ims;
  tag_inms : Header_Get "If-None-Match" (RHeader r) = tag_header inms ∧ Forall tag_ok inms;
  tag_others : Forall (λ k, Header_Get k (RHeader r) = "")
    ["If-Unmodified-Since"; "If-Modified-Since"; "If-Range"; "Range"];
}.

Lemma tag_header_empty l : String.eqb (tag_header l) "" = negb (0 <? length l)%nat.
Proof.
  destruct l as [|t l]; [done|]. destruct (tag_header_framed t l) as (c & s & _ & _ & -> & _). done.
Qed.

Lemma checkPreconditions_tags method w r t ims inms modtime :
  tagged r t ims inms → Header_Get "ETag" w = quoted t →
  checkPreconditions method w (RHeader r) modtime =
    match verdict method t ims inms with Some c => inl c | None => inr "" end.
Proof.
  intros [_ [Eim Him] [Einm Hinm] Ho] Hw. rewrite !Forall_cons in Ho. destruct Ho as (E1 & E2 & E3 & E4 & _).
  unfold checkPreconditions, checkIfMatch, checkIfUnmodifiedSince, checkIfNoneMatch, checkIfModifiedSince, checkIfRange.
  rewrite E1, E2, E3, E4, Eim, Einm, Hw, !tag_header_empty, strong_names, weak_names by done.
  cbn [String.eqb negb andb]. rewrite orb_true_r. unfold verdict.
  assert (names t [] = false) as Hnil by done.
  destruct ims as [|t1 ims], inms as [|t2 inms]; cbn [length Nat.ltb Nat.leb negb andb]; rewrite ?Hnil;
    repeat match goal with |- context [names t (?a :: ?l)] => destruct (names t (a :: l)) end;
    destruct (safe method), modtime; done.
Qed.

(** A status without a body. *)
Lemma WriteHeader_bare c s :
  final c → startable s →
  ∃ s', WriteHeader c s = (Ok tt, s') ∧ answers c "" s' ∧
    ∀ k, CanonicalHeaderKey k ≠ CanonicalHeaderKey "Content-Length" →
      Header_Get k (sent (wr s')) = Header_Get k (rHeader (base (wr s))).
Proof.
  intros Hc [Hp Hs He]. pose proof (direct_transparent _ Hp) as Ht. unfold WriteHeader.
  destruct (w_WriteHeader_final c (wr s) Hc Ht Hs) as (w & E & Hw & _). rewrite E.
  eexists. split; [done|]. cbn [wr set_wr]. split.
  - split; [done|]. cbn [wr set_wr]. by rewrite (w_WriteHeader_body _ _ _ E).
  - intros k Hk. apply w_WriteHeader_base in E; [|done]. exact (base_WriteHeader_header _ _ _ k Hc Hs E Hk).
Qed.

Lemma writeNotModified_answers s :
  startable s →
  ∃ s', writeNotModified s = (Ok tt, s') ∧ answers 304 "" s' ∧
    Header_Get "ETag" (sent (wr s')) = Header_Get "ETag" (rHeader (base (wr s))).
Proof.
  intros Hs. unfold writeNotModified, header_op, mbind, GoM_bind.
  match goal with |- context [set_wr (set_header ?f (wr s)) s] => set (s1 := set_wr (set_header f (wr s)) s) end.
  destruct (WriteHeader_bare 304 s1) as (s' & -> & Ha & Hh); [by apply final_200|by apply startable_header|].
  exists s'. split; [done|]. split; [done|]. rewrite Hh by done. unfold s1. cbn [wr set_wr].
  rewrite rHeader_set_header. cbn [foldr]. destruct (nonempty _); by rewrite !Header_Get_Del_ne.
Qed.

(** The state in which the content is served. *)
Definition etag_state (t : string) (s : World) : World :=
  with_header "Content-Type" textContentType (with_header "ETag" (quoted t) s).

Lemma etag_state_header t s k :
  CanonicalHeaderKey k ∉ ["Etag"; "Content-Type"] →
  Header_Get k (rHeader (base (wr (etag_state t s)))) = Header_Get k (rHeader (base (wr s))).
Proof.
  intros Hk. unfold etag_state, with_header. cbn [wr set_wr]. rewrite !rHeader_set_header.
  rewrite !Header_Get_Set_ne; [done|..]; set_solver.
Qed.

Lemma noBodyResponse_etag t s fs s1 :
  noBodyResponse h s = (Ok fs, s1) → ∃ s2, noBodyResponse h (etag_state t s) = (Ok fs, s2) ∧ wr s2 = wr (etag_state t s) ∧
    req s2 = req s1.
Proof. intros [= <- <-]. eexists. split; [reflexivity|]. done. Qed.

Lemma noBodyResponse_req s fs s1 :
  noBodyResponse h s = (Ok fs, s1) → Method (req s1) = Method (req s) ∧
  ∀ k, CanonicalHeaderKey k ∉ ["Host"; "Transfer-Encoding"] →
    Header_Get k (RHeader (req s1)) = Header_Get k (RHeader (req s)).
Proof.
  intros [= _ <-]. cbn. split; [by case_match|]. intros k Hk. case_match; cbn;
    rewrite !Header_Get_Set_ne; try done; set_solver.
Qed.

(** A precondition that fails ends the request. *)
Lemma ServeContent_refused content c m s t :
  blank s → Header_Get "ETag" (rHeader (base (wr s))) = quoted t → final c →
  checkPreconditions (Method (req s)) (rHeader (base (wr (stamped (Some m) s)))) (RHeader (req s)) (Some m) = inl c →
  ∃ s', ServeContent bytesReader (Some m) content s = (Ok tt, s') ∧
    Header_Get "ETag" (sent (wr s')) = quoted t ∧ answers c "" s'.
Proof.
  intros Hb Htag Hf Hpre. unfold ServeContent, mbind, GoM_bind. rewrite SetHeader_run. unfold get_req, get_header.
  change (set_wr _ s) with (stamped (Some m) s). change (req (stamped (Some m) s)) with (req s). rewrite Hpre.
  set (s3 := stamped (Some m) s).
  assert (startable s3) as Hs3 by apply (blank_header "Last-Modified" (formatHTTP m) s ltac:(done) Hb).
  assert (Header_Get "ETag" (rHeader (base (wr s3))) = quoted t) as Htag3.
  { unfold s3, stamped, with_header. cbn [wr set_wr]. by rewrite rHeader_set_header, Header_Get_Set_ne. }
  destruct (c =? 304) eqn:Hc; reflect_bools; [subst c|].
  - destruct (writeNotModified_answers s3 Hs3) as (s' & E3 & Ha & Hh3). exists s'. by rewrite Hh3.
  - destruct (WriteHeader_bare c s3 Hf Hs3) as (s' & E3 & Ha & Hh3). exists s'. by rewrite Hh3.
Qed.

(** Without one the content is served as a whole. *)
Lemma ServeContent_whole content m s t :
  blank s → Header_Get "ETag" (rHeader (base (wr s))) = quoted t →
  Header_Get "Content-Encoding" (rHeader (base (wr s))) = "" → 0 < slen content ≤ maxInt64 →
  Header_Get "Range" (RHeader (req s)) = "" →
  checkPreconditions (Method (req s)) (rHeader (base (wr (stamped (Some m) s)))) (RHeader (req s)) (Some m) = inr "" →
  ∃ s', ServeContent bytesReader (Some m) (to_bytes content, 0) s = (Ok tt, s') ∧
    Header_Get "ETag" (sent (wr s')) = quoted t ∧
    answers 200 (if head_request s then "" else content) s' ∧ declared (wr s') = Some (slen content).
Proof.
  intros Hb Htag Hce Hlen Hrange Hpre.
  destruct (ServeContent_serves bytesReader (to_bytes content) 0 (λ st p, st = (to_bytes content, p)) (Some m)
    (to_bytes content, 0) 0 s) as (s' & E3 & Hserved); [done|done|done| | | |].
  - by rewrite to_bytes_length.
  - unfold unprevented. by rewrite Hpre, Hrange.
  - rewrite Hrange. intros ranges [= <-] boundary Hbd. cbn [multipart].
    unfold closing. rewrite !slen_app, Hbd. vm_compute. discriminate.
  - exists s'. split; [exact E3|]. rewrite Hrange in Hserved.
    change (parseRange "" ?n) with (Ok (E := rangeError) (@nil httpRange)) in Hserved. cbn iota in Hserved.
    destruct (_ <? _); destruct Hserved as [S1 S2 S3 _ S5].
    all: split; [rewrite S5 by set_solver; unfold stamped, with_header; cbn [wr set_wr];
                 by rewrite rHeader_set_header, Header_Get_Set_ne|].
    all: rewrite of_to_bytes in *; split; [|done]; split; [done|]; rewrite S2; done.
Qed.

(** The preconditions of a request depend on its headers only. *)
Lemma checkPreconditions_headers m method hdr rh rh' :
  (∀ k, k ∈ ["If-Match"; "If-Unmodified-Since"; "If-None-Match"; "If-Modified-Since"; "Range"; "If-Range"] →
    Header_Get k rh' = Header_Get k rh) →
  checkPreconditions method hdr rh' m = checkPreconditions method hdr rh m.
Proof.
  intros Hh. unfold checkPreconditions, checkIfMatch, checkIfUnmodifiedSince, checkIfNoneMatch, checkIfModifiedSince, checkIfRange.
  by rewrite !Hh by set_solver.
Qed.

(** (C23) /etag/t answers a request by the tags it names: when it asks for other tags than
    t, 412; when it has t already, 304 (412 when it would change something); else the
    inspected request.  The tag is t in every answer, and only the last has a body. *)
Theorem ETag_answers s t ims inms :
  blank s → Header_Get "Content-Encoding" (rHeader (base (wr s))) = "" → tagged (req s) t ims inms →
  ∃ fs s1, noBodyResponse h s = (Ok fs, s1) ∧
  let content := Encode (JObj fs) in
  slen content ≤ maxInt64 →
  ∃ s', ETag h s = (Ok tt, s') ∧ Header_Get "ETag" (sent (wr s')) = quoted t ∧
    match verdict (Method (req s)) t ims inms with
    | Some c => answers c "" s'
    | None => answers 200 (if head_request s then "" else content) s' ∧ declared (wr s') = Some (slen content)
    end.
Proof.
  intros Hs Hce Ht. destruct (noBodyResponse_run h s) as (fs & s1 & E & _). exists fs, s1. split; [done|].
  intros content Hlen. destruct (noBodyResponse_etag t s fs s1 E) as (s2 & E2 & Hw & Hr).
  destruct (noBodyResponse_req s fs s1 E) as [Hm Hh]. rewrite <- Hr in Hm, Hh. clear E Hr s1.
  assert (blank (etag_state t s)) as Hb by (do 2 (apply blank_header; [done|]); done).
  apply (blank_wr _ s2 Hw) in Hb.
  assert (Header_Get "ETag" (rHeader (base (wr s2))) = quoted t) as Htag.
  { rewrite Hw. unfold etag_state, with_header. cbn [wr set_wr]. rewrite !rHeader_set_header.
    by rewrite Header_Get_Set_ne, Header_Get_Set. }
  assert (Header_Get "Content-Encoding" (rHeader (base (wr s2))) = "") as Hce2.
  { rewrite Hw, etag_state_header; [done|set_solver]. }
  assert (∀ m, checkPreconditions (Method (req s2)) (rHeader (base (wr (stamped (Some m) s2)))) (RHeader (req s2)) (Some m)
    = match verdict (Method (req s)) t ims inms with Some c => inl c | None => inr "" end) as Hpre.
  { intros m. rewrite <- Hm. rewrite (checkPreconditions_headers _ _ _ (RHeader (req s))) by (intros k Hk; apply Hh; set_solver).
    apply (checkPreconditions_tags _ _ _ t ims inms); [done|]. unfold stamped, with_header. cbn [wr set_wr].
    by rewrite rHeader_set_header, Header_Get_Set_ne. }
  destruct Ht as [Hv _ _ Ho]. rewrite !Forall_cons in Ho. destruct Ho as (_ & _ & _ & Hrange & _).
  unfold ETag, mbind, GoM_bind, get_req. rewrite !SetHeader_run. rewrite Hv.
  match goal with |- context [noBodyResponse h ?x] => change x with (etag_state t s) end.
  rewrite E2. unfold time_Now. set (m := now s2).
  destruct (verdict _ _ _ _) as [c|] eqn:Hverdict.
  - apply (ServeContent_refused _ c m s2 t Hb Htag); [|by rewrite Hpre].
    revert Hverdict. unfold verdict. repeat case_match; intros [= <-]; by apply final_200.
  - destruct (ServeContent_whole content m s2 t) as (s' & E3 & Ht3 & Ha3 & Hd3); [done..| |by rewrite Hh by set_solver|by rewrite Hpre|].
    + split; [|done]. unfold content, Encode. rewrite slen_app.
      pose proof (slen_nonneg (render 0 (JObj fs))). change (slen (str1 LF)) with 1. lia.
    + exists s'. unfold head_request in *. rewrite <- Hm. by split.
Qed.
End ETagHandler.

Definition sample_etag_request (t inm : string) : World :=
  let r := sample_request "GET" ("/etag/" +:+ t) "" in
  sample_world (SetPathValue "etag" t
    (MkRequest (Method r) (URL r) (RequestURI_ r) (Header_Set "If-None-Match" inm ∅) (Host r) (RemoteAddr r)
       (TLS r) (TransferEncoding r) (Body r) (BodyEnd r) (PathValues r))).

Lemma ETag_answers_witness :
  let s := sample_etag_request "v2" (tag_header ["v1"; "v2"]) in
  ∃ s', ETag sample_bin s = (Ok tt, s') ∧ Header_Get "ETag" (sent (wr s')) = quoted "v2" ∧ answers 304 "" s'.
Proof.
  intros s. destruct (ETag_answers sample_bin s "v2" [] ["v1"; "v2"]) as (fs & s1 & E & Hr).
  - done.
  - reflexivity.
  - split; [done|split; [done|by apply Forall_nil]|split; [done|by repeat constructor]|repeat constructor].
  - apply Hr. injection E as <- _. vm_compute. discriminate.
Defined.
