(* ===== verification/PdfSpec.v ===== *)
(** * PdfSpec: the generated documents are well-formed, and the cache is transparent

    Every entry of the cross-reference table is ten digits that name the position of
    its object, the start of the table is where the document says, and the length of
    every stream is declared.  A document from the cache is the one that would be
    generated. *)

From S2P Require Import Prelude GoStrings GoNum GoFloat GoTime GoFmt Json GoURL GoNet GoRand.
From S2P Require Import Cache Http HttpLaws Handles Bodies Delay ClientIP Bin Pipeline Handlers.
From S2P Require Import Pdf Samples Streams StreamsSpec HandlersSpec BodySpec.

(** ** Texts and their positions *)

Lemma Join_snoc l x : Join "" (l ++ [x]) = Join "" l +:+ x.
Proof.
  induction l as [|y [|z l] IH]; [done|done|].
  change ((y :: z :: l) ++ [x]) with (y :: (z :: l) ++ [x]).
  change (Join "" (y :: (z :: l) ++ [x])) with (y +:+ "" +:+ Join "" ((z :: l) ++ [x])).
  rewrite IH. change (Join "" (y :: z :: l)) with (y +:+ "" +:+ Join "" (z :: l)). cbn [String.append].
  by rewrite sapp_assoc.
Qed.

Lemma Join_length_le sep b l :
  (∀ x, x ∈ l → slen x ≤ b) → 0 ≤ b → slen (Join sep l) ≤ Z.of_nat (length l) * (b + slen sep).
Proof.
  intros Hl Hb. pose proof (slen_nonneg sep). induction l as [|x l IH]; [done|].
  assert (slen x ≤ b) by (apply Hl; set_solver).
  destruct l as [|y l]; [cbn; lia|]. rewrite Join_cons, !slen_app.
  assert (slen (Join sep (y :: l)) ≤ Z.of_nat (length (y :: l)) * (b + slen sep)) by (apply IH; set_solver).
  rewrite (length_cons x), Nat2Z.inj_succ. lia.
Qed.

(** Where the texts of [objs] start, after [acc] bytes. *)
Fixpoint starts (acc : Z) (objs : list string) : list Z :=
  match objs with [] => [] | o :: objs => acc :: starts (acc + slen o) objs end.

Lemma Join_concat_cons x objs : Join "" (x :: objs) = x +:+ Join "" objs.
Proof. destruct objs; [by rewrite sapp_nil_r|by rewrite Join_cons]. Qed.

Lemma starts_length acc objs : length (starts acc objs) = length objs.
Proof. revert acc. induction objs as [|o objs IH]; intros acc; [done|]. cbn. by rewrite IH. Qed.

Lemma starts_snoc acc objs o :
  starts acc (objs ++ [o]) = starts acc objs ++ [acc + slen (Join "" objs)].
Proof.
  revert acc. induction objs as [|x objs IH]; intros acc.
  - cbn. by rewrite Z.add_0_r.
  - cbn [starts app]. rewrite IH. do 2 f_equal. f_equal.
    rewrite Join_concat_cons, slen_app. lia.
Qed.

(** The text that starts at a position. *)
Lemma starts_lookup head objs i off :
  starts (slen head) objs !! i = Some off →
  ∃ o rest, objs !! i = Some o ∧ sdrop (Z.to_nat off) (head +:+ Join "" objs) = o +:+ rest ∧
    slen head ≤ off ≤ slen head + slen (Join "" objs).
Proof.
  revert head i off. induction objs as [|x objs IH]; intros head i off; [done|].
  rewrite Join_concat_cons, slen_app. pose proof (slen_nonneg x). pose proof (slen_nonneg (Join "" objs)).
  destruct i as [|i]; cbn [starts lookup list_lookup].
  - intros [= <-]. exists x, (Join "" objs). split; [done|]. split; [|lia].
    unfold slen. rewrite Nat2Z.id. apply sdrop_app.
  - rewrite <- slen_app. intros Hi. destruct (IH _ _ _ Hi) as (o & rest & Ho & Hd & Hb).
    exists o, rest. split; [done|]. rewrite slen_app in Hb.
    rewrite sapp_assoc. split; [done|]. lia.
Qed.

(** ** Lengths *)

(** The lengths of literals and of constant texts. *)
Ltac slen_consts :=
  repeat match goal with
    | |- context [slen ?s] =>
        first [match s with String _ _ => idtac end | match s with EmptyString => idtac end
          | match s with Join _ nil => idtac end | is_const s];
        let v := eval vm_compute in (slen s) in change (slen s) with v
    end.

Lemma line_length s : slen (line s) = slen s + 1.
Proof. unfold line. rewrite slen_app. by slen_consts. Qed.

Lemma pdfEscapeString_length s : slen (pdfEscapeString s) ≤ 2 * slen s.
Proof.
  induction s as [|c s IH]; [done|]. cbn [pdfEscapeString]. rewrite slen_app.
  change (slen (String c s)) with (slen (str1 c +:+ s)). rewrite slen_app.
  change (slen (str1 c)) with 1. destruct (contains_char c "\()").
  - change (slen (String "\" (str1 c))) with 2. lia.
  - change (slen (str1 c)) with 1. lia.
Qed.

Lemma pdfTextLine_length n m text :
  0 ≤ n < 100 → 0 ≤ m < 1000 → slen (pdfTextLine n m text) ≤ 50 + 2 * slen text.
Proof.
  intros Hn Hm. unfold pdfTextLine. rewrite line_length, !slen_app. slen_consts.
  pose proof (Itoa_length 2 n). pose proof (Itoa_length 3 m). pose proof (pdfEscapeString_length text). lia.
Qed.

Section Bounds.
Context `{RandLaws}.

Lemma phrase_length g : slen (phrase g).1 ≤ 100.
Proof.
  unfold phrase. destruct (Intn _ g) as [i g']. cbn [fst].
  destruct (loremPhrases !! Z.to_nat i) as [x|] eqn:E; [|done]. cbn [default].
  apply list_elem_of_lookup_2 in E. revert x E. apply Forall_forall.
  repeat (apply Forall_cons_2; [vm_compute; discriminate|]). by apply Forall_nil.
Qed.

Lemma paragraphLines_bounds n para y g :
  y ≤ 760 → let '(text, y', g') := paragraphLines n para y g in
  slen text ≤ Z.of_nat n * 500 ∧ y' ≤ 760.
Proof.
  revert para y g. induction n as [|n IH]; intros para y g Hy; cbn [paragraphLines]; [done|].
  destruct (80 <? y) eqn:E; reflect_bools; [|cbn [fst]; change (slen "") with 0; lia].
  pose proof (phrase_length g) as Hp. destruct (phrase g) as [t g1]. cbn [fst] in Hp.
  pose proof (pdfTextLine_length 10 y t ltac:(lia) ltac:(lia)) as Hl.
  match goal with |- context [if ?b then _ else _] => destruct b eqn:E2 end; reflect_bools.
  - pose proof (phrase_length g1) as Hp2. destruct (phrase g1) as [t2 g2]. cbn [fst] in Hp2.
    pose proof (pdfTextLine_length 10 (y - 16) t2 ltac:(lia) ltac:(lia)) as Hl2.
    specialize (IH (para + 1) (y - 16 - 16 - 8) g2 ltac:(lia)).
    destruct (paragraphLines n _ _ g2) as [[rest y'] g']. rewrite !slen_app. lia.
  - specialize (IH (para + 1) (y - 16 - 8) g1 ltac:(lia)).
    destruct (paragraphLines n _ _ g1) as [[rest y'] g']. rewrite !slen_app.
    change (slen "") with 0. lia.
Qed.

Lemma shade_length g : slen (shade g).1 ≤ 5.
Proof.
  unfold shade. pose proof (Intn_range 256 g ltac:(lia)) as Hk.
  destruct (Intn 256 g) as [k g']. cbn [fst] in *.
  assert (forallb (λ k, slen (FormatFloat_f 3 (fdiv (of_Z (Z.of_nat k)) (of_Z 255))) <=? 5) (seq 0 256) = true)
    as Hall by (vm_compute; reflexivity).
  rewrite forallb_forall in Hall. specialize (Hall (Z.to_nat k)).
  rewrite Z2Nat.id in Hall by lia. apply Z.leb_le, Hall, in_seq. lia.
Qed.

Lemma rectangles_bounds n img y g :
  y ≤ 760 → 0 ≤ img → img + Z.of_nat n ≤ 4 → slen (rectangles n img y g).1.1 ≤ Z.of_nat n * 100.
Proof.
  revert img y g. induction n as [|n IH]; intros img y g Hy Hi Hn; cbn [rectangles]; [done|].
  destruct (100 <? y) eqn:E; reflect_bools; [|cbn [fst]; change (slen "") with 0; lia].
  pose proof (shade_length g) as H1. destruct (shade g) as [red g1].
  pose proof (shade_length g1) as H2. destruct (shade g1) as [green g2].
  pose proof (shade_length g2) as H3. destruct (shade g2) as [blue g3].
  pose proof (Intn_range 120 g3 ltac:(lia)) as H4. destruct (Intn 120 g3) as [dw g4].
  pose proof (Intn_range 30 g4 ltac:(lia)) as H5. destruct (Intn 30 g4) as [dh g5].
  cbn [fst] in *. specialize (IH (img + 1) (y - (30 + dh + 10)) g5 ltac:(lia) ltac:(lia) ltac:(lia)).
  destruct (rectangles n _ _ g5) as [[rest y'] g']. cbn [fst] in *.
  rewrite slen_app, line_length, !slen_app. slen_consts.
  pose proof (Itoa_length 3 (50 + img * 180)). pose proof (Itoa_length 3 (y - (30 + dh))).
  pose proof (Itoa_length 3 (80 + dw)). pose proof (Itoa_length 2 (30 + dh)). lia.
Qed.

Lemma density_le size : let '(m, n) := density size in (m ≤ 9 ∧ n ≤ 3)%nat.
Proof. unfold density. destruct (String.eqb size "small"), (String.eqb size "large"); cbn; lia. Qed.

Lemma pageContent_length p pages size seed g :
  0 ≤ p < 100 → 0 ≤ pages ≤ 100 → slen size ≤ 6 → in_int64 seed →
  slen (pageContent p pages size seed g).1 ≤ 6000.
Proof.
  intros Hp Hn Hz Hs. unfold pageContent. pose proof (density_le size) as Hd.
  destruct (density size) as [m n]. pose proof (paragraphLines_bounds m 0 710 g ltac:(lia)) as H1.
  destruct (paragraphLines m 0 710 g) as [[text y] g1].
  pose proof (rectangles_bounds n 0 y g1 ltac:(lia) ltac:(lia) ltac:(lia)) as H2.
  destruct (rectangles n 0 y g1) as [[rects y'] g2]. cbn [fst] in *.
  change (Itoa 730) with "730". rewrite !slen_app, line_length, !slen_app.
  set (title := "Page " +:+ _). set (footer := "seed=" +:+ _).
  assert (slen title ≤ 16) by (unfold title; rewrite !slen_app; slen_consts;
    pose proof (Itoa_length 3 (p + 1)); pose proof (Itoa_length 3 pages); lia).
  assert (slen footer ≤ 40) by (unfold footer; rewrite !slen_app; slen_consts;
    pose proof (Itoa_length_int64 seed Hs); lia).
  pose proof (pdfTextLine_length 18 760 title ltac:(lia) ltac:(lia)).
  pose proof (pdfTextLine_length 8 30 footer ltac:(lia) ltac:(lia)). slen_consts. lia.
Qed.
End Bounds.

(** ** The objects of a document *)

Definition objectHead (num : Z) : string := line (Itoa num +:+ " 0 obj").

(** The objects of the pages from [p] on, by their contents. *)
Fixpoint pagesFrom (p : nat) (contents : list string) : list string :=
  match contents with
  | [] => []
  | c :: contents =>
      pageObject (pageObjNum p) :: contentsObject (pageObjNum p + 1) c :: pagesFrom (S p) contents
  end.

Definition documentObjects (contents : list string) : list string :=
  [catalogObject; pagesObject (length contents); fontObject] ++ pagesFrom 0 contents.

Definition document (contents : list string) : string :=
  pdfHeader +:+ Join "" (documentObjects contents).

(** The state after the objects [objs] were emitted. *)
Definition laid (objs : list string) (st : pdfState) : Prop :=
  buf st = pdfHeader +:+ Join "" objs ∧ offsets st = starts (slen pdfHeader) objs.

Lemma emit_laid o objs st : laid objs st → laid (objs ++ [o]) (emit o st).
Proof.
  intros [Hb Ho]. unfold laid, emit. cbn [buf offsets].
  by rewrite Join_snoc, starts_snoc, Hb, Ho, slen_app, sapp_assoc.
Qed.

Lemma pagesFrom_length p contents : length (pagesFrom p contents) = (2 * length contents)%nat.
Proof. revert p. induction contents as [|c l IH]; intros p; [done|]. cbn. rewrite IH. lia. Qed.

(** The objects are numbered in the order in which they are written. *)
Lemma pagesFrom_heads p contents i o :
  pagesFrom p contents !! i = Some o →
  ∃ rest, o = objectHead (pageObjNum p + Z.of_nat i) +:+ rest.
Proof.
  revert p i. induction contents as [|c l IH]; intros p i; [done|]. destruct i as [|[|i]]; cbn [pagesFrom lookup list_lookup].
  - intros [= <-]. rewrite Z.add_0_r. unfold pageObject, lines. cbn [map]. rewrite Join_concat_cons. eauto.
  - intros [= <-]. unfold contentsObject, objectHead. eauto.
  - intros Hi. destruct (IH (S p) i Hi) as [rest ->]. exists rest. unfold pageObjNum.
    f_equal. f_equal. lia.
Qed.

Lemma documentObjects_heads contents i o :
  documentObjects contents !! i = Some o → ∃ rest, o = objectHead (Z.of_nat i + 1) +:+ rest.
Proof.
  unfold documentObjects. destruct i as [|[|[|i]]]; cbn [app lookup list_lookup].
  - intros [= <-]. eexists. reflexivity.
  - intros [= <-]. unfold pagesObject, lines. cbn [map]. rewrite Join_concat_cons. eauto.
  - intros [= <-]. eexists. reflexivity.
  - intros Hi. destruct (pagesFrom_heads _ _ _ _ Hi) as [rest ->]. exists rest. do 2 f_equal.
    unfold pageObjNum. lia.
Qed.

Section Layout.
Context `{RandLaws}.

(** The loop over the pages lays their objects out, and their contents are short. *)
Lemma pageObjects_laid n p pages size seed objs st g :
  Z.of_nat p + Z.of_nat n ≤ 100 → 0 ≤ pages ≤ 100 → slen size ≤ 6 → in_int64 seed → laid objs st →
  ∃ contents, length contents = n ∧ (∀ c, c ∈ contents → slen c ≤ 6000) ∧
    laid (objs ++ pagesFrom p contents) (pageObjects n p pages size seed st g).
Proof.
  revert p objs st g. induction n as [|n IH]; intros p objs st g Hp Hn Hz Hs Hl; cbn [pageObjects].
  - exists []. cbn [pagesFrom]. rewrite app_nil_r. split; [done|]. split; [set_solver|done].
  - pose proof (pageContent_length (Z.of_nat p) pages size seed g ltac:(lia) Hn Hz Hs) as Hc.
    destruct (pageContent _ _ _ _ g) as [c g']. cbn [fst] in Hc.
    apply (emit_laid (pageObject (pageObjNum p))), (emit_laid (contentsObject (pageObjNum p + 1) c)) in Hl.
    destruct (IH (S p) _ _ g' ltac:(lia) Hn Hz Hs Hl) as (contents & Hlen & Hb & Hlaid).
    exists (c :: contents). split; [cbn; by rewrite Hlen|]. split; [set_solver|].
    cbn [pagesFrom]. by rewrite <- !app_assoc in Hlaid.
Qed.
End Layout.

(** ** The size of a document *)

Lemma contentsObject_length num c :
  0 ≤ num < 1000 → slen c ≤ 6000 → slen (contentsObject num c) ≤ 6100.
Proof.
  intros Hn Hc. unfold contentsObject. rewrite !slen_app, !line_length, !slen_app. slen_consts.
  pose proof (slen_nonneg c). pose proof (Itoa_length 3 num). pose proof (Itoa_length 4 (slen c)). lia.
Qed.

Lemma pageObject_length num : 0 ≤ num < 999 → slen (pageObject num) ≤ 200.
Proof.
  intros Hn. unfold pageObject, lines. cbn [map].
  rewrite !Join_concat_cons, !slen_app, !line_length, !slen_app. slen_consts.
  pose proof (Itoa_length 3 num). pose proof (Itoa_length 3 (num + 1)). lia.
Qed.

Lemma pagesObject_length n : (n ≤ 100)%nat → slen (pagesObject n) ≤ 2000.
Proof.
  intros Hn. unfold pagesObject, lines. cbn [map].
  rewrite !Join_concat_cons, !slen_app, !line_length, !slen_app.
  set (refs := map _ (seq 0 n)).
  assert (slen (Join " " refs) ≤ Z.of_nat (length refs) * (10 + slen " ")) as Hr.
  { apply Join_length_le; [|lia]. intros x (p & -> & Hp%elem_of_seq)%list_elem_of_fmap.
    rewrite slen_app. slen_consts. unfold pageObjNum.
    pose proof (Itoa_length 3 (4 + 2 * Z.of_nat p)). lia. }
  unfold refs in Hr at 2. rewrite length_map, length_seq in Hr. change (slen " ") with 1 in Hr.
  slen_consts. pose proof (Itoa_length 3 (Z.of_nat n)). lia.
Qed.

Lemma pagesFrom_size p contents :
  Z.of_nat p + Z.of_nat (length contents) ≤ 100 → (∀ c, c ∈ contents → slen c ≤ 6000) →
  slen (Join "" (pagesFrom p contents)) ≤ Z.of_nat (length contents) * 6300.
Proof.
  revert p. induction contents as [|c l IH]; intros p Hp Hl; [done|].
  rewrite length_cons in *. cbn [pagesFrom]. rewrite !Join_concat_cons, !slen_app.
  pose proof (pageObject_length (pageObjNum p) ltac:(unfold pageObjNum; lia)).
  pose proof (contentsObject_length (pageObjNum p + 1) c ltac:(unfold pageObjNum; lia) ltac:(apply Hl; set_solver)).
  specialize (IH (S p) ltac:(lia) ltac:(set_solver)). lia.
Qed.

Lemma document_size contents :
  (length contents ≤ 100)%nat → (∀ c, c ∈ contents → slen c ≤ 6000) → slen (document contents) < 10 ^ 10.
Proof.
  intros Hn Hl. unfold document, documentObjects. cbn [app]. rewrite !slen_app, !Join_concat_cons, !slen_app.
  pose proof (pagesFrom_size 0 contents ltac:(lia) Hl). pose proof (pagesObject_length (length contents) Hn).
  slen_consts. lia.
Qed.

(** ** The document *)

Definition xrefRow (off : Z) : string := line (pad_left 10 off +:+ " 00000 n ").

Lemma xrefEntries_ok offs :
  (∀ off, off ∈ offs → 0 ≤ off < 10 ^ 10) → xrefEntries offs = Ok (Join "" (map xrefRow offs)).
Proof.
  induction offs as [|off offs IH]; intros Hb; [done|]. cbn [xrefEntries map]. rewrite Join_concat_cons.
  assert (slen (Itoa off) ≤ 10) as Hl by (apply (Itoa_length 10); [lia|apply Hb; set_solver]).
  unfold xrefEntry. unfold slen in Hl. replace (10 <? _)%nat with false by (symmetry; apply Nat.ltb_ge; lia).
  cbn. rewrite IH by set_solver. done.
Qed.

(** A reader finds the object that a row of the table names: the row is the padded
    number of an offset, at which the object [i + 1] starts. *)
Definition finds (body : string) (objs : list string) (i : nat) (off : Z) : Prop :=
  slen (pad_left 10 off) = 10 ∧ Atoi (pad_left 10 off) = Ok off ∧
  ∃ o rest more, objs !! i = Some o ∧ sdrop (Z.to_nat off) body = o +:+ rest ∧
    o = objectHead (Z.of_nat i + 1) +:+ more.

Lemma starts_finds contents i off :
  slen (document contents) < 10 ^ 10 →
  starts (slen pdfHeader) (documentObjects contents) !! i = Some off →
  0 ≤ off < 10 ^ 10 ∧ finds (document contents) (documentObjects contents) i off.
Proof.
  intros Hsize Hi. destruct (starts_lookup pdfHeader _ _ _ Hi) as (o & rest & Ho & Hd & Hoff).
  unfold document in Hsize. rewrite slen_app in Hsize. pose proof (slen_nonneg pdfHeader).
  assert (0 ≤ off < 10 ^ 10) as Hb by lia. split; [done|]. split.
  { apply pad_left_length. by apply (Itoa_length 10). }
  split. { apply Atoi_zeros; [unfold in_int64, minInt64, maxInt64; lia|lia]. }
  destruct (documentObjects_heads _ _ _ Ho) as [more Hm]. by exists o, rest, more.
Qed.

Definition wellformed (pages : nat) (doc : string) : Prop :=
  ∃ contents offs, length contents = pages ∧ length offs = (2 * pages + 3)%nat ∧
    doc = document contents
          +:+ lines ["xref"; "0 " +:+ Itoa (2 * Z.of_nat pages + 4); "0000000000 65535 f "]
          +:+ Join "" (map xrefRow offs)
          +:+ pdfTrailer (2 * Z.of_nat pages + 4) (slen (document contents)) ∧
    ∀ i off, offs !! i = Some off → finds (document contents) (documentObjects contents) i off.

Lemma generatePDF_wf `{RandLaws} pages size seed :
  (1 ≤ pages ≤ 100)%nat → size ∈ ["small"; "medium"; "large"] → in_int64 seed →
  ∃ doc, generatePDF pages size seed = Ok doc ∧ wellformed pages doc.
Proof.
  intros Hp Hz Hs. assert (slen size ≤ 6) as Hl.
  { revert size Hz. apply Forall_forall. repeat (apply Forall_cons_2; [vm_compute; discriminate|]). by apply Forall_nil. }
  set (st := emit fontObject (emit (pagesObject pages) (emit catalogObject (MkPdfState pdfHeader [])))).
  assert (laid [catalogObject; pagesObject pages; fontObject] st) as Hst.
  { apply (emit_laid fontObject [catalogObject; pagesObject pages]), (emit_laid (pagesObject pages) [catalogObject]),
      (emit_laid catalogObject []). split; [by rewrite sapp_nil_r|done]. }
  destruct (pageObjects_laid pages 0 (Z.of_nat pages) size seed _ st (NewSource seed) ltac:(lia) ltac:(lia) Hl Hs Hst)
    as (contents & Hlen & Hb & Hbuf & Hoff).
  assert ([catalogObject; pagesObject pages; fontObject] ++ pagesFrom 0 contents = documentObjects contents) as E
    by (unfold documentObjects; by rewrite Hlen).
  rewrite E in Hbuf, Hoff. clear E.
  assert (length (documentObjects contents) = (2 * pages + 3)%nat) as Hn
    by (unfold documentObjects; rewrite length_app, pagesFrom_length, Hlen; cbn; lia).
  assert (slen (document contents) < 10 ^ 10) as Hsize by (apply document_size; [lia|done]).
  eexists. split.
  - unfold generatePDF. fold st. rewrite Hbuf, Hoff, starts_length, Hn, xrefEntries_ok; [reflexivity|].
    intros off [i Hi]%list_elem_of_lookup. by apply (starts_finds contents i).
  - exists contents, (starts (slen pdfHeader) (documentObjects contents)).
    split; [done|]. split; [by rewrite starts_length|]. split; [|intros i off Hi; by apply starts_finds].
    unfold document. by replace (Z.of_nat (2 * pages + 3) + 1) with (2 * Z.of_nat pages + 4) by lia.
Qed.


(** ** The handler *)

Section Handler.
Context `{GoStd, Runtime, RandLaws}.

(** What the cache of documents may hold: documents that would be generated. *)
Definition documents_ok (c : pdfCache) : Prop :=
  Z.of_nat (size (c_entries c)) ≤ Z.max 1 (c_maxSize c) ∧
  ∀ key e, cache_get key c = Some e → generateKey key = Ok (pe_data e).

Lemma pdfPages_range q pages : pdfPages q = Ok pages → 1 ≤ pages ≤ 100.
Proof.
  unfold pdfPages. destruct (nonempty _); [|by intros [= <-]].
  destruct (Atoi _) as [n| |]; [|done..]. destruct (_ || _) eqn:E; [done|]. intros [= <-]. reflect_bools. lia.
Qed.

Lemma pdfSize_in q size : pdfSize q = Ok size → size ∈ ["small"; "medium"; "large"].
Proof.
  unfold pdfSize. destruct (nonempty _); [|intros [= <-]; set_solver].
  case_bool_decide; [|done]. by intros [= <-].
Qed.

Lemma pdfSeed_int64 t q seed : in_int64 t → pdfSeed t q = Ok seed → in_int64 seed.
Proof.
  intros Ht. unfold pdfSeed. destruct (pdfNocache q); [by intros [= <-]|].
  destruct (nonempty _) eqn:Hne; [|intros [= <-]; unfold in_int64, minInt64, maxInt64; lia].
  unfold parseSeedInt64. rewrite Hne. unfold ParseIntE, numErr.
  destruct (ParseInt 64 _) as [v| |] eqn:E; cbn; [|done..]. intros [= <-].
  by apply Atoi_range in E.
Qed.

Lemma pdfParams_ok t q :
  in_int64 t →
  match pdfParams t q with
  | Ok key => ∃ doc, generateKey key = Ok doc ∧ wellformed (Z.to_nat (pk_pages key)) doc
  | Err _ => True
  | Panic _ => False
  end.
Proof.
  intros Ht. unfold pdfParams.
  destruct (pdfPages q) as [pages| |] eqn:E1; cbn; [|done|].
  2:{ exfalso. revert E1. unfold pdfPages. destruct (nonempty _); [|done].
      pose proof (Atoi_never_panics (Values_Get "pages" q)). destruct (Atoi _) as [n| |]; [|done|naive_solver].
      by destruct (_ || _). }
  destruct (pdfSize q) as [sz| |] eqn:E2; cbn; [|done|].
  2:{ exfalso. revert E2. unfold pdfSize. destruct (nonempty _); [|done]. by case_bool_decide. }
  destruct (pdfSeed t q) as [seed| |] eqn:E3; cbn; [|done|].
  2:{ exfalso. revert E3. unfold pdfSeed, parseSeedInt64, ParseIntE, numErr.
      destruct (pdfNocache q); [done|]. destruct (nonempty _); [|done].
      pose proof (ParseInt_never_panics 64 (Values_Get "seed" q)).
      destruct (ParseInt 64 _); cbn; [done|done|naive_solver]. }
  apply pdfPages_range in E1. apply pdfSize_in in E2. apply pdfSeed_int64 in E3; [|done].
  destruct (generatePDF_wf (Z.to_nat pages) sz seed) as (doc & Hdoc & Hwf); [lia|done|done|]. by exists doc.
Qed.

Lemma documents_put order key doc c :
  iterates order (c_entries c) → generateKey key = Ok doc → documents_ok c →
  documents_ok (cache_put order key (MkPdfCacheEntry doc) c).
Proof.
  intros Ho Hdoc [Hn Hc]. destruct (cache_put_spec order key (MkPdfCacheEntry doc) c Ho Hn) as (P1 & P2 & P3).
  split; [done|]. intros k e Hk. destruct (decide (k = key)) as [->|Hne]; [|by apply Hc, (P3 k)].
  rewrite P2 in Hk. by injection Hk as <-.
Qed.

(** (C25) The PDF endpoint always answers: with 400 when a parameter is not valid, and else
    with the document that its parameters generate, whether it comes from the cache or
    not.  Of every document, the table of cross-references has a row of twenty bytes for
    each of its 2 * pages + 3 objects, which holds the position at which that object
    starts, "startxref" is the position of the table, and every stream declares its
    length.  The cache stays within its bound and true to what would be generated. *)
Theorem PDF_served s :
  blank s → in_int64 (now s) → documents_ok (c_documents (caches s)) →
  ∃ s', PDF s = (Ok tt, s') ∧ documents_ok (c_documents (caches s')) ∧
    match pdfParams (now s) (Query (URL (req s))) with
    | Ok key => ∃ doc, generateKey key = Ok doc ∧ wellformed (Z.to_nat (pk_pages key)) doc ∧
                  answers 200 doc s'
    | Err e => answers 400 (Encode (errorRespnose 400 (Error e))) s'
    | Panic _ => False
    end.
Proof.
  intros Hs Ht Hc. pose proof (pdfParams_ok (now s) (Query (URL (req s))) Ht) as Hp.
  unfold PDF, mbind, GoM_bind, get_req, time_Now, try_, lift.
  destruct (pdfParams _ _) as [key|e|]; [|clear Hp|done]; cycle 1.
  { destruct (writeJSON_answers 400 (errorRespnose 400 (Error e)) s) as (s' & E & Ha); [by apply final_200|done|done|].
    exists s'. split; [exact E|]. split; [|done]. apply writeResponse_caches in E. by rewrite E. }
  destruct Hp as (doc & Hdoc & Hwf).
  assert (∀ s1, blank s1 → documents_ok (c_documents (caches s1)) →
    ∃ s', writeResponse 200 "application/pdf" doc s1 = (Ok tt, s') ∧ documents_ok (c_documents (caches s')) ∧
      ∃ doc, generateKey key = Ok doc ∧ wellformed (Z.to_nat (pk_pages key)) doc ∧ answers 200 doc s') as Hend.
  { intros s1 Hs1 Hc1. destruct (writeResponse_answers 200 "application/pdf" doc s1) as (s' & E & Ha);
      [by apply final_200|done|done|].
    exists s'. split; [done|]. split; [|by exists doc]. apply writeResponse_caches in E. by rewrite E. }
  rewrite Hdoc in Hend |- *. destruct (pdfNocache _).
  - by apply Hend.
  - unfold pdfCache_get. destruct (cache_get key _) as [entry|] eqn:Hget.
    + destruct Hc as [Hn Hc]. pose proof (Hc _ _ Hget) as Hk. rewrite Hdoc in Hk. injection Hk as ->.
      by apply Hend.
    + apply Hend; [by apply (blank_wr s)|]. cbn. apply documents_put; [|done|done].
      apply iteration_order_Permutation.
Qed.
End Handler.

Lemma PDF_served_witness :
  let s := sample_world (sample_request "GET" "/pdf" "pages=2&size=large") in
  let key := MkPdfCacheKey 2 "large" 42 in
  ∃ s', PDF s = (Ok tt, s') ∧ documents_ok (c_documents (caches s')) ∧
    ∃ doc, generateKey key = Ok doc ∧ wellformed (Z.to_nat (pk_pages key)) doc ∧ answers 200 doc s'.
Proof.
  intros s key. destruct (PDF_served s) as (s' & E & Hc & Hp).
  - done.
  - unfold in_int64, minInt64, maxInt64. cbn. lia.
  - split; [vm_compute; discriminate|]. intros k e. unfold cache_get. cbn. by rewrite lookup_empty.
  - replace (pdfParams (now s) (Query (URL (req s)))) with (Ok (E := gerror) key) in Hp by (vm_compute; reflexivity).
    exists s'. split; [exact E|]. split; [exact Hc|exact Hp].
Defined.
