(* ===== verification/ImagesSpec.v ===== *)
(** * ImagesSpec: images are what their parameters say, cached or not

    A generated image is a full opaque square of the size asked for, at most 4096
    pixels wide.  The image endpoint answers every request; what it serves from the cache
    is what it would generate, under the hash of its data. *)

From S2P Require Import Prelude GoStrings GoNum GoFloat GoTime GoFmt Json GoURL GoPath GoNet GoRand.
From S2P Require Import Converters Digest Cache Http HttpLaws Handles Bodies Delay ClientIP Bin Pipeline.
From S2P Require Import Handlers StaticAssets Redirects Images Samples Streams StreamsSpec HandlersSpec BodySpec.

(** ** The pixels *)

Lemma imageSide_range n : 1 ≤ imageSide n ≤ 4096.
Proof. unfold imageSide. destruct (_ <? 1) eqn:E1; [lia|]. destruct (4096 <? _) eqn:E2; reflect_bools; lia. Qed.

Section Pixels.
Context `{Rand}.

(** Four bytes, the last of which is opaque. *)
Inductive opaque : list Z → Prop :=
| opaque_nil : opaque []
| opaque_pixel r g b l :
    0 ≤ r < 256 → 0 ≤ g < 256 → 0 ≤ b < 256 → opaque l → opaque (r :: g :: b :: 255 :: l).

Lemma opaque_app l1 l2 : opaque l1 → opaque l2 → opaque (l1 ++ l2).
Proof. induction 1; [done|]. intros Hl. cbn. constructor; auto. Qed.

Lemma noisy_range n base g : 0 ≤ (noisy n base g).1 < 256.
Proof. unfold noisy. destruct (Intn n g). cbn. by apply Z.mod_pos_bound. Qed.

Lemma pixel_opaque grad side x y g : opaque (pixel grad side x y g).1 ∧ length (pixel grad side x y g).1 = 4%nat.
Proof.
  unfold pixel. destruct (pixelBase _ _ _ _) as [[r0 g0] b0].
  pose proof (noisy_range (noiseAmp grad) r0 g) as H1. destruct (noisy _ r0 g) as [r g1].
  pose proof (noisy_range (noiseAmp grad) g0 g1) as H2. destruct (noisy _ g0 g1) as [gr g2].
  pose proof (noisy_range (noiseAmp grad) b0 g2) as H3. destruct (noisy _ b0 g2) as [b g3].
  cbn in *. split; [|done]. constructor; [done..|]. constructor.
Qed.

Lemma imageRow_opaque grad side y n x g :
  opaque (imageRow grad side y n x g).1 ∧ length (imageRow grad side y n x g).1 = (4 * n)%nat.
Proof.
  revert x g. induction n as [|n IH]; intros x g; [split; [constructor|done]|]. cbn [imageRow].
  pose proof (pixel_opaque grad side x y g) as [P1 P2]. destruct (pixel _ _ _ _ g) as [p g1].
  specialize (IH (x + 1) g1) as [I1 I2]. destruct (imageRow _ _ _ n _ g1) as [rest g2]. cbn [fst] in *.
  split; [by apply opaque_app|]. rewrite length_app. lia.
Qed.

Lemma imageRows_opaque grad side n y g :
  opaque (imageRows grad side n y g).1 ∧ length (imageRows grad side n y g).1 = (4 * n * Z.to_nat side)%nat.
Proof.
  revert y g. induction n as [|n IH]; intros y g; [split; [constructor|done]|]. cbn [imageRows].
  pose proof (imageRow_opaque grad side y (Z.to_nat side) 0 g) as [P1 P2].
  destruct (imageRow _ _ _ _ _ g) as [row g1].
  specialize (IH (y + 1) g1) as [I1 I2]. destruct (imageRows _ _ n _ g1) as [rest g2]. cbn [fst] in *.
  split; [by apply opaque_app|]. rewrite length_app. lia.
Qed.

(** A square image: every pixel is there, and is opaque. *)
Definition full (img : RGBA) : Prop :=
  1 ≤ side img ≤ 4096 ∧ opaque (Pix img) ∧ Z.of_nat (length (Pix img)) = 4 * side img * side img.

Lemma drawImage_full pixelCount grad seed : full (drawImage pixelCount grad seed).
Proof.
  unfold full, drawImage. cbn [side Pix]. pose proof (imageSide_range pixelCount) as Hs. split; [done|].
  destruct (imageRows_opaque grad (imageSide pixelCount) (Z.to_nat (imageSide pixelCount)) 0 (NewSource seed)) as [P1 P2].
  split; [done|]. rewrite P2. lia.
Qed.
End Pixels.

(** The sizes that can be asked for are those of the largest square that fits. *)
Example imageSide_sizes :
  forallb (λ n, (imageSide n * imageSide n <=? n) && (n <? (imageSide n + 1) * (imageSide n + 1)))
    (flat_map (λ n, [n; 2 * n]) [50 * 1024; 500 * 1024; 2 * 1024 * 1024]) = true.
Proof. vm_compute. reflexivity. Qed.

(** ** The gradient *)

Section Gradient.
Context `{GoStd}.

Lemma hex_pair_never_panics s i w : hex_pair s i ≠ Panic w.
Proof.
  unfold hex_pair, numErr, ParseUint16. destruct (String.eqb _ ""); [done|].
  match goal with |- context [uint_loop ?d ?b ?m ?n ?x] =>
    pose proof (uint_loop_never_panics d b m n x); destruct (uint_loop d b m n x) as [| |p] end; cbn; try done.
  naive_solver.
Qed.

Lemma parseHexColor_never_panics s w : parseHexColor s ≠ Panic w.
Proof.
  unfold parseHexColor. destruct (negb _); [done|]. cbn zeta. set (t := TrimPrefix s "#").
  pose proof (hex_pair_never_panics t 0). pose proof (hex_pair_never_panics t 1).
  pose proof (hex_pair_never_panics t 2).
  destruct (hex_pair t 0); cbn; [|done|naive_solver]. destruct (hex_pair t 1); cbn; [|done|naive_solver].
  destruct (hex_pair t 2); cbn; [done|done|naive_solver].
Qed.

Lemma with_noise_never_panics n g w : with_noise n g ≠ Panic w.
Proof. unfold with_noise. by repeat case_match. Qed.

Lemma parseGradientConfig_never_panics q w : parseGradientConfig q ≠ Panic w.
Proof.
  unfold parseGradientConfig. destruct (_ && _); [done|].
  match goal with |- (?m ≫= _) ≠ _ => assert (∀ w, m ≠ Panic w) as Hm; [|destruct m as [g| |p]; cbn] end.
  - intros w'. destruct (nonempty _).
    + destruct (String.eqb _ _); [done|]. by destruct (gradientPresets _).
    + destruct (_ || _); [|done]. destruct (_ || _); [done|].
      pose proof (parseHexColor_never_panics (Values_Get "color1" q)).
      pose proof (parseHexColor_never_panics (Values_Get "color2" q)).
      destruct (parseHexColor (Values_Get "color1" q)); cbn; [|done|naive_solver].
      destruct (parseHexColor (Values_Get "color2" q)); cbn; [done|done|naive_solver].
  - apply with_noise_never_panics.
  - done.
  - naive_solver.
Qed.
End Gradient.

(** ** What an image request may be answered with *)

Section Image.
Context `{GoStd, Runtime, Rand, ImageCodecs} (h : HTTPBin).

(** The data and the type of the image of a key: generated with the seed from a full
    square and, for the formats that need it, converted by the tool of that format. *)
Definition image_of (key : imageCacheKey) (seed : Z) (data ct : string) : Prop :=
  let kind := ik_format key in
  ∃ image, generateImage (genFormat kind) (ik_targetSize key) (ik_grad key) seed = Ok image ∧
    if converted kind then
      ct = "image/" +:+ kind ∧ ∃ conv z, imageConverters h !! kind = Some conv ∧
        (convertImageFormat (tool z conv image.1) image.1 conv).1 = Ok data
    else image = (data, ct).

Definition entry_ok (key : imageCacheKey) (e : imageCacheEntry) : Prop :=
  image_of key 42 (ie_data e) (ie_contentType e) ∧ ie_etag e = imageETag (ie_data e).

Definition images_ok (c : imageCache) : Prop :=
  Z.of_nat (size (c_entries c)) ≤ Z.max 1 (c_maxSize c) ∧
  ∀ key e, cache_get key c = Some e → entry_ok key e.

Lemma images_put order key e c :
  iterates order (c_entries c) → entry_ok key e → images_ok c → images_ok (cache_put order key e c).
Proof.
  intros Ho He [Hn Hc]. destruct (cache_put_spec order key e c Ho Hn) as (P1 & P2 & P3).
  split; [done|]. intros k e' Hk. destruct (decide (k = key)) as [->|Hne]; [|by apply Hc, (P3 k)].
  rewrite P2 in Hk. by injection Hk as <-.
Qed.

Definition cachePolicy (nocache : bool) : string :=
  if nocache then "no-cache, no-store, must-revalidate" else "public, max-age=86400".

(** The image is sent, with its type, its policy and, when it may be cached, its hash. *)
Record sends_image (nocache : bool) (data ct : string) (s' : World) : Prop := {
  sends_answer : answers 200 data s';
  sends_type : Header_Get "Content-Type" (sent (wr s')) = ct;
  sends_policy : Header_Get "Cache-Control" (sent (wr s')) = cachePolicy nocache;
  sends_etag : nocache = false → Header_Get "ETag" (sent (wr s')) = imageETag data;
}.

Definition failure (code : Z) (e : gerror) (s' : World) : Prop :=
  answers code (Encode (errorRespnose code (Error e))) s'.

(** Why an image cannot be served. *)
Inductive image_fails (key : imageCacheKey) (seed : Z) : Z → gerror → Prop :=
| fails_kind e : genFormat (ik_format key) ∉ ["png"; "jpeg"] → image_fails key seed 400 e
| fails_encoder e :
    generateImage (genFormat (ik_format key)) (ik_targetSize key) (ik_grad key) seed = Err e →
    image_fails key seed 500 e
| fails_no_tool e :
    converted (ik_format key) = true → imageConverters h !! ik_format key = None → image_fails key seed 501 e
| fails_tool conv z image e :
    imageConverters h !! ik_format key = Some conv →
    (convertImageFormat (tool z conv image) image conv).1 = Err e → image_fails key seed 500 e.

Lemma generateImage_never_panics format n grad seed w : generateImage format n grad seed ≠ Panic w.
Proof.
  unfold generateImage, encoded. destruct (String.eqb _ _); [by destruct (png_Encode _)|].
  destruct (String.eqb _ _); [by destruct (jpeg_Encode _ _)|done].
Qed.

Lemma writeError_fails code e s :
  final code → bodyAllowed code = true → blank s →
  ∃ s', writeError code (Some e) s = (Ok tt, s') ∧ caches s' = caches s ∧ failure code e s'.
Proof.
  intros Hc Hb Hs. destruct (writeJSON_answers code (errorRespnose code (Error e)) s Hc Hb Hs) as (s' & E & Ha).
  exists s'. split; [exact E|]. split; [by eapply writeResponse_caches|done].
Qed.

(** The headers that were set before a response are sent with it. *)
Lemma writeResponse_image nocache data ct s :
  blank s → Header_Get "Cache-Control" (rHeader (base (wr s))) = cachePolicy nocache →
  (nocache = false → Header_Get "ETag" (rHeader (base (wr s))) = imageETag data) →
  ∃ s', writeResponse 200 ct data s = (Ok tt, s') ∧ caches s' = caches s ∧ sends_image nocache data ct s'.
Proof.
  intros Hs Hp He. assert (final 200) as H200 by by apply final_200.
  destruct (writeResponse_answers 200 ct data s H200 eq_refl Hs) as (s' & E & Ha).
  destruct (writeResponse_sends 200 ct data s H200) as (s2 & E2 & _ & Hct & _); [by destruct Hs|].
  rewrite E in E2. injection E2 as <-.
  assert (fresh s) as Hf by by apply startable_fresh, Hs.
  exists s'. split; [done|]. split; [by eapply writeResponse_caches|]. split; [done|done| |].
  - by rewrite (writeResponse_header _ _ _ _ _ "Cache-Control" H200 Hf E).
  - intros Hn. rewrite (writeResponse_header _ _ _ _ _ "ETag" H200 Hf E) by done. by apply He.
Qed.

Lemma convertImage_run key seed image s :
  generateImage (genFormat (ik_format key)) (ik_targetSize key) (ik_grad key) seed = Ok image →
  ∃ r s', convertImage h (ik_format key) image s = (Ok r, s') ∧ wr s' = wr s ∧ caches s' = caches s ∧
    match r with
    | inl (code, e) => (code = 500 ∨ code = 501) ∧ image_fails key seed code e
    | inr (data, ct) => image_of key seed data ct
    end.
Proof.
  intros Hg. unfold convertImage. destruct (converted (ik_format key)) eqn:Hc.
  - destruct (imageConverters h !! ik_format key) as [conv|] eqn:Hconv.
    + unfold mbind, GoM_bind, runTool. cbn beta iota. set (z := rnd s (rndi s)).
      pose proof (convertImageFormat_clean (tool z conv image.1) image.1 conv) as Hclean.
      destruct (convertImageFormat _ _ _) as [[data|e|] evs] eqn:E; cbn [fst]; [| |by destruct Hclean].
      * eexists _, _. split; [reflexivity|]. split; [done|]. split; [done|].
        exists image. split; [done|]. rewrite Hc. split; [done|]. exists conv, z. by rewrite E.
      * eexists _, _. split; [reflexivity|]. split; [done|]. split; [done|]. split; [by left|].
        eapply (fails_tool _ _ conv z image.1); [done|by rewrite E].
    + eexists _, s. split; [reflexivity|]. split; [done|]. split; [done|]. split; [by right|].
      by apply fails_no_tool.
  - eexists _, s. split; [reflexivity|]. split; [done|]. split; [done|]. destruct image as [data ct].
    exists (data, ct). split; [done|]. by rewrite Hc.
Qed.

Lemma sized_supported kind :
  (String.eqb (genFormat kind) "png" || String.eqb (genFormat kind) "jpeg") = bool_decide (genFormat kind ∈ ["png"; "jpeg"]).
Proof.
  destruct (String.eqb_spec (genFormat kind) "png") as [->|N1]; [by rewrite bool_decide_true by set_solver|].
  destruct (String.eqb_spec (genFormat kind) "jpeg") as [->|N2]; [by rewrite bool_decide_true by set_solver|].
  rewrite bool_decide_false; [done|]. intros [?|[?|[]%elem_of_nil]%elem_of_cons]%elem_of_cons; done.
Qed.

(** The answer to a request for an image of some size. *)
Definition image_answer (key : imageCacheKey) (nocache : bool) (seed : Z) (s' : World) : Prop :=
  (∃ data ct, image_of key seed data ct ∧ sends_image nocache data ct s') ∨
  (∃ code e, image_fails key seed code e ∧ failure code e s').

(** Sending an image that is not in the cache. *)
Lemma sendGenerated_run key nocache data ct s :
  blank s → images_ok (c_images (caches s)) → (nocache = false → image_of key 42 data ct) →
  ∃ s', (_ ← (if nocache then SetHeader "Cache-Control" "no-cache, no-store, must-revalidate"
              else
                _ ← imgCache_put key (MkImageCacheEntry data ct (imageETag data));
                _ ← SetHeader "Cache-Control" "public, max-age=86400";
                SetHeader "ETag" (imageETag data));
         writeResponse 200 ct data) s = (Ok tt, s') ∧
    images_ok (c_images (caches s')) ∧ sends_image nocache data ct s'.
Proof.
  intros Hs Hc Hof. unfold mbind, GoM_bind. destruct nocache.
  - rewrite SetHeader_run.
    destruct (writeResponse_image true data ct (set_wr (set_header
      (Header_Set "Cache-Control" "no-cache, no-store, must-revalidate") (wr s)) s)) as (s' & E & Hcs & Ha).
    + by apply blank_header.
    + cbn [wr set_wr]. by rewrite rHeader_set_header, Header_Get_Set.
    + done.
    + exists s'. split; [exact E|]. by rewrite Hcs.
  - unfold imgCache_put. rewrite !SetHeader_run. cbn [wr set_wr].
    set (s1 := MkWorld _ _ _ _ _ _ _ _).
    match goal with |- context [writeResponse 200 ct data ?x] => set (s2 := x) end.
    assert (blank s2) as Hs2 by (apply (blank_header _ _ (set_wr _ s1)); [done|];
      apply (blank_header _ _ s1); [done|]; by apply (blank_wr s)).
    destruct (writeResponse_image false data ct s2 Hs2) as (s' & E & Hcs & Ha).
    + unfold s2. cbn [wr set_wr]. rewrite !rHeader_set_header, Header_Get_Set_ne by done. by rewrite Header_Get_Set.
    + intros _. unfold s2. cbn [wr set_wr]. by rewrite rHeader_set_header, Header_Get_Set.
    + exists s'. split; [exact E|]. rewrite Hcs. split; [|done]. cbn.
      apply images_put; [apply iteration_order_Permutation|split; [by apply Hof|done]|done].
Qed.

Lemma sizedImage_run kind nocache grad n s :
  blank s → images_ok (c_images (caches s)) →
  ∃ s', sizedImage h kind nocache grad n s = (Ok tt, s') ∧ images_ok (c_images (caches s')) ∧
    image_answer (MkImageCacheKey kind n grad) nocache (if nocache then now s else 42) s'.
Proof.
  intros Hs Hc. set (key := MkImageCacheKey kind n grad). set (seed := if nocache then now s else 42).
  assert (∀ code e s1, final code → bodyAllowed code = true → blank s1 → images_ok (c_images (caches s1)) →
    image_fails key seed code e →
    ∃ s', writeError code (Some e) s1 = (Ok tt, s') ∧ images_ok (c_images (caches s')) ∧
      image_answer key nocache seed s') as Hfail.
  { intros code e s1 Hf Hb Hs1 Hc1 He. destruct (writeError_fails code e s1 Hf Hb Hs1) as (s' & E & Hcs & Ha).
    exists s'. split; [done|]. rewrite Hcs. split; [done|]. right. by exists code, e. }
  unfold sizedImage. rewrite sized_supported. case_bool_decide as Hk; cycle 1.
  { apply Hfail; [by apply final_200|done..|by apply fails_kind]. }
  fold key. unfold mbind, GoM_bind.
  replace (seedOf nocache s) with (Ok (E := gerror) seed, s) by (unfold seed; by destruct nocache).
  assert (∃ hit, (if nocache then mret None else imgCache_get key : M _) s = (Ok hit, s) ∧
            match hit with Some e => nocache = false ∧ entry_ok key e | None => True end) as (hit & -> & Hhit).
  { destruct nocache; [by exists None|]. eexists. split; [reflexivity|].
    destruct (cache_get key _) as [e|] eqn:E; [|done]. split; [done|]. by apply Hc. }
  destruct hit as [entry|].
  - destruct Hhit as [-> [Hof Het]]. rewrite !SetHeader_run. cbn [wr set_wr].
    match goal with |- context [writeResponse 200 _ _ ?x] => set (s2 := x) end.
    assert (blank s2) as Hs2 by (apply (blank_header _ _ (set_wr _ s)); [done|]; by apply (blank_header _ _ s)).
    destruct (writeResponse_image false (ie_data entry) (ie_contentType entry) s2 Hs2) as (s' & E & Hcs & Ha).
    + unfold s2. cbn [wr set_wr]. rewrite !rHeader_set_header, Header_Get_Set_ne by done. by rewrite Header_Get_Set.
    + intros _. unfold s2. cbn [wr set_wr]. by rewrite rHeader_set_header, Header_Get_Set.
    + exists s'. split; [exact E|]. rewrite Hcs. split; [done|]. left. by exists (ie_data entry), (ie_contentType entry).
  - unfold try_, lift. destruct (generateImage _ _ _ _) as [image|e|w] eqn:Hg; cycle 1.
    + apply Hfail; [by apply final_200|done..|by apply fails_encoder].
    + by apply generateImage_never_panics in Hg.
    + destruct (convertImage_run key seed image s Hg) as (r & s1 & E & Hw & Hcs & Hr).
      cbn [ik_format key] in E. rewrite E. assert (blank s1) as Hs1 by by apply (blank_wr s).
      destruct r as [[code e]|[data ct]].
      * destruct Hr as [Hcode Hr]. apply Hfail; [by apply final_200; destruct Hcode as [->| ->]|by destruct Hcode as [->| ->]|done| |done].
        by rewrite Hcs.
      * destruct (sendGenerated_run key nocache data ct s1 Hs1) as (s' & E' & Hok & Ha); [by rewrite Hcs| |].
        { intros ->. exact Hr. }
        exists s'. split; [exact E'|]. split; [done|]. left. by exists data, ct.
Qed.

(** (C24) The image endpoint answers every request.  A request for a size is answered with
    the image of its kind, size and gradient: a full square that is generated with a
    fixed seed (or, without the cache, with the clock), encoded, and converted by the
    tool of its format; its ETag is the hash of the data; or with the reason why it cannot
    be served.  The cache stays within its bound and holds nothing but such images.
    Without a size the answer is the embedded image of the kind, or 404. *)
Theorem Image_served s :
  blank s → images_ok (c_images (caches s)) →
  let q := Query (URL (req s)) in
  let kind := default (PathValue "kind" (req s)) (vanityKind (PathValue "kind" (req s))) in
  let nocache := String.eqb (Values_Get "nocache" q) "1" || String.eqb (Values_Get "no-cache" q) "1" in
  ∃ s', ImageHandler h s = (Ok tt, s') ∧ images_ok (c_images (caches s')) ∧
    match parseGradientConfig q with
    | Ok grad =>
        if nonempty (Values_Get "size" q) then
          match imageTarget (Values_Get "size" q) with
          | Ok n => image_answer (MkImageCacheKey kind n grad) nocache (if nocache then now s else 42) s'
          | Err e => failure 400 e s'
          | Panic _ => False
          end
        else
          match staticAsset ("image." +:+ kind) with
          | Some img => answers 200 img s'
          | None => answers 404 (Encode (errorRespnose 404 "")) s'
          end
    | Err e => failure 400 e s'
    | Panic _ => False
    end.
Proof.
  intros Hs Hc q kind nocache. unfold ImageHandler, mbind, GoM_bind, get_req.
  fold kind. set (resolve := match vanityKind _ with Some _ => _ | None => _ end).
  assert (∃ r, resolve s = (Ok tt, set_req r s)) as [r ->].
  { unfold resolve. destruct (vanityKind _); [by eexists|]. exists (req s). by destruct s. }
  clear resolve. set (s1 := set_req r s). fold q. fold nocache.
  assert (blank s1) as Hs1 by by apply (blank_wr s).
  assert (images_ok (c_images (caches s1))) as Hc1 by done.
  change (now s) with (now s1). clearbody nocache kind q s1. clear Hs Hc s r. unfold try_, lift.
  assert (∀ e, ∃ s', writeError 400 (Some e) s1 = (Ok tt, s') ∧ images_ok (c_images (caches s')) ∧ failure 400 e s') as Hfail.
  { intros e. destruct (writeError_fails 400 e s1) as (s' & E & Hcs & Ha); [by apply final_200|done|done|].
    exists s'. by rewrite Hcs. }
  destruct (parseGradientConfig q) as [grad|e|w] eqn:Eg; [|apply Hfail|by apply parseGradientConfig_never_panics in Eg].
  destruct (nonempty _).
  - destruct (imageTarget _) as [n|e|w] eqn:En; [by apply sizedImage_run|apply Hfail|].
    revert En. unfold imageTarget. by repeat destruct (String.eqb _ _).
  - unfold doImageHandler. destruct (staticAsset _) as [img|].
    + destruct (writeResponse_answers 200 (if String.eqb kind "svg" then "image/svg+xml" else "image/" +:+ kind) img s1)
        as (s' & E & Ha); [by apply final_200|done|done|].
      exists s'. split; [exact E|]. split; [|done]. apply writeResponse_caches in E. by rewrite E.
    + destruct (writeJSON_answers 404 (errorRespnose 404 "") s1) as (s' & E & Ha); [by apply final_200|done|done|].
      exists s'. split; [exact E|]. split; [|done]. apply writeResponse_caches in E. by rewrite E.
Qed.

(** The kind is not checked: one with a slash that was percent-encoded in the URL, such as
    [x/../utf8.html], is answered with the asset that it leads to. *)
Theorem image_names_any_asset d name file s :
  blank s → elem_ok ("image." +:+ d) → elem_ok name → embedded ("static/" +:+ name) = Some file →
  ∃ s', doImageHandler (d +:+ "/../" +:+ name) s = (Ok tt, s') ∧ answers 200 file s'.
Proof.
  intros Hs Hd Hn Hf. unfold doImageHandler.
  change ("image." +:+ d +:+ "/../" +:+ name) with (("image." +:+ d) +:+ "/../" +:+ name).
  rewrite staticAsset_up, staticAsset_elem, Hf by done.
  apply writeResponse_answers; [by apply final_200|done|done].
Qed.
End Image.

(** Encoders that say what they encode, and tools that copy their input. *)
#[export] Instance sample_images : ImageCodecs := {|
  png_Encode img := inr ("PNG " +:+ Itoa (side img));
  jpeg_Encode q img := inr ("JPEG " +:+ Itoa q +:+ " " +:+ Itoa (side img));
  tool _ conv data := MkToolAnswers None None data None None "" (inr "in") (inr "out") None
                        (inr (slen data)) (inr data) |}.

Definition sample_image_request (kind query : string) : World :=
  sample_world (SetPathValue "kind" kind (sample_request "GET" ("/image/" +:+ kind) query)).

Lemma Image_served_witness :
  let s := sample_image_request "photo.webp" "size=small" in
  let key := MkImageCacheKey "webp" 51200 defaultGradient in
  ∃ s', ImageHandler sample_bin s = (Ok tt, s') ∧ images_ok sample_bin (c_images (caches s')) ∧
    image_answer sample_bin key false 42 s'.
Proof.
  intros s key. destruct (Image_served sample_bin s) as (s' & E & Hc & Hp).
  - done.
  - split; [vm_compute; discriminate|]. intros k e. unfold cache_get. cbn. by rewrite lookup_empty.
  - exists s'. split; [exact E|]. split; [exact Hc|].
    replace (parseGradientConfig (Query (URL (req s)))) with (Ok (E := gerror) defaultGradient) in Hp
      by (vm_compute; reflexivity).
    exact Hp.
Defined.
