(* ===== verification/RedirectTo.v ===== *)
(** * RedirectTo: redirects to a URL that the client gives

    The handler of [handlers.go], what it guarantees when the domains are restricted,
    and the reference that escapes the restriction. *)

From S2P Require Import Prelude GoStrings GoNum GoTime GoFmt Json GoURL GoNet GoURLParse.
From S2P Require Import Http HttpLaws Handles Bodies Delay DelaySpec ClientIP Bin Pipeline Handlers.
From S2P Require Import Streams StreamsSpec HandlersSpec RedirectsSpec Samples.

Section RedirectTo.
Context `{GoStd} (h : HTTPBin).

(** The check of the domain; a reference without a host passes. *)
Definition domain_allowed (u : Url) : bool :=
  negb (nonempty (Hostname u)) || (length (AllowedRedirectDomains h) =? 0)%nat
  || bool_decide (Hostname u ∈ AllowedRedirectDomains h).

Definition RedirectTo : HandlerFunc :=
  r ← get_req;
  let q := Query (URL r) in
  let inputURL := Values_Get "url" q in
  if String.eqb inputURL ""
  then writeError 400 (Some (New "missing required query parameter: url"))
  else
    try_ (lift (url_Parse inputURL))
      (λ e, writeError 400 (Some (Errorf "invalid url: %w" [AErr e]))) (λ u,
    if negb (domain_allowed u)
    then writeResponse 403 "text/plain" (forbiddenRedirectError h)
    else
      let userStatusCode := Values_Get "status_code" q in
      if nonempty userStatusCode then
        try_ (lift (parseBoundedStatusCode userStatusCode 300 399))
          (λ e, writeError 400 (Some e)) (doRedirect h (Url_String u))
      else doRedirect h (Url_String u) 302).

End RedirectTo.

Section Spec.
Context `{GoStd, Runtime} (h : HTTPBin).

(** The redirect that [doRedirect] sends for a reference. *)
Definition location_of (ref : string) : string :=
  (if HasPrefix ref "/" && negb (HasPrefix ref "//") then prefix h else "") +:+ ref.

Definition redirected (u : Url) (s' : World) : Prop :=
  ∃ c, 300 ≤ c ≤ 399 ∧ status (wr s') = Some c ∧
    Header_Get "Location" (sent (wr s')) = location_of (Url_String u).

Lemma redirect_to_sends u c s :
  300 ≤ c ≤ 399 → startable s → ∃ s', doRedirect h (Url_String u) c s = (Ok tt, s') ∧ redirected u s'.
Proof.
  intros Hc Hs. destruct (doRedirect_sends h (Url_String u) c s) as (s' & E & H1 & H2);
    [apply final_200; lia|done|]. exists s'. split; [done|]. by exists c.
Qed.

Lemma RedirectTo_cases s :
  startable s →
  let input := Values_Get "url" (Query (URL (req s))) in
  ∃ s', RedirectTo h s = (Ok tt, s') ∧
    (answered 400 s s' ∨
     ∃ u, url_Parse input = Ok u ∧
       if domain_allowed h u then redirected u s'
       else status (wr s') = Some 403 ∧
            (body (wr s') = "" ∨ body (wr s') = forbiddenRedirectError h)).
Proof.
  intros Hs input. unfold RedirectTo, mbind, GoM_bind, get_req. fold input.
  assert (∀ e (P : World → Prop), ∃ s', writeError 400 e s = (Ok tt, s') ∧ (answered 400 s s' ∨ P s')) as Herr.
  { intros e P. destruct (writeError_fresh 400 e s) as (s' & E & Ha);
      [by apply final_200|by apply startable_fresh|]. exists s'. by split; [|left]. }
  destruct (String.eqb input ""); [apply Herr|].
  unfold try_, lift. destruct (url_Parse input) as [u|e|w] eqn:Eu;
    [|apply Herr|by apply url_Parse_never_panics in Eu].
  destruct (domain_allowed h u) eqn:Ed; cbn [negb].
  - assert (∀ c, 300 ≤ c ≤ 399 → ∃ s', doRedirect h (Url_String u) c s = (Ok tt, s') ∧
      (answered 400 s s' ∨ ∃ u', Ok u = Ok (E := gerror) u' ∧ if domain_allowed h u' then redirected u' s' else
        status (wr s') = Some 403 ∧ (body (wr s') = "" ∨ body (wr s') = forbiddenRedirectError h))) as Hgo.
    { intros c Hc. destruct (redirect_to_sends u c s Hc Hs) as (s' & E & Hr). exists s'.
      split; [done|]. right. exists u. by rewrite Ed. }
    destruct (nonempty _); [|by apply Hgo; lia].
    unfold parseBoundedStatusCode, AtoiE, numErr. destruct (Atoi _) as [n|e|w] eqn:Ea; cbn.
    + destruct ((n <? 300) || (399 <? n)) eqn:Er; cbn.
      * apply Herr.
      * reflect_bools. apply Hgo. lia.
    + apply Herr.
    + by apply Atoi_never_panics in Ea.
  - destruct (writeResponse_sends 403 "text/plain" (forbiddenRedirectError h) s)
      as (s' & E & H1 & _ & H2); [by apply final_200|done|].
    exists s'. split; [done|]. right. exists u. by rewrite Ed.
Qed.

(** (C29) When the domains are restricted, /redirect-to redirects with a 3xx status to the
    URL that it was given only if the host that Go reads in it is empty or allowed; any
    other host gets 403, and a URL or status that does not parse gets 400. *)
Theorem RedirectTo_restricted s :
  startable s → AllowedRedirectDomains h ≠ [] →
  let input := Values_Get "url" (Query (URL (req s))) in
  ∃ s', RedirectTo h s = (Ok tt, s') ∧
    (answered 400 s s' ∨
     ∃ u, url_Parse input = Ok u ∧
       ((Hostname u = "" ∨ Hostname u ∈ AllowedRedirectDomains h) ∧ redirected u s' ∨
        (Hostname u ≠ "" ∧ Hostname u ∉ AllowedRedirectDomains h) ∧ status (wr s') = Some 403)).
Proof.
  intros Hs Hd input. destruct (RedirectTo_cases s Hs) as (s' & E & Hr).
  exists s'. split; [done|]. destruct Hr as [Hr|(u & Eu & Hr)]; [by left|]. right. exists u.
  split; [done|]. revert Hr. unfold domain_allowed, nonempty.
  assert ((length (AllowedRedirectDomains h) =? 0)%nat = false) as ->
    by (apply Nat.eqb_neq; by destruct (AllowedRedirectDomains h)).
  destruct (String.eqb_spec (Hostname u) "") as [E1|E1]; cbn [negb orb]; [by left; auto|].
  case_bool_decide; [by left; auto|]. intros [Hst _]. by right.
Qed.

(** The restriction does not hold for references with three slashes: Go reads no
    host in them, so that they pass for every list of domains, and the answer sends the
    client to a Location that browsers resolve to the host after the slashes. *)
Theorem RedirectTo_three_slashes s evil :
  startable s → string_forall host_char evil = true →
  Values_Get "url" (Query (URL (req s))) = "///" +:+ evil →
  Values_Get "status_code" (Query (URL (req s))) = "" →
  ∃ s', RedirectTo h s = (Ok tt, s') ∧ status (wr s') = Some 302 ∧
    Header_Get "Location" (sent (wr s')) = "///" +:+ evil.
Proof.
  intros Hs He Hq Hc. destruct (url_Parse_three_slashes evil He) as (u & Eu & Hh & Hu).
  unfold RedirectTo, mbind, GoM_bind, get_req. rewrite Hq, Hc. unfold try_, lift. rewrite Eu.
  unfold domain_allowed. rewrite Hh. cbn [nonempty String.eqb negb orb].
  destruct (doRedirect_sends h (Url_String u) 302 s) as (s' & E & H1 & H2);
    [by apply final_200|done|].
  exists s'. split; [exact E|]. split; [done|]. rewrite H2, Hu. by destruct evil.
Qed.
End Spec.

Definition restricted_bin : HTTPBin := {|
  MaxBodySize := DefaultMaxBodySize;
  MaxDuration := DefaultMaxDuration;
  DefaultParams_ := DefaultDefaultParams;
  AllowedRedirectDomains := ["example.com"];
  unsafeAllowDangerousResponses := false;
  env := None;
  forbiddenRedirectError := "Forbidden";
  hostname := DefaultHostname;
  prefix := "/base";
  statusSpecialCases := λ _, None;
  excludeHeadersProcessor := None;
  maxSSECount := 10000;
  trustedProxies := [];
  trustedProxiesConfigured := false;
  version := "";
  indexHTML := "";
  formsPostHTML := "";
  maxConcurrentRequests := 0;
  rateLimiter := None;
  rateLimitUseSubnets := false;
  observed := false;
  imageConverters := ∅;
  terminalHandlers := ∅;
|}.

Definition redirect_request (query : string) : World :=
  sample_world (sample_request "GET" "/redirect-to" query).

Lemma RedirectTo_restricted_witness :
  ∃ s', RedirectTo restricted_bin (redirect_request "url=//evil.com/x") = (Ok tt, s') ∧
    status (wr s') = Some 403.
Proof.
  destruct (RedirectTo_restricted restricted_bin (redirect_request "url=//evil.com/x"))
    as (s' & E & [[H1 _ _ _]|(u & Eu & Hr)]); [by split|done| |].
  - vm_compute in E. injection E as <-. discriminate H1.
  - exists s'. split; [exact E|]. destruct Hr as [[Hh _]|[_ H]]; [|exact H].
    exfalso. vm_compute in Eu. injection Eu as <-. apply (bool_decide_pack _) in Hh.
    vm_compute in Hh. destruct Hh.
Defined.

Lemma RedirectTo_three_slashes_witness :
  ∃ s', RedirectTo restricted_bin (redirect_request "url=///evil.com") = (Ok tt, s') ∧
    status (wr s') = Some 302 ∧ Header_Get "Location" (sent (wr s')) = "///evil.com".
Proof.
  apply (RedirectTo_three_slashes restricted_bin (redirect_request "url=///evil.com") "evil.com");
    [by split|vm_compute; reflexivity|vm_compute; reflexivity|vm_compute; reflexivity].
Defined.
