(* ===== verification/MiddlewareSpec.v ===== *)
(** * MiddlewareSpec: what the middlewares promise, whatever the router does

    The theorems hold for every router that reaches the client through its
    [ResponseWriter] only ([Handles]). *)

From S2P Require Import Prelude GoStrings GoNum GoFloat GoTime GoFmt Json GoURL GoNet.
From S2P Require Import RateLimit Http HttpLaws Handles Delay DelaySpec ClientIP Bin Middleware.
From S2P Require Import Pipeline Samples PipelineHandler.

(** ** Middlewares are handlers *)

#[export] Typeclasses Opaque preflight limitRequestSize responseDelay autohead requestHandler NotFound.

Section Instances.
Context `{GoStd}.

#[export] Instance Handles_preflight h : Handles h → Handles (preflight h).
Proof. intros Hh. unfold preflight. handler. Qed.
#[export] Instance Handles_limitRequestSize n h : Handles h → Handles (limitRequestSize n h).
Proof. intros Hh. unfold limitRequestSize. handler. Qed.
#[export] Instance Handles_responseDelay n h : Handles h → Handles (responseDelay n h).
Proof. intros Hh. unfold responseDelay. handler. Qed.
#[export] Instance Handles_autohead h : Handles h → Handles (autohead h).
Proof. intros Hh. unfold autohead. handler. Qed.
#[export] Instance Handles_requestHandler h mux : Handles mux → Handles (requestHandler h mux).
Proof. intros Hh. unfold requestHandler. typeclasses eauto. Qed.
#[export] Instance Handles_NotFound : Handles NotFound.
Proof. unfold NotFound. handler. Qed.
End Instances.

Section Head.
Context `{GoStd} (h : HTTPBin).

(** Behind [autohead] a HEAD request gets no body, whatever the router, the preflight
    answer or the errors of the middlewares write. *)
Lemma requestHandler_head mux s :
  Handles mux → Method (req s) = "HEAD" →
  body (wr (requestHandler h mux s).2) = body (wr s).
Proof.
  intros Hmux Hm. unfold requestHandler, autohead, mbind, GoM_bind, get_req.
  rewrite Hm, String.eqb_refl.
  set (inner := preflight _). assert (Handles inner) as Hi by (unfold inner; typeclasses eauto).
  unfold with_writer. pose proof (Hi (set_wr (HeadRW (wr s) 0 0) s)) as Hw.
  destruct (inner _) as [o s1]. cbn [snd wr set_wr] in *.
  pose proof (writes_headed _ _ Hw I) as Hb. pose proof (writes_shape _ _ Hw) as Hs.
  destruct (wr s1) as [r|w1 st k|w1 st k|w1 c d]; [destruct Hs..| |destruct Hs]. exact Hb.
Qed.
End Head.

(** ** The server *)

(** What a request may do to the server: it reaches its client through the writer,
    gives its slot back, and tells the observer nothing by itself. *)
Record served (s s' : Server) : Prop := {
  srv_writes : writes (wr (world s)) (wr (world s'));
  srv_slots : slots s' = slots s;
  srv_results : results s' = results s;
}.

#[export] Instance served_refl : Reflexive served.
Proof. by intros s. Qed.
#[export] Instance served_trans : Transitive served.
Proof. intros s1 s2 s3 [] []. split; [by etrans|congruence..]. Qed.

Class Serves {A} (m : SM A) : Prop := serves s : served s (m s).2.

#[export] Instance Serves_on_world {A} (m : M A) : Handles m → Serves (on_world m).
Proof.
  intros Hm s. unfold on_world. pose proof (Hm (world s)) as H. by destruct (m (world s)).
Qed.

#[export] Instance Serves_limiter_allow k : Serves (limiter_allow k).
Proof. intros s. unfold limiter_allow. by destruct (allow _ _ _ _). Qed.

#[export] Instance Serves_bind {A B} (m : SM A) (k : A → SM B) :
  Serves m → (∀ a, Serves (k a)) → Serves (m ≫= k).
Proof.
  intros Hm Hk s. unfold mbind, GoM_bind. pose proof (Hm s) as H1.
  destruct (m s) as [[a| |] s1]; [|done..]. etrans; [exact H1|apply Hk].
Qed.

Section Serves.
Context `{GoStd}.

Lemma Serves_maxConcurrent n h : Serves h → Serves (maxConcurrent n h).
Proof.
  intros Hh s. unfold maxConcurrent, acquire. destruct (slots s <? n).
  - destruct (Hh (set_slots (slots s + 1) s)) as [H1 H2 H3].
    destruct (h _) as [o s']. cbn in *. split; cbn; [done| |done]. rewrite H2. unfold release. lia.
  - apply (Serves_on_world (writeError 503 None)). typeclasses eauto.
Qed.

Lemma Serves_rateLimit f b h : Serves h → Serves (rateLimitMiddleware f b h).
Proof.
  intros Hh. unfold rateLimitMiddleware. apply Serves_bind; [typeclasses eauto|]. intros r.
  apply Serves_bind; [typeclasses eauto|]. intros ok. destruct (negb ok); [|done].
  apply Serves_bind; [|intros ?]; typeclasses eauto.
Qed.

Lemma Serves_StripPrefix p h : Serves h → Serves (StripPrefix p h).
Proof.
  intros Hh. unfold StripPrefix. destruct (String.eqb p ""); [done|].
  apply Serves_bind; [typeclasses eauto|]. intros r.
  destruct (strippedURL p (URL r)) as [u|]; [|apply Serves_on_world, Handles_NotFound].
  intros s. unfold with_request.
  destruct (Hh (set_world (set_req (set_URL u r) (world s)) s)) as [H1 H2 H3].
  by destruct (h _) as [o s'].
Qed.

Lemma Serves_inner h mux : Handles mux →
  ∃ m, Serves m ∧ serverHandler h mux = if Bin.observed h then observe (h_getClientIP h) m else m.
Proof.
  intros Hm. unfold serverHandler. eexists. split; [|reflexivity].
  assert (Serves (on_world (requestHandler h mux))) as H1 by typeclasses eauto.
  destruct (0 <? maxConcurrentRequests h), (rateLimited h), (nonempty (prefix h));
    auto using Serves_maxConcurrent, Serves_rateLimit, Serves_StripPrefix.
Qed.

(** What [observe] adds to a server that it surrounds. *)
Lemma observe_serves f m s r0 :
  Serves m → wr (world s) = Base r0 →
  let '(o, s') := observe f m s in
  slots s' = slots s ∧
  match o with
  | Ok _ => ∃ r, results s' = results s ++ [r] ∧
      (R_Size r - (slen (body (wr (world s'))) - slen (rBody r0))) mod 2 ^ 64 = 0
  | _ => results s' = results s
  end.
Proof.
  intros Hm Hw. unfold observe, observation, unwrapped. rewrite Hw.
  destruct (Hm (set_world (set_wr (MetaRW (Base r0) 0 0) (world s)) s)) as [H1 H2 H3].
  destruct (m _) as [[u| |] s']; cbn [snd fst] in *; [|by split..].
  split; [done|]. eexists. cbn [results tell set_world]. split; [by rewrite H3|].
  pose proof (writes_meter _ _ H1) as Hd. pose proof (writes_shape _ _ H1) as Hs.
  cbn [world set_world set_wr wr R_Size] in *.
  destruct (wr (world s')) as [|[r1| | |] st n| |]; cbn in Hs; try done.
  unfold body. cbn [meter] in Hd. cbn.
  change (18446744073709551616) with (2 ^ 64). revert Hd.
  generalize (slen (rBody r0)), (slen (rBody r1)). intros a b.
  change (2 ^ 64) with 18446744073709551616. intros Hd. zdiv.
Qed.

(** A request that panics or not gives its slot back, and the observer is told of
    a request exactly once when its handler returns, and not at all when it panics,
    with the number of bytes that the body of the response has received. *)
Theorem request_observed h mux s r0 :
  Handles mux → Bin.observed h = true → wr (world s) = Base r0 →
  let '(o, s') := serverHandler h mux s in
  slots s' = slots s ∧
  match o with
  | Ok _ => ∃ r, results s' = results s ++ [r] ∧
      (R_Size r - (slen (body (wr (world s'))) - slen (rBody r0))) mod 2 ^ 64 = 0
  | _ => results s' = results s
  end.
Proof.
  intros Hm Ho Hw. destruct (Serves_inner h mux Hm) as (m & Hs & E).
  rewrite E, Ho. by apply observe_serves.
Qed.
End Serves.

(** ** Rate limiting *)

Section RateLimited.
Context `{GoStd}.

(** A request whose bucket is empty is answered with 429 and [Retry-After: 1]
    without reaching the inner handler; any other request reaches it, and the only
    change to the server is that of [allow] on the key of the client's address. *)
Theorem rate_limited f subnets h s :
  fresh (world s) →
  let key := normalizeIPForRateLimit (f (req (world s))) subnets in
  let order := iteration_order (rnd (world s) (rndi (world s))) (buckets (limiter s)) in
  let '(ok, l) := allow order key (now (world s)) (limiter s) in
  if ok then rateLimitMiddleware f subnets h s = h (set_limiter l s)
  else ∃ w, rateLimitMiddleware f subnets h s = (Ok tt, set_world w (set_limiter l s)) ∧
         answered 429 (world s) w ∧ Header_Get "Retry-After" (sent (wr w)) = "1".
Proof.
  intros Hf key order. destruct (allow order key _ _) as [ok l] eqn:E.
  unfold rateLimitMiddleware, limiter_allow, mbind, GoM_bind, on_world, get_req.
  cbn [world set_world limiter]. fold key. fold order.
  replace (set_world (world s) s) with s by (by destruct s).
  rewrite E. destruct ok; cbn [negb]; [done|].
  rewrite SetHeader_run. set (w1 := set_wr _ _). cbn [world set_world].
  assert (fresh w1) as Hf1 by (by apply fresh_header).
  destruct (writeError_fresh 429 None w1) as (w2 & E2 & Ha); [by apply final_200|done|].
  exists w2. rewrite E2. split; [done|]. split; [by destruct Ha|].
  unfold writeError in E2. eapply writeJSON_header in E2 as ->; [|by apply final_200|done..].
  unfold w1. cbn [wr set_wr world]. rewrite rHeader_set_header. apply Header_Get_Set.
Qed.
End RateLimited.

(** ** HEAD requests *)

Lemma http_Error_fresh text code s :
  final code → fresh s → ∃ s', http_Error text code s = (Ok tt, s') ∧ answered code s s'.
Proof.
  intros Hc Hf. unfold http_Error, header_op, mbind, GoM_bind. rewrite !SetHeader_run. cbn [wr set_wr].
  set (s1 := set_wr _ _). assert (fresh s1) as [Ht Hs].
  { unfold s1. rewrite !set_header_compose. exact (fresh_header _ s Hf). }
  unfold WriteHeader, Write. destruct (w_WriteHeader_final code (wr s1) Hc Ht Hs) as (w1 & -> & Hw1 & Ht1).
  cbn [wr set_wr]. destruct (w_Write_sent (text +:+ str1 LF) w1 code Ht1 Hw1) as (n & w2 & -> & Hw2 & Ht2).
  eexists. split; [done|]. by split.
Qed.

Section HeadServer.
Context `{GoStd} (h : HTTPBin).

(** The request is answered before it reaches the router, whatever that is: by the 404 of
    the prefix, the 429 of the rate limiter or the 503 of the semaphore. *)
Definition turned_away (F : HandlerFunc → SM unit) (s : Server) : Prop :=
  ∃ code s', code ∈ [404; 429; 503] ∧ status (wr (world s')) = Some code ∧
    transparent (wr (world s')) ∧ ∀ mux, F mux s = (Ok tt, s').

(** A HEAD request that gets to the router has no body in its response. *)
Definition quiet (F : HandlerFunc → SM unit) : Prop :=
  ∀ mux s, Handles mux → fresh (world s) → Method (req (world s)) = "HEAD" →
    body (wr (world (F mux s).2)) = body (wr (world s)) ∨ turned_away F s.

Lemma quiet_requestHandler : quiet (λ mux, on_world (requestHandler h mux)).
Proof.
  intros mux s Hm _ Hh. left. unfold on_world. pose proof (requestHandler_head h mux (world s) Hm Hh) as Hb.
  by destruct (requestHandler h mux (world s)).
Qed.

Lemma quiet_maxConcurrent n F : quiet F → quiet (λ mux, maxConcurrent n (F mux)).
Proof.
  intros HF mux s Hm Hf Hh. unfold maxConcurrent, turned_away. destruct (acquire n (slots s)) as [k|].
  - destruct (HF mux (set_slots k s) Hm Hf Hh) as [Hb|(c & s' & Hc & Hs & Ht & E)].
    + left. by destruct (F mux _).
    + right. exists c, (set_slots (release (slots s')) s'). repeat split; [done..|]. intros mux'. by rewrite E.
  - right. destruct (writeError_fresh 503 None (world s)) as (w & E & Ha); [by apply final_200|done|].
    exists 503, (set_world w s). unfold on_world. rewrite E. destruct Ha. repeat split; [set_solver|done..].
Qed.

Lemma quiet_rateLimit f subnets F : quiet F → quiet (λ mux, rateLimitMiddleware f subnets (F mux)).
Proof.
  intros HF mux s Hm Hf Hh.
  assert (∀ m, rateLimitMiddleware f subnets m s =
    let key := normalizeIPForRateLimit (f (req (world s))) subnets in
    let order := iteration_order (rnd (world s) (rndi (world s))) (buckets (limiter s)) in
    let '(ok, l) := allow order key (now (world s)) (limiter s) in
    if ok then m (set_limiter l s) else rateLimitMiddleware f subnets m s) as Hr.
  { intros m. pose proof (rate_limited f subnets m s Hf) as Hl. cbv zeta in *. by destruct (allow _ _ _ _) as [[|] l]. }
  cbv zeta in Hr. unfold turned_away. destruct (allow _ _ _ _) as [[|] l] eqn:Ea.
  - rewrite Hr. destruct (HF mux (set_limiter l s) Hm Hf Hh) as [Hb|(c & s' & Hc & Hs & Ht & E)]; [by left|].
    right. exists c, s'. repeat split; [done..|]. intros mux'. by rewrite Hr.
  - right. pose proof (rate_limited f subnets (F mux) s Hf) as Hl. cbv zeta in Hl. rewrite Ea in Hl.
    destruct Hl as (w & E & [Hs Ht _ _ _] & _). exists 429, (set_world w (set_limiter l s)).
    repeat split; [set_solver|done..|]. intros mux'. rewrite <- E. clear E.
    unfold rateLimitMiddleware, limiter_allow, mbind, GoM_bind, on_world, get_req. cbn [world set_world limiter].
    replace (set_world (world s) s) with s by (by destruct s). by rewrite Ea.
Qed.

Lemma quiet_StripPrefix p F : quiet F → quiet (λ mux, StripPrefix p (F mux)).
Proof.
  intros HF mux s Hm Hf Hh. unfold turned_away, StripPrefix. destruct (String.eqb p ""); [by apply HF|].
  unfold mbind, GoM_bind, on_world, get_req. replace (set_world (world s) s) with s by (by destruct s).
  destruct (strippedURL p (URL (req (world s)))) as [u|].
  - unfold with_request. set (s1 := set_world _ s).
    destruct (HF mux s1 Hm Hf Hh) as [Hb|(c & s' & Hc & Hs & Ht & E)].
    + left. by destruct (F mux s1).
    + right. exists c, (set_world (set_req (set_RHeader (RHeader (req (world s'))) (req (world s))) (world s')) s').
      repeat split; [done..|]. intros mux'. by rewrite E.
  - right. destruct (http_Error_fresh "404 page not found" 404 (world s)) as (w & E & [Hs Ht _ _ _]); [by apply final_200|done|].
    exists 404, (set_world w s). unfold NotFound. rewrite E. repeat split; [set_solver|done..].
Qed.

Lemma quiet_observe f F :
  (∀ mux, Handles mux → Serves (F mux)) → quiet F → quiet (λ mux, observe f (F mux)).
Proof.
  intros HS HF mux s Hm Hf Hh. unfold turned_away, observe. set (s1 := set_world _ s).
  destruct (HS mux Hm s1) as [Hw _ _]. apply writes_shape in Hw.
  destruct (HF mux s1 Hm Hf Hh) as [Hb|(c & s' & Hc & Hs & Ht & E)].
  - left. destruct (F mux s1) as [[u| |] s']; cbn [snd] in *.
    all: cbn [world set_world tell unwrapped wr set_wr] in *; by destruct (wr (world s')).
  - right. rewrite E in Hw. cbn [snd] in Hw.
    exists c, (tell (observation f (now (world s)) (world s')) (set_world (unwrapped (world s')) s')).
    split; [done|]. unfold unwrapped. cbn [world set_world tell wr set_wr] in *.
    destruct (wr (world s')) as [|w st k| |] eqn:Ew; [done| |done..]. split; [exact Hs|]. split; [exact Ht|].
    intros mux'. rewrite E. cbn [world]. by rewrite Ew.
Qed.

End HeadServer.

(** ** Delays of any endpoint *)

Section ResponseDelay.
Context `{GoStd} (max : Z).

(** The [response_delay] parameter: a value that is no duration between 0 and the
    maximum is answered at once with 400; otherwise the handler runs once that
    duration has passed, which is the maximum at most, or not at all when the client
    has gone before. *)
Theorem responseDelay_waits h s :
  fresh s →
  let v := Values_Get "response_delay" (Query (URL (req s))) in
  match parseBoundedDuration v 0 max with
  | Ok d =>
      0 ≤ d ≤ max ∧
      (v ≠ "" →
       (responseDelay max h s = h (set_now (now s + d) s) ∧
          ∀ t, gone s = Some t → d = 0 ∨ now s + d ≤ t) ∨
       (∃ t, gone s = Some t ∧ t < now s + d ∧
          responseDelay max h s = (Ok tt, set_now (Z.max (now s) t) s)))
  | Err _ => v ≠ "" → ∃ s', responseDelay max h s = (Ok tt, s') ∧ answered 400 s s'
  | Panic _ => False
  end ∧ (v = "" → responseDelay max h s = h s).
Proof.
  intros Hf v. split; cycle 1.
  { intros Hv. unfold responseDelay, mbind, GoM_bind, get_req. fold v. by rewrite Hv. }
  unfold responseDelay, mbind, GoM_bind, get_req. fold v.
  destruct (parseBoundedDuration v 0 max) as [d|e|w] eqn:E.
  - apply parseBoundedDuration_Ok in E as [? Hd]. split; [lia|]. intros Hv.
    unfold nonempty. apply String.eqb_neq in Hv. rewrite Hv. cbn [negb].
    unfold try_, lift. destruct (0 <? d) eqn:E0; reflect_bools.
    + unfold Sleep. destruct (gone s) as [t|] eqn:Eg; cycle 1.
      { left. split; [done|]. intros ? [=]. }
      destruct (t <? now s + d) eqn:Et; reflect_bools.
      * right. exists t. split; [done|]. split; [done|]. done.
      * left. split; [done|]. intros ? [= <-]. lia.
    + left. replace (now s + d) with (now s) by lia. replace (set_now (now s) s) with s by (by destruct s).
      split; [done|]. intros ? _. lia.
  - intros Hv. unfold nonempty. apply String.eqb_neq in Hv. rewrite Hv. cbn [negb].
    unfold try_, lift. apply writeError_fresh; [by apply final_200|done].
  - by apply parseBoundedDuration_never_panics in E.
Qed.
End ResponseDelay.

(** ** Witnesses *)

Definition hello : HandlerFunc := writeResponse 200 textContentType "hello".
#[export] Instance Handles_hello : Handles hello := Handles_writeResponse _ _ _.

Definition sample_server (r : Request) : Server :=
  MkServer (sample_world r)
    (newIPRateLimiter (MkRateLimiterConfig fone 1 2 Minute Minute false)) 0 [].

(** A server whose semaphore has one slot, with a rate limiter and an observer. *)
Definition small_bin : HTTPBin := {|
  MaxBodySize := DefaultMaxBodySize;
  MaxDuration := DefaultMaxDuration;
  DefaultParams_ := DefaultDefaultParams;
  AllowedRedirectDomains := [];
  unsafeAllowDangerousResponses := false;
  env := None;
  forbiddenRedirectError := "";
  hostname := DefaultHostname;
  prefix := "/a";
  statusSpecialCases := λ _, None;
  excludeHeadersProcessor := None;
  maxSSECount := 10000;
  trustedProxies := [];
  trustedProxiesConfigured := false;
  version := "";
  indexHTML := "";
  formsPostHTML := "";
  maxConcurrentRequests := 1;
  rateLimiter := Some (newIPRateLimiter (MkRateLimiterConfig fone 1 10 Minute Second false));
  rateLimitUseSubnets := false;
  Bin.observed := true;
  imageConverters := ∅;
  terminalHandlers := ∅;
|}.

#[export] Instance sample_targets_handle : TargetsHandle sample_bin.
Proof.
  split; intros; try apply (Handles_ret tt).
  change (terminalHandlers sample_bin) with (∅ : gmap string HandlerFunc) in *. set_solver.
Qed.

Definition slow_request : Server :=
  sample_server (sample_request "GET" "/a/get" "response_delay=1s").


(** The semaphore is outside of [autohead]: its answer to a HEAD request is written. *)
Example head_503_has_body :
  let s := set_slots 1 (sample_server (sample_request "HEAD" "/a/get" "")) in
  body (wr (world (serverHandler small_bin hello s).2))
  = Encode (JObj [("status_code", JInt 503); ("error", JStr "Service Unavailable")]).
Proof. vm_compute. reflexivity. Qed.

Lemma request_observed_witness :
  let '(o, s') := serverHandler small_bin hello slow_request in
  slots s' = slots slow_request ∧
  match o with
  | Ok _ => ∃ r, results s' = results slow_request ++ [r] ∧
      (R_Size r - (slen (body (wr (world s'))) - slen (rBody new_response))) mod 2 ^ 64 = 0
  | _ => results s' = results slow_request
  end.
Proof.
  pose proof (request_observed small_bin hello slow_request new_response Handles_hello
    eq_refl eq_refl) as E.
  exact E.
Defined.

Example observed_ex :
  map (λ r, (R_Status r, R_URI r, R_Size r, R_Duration r)) (results (serverHandler small_bin hello slow_request).2)
  = [(200, "/a/get?response_delay=1s", 5, Second)].
Proof. vm_compute. reflexivity. Qed.

Lemma rate_limited_witness :
  let s := sample_server (sample_request "GET" "/get" "") in
  let f := λ _ : Request, "192.0.2.1" in
  rateLimitMiddleware f false (on_world hello) s
  = on_world hello (set_limiter (allow [] "192.0.2.1" 0 (limiter s)).2 s).
Proof.
  apply (rate_limited (λ _, "192.0.2.1") false (on_world hello)
           (sample_server (sample_request "GET" "/get" ""))).
  by split.
Defined.

Lemma responseDelay_waits_witness :
  let s := sample_world (sample_request "GET" "/get" "response_delay=11s") in
  ∃ s', responseDelay (10 * Second) hello s = (Ok tt, s') ∧ answered 400 s s'.
Proof.
  assert (fresh (sample_world (sample_request "GET" "/get" "response_delay=11s"))) as Hf by by split.
  destruct (responseDelay_waits (10 * Second) hello _ Hf) as [H _].
  revert H. vm_compute (parseBoundedDuration _ _ _).
  intros H. apply H. vm_compute. discriminate.
Defined.
