(* ===== verification/Websocket.v ===== *)
(** * Websocket: the frame codec and the server loop

    Models [src/httpbin/websocket/websocket.go].  The hijacked connection is a
    [conn]: the bytes the client sends before its side of the stream ends (and
    the error a read reports then), the write buffer of the [bufio.ReadWriter],
    the bytes flushed to the wire, and how many bytes the wire still accepts.
    The functions are in the monad [GoM conn wsError], the loop included, whose
    iterations are [serveStep]. *)

From S2P Require Import Prelude GoStrings GoNum Utf8.

(** ** Constants and data *)

Definition requiredVersion : string := "13".

Definition OpcodeContinuation : Z := 0x0.
Definition OpcodeText : Z := 0x1.
Definition OpcodeBinary : Z := 0x2.
Definition OpcodeClose : Z := 0x8.
Definition OpcodePing : Z := 0x9.
Definition OpcodePong : Z := 0xA.

Definition StatusNormalClosure : Z := 1000.
Definition StatusProtocolError : Z := 1002.
Definition StatusUnsupportedPayload : Z := 1007.
Definition StatusTooLarge : Z := 1009.
Definition StatusServerError : Z := 1011.

Record Frame := MkFrame {
  Fin : bool;
  RSV1 : bool;
  RSV3 : bool;
  RSV2 : bool;
  Opcode : Z;
  Payload : list byte;
}.

Record Message := MkMessage {
  Binary : bool;
  MPayload : list byte;
}.

Record Limits := MkLimits {
  MaxDuration : Z;
  MaxFragmentSize : Z;
  MaxMessageSize : Z;
}.

(** ** Errors *)

Inductive wsError :=
| ErrEOF
| ErrUnexpectedEOF
| ErrRead (text : string)
| ErrWrite
| ErrUnmasked
| ErrRSV
| ErrFragmentSize (n max : Z)
| ErrControlSize (n : Z)
| ErrControlFragmented (opcode : Z)
| ErrCloseTooShort
| ErrCloseRange (status : Z)
| ErrCloseReserved (status : Z)
| ErrCloseUtf8
| ErrExpectedContinuation
| ErrUnexpectedContinuation
| ErrInvalidUtf8
| ErrMessageSize (n max : Z)
| ErrUnsupportedOpcode (opcode : Z)
| ErrHandler (text : string).

(** [err.Error()] *)
Definition errText (e : wsError) : string :=
  match e with
  | ErrEOF => "EOF"
  | ErrUnexpectedEOF => "unexpected EOF"
  | ErrRead t => t
  | ErrWrite => "write error"
  | ErrUnmasked => "received unmasked client frame"
  | ErrRSV => "frame has unsupported RSV bits set"
  | ErrFragmentSize n max =>
      "frame payload size " +:+ Itoa n +:+ " exceeds maximum of " +:+ Itoa max +:+ " bytes"
  | ErrControlSize n => "frame payload size " +:+ Itoa n +:+ " exceeds 125 bytes"
  | ErrControlFragmented o => "control frame " +:+ Itoa o +:+ " must not be fragmented"
  | ErrCloseTooShort => "close frame payload must be at least 2 bytes"
  | ErrCloseRange c => "close frame status code " +:+ Itoa c +:+ " out of range"
  | ErrCloseReserved c => "close frame status code " +:+ Itoa c +:+ " is reserved"
  | ErrCloseUtf8 => "close frame payload must be vaid UTF-8"
  | ErrExpectedContinuation => "expected continuation frame"
  | ErrUnexpectedContinuation => "unexpected continuation frame"
  | ErrInvalidUtf8 => "invalid UTF-8"
  | ErrMessageSize n max =>
      "message size " +:+ Itoa n +:+ " exceeds maximum of " +:+ Itoa max +:+ " bytes"
  | ErrUnsupportedOpcode o => "unsupported opcode: " +:+ Itoa o
  | ErrHandler t => t
  end.

(** ** The connection *)

Record conn := MkConn {
  rd : list byte;          (* bytes still to be read *)
  rd_end : wsError;        (* what a read reports after them *)
  wire : list byte;        (* bytes flushed to the client *)
  wbuf : list byte;        (* bytes in the write buffer *)
  room : option Z;         (* bytes the wire accepts before it fails *)
}.

Definition set_rd (l : list byte) (c : conn) : conn :=
  MkConn l (rd_end c) (wire c) (wbuf c) (room c).

(** [io.ReadFull(buf, make([]byte, n))] *)
Definition ReadFull (n : Z) : GoM conn wsError (list byte) := λ c,
  if n <=? blen (rd c) then
    (Ok (take (Z.to_nat n) (rd c)), set_rd (drop (Z.to_nat n) (rd c)) c)
  else
    (Err (match rd c, rd_end c with
          | [], e => e
          | _, ErrEOF => ErrUnexpectedEOF
          | _, e => e
          end), set_rd [] c).

Definition Write (l : list byte) : GoM conn wsError unit := λ c,
  (Ok tt, MkConn (rd c) (rd_end c) (wire c) (wbuf c ++ l) (room c)).

Definition Flush : GoM conn wsError unit := λ c,
  match room c with
  | None => (Ok tt, MkConn (rd c) (rd_end c) (wire c ++ wbuf c) [] None)
  | Some k =>
      if blen (wbuf c) <=? k then
        (Ok tt, MkConn (rd c) (rd_end c) (wire c ++ wbuf c) [] (Some (k - blen (wbuf c))))
      else
        (Err ErrWrite,
         MkConn (rd c) (rd_end c) (wire c ++ take (Z.to_nat k) (wbuf c))
                (drop (Z.to_nat k) (wbuf c)) (Some 0))
  end.

(** Big-endian integers, as [encoding/binary] reads and writes them. *)
Definition be_decode (l : list byte) : Z :=
  fold_left (λ acc b, acc * 256 + byte_Z b) l 0.
Fixpoint be_encode (n : nat) (z : Z) : list byte :=
  match n with
  | O => []
  | S n' => be_encode n' (z / 256) ++ [Z_byte z]
  end.

Definition byte_at (l : list byte) (i : nat) : byte := nth i l x00.

(** The largest allocation of the Go runtime on a 64-bit platform; [make] of a
    longer slice panics. *)
Definition maxAlloc : Z := 2 ^ 48.
Definition makeslice (n : Z) : GoM conn wsError unit :=
  if maxAlloc <? n then panic "runtime error: makeslice: len out of range" else mret tt.

(** ** Reading frames *)

Definition bit (b : Z) (m : Z) : bool := negb (Z.land b m =? 0).

Definition unmask (mask payload : list byte) : list byte :=
  imap (λ i b, Z_byte (Z.lxor (byte_Z b) (byte_Z (byte_at mask (i mod 4))))) payload.

Definition readPayloadLength (b1 : Z) : GoM conn wsError Z :=
  let l7 := (b1 - 128) mod 256 in
  if l7 <=? 125 then mret l7
  else if l7 =? 126 then bs ← ReadFull 2; mret (be_decode bs)
  else bs ← ReadFull 8; mret (be_decode bs).

Definition nextFrame : GoM conn wsError Frame :=
  bb ← ReadFull 2;
  let b0 := byte_Z (byte_at bb 0) in
  let b1 := byte_Z (byte_at bb 1) in
  let fin := bit b0 128 in
  let rsv1 := bit b0 64 in
  let rsv2 := bit b0 32 in
  let rsv3 := bit b0 16 in
  let opcode := Z.land b0 15 in
  if negb (bit b1 128) then throw ErrUnmasked else
  payloadLength ← readPayloadLength b1;
  mask ← ReadFull 4;
  _ ← makeslice payloadLength;
  payload ← ReadFull payloadLength;
  mret {| Fin := fin; RSV1 := rsv1; RSV2 := rsv2; RSV3 := rsv3;
          Opcode := opcode; Payload := unmask mask payload |}.

(** ** Writing frames *)

Definition orbit (b : bool) (m x : Z) : Z := if b then Z.lor x m else x.

Definition header_byte (f : Frame) : Z :=
  let b1 := orbit (Fin f) 128 0 in
  let b1 := orbit (RSV1 f) 64 b1 in
  let b1 := orbit (RSV2 f) 32 b1 in
  let b1 := orbit (RSV3 f) 16 b1 in
  Z.lor b1 (Z.land (Opcode f) 15).

Definition writeFrame (f : Frame) : GoM conn wsError unit :=
  _ ← Write [Z_byte (header_byte f)];
  let payloadLen := blen (Payload f) in
  _ ← (if payloadLen <=? 125 then Write [Z_byte payloadLen]
       else if payloadLen <=? 65535 then
         _ ← Write [Z_byte 126]; Write (be_encode 2 payloadLen)
       else
         _ ← Write [Z_byte 127]; Write (be_encode 8 payloadLen));
  _ ← Write (Payload f);
  Flush.

Definition closePayload (status : Z) (err : option wsError) : list byte :=
  be_encode 2 status ++ match err with Some e => to_bytes (errText e) | None => [] end.

Definition closeFrame (status : Z) (err : option wsError) : Frame :=
  {| Fin := true; RSV1 := false; RSV2 := false; RSV3 := false;
     Opcode := OpcodeClose; Payload := closePayload status err |}.

Definition writeCloseFrame (status : Z) (err : option wsError) : GoM conn wsError unit :=
  writeFrame (closeFrame status err).

(** ** Splitting a response into frames

    The loop of the source does not advance [offset]; [fuel] bounds the number
    of iterations and [None] says that the loop was still running.  One frame
    per payload byte, and one more, is the most that a loop that advances can
    need: [frameResponse] runs it with that fuel.  A negative size, which the limits of
    a websocket never are, makes the bounds of the slice wrong. *)
Fixpoint frameLoop (fuel : nat) (msg : Message) (fragmentSize offset : Z) (opcode : Z)
    (result : list Frame) : option (outcome wsError (list Frame)) :=
  match fuel with
  | O => None
  | S n =>
      let dataLen := blen (MPayload msg) in
      let opcode := if 0 <? offset then OpcodeContinuation else opcode in
      let end0 := offset + fragmentSize in
      let fin := dataLen <=? end0 in
      let end1 := if fin then dataLen else end0 in
      if end1 <? offset
      then Some (Panic ("runtime error: slice bounds out of range [:" +:+ Itoa end1 +:+ "]"))
      else
      let frame :=
        {| Fin := fin; RSV1 := false; RSV2 := false; RSV3 := false; Opcode := opcode;
           Payload := take (Z.to_nat (end1 - offset))
                           (drop (Z.to_nat offset) (MPayload msg)) |} in
      let result := result ++ [frame] in
      if fin then Some (Ok result) else frameLoop n msg fragmentSize offset opcode result
  end.

Definition frameResponse (fuel : nat) (msg : Message) (fragmentSize : Z)
    : option (outcome wsError (list Frame)) :=
  frameLoop fuel msg fragmentSize 0
    (if Binary msg then OpcodeBinary else OpcodeText) [].

Definition frameFuel (msg : Message) : nat := S (length (MPayload msg)).

(** ** Validation *)

Definition reservedStatusCodes (c : Z) : bool :=
  bool_decide (c ∈ [1004; 1005; 1006; 1015; 1016; 1100; 2000; 2999]).

Definition is_data (o : Z) : bool :=
  (o =? OpcodeContinuation) || (o =? OpcodeText) || (o =? OpcodeBinary).
Definition is_control (o : Z) : bool :=
  (o =? OpcodeClose) || (o =? OpcodePing) || (o =? OpcodePong).

Definition validateClose (p : list byte) : outcome wsError unit :=
  if blen p =? 0 then Ok tt
  else if blen p =? 1 then Err ErrCloseTooShort
  else
    let code := be_decode (take 2 p) in
    if (code <? 1000) || (5000 <=? code) then Err (ErrCloseRange code)
    else if reservedStatusCodes code then Err (ErrCloseReserved code)
    else if (2 <? blen p) && negb (utf8_Valid (drop 2 p)) then Err ErrCloseUtf8
    else Ok tt.

Definition validateFrame (f : Frame) (maxFragmentSize : Z) : outcome wsError unit :=
  if RSV1 f || RSV2 f || RSV3 f then Err ErrRSV else
  let n := blen (Payload f) in
  if is_data (Opcode f) && (maxFragmentSize <? n) then Err (ErrFragmentSize n maxFragmentSize)
  else if is_control (Opcode f) && (125 <? n) then Err (ErrControlSize n)
  else if is_control (Opcode f) && negb (Fin f) then Err (ErrControlFragmented (Opcode f))
  else if Opcode f =? OpcodeClose then validateClose (Payload f)
  else Ok tt.

(** ** The server loop *)

Definition Handler : Type := Message → outcome wsError (option Message).

Definition EchoHandler : Handler := λ msg, Ok (Some msg).

(** How an iteration of the loop of [serveLoop] ends: with the next value of
    [currentMsg], by returning, or not at all ([frameResponse] still runs). *)
Inductive step :=
| Continue (currentMsg : option Message)
| Return
| Looping.

Fixpoint writeFrames (l : list Frame) : GoM conn wsError unit :=
  match l with
  | [] => mret tt
  | f :: l' => _ ← writeFrame f; writeFrames l'
  end.

Definition closeWith (status : Z) (e : wsError) : GoM conn wsError step :=
  _ ← writeCloseFrame status (Some e); mret Return.

Section ServeLoop.
Context (maxFragmentSize maxMessageSize : Z) (handler : Handler).

(** The part after the opcode switch, for a data frame. *)
Definition finishMessage (frame : Frame) (msg : Message) : GoM conn wsError step :=
  if Fin frame then
    try_ (lift (handler msg)) (closeWith StatusServerError) (λ resp,
      match resp with
      | None => mret (Continue (Some msg))
      | Some r =>
          match frameResponse (frameFuel r) r maxFragmentSize with
          | None => mret Looping
          | Some frames => frames ← lift frames; _ ← writeFrames frames; mret (Continue None)
          end
      end)
  else mret (Continue (Some msg)).

Definition onData (frame : Frame) (currentMsg : option Message) : GoM conn wsError step :=
  match currentMsg with
  | Some _ => closeWith StatusProtocolError ErrExpectedContinuation
  | None =>
      if (Opcode frame =? OpcodeText) && negb (utf8_Valid (Payload frame))
      then closeWith StatusUnsupportedPayload ErrInvalidUtf8
      else finishMessage frame
             {| Binary := Opcode frame =? OpcodeBinary; MPayload := Payload frame |}
  end.

Definition onContinuation (frame : Frame) (currentMsg : option Message)
    : GoM conn wsError step :=
  match currentMsg with
  | None => closeWith StatusProtocolError ErrUnexpectedContinuation
  | Some m =>
      if negb (Binary m) && negb (utf8_Valid (Payload frame))
      then closeWith StatusUnsupportedPayload ErrInvalidUtf8
      else
        let m' := {| Binary := Binary m; MPayload := MPayload m ++ Payload frame |} in
        if maxMessageSize <? blen (MPayload m')
        then closeWith StatusTooLarge (ErrMessageSize (blen (MPayload m')) maxMessageSize)
        else finishMessage frame m'
  end.

Definition pongOf (frame : Frame) : Frame :=
  {| Fin := Fin frame; RSV1 := RSV1 frame; RSV3 := RSV3 frame; RSV2 := RSV2 frame;
     Opcode := OpcodePong; Payload := Payload frame |}.

Definition onFrame (frame : Frame) (currentMsg : option Message) : GoM conn wsError step :=
  let o := Opcode frame in
  if (o =? OpcodeBinary) || (o =? OpcodeText) then onData frame currentMsg
  else if o =? OpcodeContinuation then onContinuation frame currentMsg
  else if o =? OpcodeClose then
    _ ← writeCloseFrame StatusNormalClosure None; mret Return
  else if o =? OpcodePing then
    _ ← writeFrame (pongOf frame); mret (Continue currentMsg)
  else if o =? OpcodePong then mret (Continue currentMsg)
  else closeWith StatusProtocolError (ErrUnsupportedOpcode o).

(** One iteration; [done] is the outcome of the poll of [ctx.Done()]. *)
Definition serveStep (done : bool) (currentMsg : option Message) : GoM conn wsError step :=
  if done then mret Return else
  try_ nextFrame (closeWith StatusServerError) (λ frame,
    try_ (lift (validateFrame frame maxFragmentSize)) (closeWith StatusProtocolError)
      (λ _, onFrame frame currentMsg)).

(** How the loop ends within [fuel] iterations. *)
Inductive loopEnd := Finished | Hung | OutOfFuel.

Fixpoint serveLoop (fuel : nat) (ctxDone : nat → bool) (i : nat)
    (currentMsg : option Message) : GoM conn wsError loopEnd :=
  match fuel with
  | O => mret OutOfFuel
  | S n =>
      st ← serveStep (ctxDone i) currentMsg;
      match st with
      | Continue m => serveLoop n ctxDone (S i) m
      | Return => mret Finished
      | Looping => mret Hung
      end
  end.
End ServeLoop.

(** Every iteration that continues reads a frame of two bytes at least, so this
    fuel is never used up ([serveLoop_fuel_enough]). *)
Definition serveFuel (c : conn) : nat := S (length (rd c)).

(** ** The codec: wire images of frames *)

Definition payload_length_bytes (maskbit n : Z) : list byte :=
  if n <=? 125 then [Z_byte (maskbit + n)]
  else if n <=? 65535 then Z_byte (maskbit + 126) :: be_encode 2 n
  else Z_byte (maskbit + 127) :: be_encode 8 n.

(** What a server sends for a frame (RFC 6455, section 5.2, unmasked). *)
Definition serverBytes (f : Frame) : list byte :=
  Z_byte (header_byte f) :: payload_length_bytes 0 (blen (Payload f)) ++ Payload f.

(** What a client sends: masked with a four-byte key, whose bytes are used in
    turn. *)
Definition rfc_header (f : Frame) : Z :=
  128 * Z.b2z (Fin f) + 64 * Z.b2z (RSV1 f) + 32 * Z.b2z (RSV2 f) + 16 * Z.b2z (RSV3 f)
  + Opcode f.

Fixpoint rfc_mask (k0 k1 k2 k3 : byte) (payload : list byte) : list byte :=
  match payload with
  | [] => []
  | b :: rest => Z_byte (Z.lxor (byte_Z k0) (byte_Z b)) :: rfc_mask k1 k2 k3 k0 rest
  end.

Definition mask_payload (key payload : list byte) : list byte :=
  match key with
  | [k0; k1; k2; k3] => rfc_mask k0 k1 k2 k3 payload
  | _ => payload
  end.

Definition clientBytes (key : list byte) (f : Frame) : list byte :=
  Z_byte (rfc_header f) :: payload_length_bytes 128 (blen (Payload f)) ++ key
    ++ mask_payload key (Payload f).

Lemma rfc_header_byte f : 0 ≤ Opcode f < 16 → rfc_header f = header_byte f.
Proof.
  destruct f as [fin r1 r3 r2 o p]. unfold rfc_header, header_byte, orbit.
  cbn [Fin RSV1 RSV2 RSV3 Opcode]. intros Ho.
  assert (o ∈ map Z.of_nat (seq 0 16)) as H.
  { apply list_elem_of_In, in_map_iff. exists (Z.to_nat o). split; [lia|]. apply in_seq. lia. }
  cbn in H. repeat (apply elem_of_cons in H as [->|H];
    [by destruct fin, r1, r2, r3|]). by apply elem_of_nil in H.
Qed.

Lemma header_bits fin r1 r3 r2 o p :
  0 ≤ o < 16 →
  let h := byte_Z (Z_byte (header_byte (MkFrame fin r1 r3 r2 o p))) in
  bit h 128 = fin ∧ bit h 64 = r1 ∧ bit h 32 = r2 ∧ bit h 16 = r3 ∧ Z.land h 15 = o.
Proof.
  intros Ho.
  assert (o ∈ map Z.of_nat (seq 0 16)) as Hin.
  { apply list_elem_of_In, in_map_iff. exists (Z.to_nat o).
    split; [lia|]. apply in_seq. lia. }
  cbn in Hin.
  repeat (apply elem_of_cons in Hin as [->|Hin];
    [destruct fin, r1, r2, r3; vm_compute; auto|]).
  by apply elem_of_nil in Hin.
Qed.

Lemma be_decode_snoc l b : be_decode (l ++ [b]) = be_decode l * 256 + byte_Z b.
Proof. unfold be_decode. by rewrite fold_left_app. Qed.

Lemma be_encode_length n z : length (be_encode n z) = n.
Proof. revert z. induction n; intros z; simpl; [done|]. rewrite length_app, IHn. simpl; lia. Qed.

Lemma be_decode_encode n z : be_decode (be_encode n z) = z mod 256 ^ Z.of_nat n.
Proof.
  revert z. induction n as [|n IH]; intros z; [by rewrite Z.mod_1_r|].
  cbn [be_encode]. rewrite be_decode_snoc, IH, byte_Z_byte.
  rewrite Nat2Z.inj_succ, Z.pow_succ_r by lia.
  rewrite Z.rem_mul_r by (try apply Z.pow_nonzero; lia). lia.
Qed.

Lemma xor_byte_range a b : 0 ≤ Z.lxor (byte_Z a) (byte_Z b) < 256.
Proof.
  assert (forallb (λ a, forallb (λ b,
    (0 <=? Z.lxor (byte_Z a) (byte_Z b)) && (Z.lxor (byte_Z a) (byte_Z b) <? 256))
    all_bytes) all_bytes = true) as H by (vm_compute; reflexivity).
  pose proof (forall_byte _ (forall_byte _ H a) b) as Hb. simpl in Hb.
  reflect_bools. lia.
Qed.

Lemma unmask_byte a b :
  Z_byte (Z.lxor (byte_Z (Z_byte (Z.lxor (byte_Z a) (byte_Z b)))) (byte_Z a)) = b.
Proof.
  apply byte_Z_inj. rewrite !byte_Z_byte, (Z.mod_small (Z.lxor (byte_Z a) _)) by apply xor_byte_range.
  rewrite (Z.lxor_comm (byte_Z a)), Z.lxor_assoc, Z.lxor_nilpotent, Z.lxor_0_r.
  apply Z.mod_small, byte_Z_range.
Qed.

Lemma mask_payload_length key p : length (mask_payload key p) = length p.
Proof.
  destruct key as [|k0 [|k1 [|k2 [|k3 [|? ?]]]]]; try done. cbn.
  revert k0 k1 k2 k3. induction p as [|b p IH]; intros; cbn; auto.
Qed.

(** The key byte of index [i] is the one the client uses in its turn. *)
Lemma rfc_mask_lookup k0 k1 k2 k3 p i :
  rfc_mask k0 k1 k2 k3 p !! i =
    (λ b, Z_byte (Z.lxor (byte_Z (byte_at [k0; k1; k2; k3] (i mod 4))) (byte_Z b))) <$> p !! i.
Proof.
  revert k0 k1 k2 k3 i. induction p as [|b p IH]; intros; [done|].
  destruct i as [|i]; [done|].
  change (rfc_mask k0 k1 k2 k3 (b :: p) !! S i) with (rfc_mask k1 k2 k3 k0 p !! i).
  change ((b :: p) !! S i) with (p !! i). rewrite IH.
  replace (byte_at [k0; k1; k2; k3] (S i mod 4)) with (byte_at [k1; k2; k3; k0] (i mod 4)); [done|].
  replace (S i mod 4)%nat with (S (i mod 4) mod 4)%nat
    by (rewrite <- Nat.add_1_l, Nat.Div0.add_mod_idemp_r; done).
  pose proof (Nat.mod_upper_bound i 4 ltac:(lia)).
  by destruct (i mod 4)%nat as [|[|[|[|?]]]]; [..|lia].
Qed.

Lemma unmask_mask_payload key p : length key = 4%nat → unmask key (mask_payload key p) = p.
Proof.
  destruct key as [|k0 [|k1 [|k2 [|k3 [|? ?]]]]]; try done. intros _. cbn [mask_payload].
  apply list_eq. intros i. unfold unmask. rewrite list_lookup_imap, rfc_mask_lookup.
  destruct (p !! i) as [b|]; [|done]. cbn [fmap option_fmap option_map]. f_equal.
  apply unmask_byte.
Qed.

(** ** Reads and writes of the connection *)

Lemma ReadFull_app n l r c :
  n = blen l → rd c = l ++ r → ReadFull n c = (Ok l, set_rd r c).
Proof.
  intros -> Hr. unfold ReadFull. rewrite Hr. unfold blen. rewrite length_app.
  ztest. rewrite Nat2Z.id.
  by rewrite take_app_length, drop_app_length.
Qed.

Lemma ReadFull_consumes n c l c' :
  ReadFull n c = (Ok l, c') → Z.of_nat (length (rd c')) = blen (rd c) - Z.max 0 n.
Proof.
  unfold ReadFull, blen. destruct (_ <=? _) eqn:E; [|done]. reflect_bools.
  intros [= _ <-]. cbn [rd set_rd]. rewrite length_drop. lia.
Qed.

(** What a sequence of writes and a flush do when the wire does not fail. *)
Definition healthy (c : conn) : Prop := wbuf c = [] ∧ room c = None.

Definition sent (bs : list byte) (c : conn) : conn :=
  MkConn (rd c) (rd_end c) (wire c ++ bs) (wbuf c) (room c).

Lemma sent_healthy bs c : healthy c → healthy (sent bs c).
Proof. done. Qed.

Lemma set_rd_healthy l c : healthy c → healthy (set_rd l c).
Proof. done. Qed.
#[local] Hint Resolve sent_healthy set_rd_healthy : core.

Lemma writeFrame_serverBytes f c :
  healthy c → writeFrame f c = (Ok tt, sent (serverBytes f) c).
Proof.
  destruct c as [r e w b k]. intros [Hb Hk]. simpl in Hb, Hk. subst b k.
  unfold writeFrame, serverBytes, payload_length_bytes, mbind, GoM_bind, Write, Flush, sent.
  rewrite !Z.add_0_l.
  destruct (blen (Payload f) <=? 125); [|destruct (blen (Payload f) <=? 65535)]; cbn;
    by rewrite <- ?app_assoc.
Qed.

Lemma Flush_rd c r c' : Flush c = (r, c') → rd c' = rd c.
Proof.
  unfold Flush. destruct (room c) as [k|]; [destruct (_ <=? k)|]; by intros [= _ <-].
Qed.

Lemma writeFrame_rd f c r c' : writeFrame f c = (r, c') → rd c' = rd c.
Proof.
  unfold writeFrame, mbind, GoM_bind, Write. intros H.
  destruct (blen (Payload f) <=? 125); [|destruct (blen (Payload f) <=? 65535)];
    by apply Flush_rd in H.
Qed.

Lemma closeWith_rd s e c r c' : closeWith s e c = (r, c') → rd c' = rd c.
Proof.
  unfold closeWith, mbind, GoM_bind, writeCloseFrame.
  destruct (writeFrame _ c) as [[] c1] eqn:E; apply writeFrame_rd in E;
    by intros [= _ <-].
Qed.

(** [closeWith] never lets the loop continue. *)
Lemma closeWith_returns s e c m c' : closeWith s e c ≠ (Ok (Continue m), c').
Proof.
  unfold closeWith, mbind, GoM_bind.
  by destruct (writeCloseFrame _ _ c) as [[] c1].
Qed.

(** ** Round trips *)

Lemma readPayloadLength_126 :
  readPayloadLength 254 = (bs ← ReadFull 2; mret (be_decode bs)).
Proof. reflexivity. Qed.
Lemma readPayloadLength_127 :
  readPayloadLength 255 = (bs ← ReadFull 8; mret (be_decode bs)).
Proof. reflexivity. Qed.

Lemma readPayloadLength_bytes n r c :
  0 ≤ n < 2 ^ 63 →
  rd c = payload_length_bytes 128 n ++ r →
  ∃ b t, rd c = b :: t ∧ bit (byte_Z b) 128 = true ∧
    readPayloadLength (byte_Z b) (set_rd t c) = (Ok n, set_rd r c).
Proof.
  intros Hn Hrd. unfold payload_length_bytes in Hrd.
  destruct (n <=? 125) eqn:E1; [|destruct (n <=? 65535) eqn:E2]; reflect_bools.
  - eexists _, _. split; [exact Hrd|].
    rewrite byte_Z_byte, Z.mod_small by lia. split.
    + unfold bit. apply negb_true_iff, Z.eqb_neq. intros H0.
      apply (f_equal (λ x, Z.testbit x 7)) in H0. cbn beta in H0.
      rewrite Z.land_spec, Z.bits_0 in H0.
      apply andb_false_iff in H0 as [H0|H0]; [|done].
      apply Z.testbit_false in H0; [|lia]. change (2 ^ 7) with 128 in H0. zdiv.
    + unfold readPayloadLength. cbn zeta.
      replace ((128 + n - 128) mod 256) with n by zdiv.
      replace (n <=? 125) with true by lia. done.
  - eexists _, _. split; [exact Hrd|]. rewrite byte_Z_byte.
    split; [done|]. change ((128 + 126) mod 256) with 254.
    rewrite readPayloadLength_126. unfold mbind, GoM_bind.
    rewrite (ReadFull_app 2 (be_encode 2 n) r) by (done || by rewrite be_encode_length).
    rewrite be_decode_encode. change (256 ^ Z.of_nat 2) with 65536.
    by rewrite Z.mod_small by lia.
  - eexists _, _. split; [exact Hrd|]. rewrite byte_Z_byte.
    split; [done|]. change ((128 + 127) mod 256) with 255.
    rewrite readPayloadLength_127. unfold mbind, GoM_bind.
    rewrite (ReadFull_app 8 (be_encode 8 n) r) by (done || by rewrite be_encode_length).
    rewrite be_decode_encode. change (256 ^ Z.of_nat 8) with (2 ^ 64).
    by rewrite Z.mod_small by lia.
Qed.

Definition frame_wf (f : Frame) : Prop :=
  0 ≤ Opcode f < 16 ∧ blen (Payload f) ≤ maxAlloc.

Lemma nextFrame_of_clientBytes key f r c :
  length key = 4%nat → frame_wf f → rd c = clientBytes key f ++ r →
  nextFrame c = (Ok f, set_rd r c).
Proof.
  intros Hkey [Ho Hlen] Hrd.
  destruct f as [fin r1 r3 r2 o p]. simpl in Ho, Hlen.
  unfold clientBytes in Hrd. rewrite rfc_header_byte in Hrd by done.
  cbn [Payload] in Hrd. rewrite <- app_comm_cons, <- !app_assoc in Hrd.
  set (n := blen p) in *.
  assert (0 ≤ n < 2 ^ 63) as Hn by (unfold n, blen, maxAlloc in *; lia).
  set (h := Z_byte (header_byte (MkFrame fin r1 r3 r2 o p))) in *.
  destruct (readPayloadLength_bytes n (key ++ mask_payload key p ++ r)
    (set_rd (payload_length_bytes 128 n ++ key ++ mask_payload key p ++ r) c) Hn eq_refl)
    as (b & t & Hbt & Hmask & Hread). cbn in Hbt.
  unfold nextFrame, mbind, GoM_bind. rewrite Hbt in Hrd.
  rewrite (ReadFull_app 2 [h; b] t) by done. cbn [byte_at nth].
  rewrite Hmask. cbn [negb].
  assert (set_rd t (set_rd (payload_length_bytes 128 n ++ key ++ mask_payload key p ++ r) c)
          = set_rd t c) as Hs by done.
  rewrite Hs in Hread. rewrite Hread.
  rewrite (ReadFull_app 4 key (mask_payload key p ++ r)) by (unfold blen; rewrite ?Hkey; done).
  unfold makeslice. replace (maxAlloc <? n) with false by lia.
  cbn [mret GoM_ret].
  rewrite (ReadFull_app n (mask_payload key p) r)
    by (try done; unfold n, blen; by rewrite mask_payload_length).
  rewrite unmask_mask_payload by done.
  destruct (header_bits fin r1 r3 r2 o p Ho) as (B1 & B2 & B3 & B4 & B5).
  fold h in B1, B2, B3, B4, B5. by rewrite B1, B2, B3, B4, B5.
Qed.
