(* ===== verification/WebsocketSpec.v ===== *)
(** * WebsocketSpec: what the WebSocket component guarantees

    The frame codec against reference encodings, frame validation against a
    declarative reading of RFC 6455, the invariant of the message being
    assembled, termination of the loop, and the two ways in which a client can
    take the server down: a response longer than one fragment, and a length
    header that the runtime cannot allocate. *)

From S2P Require Import Prelude GoStrings GoNum Utf8 Websocket.

(** ** The codec *)

(** Reading [n] frames one after the other. *)
Fixpoint readFrames (n : nat) : GoM conn wsError (list Frame) :=
  match n with
  | O => mret []
  | S n' => f ← nextFrame; fs ← readFrames n'; mret (f :: fs)
  end.

(** (C30) The server reads back exactly the frames a client has sent: for every
    sequence of frames, each masked with a key of its own, [nextFrame] returns
    them in order, unmasked, and leaves what follows unread. *)
Theorem nextFrame_reads_client_frames (l : list (list byte * Frame)) r c :
  Forall (λ kf, length kf.1 = 4%nat ∧ frame_wf kf.2) l →
  rd c = concat (map (λ kf, clientBytes kf.1 kf.2) l) ++ r →
  readFrames (length l) c = (Ok (map snd l), set_rd r c).
Proof.
  intros Hl. revert c. induction Hl as [|[k f] l [Hk Hf] _ IH]; intros c Hc.
  - destruct c. simpl in *. by subst.
  - cbn [map concat] in Hc. rewrite <- app_assoc in Hc.
    cbn [length readFrames]. unfold mbind, GoM_bind.
    rewrite (nextFrame_of_clientBytes k f _ c Hk Hf Hc).
    by rewrite (IH (set_rd _ c) eq_refl).
Qed.

Definition sample_key : list byte := [x12; x34; x56; x78].
Definition sample_frame : Frame :=
  MkFrame true false false false OpcodeText (to_bytes "hello").

Lemma sample_frame_wf : frame_wf sample_frame.
Proof. unfold frame_wf. split; [done|]. vm_compute. by intros. Qed.

Lemma nextFrame_reads_client_frames_witness :
  readFrames 2 (MkConn (clientBytes sample_key sample_frame ++
      clientBytes sample_key sample_frame ++ [x00]) ErrEOF [] [] None)
  = (Ok [sample_frame; sample_frame], MkConn [x00] ErrEOF [] [] None).
Proof.
  apply (nextFrame_reads_client_frames
    [(sample_key, sample_frame); (sample_key, sample_frame)] [x00]).
  - repeat constructor; vm_compute; congruence.
  - reflexivity.
Defined.

(** A client's view of a server frame (RFC 6455, section 5.2): the mask bit is
    clear and the length takes the form its second byte announces. *)
Definition clientLength (l : list byte) : option (Z * list byte) :=
  match l with
  | n :: r =>
      if bit (byte_Z n) 128 then None
      else if byte_Z n <=? 125 then Some (byte_Z n, r)
      else if byte_Z n =? 126 then Some (be_decode (take 2 r), drop 2 r)
      else Some (be_decode (take 8 r), drop 8 r)
  | [] => None
  end.

Definition clientDecode (l : list byte) : option (Frame * list byte) :=
  match l with
  | h :: r =>
      '(k, r1) ← clientLength r;
      if blen r1 <? k then None else
      let b := byte_Z h in
      Some (MkFrame (bit b 128) (bit b 64) (bit b 16) (bit b 32) (Z.land b 15)
              (take (Z.to_nat k) r1), drop (Z.to_nat k) r1)
  | [] => None
  end.

Lemma bit128_small n : 0 ≤ n < 128 → bit n 128 = false.
Proof.
  intros Hn. unfold bit. apply negb_false_iff, Z.eqb_eq.
  apply Z.bits_inj'. intros i Hi. rewrite Z.land_spec, Z.bits_0.
  change 128 with (2 ^ 7). rewrite Z.pow2_bits_eqb by lia.
  destruct (Z.eqb_spec 7 i) as [<-|]; [|by rewrite andb_false_r].
  rewrite andb_true_r. apply Z.testbit_false; [lia|].
  rewrite Z.div_small; [done|]. change (2 ^ 7) with 128. lia.
Qed.

Lemma clientLength_bytes n r :
  0 ≤ n < 2 ^ 63 → clientLength (payload_length_bytes 0 n ++ r) = Some (n, r).
Proof.
  intros Hn. unfold payload_length_bytes.
  destruct (n <=? 125) eqn:E1; [|destruct (n <=? 65535) eqn:E2]; reflect_bools;
    rewrite Z.add_0_l, <- ?app_comm_cons; cbn [clientLength app].
  - rewrite byte_Z_byte, Z.mod_small, bit128_small by lia. by ztest.
  - change (bit (byte_Z (Z_byte 126)) 128) with false.
    change (byte_Z (Z_byte 126)) with 126. cbn [Z.leb Z.eqb Z.compare Pos.compare Pos.compare_cont Pos.eqb].
    rewrite take_app_exact, drop_app_exact, be_decode_encode by by rewrite be_encode_length.
    change (256 ^ Z.of_nat 2) with 65536. by rewrite Z.mod_small by lia.
  - change (bit (byte_Z (Z_byte 127)) 128) with false.
    change (byte_Z (Z_byte 127)) with 127. cbn [Z.leb Z.eqb Z.compare Pos.compare Pos.compare_cont Pos.eqb].
    rewrite take_app_exact, drop_app_exact, be_decode_encode by by rewrite be_encode_length.
    change (256 ^ Z.of_nat 8) with (2 ^ 64). by rewrite Z.mod_small by lia.
Qed.

Lemma clientDecode_serverBytes f r :
  0 ≤ Opcode f < 16 → blen (Payload f) < 2 ^ 63 →
  clientDecode (serverBytes f ++ r) = Some (f, r).
Proof.
  destruct f as [fin r1 r3 r2 o p]. intros Ho Hlen. cbn [Opcode Payload] in *.
  destruct (header_bits fin r1 r3 r2 o p Ho) as (B1 & B2 & B3 & B4 & B5).
  unfold serverBytes. cbn [Payload].
  rewrite <- app_comm_cons, <- app_assoc. cbn [clientDecode].
  rewrite clientLength_bytes by (unfold blen in *; lia). cbn [mbind option_bind].
  unfold blen. rewrite length_app, Nat2Z.id. ztest.
  rewrite B1, B2, B3, B4, B5. by rewrite take_app_length, drop_app_length.
Qed.

(** (C35) What the server writes for a frame, a client decodes to that frame,
    whatever follows it on the wire: header bits, the three forms of the
    length, and the payload. *)
Theorem writeFrame_decodes f c :
  healthy c → 0 ≤ Opcode f < 16 → blen (Payload f) < 2 ^ 63 →
  ∃ bs, writeFrame f c = (Ok tt, sent bs c) ∧
    ∀ r, clientDecode (bs ++ r) = Some (f, r).
Proof.
  intros Hc Ho Hlen. exists (serverBytes f). split.
  - by apply writeFrame_serverBytes.
  - intros r. by apply clientDecode_serverBytes.
Qed.

Definition fresh_conn (input : list byte) : conn := MkConn input ErrEOF [] [] None.

Lemma writeFrame_decodes_witness :
  ∃ bs, writeFrame sample_frame (fresh_conn []) = (Ok tt, sent bs (fresh_conn [])) ∧
    ∀ r, clientDecode (bs ++ r) = Some (sample_frame, r).
Proof.
  apply (writeFrame_decodes sample_frame (fresh_conn [])).
  - split; reflexivity.
  - split; [discriminate|reflexivity].
  - reflexivity.
Defined.

(** ** Frame validation *)

(** RFC 6455, sections 5.2, 5.5 and 7.4, with the limit on fragments. *)
Record valid_close (p : list byte) : Prop := {
  close_length : blen p ≠ 1;
  close_status : 2 ≤ blen p → 1000 ≤ be_decode (take 2 p) < 5000;
  close_reserved : 2 ≤ blen p →
    be_decode (take 2 p) ∉ [1004; 1005; 1006; 1015; 1016; 1100; 2000; 2999];
  close_text : 2 < blen p → utf8_Valid (drop 2 p) = true;
}.

Record valid_frame (f : Frame) (maxFragmentSize : Z) : Prop := {
  vf_rsv : RSV1 f = false ∧ RSV2 f = false ∧ RSV3 f = false;
  vf_data : is_data (Opcode f) = true → blen (Payload f) ≤ maxFragmentSize;
  vf_control : is_control (Opcode f) = true → blen (Payload f) ≤ 125 ∧ Fin f = true;
  vf_close : Opcode f = OpcodeClose → valid_close (Payload f);
}.

Lemma blen_cases (p : list byte) : blen p = 0 ∨ blen p = 1 ∨ 2 ≤ blen p.
Proof. unfold blen. lia. Qed.

Lemma validateClose_iff p : validateClose p = Ok tt ↔ valid_close p.
Proof.
  unfold validateClose, reservedStatusCodes. split.
  - intros H. destruct (blen p =? 0) eqn:E0; reflect_bools; [split; intros; lia|].
    destruct (blen p =? 1) eqn:E1; reflect_bools; [done|].
    destruct ((_ <? 1000) || _) eqn:E2; [done|]. reflect_bools.
    destruct (bool_decide _) eqn:E3; [done|]. apply bool_decide_eq_false in E3.
    destruct (2 <? blen p) eqn:E4; cbn [andb] in H.
    + destruct (utf8_Valid (drop 2 p)) eqn:E5; [|done]. by split; intros.
    + reflect_bools. split; intros; done || lia.
  - intros [H1 H2 H3 H4].
    destruct (blen_cases p) as [E|[E|E]]; [by rewrite E|done|]. ztest.
    specialize (H2 E). specialize (H3 E). ztest. cbn [orb].
    rewrite (bool_decide_eq_false_2 _ H3).
    destruct (2 <? blen p) eqn:E2; [|done]. reflect_bools. by rewrite H4.
Qed.

Lemma validateFrame_valid f max : validateFrame f max = Ok tt ↔ valid_frame f max.
Proof.
  unfold validateFrame. split.
  - intros H. destruct (RSV1 f || RSV2 f || RSV3 f) eqn:Er; [done|]. reflect_bools.
    destruct (is_data (Opcode f) && _) eqn:E1; [done|].
    destruct (is_control (Opcode f) && (125 <? _)) eqn:E2; [done|].
    destruct (is_control (Opcode f) && negb _) eqn:E3; [done|].
    split; [done| | |].
    + intros Hd. rewrite Hd in E1. simpl in E1. by reflect_bools.
    + intros Hc. rewrite Hc in E2, E3. simpl in E2, E3. by reflect_bools.
    + intros Hc. rewrite Hc in H. by apply validateClose_iff.
  - intros [(-> & -> & ->) Hd Hc Hcl]. cbn [orb].
    assert (is_data (Opcode f) && (max <? blen (Payload f)) = false) as ->
      by (destruct (is_data _); [by apply Z.ltb_ge, Hd|done]).
    assert (is_control (Opcode f) && (125 <? blen (Payload f)) = false) as ->
      by (destruct (is_control _); [by apply Z.ltb_ge, Hc|done]).
    assert (is_control (Opcode f) && negb (Fin f) = false) as ->
      by (destruct (is_control _); [by rewrite (proj2 (Hc eq_refl))|done]).
    destruct (Z.eqb_spec (Opcode f) OpcodeClose); [apply validateClose_iff; auto|done].
Qed.

(** What an accepted frame must be, one requirement at a time: no reserved
    bit; data within the fragment limit; control frames whole and of at most 125
    bytes; a close frame empty, or with a permitted status code and a UTF-8
    reason.  [validateFrame] accepts exactly these frames, and whatever else it
    returns is an error: it never panics. *)
Theorem validateFrame_iff f max :
  (validateFrame f max = Ok tt ↔ valid_frame f max) ∧
  (¬ valid_frame f max → ∃ e, validateFrame f max = Err e).
Proof.
  split; [apply validateFrame_valid|].
  rewrite <- validateFrame_valid. intros H.
  unfold validateFrame, validateClose in *. repeat case_match; eauto; by destruct H.
Qed.

Lemma validateFrame_iff_witness :
  (validateFrame sample_frame 4 = Ok tt ↔ valid_frame sample_frame 4) ∧
  ∃ e, validateFrame sample_frame 4 = Err e.
Proof.
  destruct (validateFrame_iff sample_frame 4) as [H1 H2]. split; [exact H1|].
  apply H2. intros [_ Hd _ _]. specialize (Hd eq_refl). vm_compute in Hd. by apply Hd.
Defined.

(** ** The frames the server sends of its own accord *)

(** Errors whose text the package makes up itself, with numbers that are
    machine integers. *)
Definition own_error (e : wsError) : Prop :=
  match e with
  | ErrRead _ | ErrHandler _ => False
  | ErrFragmentSize n m | ErrMessageSize n m => in_int64 n ∧ in_int64 m
  | ErrControlSize n | ErrControlFragmented n | ErrCloseRange n | ErrCloseReserved n
  | ErrUnsupportedOpcode n => in_int64 n
  | _ => True
  end.

(** Printable ASCII of at most [n] bytes. *)
Definition short_ascii (n : Z) (s : string) : Prop :=
  slen s ≤ n ∧ Forall (λ b, byte_Z b < 0x80) (to_bytes s).

Lemma short_ascii_app n m s t :
  short_ascii n s → short_ascii m t → short_ascii (n + m) (s +:+ t).
Proof.
  intros [H1 H2] [H3 H4]. split.
  - rewrite slen_app. lia.
  - rewrite to_bytes_app. by apply Forall_app.
Qed.

Lemma short_ascii_le n m s : short_ascii n s → n ≤ m → short_ascii m s.
Proof. intros [? ?] ?. split; [lia|done]. Qed.

Lemma short_ascii_digit d : 0 ≤ d < 10 → short_ascii 1 (String (digit_char d) "").
Proof.
  intros Hd.
  assert (d ∈ map Z.of_nat (seq 0 10)) as Hin.
  { apply list_elem_of_In, in_map_iff. exists (Z.to_nat d).
    split; [lia|]. apply in_seq. lia. }
  cbn in Hin.
  repeat (apply elem_of_cons in Hin as [->|Hin];
    [split; [done|by repeat constructor]|]).
  by apply elem_of_nil in Hin.
Qed.

Lemma fmt_digits_short k n acc fuel m :
  0 ≤ n < 10 ^ Z.of_nat (S k) → short_ascii m acc →
  short_ascii (m + Z.of_nat (S k)) (fmt_digits fuel n acc).
Proof.
  revert n acc fuel m. induction k as [|k IH]; intros n acc fuel m Hn Hacc.
  - assert (n < 10) by (simpl in Hn; lia).
    assert (fmt_digits fuel n acc = String (digit_char (n mod 10)) acc) as ->
      by (destruct fuel; cbn [fmt_digits]; [done|by ztest]).
    rewrite Z.add_comm. apply (short_ascii_app 1 m (String _ "")); [|done].
    apply short_ascii_digit. zdiv.
  - assert (short_ascii (m + 1) (String (digit_char (n mod 10)) acc)) as Hs.
    { rewrite Z.add_comm. apply (short_ascii_app 1 m (String _ "")); [|done].
      apply short_ascii_digit. zdiv. }
    destruct fuel as [|fuel]; cbn [fmt_digits].
    { eapply short_ascii_le; [done|lia]. }
    destruct (n <? 10); [eapply short_ascii_le; [done|lia]|].
    eapply short_ascii_le; [apply (IH _ _ _ (m + 1)); [|done]|lia].
    rewrite (Nat2Z.inj_succ (S k)), Z.pow_succ_r in Hn by lia. zdiv.
Qed.

Lemma Itoa_short n : in_int64 n → short_ascii 20 (Itoa n).
Proof.
  unfold in_int64, minInt64, maxInt64. intros Hn. unfold Itoa, fmt_nat.
  assert (short_ascii 0 "") as H0 by (split; [done|constructor]).
  destruct (n <? 0) eqn:E; reflect_bools.
  - apply (short_ascii_app 1 19 "-"); [split; [done|by repeat constructor]|].
    apply (fmt_digits_short 18 _ _ _ 0); [|done]. change (10 ^ Z.of_nat 19) with (10 ^ 19). lia.
  - eapply short_ascii_le; [apply (fmt_digits_short 18 _ _ _ 0); [|done]|done].
    change (10 ^ Z.of_nat 19) with (10 ^ 19). lia.
Qed.

Create HintDb ascii.
#[local] Hint Resolve short_ascii_app Itoa_short : ascii.

Lemma literal_short s : forallb (λ b, byte_Z b <? 0x80) (to_bytes s) = true →
  short_ascii (slen s) s.
Proof.
  intros H. split; [done|]. apply Forall_forall. intros b Hb.
  rewrite forallb_forall in H. apply Z.ltb_lt, H. by apply list_elem_of_In.
Qed.

Ltac short_text :=
  repeat match goal with
  | |- short_ascii _ (_ +:+ _) => eapply short_ascii_app
  | |- short_ascii _ (Itoa _) => by apply Itoa_short
  | |- short_ascii _ _ => apply literal_short; vm_compute; reflexivity
  end.

Lemma errText_short e : own_error e → short_ascii 100 (errText e).
Proof.
  intros He.
  assert (∃ k, k ≤ 100 ∧ short_ascii k (errText e)) as (k & Hk & Hs);
    [|by eapply short_ascii_le].
  destruct e; simpl in He; try done; destruct_and?; cbn [errText];
    eexists; (split; [|short_text]); vm_compute; congruence.
Qed.

(** The status codes that [serveLoop] closes with. *)
Definition server_status : list Z :=
  [StatusNormalClosure; StatusProtocolError; StatusUnsupportedPayload; StatusTooLarge;
   StatusServerError].

(** The close frames the server sends for its own errors are valid control
    frames: under 126 bytes, a status code that is not reserved, UTF-8 text. *)
Theorem closeFrame_valid status err max :
  status ∈ server_status → (∀ e, err = Some e → own_error e) →
  valid_frame (closeFrame status err) max.
Proof.
  intros Hst Herr.
  assert (∃ t, closePayload status err = be_encode 2 status ++ t ∧ blen t ≤ 100 ∧
      utf8_Valid t = true) as (t & Ht & Hlen & Hutf).
  { unfold closePayload. eexists. split; [done|]. destruct err as [e|]; [|done].
    destruct (errText_short e (Herr e eq_refl)) as [H1 H2].
    rewrite to_bytes_length. split; [done|by apply utf8_Valid_ascii]. }
  assert (1000 ≤ status < 5000 ∧
    status ∉ [1004; 1005; 1006; 1015; 1016; 1100; 2000; 2999]) as [Hr Hn].
  { unfold server_status in Hst.
    repeat (apply elem_of_cons in Hst as [->|Hst]; [split; [done|]; by apply (bool_decide_unpack _)|]).
    by apply elem_of_nil in Hst. }
  assert (blen (closePayload status err) = 2 + blen t) as Hb.
  { rewrite Ht. unfold blen. by rewrite length_app, be_encode_length, Nat2Z.inj_add. }
  assert (0 ≤ blen t) by (unfold blen; lia).
  split; simpl; [done|done| |].
  - intros _. rewrite Hb. split; [lia|done].
  - intros _. split; rewrite ?Hb; rewrite ?Ht;
      rewrite ?take_app_exact, ?drop_app_exact by by rewrite be_encode_length.
    + lia.
    + intros _. rewrite be_decode_encode. change (256 ^ Z.of_nat 2) with 65536.
      by rewrite Z.mod_small by lia.
    + intros _. rewrite be_decode_encode. change (256 ^ Z.of_nat 2) with 65536.
      by rewrite Z.mod_small by lia.
    + done.
Qed.

Lemma closeFrame_valid_witness :
  valid_frame (closeFrame StatusTooLarge (Some (ErrMessageSize 1048577 1048576))) 10.
Proof.
  apply (closeFrame_valid StatusTooLarge (Some (ErrMessageSize 1048577 1048576)) 10).
  - unfold server_status. apply (bool_decide_unpack _). reflexivity.
  - intros e [= <-]. split; apply (bool_decide_unpack _); reflexivity.
Defined.

(** ** Responses *)

Definition wholeFrame (msg : Message) : Frame :=
  MkFrame true false false false (if Binary msg then OpcodeBinary else OpcodeText)
    (MPayload msg).

Lemma frameLoop_stuck fuel msg fragmentSize opcode result :
  0 ≤ fragmentSize < blen (MPayload msg) →
  frameLoop fuel msg fragmentSize 0 opcode result = None.
Proof.
  intros H. revert result. induction fuel as [|n IH]; intros result; [done|].
  cbn [frameLoop]. ztest. apply IH.
Qed.

Lemma frameResponse_fits fuel msg fragmentSize :
  blen (MPayload msg) ≤ fragmentSize →
  frameResponse (S fuel) msg fragmentSize = Some (Ok [wholeFrame msg]).
Proof.
  intros H. unfold frameResponse. cbn [frameLoop].
  assert (0 ≤ blen (MPayload msg)) by (unfold blen; lia). ztest. cbn [app].
  unfold wholeFrame. rewrite Z.sub_0_r. unfold blen. rewrite Nat2Z.id.
  by rewrite drop_0, firstn_all.
Qed.

Lemma frameResponse_negative fuel msg fragmentSize :
  fragmentSize < 0 →
  frameResponse (S fuel) msg fragmentSize
  = Some (Panic ("runtime error: slice bounds out of range [:" +:+ Itoa fragmentSize +:+ "]")).
Proof.
  intros H. unfold frameResponse. cbn [frameLoop].
  assert (0 ≤ blen (MPayload msg)) by (unfold blen; lia). by ztest.
Qed.

(** (C38) A response that fits in a fragment becomes one final frame with the
    opcode of the message.  A longer one is never split: the loop appends the
    same first fragment for ever, whatever the fuel, unless the size is
    negative: then it panics at once. *)
Theorem frameResponse_behaviour msg fragmentSize :
  (blen (MPayload msg) ≤ fragmentSize →
   ∀ fuel, frameResponse (S fuel) msg fragmentSize = Some (Ok [wholeFrame msg])) ∧
  (0 ≤ fragmentSize < blen (MPayload msg) →
   ∀ fuel, frameResponse fuel msg fragmentSize = None) ∧
  (fragmentSize < 0 → ∀ fuel, ∃ w, frameResponse (S fuel) msg fragmentSize = Some (Panic w)).
Proof.
  split; [|split]; intros H fuel; [by apply frameResponse_fits|by apply frameLoop_stuck|].
  eexists. by apply frameResponse_negative.
Qed.

Definition sample_message : Message := MkMessage false (to_bytes "hello").

Lemma frameResponse_behaviour_witness :
  frameResponse 7 sample_message 5 = Some (Ok [wholeFrame sample_message]) ∧
  frameResponse 7 sample_message 4 = None.
Proof.
  split.
  - apply (proj1 (frameResponse_behaviour sample_message 5)). vm_compute. discriminate.
  - apply (proj1 (proj2 (frameResponse_behaviour sample_message 4))). split; [discriminate|reflexivity].
Defined.

(** ** The loop *)

Section Loop.
Context (F M : Z).

Definition msg_ok (m : Message) : Prop :=
  blen (MPayload m) ≤ M ∧ (Binary m = false → utf8_Valid (MPayload m) = true).
Definition cur_ok (cur : option Message) : Prop :=
  match cur with Some m => msg_ok m | None => True end.

#[local] Instance msg_ok_dec m : Decision (msg_ok m).
Proof. unfold msg_ok. apply _. Defined.

(** A handler that would panic on a message that is too long or not UTF-8. *)
Definition guarded (h : Handler) : Handler := λ m,
  if decide (msg_ok m) then h m else Panic "invalid message".

Lemma guarded_ok h m : msg_ok m → guarded h m = h m.
Proof. intros H. unfold guarded. by rewrite decide_True. Qed.

Lemma finishMessage_guarded h f m c :
  msg_ok m → finishMessage F h f m c = finishMessage F (guarded h) f m c.
Proof. intros H. unfold finishMessage, try_, lift. by rewrite (guarded_ok h m H). Qed.

(** A message only grows by what one step adds to it. *)
Lemma finishMessage_cur h f m c cur c' :
  finishMessage F h f m c = (Ok (Continue cur), c') → cur = Some m ∨ cur = None.
Proof.
  unfold finishMessage, try_, lift, mbind, GoM_bind. destruct (Fin f); [|intros [= <- _]; auto].
  destruct (h m) as [[r|]|e|w]; [|intros [= <- _]; auto| |done].
  - destruct (frameResponse _ r F) as [[fs|e|w]|]; [|done..].
    destruct (writeFrames fs c) as [[] ?]; [|done..]. intros [= <- _]; auto.
  - intros H. by apply closeWith_returns in H.
Qed.

(** Closing is the same for both handlers and never continues. *)
Definition step_ok (a b : GoM conn wsError step) (c : conn) : Prop :=
  a c = b c ∧ ∀ cur' c', a c = (Ok (Continue cur'), c') → cur_ok cur'.

Lemma closeWith_ok s e c : step_ok (closeWith s e) (closeWith s e) c.
Proof. split; [done|]. by intros ?? ?%closeWith_returns. Qed.

Lemma finishMessage_ok h f m c :
  msg_ok m → step_ok (finishMessage F h f m) (finishMessage F (guarded h) f m) c.
Proof.
  intros Hm. split; [by apply finishMessage_guarded|].
  intros cur' c' [->| ->]%finishMessage_cur; done.
Qed.

Lemma onData_ok h f cur c :
  F ≤ M → blen (Payload f) ≤ F → Opcode f = OpcodeBinary ∨ Opcode f = OpcodeText →
  step_ok (onData F h f cur) (onData F (guarded h) f cur) c.
Proof.
  intros HF Hf Ho. unfold onData.
  destruct cur as [m|]; [apply closeWith_ok|].
  destruct (_ && _) eqn:E; [apply closeWith_ok|].
  apply finishMessage_ok. split; [simpl; lia|]. cbn [Binary MPayload]. intros Hb.
  destruct Ho as [Ho|Ho]; rewrite Ho in *; [done|].
  by apply negb_false_iff in E.
Qed.

Lemma onContinuation_ok h f cur c :
  cur_ok cur →
  step_ok (onContinuation F M h f cur) (onContinuation F M (guarded h) f cur) c.
Proof.
  intros Hcur. unfold onContinuation.
  destruct cur as [m|]; [|apply closeWith_ok]. destruct Hcur as [Hlen Hutf].
  destruct (_ && _) eqn:E; [apply closeWith_ok|].
  destruct (M <? _) eqn:E'; [apply closeWith_ok|]. reflect_bools.
  apply finishMessage_ok. split; [done|]. cbn [Binary MPayload] in *. intros Hb.
  rewrite Hb in E. apply negb_false_iff in E. rewrite utf8_Valid_app; auto.
Qed.

Lemma onFrame_ok h f cur c :
  F ≤ M → (is_data (Opcode f) = true → blen (Payload f) ≤ F) → cur_ok cur →
  step_ok (onFrame F M h f cur) (onFrame F M (guarded h) f cur) c.
Proof.
  intros HF Hf Hcur. unfold onFrame, is_data in *.
  destruct ((Opcode f =? OpcodeBinary) || (Opcode f =? OpcodeText)) eqn:E1.
  { apply onData_ok; [done| |].
    - apply Hf. destruct (Opcode f =? OpcodeBinary), (Opcode f =? OpcodeText); 
        by rewrite ?orb_true_r.
    - apply orb_true_iff in E1 as [E1|E1]; reflect_bools; auto. }
  destruct (Opcode f =? OpcodeContinuation); [by apply onContinuation_ok|].
  destruct (Opcode f =? OpcodeClose).
  { split; [done|]. unfold mbind, GoM_bind.
    by destruct (writeCloseFrame _ _ c) as [[] ?]. }
  destruct (Opcode f =? OpcodePing).
  { split; [done|]. unfold mbind, GoM_bind. intros cur' c'.
    destruct (writeFrame _ c) as [[] ?]; [|done..]. by intros [= <- _]. }
  destruct (Opcode f =? OpcodePong); [|apply closeWith_ok].
  split; [done|]. by intros cur' c' [= <- _].
Qed.

Lemma serveStep_ok h done cur c :
  F ≤ M → cur_ok cur →
  step_ok (serveStep F M h done cur) (serveStep F M (guarded h) done cur) c.
Proof.
  intros HF Hcur. unfold serveStep. destruct done; [by split|].
  unfold step_ok, try_, lift. destruct (nextFrame c) as [[f|e|w] c1]; [|apply closeWith_ok|by split].
  destruct (validateFrame f F) as [[]|e|w] eqn:Ev; [|apply closeWith_ok|by split].
  apply onFrame_ok; [done| |done]. by apply validateFrame_valid in Ev as [_ ? _ _].
Qed.
End Loop.

(** (C31) The handler is only ever called on complete messages that respect the
    limits: at most [maxMessageSize] bytes, and valid UTF-8 when they are text.
    Replacing the handler by one that panics on any other message changes
    nothing, from any state of the connection. *)
Theorem serveLoop_messages_ok F M h fuel ctxDone i c :
  F ≤ M →
  serveLoop F M h fuel ctxDone i None c = serveLoop F M (guarded M h) fuel ctxDone i None c.
Proof.
  intros HF.
  assert (∀ cur, cur_ok M cur →
    serveLoop F M h fuel ctxDone i cur c = serveLoop F M (guarded M h) fuel ctxDone i cur c)
    as H; [|by apply H].
  revert i c. induction fuel as [|n IH]; intros i c cur Hcur; [done|].
  cbn [serveLoop]. unfold mbind, GoM_bind.
  destruct (serveStep_ok F M h (ctxDone i) cur c HF Hcur) as [<- Hnext].
  destruct (serveStep F M h (ctxDone i) cur c) as [[[cur'| |]|e|w] c1]; [|done..].
  by apply IH, (Hnext cur' c1).
Qed.

Lemma serveLoop_messages_ok_witness :
  serveLoop 16 64 EchoHandler 5 (λ _, false) 0 None
    (fresh_conn (clientBytes sample_key sample_frame))
  = serveLoop 16 64 (guarded 64 EchoHandler) 5 (λ _, false) 0 None
      (fresh_conn (clientBytes sample_key sample_frame)).
Proof. apply (serveLoop_messages_ok 16 64). lia. Defined.

(** ** Termination *)

Lemma readPayloadLength_consumes b c n c' :
  readPayloadLength b c = (Ok n, c') → (length (rd c') ≤ length (rd c))%nat.
Proof.
  unfold readPayloadLength, mbind, GoM_bind.
  destruct (_ <=? 125); [by intros [= _ <-]|].
  destruct (_ =? 126);
    (destruct (ReadFull _ c) as [[bs|e|w] c1] eqn:E; [|done..]);
    apply ReadFull_consumes in E; intros [= _ <-]; unfold blen in E; lia.
Qed.

Lemma nextFrame_consumes c f c' :
  nextFrame c = (Ok f, c') → (length (rd c') + 2 ≤ length (rd c))%nat.
Proof.
  unfold nextFrame, mbind, GoM_bind.
  destruct (ReadFull 2 c) as [[bb| |] c1] eqn:E1; [|done..].
  destruct (negb _); [done|].
  destruct (readPayloadLength _ c1) as [[n| |] c2] eqn:E2; [|done..].
  destruct (ReadFull 4 c2) as [[mask| |] c3] eqn:E3; [|done..].
  unfold makeslice. destruct (maxAlloc <? n); [done|]. cbn [mret GoM_ret].
  destruct (ReadFull n c3) as [[p| |] c4] eqn:E4; [|done..].
  intros [= _ <-]. apply readPayloadLength_consumes in E2.
  apply ReadFull_consumes in E1, E3, E4. unfold blen in *. lia.
Qed.

Lemma writeFrames_rd l c r c' : writeFrames l c = (r, c') → rd c' = rd c.
Proof.
  revert c. induction l as [|f l IH]; intros c; [by intros [= _ <-]|].
  cbn [writeFrames]. unfold mbind, GoM_bind.
  destruct (writeFrame f c) as [[[]| |] c1] eqn:E; apply writeFrame_rd in E.
  - intros H%IH. by rewrite H.
  - by intros [= _ <-].
  - by intros [= _ <-].
Qed.

Lemma finishMessage_rd F h f m c r c' :
  finishMessage F h f m c = (r, c') → rd c' = rd c.
Proof.
  unfold finishMessage, try_, lift, mbind, GoM_bind. destruct (Fin f); [|by intros [= _ <-]].
  destruct (h m) as [[resp|]|e|w]; [|by intros [= _ <-]|by intros ?%closeWith_rd|by intros [= _ <-]].
  destruct (frameResponse _ resp F) as [[fs|e|w]|]; [|by intros [= _ <-]..].
  destruct (writeFrames fs c) as [[] c1] eqn:E; apply writeFrames_rd in E;
    by intros [= _ <-].
Qed.

Lemma onFrame_rd F M h f cur c r c' : onFrame F M h f cur c = (r, c') → rd c' = rd c.
Proof.
  unfold onFrame, onData, onContinuation. intros H.
  repeat match type of H with
  | closeWith _ _ _ = _ => by apply closeWith_rd in H
  | finishMessage _ _ _ _ _ = _ => by apply finishMessage_rd in H
  | (match ?x with _ => _ end) _ = _ => destruct x
  | (if ?x then _ else _) _ = _ => destruct x
  end; unfold writeCloseFrame, mbind, GoM_bind in H; [..|by injection H as _ <-].
  all: destruct (writeFrame _ c) as [[] c1] eqn:E; apply writeFrame_rd in E;
    by injection H as _ <-.
Qed.

Lemma serveStep_consumes F M h done cur c cur' c' :
  serveStep F M h done cur c = (Ok (Continue cur'), c') →
  (length (rd c') < length (rd c))%nat.
Proof.
  unfold serveStep. destruct done; [done|]. unfold try_, lift.
  destruct (nextFrame c) as [[f|e|w] c1] eqn:E; [|by intros ?%closeWith_returns|done].
  apply nextFrame_consumes in E.
  destruct (validateFrame f F); [|by intros ?%closeWith_returns|done].
  intros H%onFrame_rd. rewrite H. lia.
Qed.

Lemma closeWith_not_hung s e c c' : closeWith s e c ≠ (Ok Looping, c').
Proof.
  unfold closeWith, mbind, GoM_bind. by destruct (writeCloseFrame _ _ c) as [[] ?].
Qed.

Lemma echo_step_not_hung F done cur c c' :
  cur_ok F cur → serveStep F F EchoHandler done cur c ≠ (Ok Looping, c').
Proof.
  intros Hcur. unfold serveStep. destruct done; [easy|]. unfold try_, lift.
  destruct (nextFrame c) as [[f|e|w] c1]; [|apply closeWith_not_hung|easy].
  destruct (validateFrame f F) as [[]|e|w] eqn:Ev; [|apply closeWith_not_hung|easy].
  apply validateFrame_valid in Ev as [_ Hd _ _]. unfold is_data in Hd.
  unfold onFrame, onData, onContinuation. intros H.
  repeat match type of H with
  | closeWith _ _ _ = _ => by apply closeWith_not_hung in H
  | finishMessage _ _ _ _ _ = _ => fail 1
  | (match ?x with _ => _ end) _ = _ => destruct x eqn:?
  | (if ?x then _ else _) _ = _ => destruct x eqn:?
  end; try done; unfold writeCloseFrame, mbind, GoM_bind in H;
    try (destruct (writeFrame _ c1) as [[] ?]; done).
  - unfold finishMessage, EchoHandler, try_, lift in H. destruct (Fin f); [|done].
    unfold frameFuel in H. rewrite frameResponse_fits in H.
    + unfold mbind, GoM_bind in H. by destruct (writeFrames _ c1) as [[] ?].
    + simpl. apply Hd.
      destruct (Opcode f =? OpcodeText), (Opcode f =? OpcodeBinary); by rewrite ?orb_true_r.
  - unfold finishMessage, EchoHandler, try_, lift in H. destruct (Fin f); [|done].
    unfold frameFuel in H. rewrite frameResponse_fits in H by (simpl in *; reflect_bools; lia).
    unfold mbind, GoM_bind in H. by destruct (writeFrames _ c1) as [[] ?].
Qed.

(** On every input the loop comes to an end: the iterations are bounded by
    the bytes the client sends.  With the echo handler and equal limits on
    fragments and messages, it cannot hang in [frameResponse] either. *)
Theorem serveLoop_terminates F M h fuel ctxDone c :
  (serveFuel c ≤ fuel)%nat →
  (∀ c', serveLoop F M h fuel ctxDone 0 None c ≠ (Ok OutOfFuel, c')) ∧
  (∀ c', serveLoop F F EchoHandler fuel ctxDone 0 None c ≠ (Ok Hung, c')).
Proof.
  unfold serveFuel. intros Hfuel. split.
  - assert (∀ i cur c', serveLoop F M h fuel ctxDone i cur c ≠ (Ok OutOfFuel, c')) as H;
      [|apply H].
    revert c Hfuel. induction fuel as [|n IH]; intros c Hfuel i cur c'; [lia|].
    cbn [serveLoop]. unfold mbind, GoM_bind.
    destruct (serveStep F M h (ctxDone i) cur c) as [[[cur'| |]|e|w] c1] eqn:E; try done.
    apply serveStep_consumes in E. apply IH. lia.
  - assert (∀ i cur c', cur_ok F cur →
      serveLoop F F EchoHandler fuel ctxDone i cur c ≠ (Ok Hung, c')) as H; [|by intros; apply H].
    clear Hfuel. revert c. induction fuel as [|n IH]; intros c i cur c' Hcur; [done|].
    cbn [serveLoop]. unfold mbind, GoM_bind.
    destruct (serveStep F F EchoHandler (ctxDone i) cur c) as [[[cur'| |]|e|w] c1] eqn:E;
      try done.
    + apply IH. by apply (serveStep_ok F F EchoHandler (ctxDone i) cur c) in E.
    + by apply echo_step_not_hung in E.
Qed.

Lemma serveLoop_terminates_witness :
  (∀ c', serveLoop 16 64 EchoHandler 12 (λ _, false) 0 None
     (fresh_conn (clientBytes sample_key sample_frame)) ≠ (Ok OutOfFuel, c')) ∧
  (∀ c', serveLoop 16 16 EchoHandler 12 (λ _, false) 0 None
     (fresh_conn (clientBytes sample_key sample_frame)) ≠ (Ok Hung, c')).
Proof.
  apply (serveLoop_terminates 16 64 EchoHandler 12 (λ _, false)
    (fresh_conn (clientBytes sample_key sample_frame))).
  vm_compute. lia.
Defined.

(** A message that arrives in one final frame comes back in one final frame
    with the same opcode and payload, and the loop is ready for the next
    message. *)
Theorem echo_single_frame F M key f r c :
  length key = 4%nat → valid_frame f F → frame_wf f → Fin f = true →
  (Opcode f = OpcodeBinary ∨ Opcode f = OpcodeText ∧ utf8_Valid (Payload f) = true) →
  healthy c → rd c = clientBytes key f ++ r →
  serveStep F M EchoHandler false None c
  = (Ok (Continue None), sent (serverBytes f) (set_rd r c)).
Proof.
  intros Hk Hv Hwf Hfin Ho Hc Hrd. unfold serveStep, try_, lift.
  rewrite (nextFrame_of_clientBytes key f r c) by done.
  rewrite (proj2 (validateFrame_valid f F) Hv). destruct Hv as [(E1 & E2 & E3) Hd _ _].
  destruct f as [fin r1 r3 r2 o p]. simpl in *. subst fin r1 r2 r3.
  assert (onFrame F M EchoHandler (MkFrame true false false false o p) None
    = finishMessage F EchoHandler (MkFrame true false false false o p)
        (MkMessage (o =? OpcodeBinary) p)) as ->.
  { unfold onFrame, onData. cbn [Opcode Payload].
    destruct Ho as [->|[-> ->]]; reflexivity. }
  unfold finishMessage, EchoHandler, try_, lift, frameFuel. cbn [Fin].
  rewrite frameResponse_fits by (simpl; apply Hd; destruct Ho as [->|[-> _]]; done).
  unfold mbind, GoM_bind. cbn [lift writeFrames]. unfold mbind, GoM_bind.
  rewrite writeFrame_serverBytes by (by apply set_rd_healthy). cbn [mret GoM_ret].
  do 3 f_equal. unfold wholeFrame. cbn [Binary MPayload].
  destruct Ho as [->|[-> _]]; reflexivity.
Qed.

Lemma echo_single_frame_witness :
  serveStep 16 64 EchoHandler false None
    (fresh_conn (clientBytes sample_key sample_frame ++ [x01]))
  = (Ok (Continue None), sent (serverBytes sample_frame) (fresh_conn [x01])).
Proof.
  apply (echo_single_frame 16 64 sample_key sample_frame [x01]
    (fresh_conn (clientBytes sample_key sample_frame ++ [x01]))).
  - reflexivity.
  - split; [done|by vm_compute|done|done].
  - split; [split; [done|reflexivity]|by vm_compute].
  - reflexivity.
  - right. split; reflexivity.
  - split; reflexivity.
  - reflexivity.
Defined.

(** ** What a client can do to the server *)

Definition zeros (n : Z) : list byte := repeat x00 (Z.to_nat n).

Lemma blen_zeros n : 0 ≤ n → blen (zeros n) = n.
Proof. intros H. unfold blen, zeros. rewrite repeat_length. lia. Qed.

Definition part1 (F : Z) : Frame :=
  MkFrame false false false false OpcodeBinary (zeros F).
Definition part2 : Frame :=
  MkFrame true false false false OpcodeContinuation (zeros 1).

(** A binary message of [F + 1] bytes in two fragments. *)
Definition hang_input (key : list byte) (F : Z) : list byte :=
  clientBytes key (part1 F) ++ clientBytes key part2.

Lemma part1_step F M key r c :
  0 ≤ F ≤ maxAlloc → length key = 4%nat → rd c = clientBytes key (part1 F) ++ r →
  serveStep F M EchoHandler false None c
  = (Ok (Continue (Some (MkMessage true (zeros F)))), set_rd r c).
Proof.
  intros HF Hk Hrd. unfold serveStep, try_, lift.
  rewrite (nextFrame_of_clientBytes key (part1 F) r c Hk);
    [|split; simpl; [done|rewrite blen_zeros; lia]|done].
  unfold validateFrame. cbn [part1 RSV1 RSV2 RSV3 orb Payload].
  rewrite blen_zeros, Z.ltb_irrefl, andb_false_r by lia. reflexivity.
Qed.

Lemma part2_step F M key c :
  1 ≤ F → F < M → length key = 4%nat → rd c = clientBytes key part2 →
  serveStep F M EchoHandler false (Some (MkMessage true (zeros F))) c
  = (Ok Looping, set_rd [] c).
Proof.
  intros HF HM Hk Hrd. unfold serveStep, try_, lift.
  rewrite (nextFrame_of_clientBytes key part2 [] c Hk);
    [|split; simpl; by vm_compute|by rewrite app_nil_r].
  unfold validateFrame, part2. cbn [RSV1 RSV2 RSV3 orb Payload].
  change (blen (zeros 1)) with 1. ztest. rewrite andb_false_r.
  assert (blen (zeros F ++ zeros 1) = F + 1) as Hlen.
  { unfold blen. rewrite length_app, Nat2Z.inj_add.
    change (Z.of_nat (length (zeros F))) with (blen (zeros F)).
    by rewrite blen_zeros by lia. }
  change (onFrame F M EchoHandler (MkFrame true false false false OpcodeContinuation (zeros 1))
           (Some (MkMessage true (zeros F))) (set_rd [] c) = (Ok Looping, set_rd [] c)).
  unfold onFrame, onContinuation. cbn [Opcode Payload Binary MPayload negb andb].
  change ((OpcodeContinuation =? OpcodeBinary) || (OpcodeContinuation =? OpcodeText)) with false.
  change (OpcodeContinuation =? OpcodeContinuation) with true. cbn iota.
  rewrite Hlen. ztest. unfold finishMessage, EchoHandler, try_, lift. cbn [Fin].
  unfold frameResponse. rewrite frameLoop_stuck by (cbn [MPayload]; lia). reflexivity.
Qed.

(** The echo server can be driven into an endless loop: whenever messages
    may be longer than fragments, a message of one byte more than a fragment,
    sent in two valid frames, makes [frameResponse] run for ever. *)
Theorem echo_hangs F M key ctxDone fuel c :
  1 ≤ F ≤ maxAlloc → F < M → length key = 4%nat → (∀ i, ctxDone i = false) →
  rd c = hang_input key F → (2 ≤ fuel)%nat →
  ∃ c', serveLoop F M EchoHandler fuel ctxDone 0 None c = (Ok Hung, c').
Proof.
  intros HF HM Hk Hdone Hrd Hfuel. destruct fuel as [|[|n]]; [lia..|].
  exists (set_rd [] c). cbn [serveLoop]. unfold mbind, GoM_bind. rewrite !Hdone.
  rewrite (part1_step F M key (clientBytes key part2) c) by (done || lia).
  by rewrite (part2_step F M key) by (done || lia).
Qed.

Lemma echo_hangs_witness :
  ∃ c', serveLoop 4 1000 EchoHandler 10 (λ _, false) 0 None
          (fresh_conn (hang_input sample_key 4)) = (Ok Hung, c').
Proof.
  apply (echo_hangs 4 1000 sample_key (λ _, false) 10 (fresh_conn (hang_input sample_key 4))).
  - unfold maxAlloc. lia.
  - lia.
  - reflexivity.
  - reflexivity.
  - reflexivity.
  - lia.
Defined.

(** A fourteen-byte frame header with a 64-bit length beyond what the
    runtime can allocate panics the loop, whatever the fragment limit: the
    length is used before it is validated. *)
Theorem oversized_length_panics F M h n key cur c :
  maxAlloc < n < 2 ^ 64 → length key = 4%nat →
  rd c = [x82; xff] ++ be_encode 8 n ++ key →
  ∃ c', serveStep F M h false cur c
    = (Panic "runtime error: makeslice: len out of range", c').
Proof.
  intros Hn Hk Hrd. eexists. unfold serveStep, try_, nextFrame, mbind, GoM_bind.
  rewrite (ReadFull_app 2 [x82; xff] (be_encode 8 n ++ key) c eq_refl Hrd).
  cbn [byte_at nth]. change (byte_Z xff) with 255.
  change (negb (bit 255 128)) with false. cbn iota.
  rewrite readPayloadLength_127. unfold mbind, GoM_bind.
  rewrite (ReadFull_app 8 (be_encode 8 n) key) by (done || by rewrite be_encode_length).
  rewrite be_decode_encode. change (256 ^ Z.of_nat 8) with (2 ^ 64).
  unfold maxAlloc in Hn. rewrite Z.mod_small by lia. cbn [mret GoM_ret].
  rewrite (ReadFull_app 4 key []) by (unfold blen; rewrite ?Hk, ?app_nil_r; done).
  unfold makeslice, maxAlloc. ztest. done.
Qed.

Lemma oversized_length_panics_witness :
  ∃ c', serveStep 1024 4096 EchoHandler false None
      (fresh_conn ([x82; xff] ++ be_encode 8 (2 ^ 62) ++ sample_key))
    = (Panic "runtime error: makeslice: len out of range", c').
Proof.
  apply (oversized_length_panics 1024 4096 EchoHandler (2 ^ 62) sample_key None).
  - unfold maxAlloc. lia.
  - reflexivity.
  - reflexivity.
Defined.
