(* ===== verification/Handshake.v ===== *)
(** * Handshake: opening a websocket

    [New], [Handshake], [Serve] and [acceptKey] of [websocket.go], and the handler
    [WebSocketEcho].  The handler ends with the websocket to serve; what happens on
    the hijacked connection is [Serve], the loop of [Websocket]. *)

From S2P Require Import Prelude GoStrings GoNum GoFmt Base64 Json GoURL Http HttpLaws Handles Bodies.
From S2P Require Import Delay ClientIP Bin Handlers Streams StreamsSpec.
From S2P Require Websocket.

Record WebSocket := MkWebSocket {
  ws_limits : Websocket.Limits;
  handshook : bool;
}.

Definition New (limits : Websocket.Limits) : WebSocket := MkWebSocket limits false.

Section Handshake.
Context `{GoStd, Runtime} (h : HTTPBin).

Definition acceptKey (clientKey : string) : string :=
  EncodeToString StdEncoding
    (sha1_Sum (to_bytes (clientKey +:+ "258EAFA5-E914-47DA-95CA-C5AB0DC85B11"))).

Definition Handshake (ws : WebSocket) : M WebSocket :=
  if handshook ws then panic "websocket: handshake already completed" else
  r ← get_req;
  let v := Header_Get "Sec-Websocket-Version" (RHeader r) in
  let clientKey := Header_Get "Sec-Websocket-Key" (RHeader r) in
  if negb (String.eqb (ToLower (Header_Get "Upgrade" (RHeader r))) "websocket")
  then throw (Errorf "missing required `Upgrade: websocket` header" [])
  else if negb (String.eqb v Websocket.requiredVersion)
  then throw (Errorf "only websocket version %q is supported, got %q"
                [AStr Websocket.requiredVersion; AStr v])
  else if String.eqb clientKey ""
  then throw (Errorf "missing required `Sec-Websocket-Key` header" [])
  else
    _ ← SetHeader "Connection" "upgrade";
    _ ← SetHeader "Upgrade" "websocket";
    _ ← SetHeader "Sec-Websocket-Accept" (acceptKey clientKey);
    _ ← WriteHeader 101;
    mret (MkWebSocket (ws_limits ws) true).

(** A limit in the query: an int32 between 1 and the maximal body size. *)
Definition sizeLimit (name raw : string) (def : Z) : M Z :=
  optional raw def (λ v,
    n ← wrap_err ("invalid " +:+ name +:+ ": %w") (numErr "ParseInt" v (ParseInt 32 v));
    if (n <? 1) || (MaxBodySize h <? n)
    then throw (Errorf ("invalid " +:+ name +:+ ": %d not in range [1, %d]")
                  [AInt n; AInt (MaxBodySize h)])
    else mret n).

Definition echoLimits (q : values) : M Websocket.Limits :=
  maxFragmentSize ← sizeLimit "max_fragment_size" (Values_Get "max_fragment_size" q)
                      (Z.quot (MaxBodySize h) 2);
  maxMessageSize ← sizeLimit "max_message_size" (Values_Get "max_message_size" q) (MaxBodySize h);
  if maxMessageSize <? maxFragmentSize
  then throw (Errorf "max_fragment_size %d must be less than or equal to max_message_size %d"
                [AInt maxFragmentSize; AInt maxMessageSize])
  else mret (Websocket.MkLimits (MaxDuration h) maxFragmentSize maxMessageSize).

(** The websocket to serve, if the handshake succeeds. *)
Definition WebSocketEcho : M (option WebSocket) :=
  r ← get_req;
  let refuse e := _ ← writeError 400 (Some e); mret None in
  try_ (echoLimits (Query (URL r))) refuse (λ limits,
  try_ (Handshake (New limits)) refuse (λ ws, mret (Some ws))).
End Handshake.

(** [Serve] on the hijacked connection; [ctxDone i] says whether the context is done
    before the [i]-th frame.  The deadline of the connection shows as reads that fail. *)
Definition Serve (handler : Websocket.Handler) (ctxDone : nat → bool) (ws : WebSocket)
    : GoM Websocket.conn Websocket.wsError Websocket.loopEnd := λ c,
  if negb (handshook ws) then (Panic "websocket: serve: handshake not completed", c)
  else Websocket.serveLoop (Websocket.MaxFragmentSize (ws_limits ws))
         (Websocket.MaxMessageSize (ws_limits ws)) handler (Websocket.serveFuel c) ctxDone 0 None c.

(** ** Limits and answers *)

Section Spec.
Context `{GoStd, Runtime} (h : HTTPBin).
Context (Hmax : 2 ≤ MaxBodySize h ≤ maxInt64).

Definition limits_ok (l : Websocket.Limits) : Prop :=
  1 ≤ Websocket.MaxFragmentSize l ≤ Websocket.MaxMessageSize l ∧
  Websocket.MaxMessageSize l ≤ MaxBodySize h.

Lemma sizeLimit_ok name raw def :
  1 ≤ def ≤ MaxBodySize h → parses (λ n, 1 ≤ n ≤ MaxBodySize h) (sizeLimit h name raw def).
Proof.
  intros Hd. unfold sizeLimit. apply parses_optional; [done|]. intros v.
  apply (parses_bind (λ _, True)).
  - apply parses_wrap_err; [done|]. unfold numErr. intros w. destruct (ParseInt 32 v) eqn:E; [done..|].
    by apply ParseInt_never_panics in E.
  - intros n _. destruct (n <? 1) eqn:E1, (MaxBodySize h <? n) eqn:E2; cbn [orb];
      try apply parses_throw. reflect_bools. apply parses_ret. lia.
Qed.

Lemma echoLimits_ok q : parses limits_ok (echoLimits h q).
Proof.
  assert (1 ≤ Z.quot (MaxBodySize h) 2 ≤ MaxBodySize h) as Hq.
  { rewrite Z.quot_div_nonneg by lia. Z.div_mod_to_equations. lia. }
  eapply parses_bind; [by apply sizeLimit_ok|]. intros f Hf.
  eapply parses_bind; [apply sizeLimit_ok; lia|]. intros m Hm.
  destruct (m <? f) eqn:E; reflect_bools; [apply parses_throw|]. apply parses_ret.
  unfold limits_ok. cbn in *. lia.
Qed.

(** The request that a client must send. *)
Definition wants_websocket (r : Request) : Prop :=
  ToLower (Header_Get "Upgrade" (RHeader r)) = "websocket" ∧
  Header_Get "Sec-Websocket-Version" (RHeader r) = "13" ∧
  Header_Get "Sec-Websocket-Key" (RHeader r) ≠ "".

Lemma Handshake_accepts ws s :
  handshook ws = false → startable s → wants_websocket (req s) →
  ∃ s', Handshake ws s = (Ok (MkWebSocket (ws_limits ws) true), s') ∧
    status (wr s') = Some 101 ∧ link s' = link s ∧
    Header_Get "Sec-Websocket-Accept" (sent (wr s'))
    = acceptKey (Header_Get "Sec-Websocket-Key" (RHeader (req s))).
Proof.
  intros Hh Hs (H1 & H2 & H3). unfold Handshake. rewrite Hh. unfold mbind, GoM_bind, get_req.
  apply String.eqb_eq in H1, H2. apply String.eqb_neq in H3.
  change "13" with Websocket.requiredVersion in H2. rewrite H1, H2, H3. cbn [negb].
  rewrite !SetHeader_run. cbn [wr set_wr]. set (s1 := set_wr _ (set_wr _ (set_wr _ s))).
  assert (startable s1) as Hs1 by (by apply startable_header, startable_header, startable_header).
  pose proof (startable_fresh _ Hs1) as [Ht1 Hf1]. unfold WriteHeader.
  assert (final 101) as Hc by (split; [lia|reflexivity]).
  destruct (w_WriteHeader_final 101 (wr s1) Hc Ht1 Hf1) as (w & E & Hw & Ht). rewrite E.
  eexists. split; [reflexivity|]. cbn [wr set_wr]. split; [done|]. split; [done|].
  pose proof (w_WriteHeader_base _ _ _ Ht1 E) as Eb. unfold sent.
  rewrite (base_WriteHeader_header _ _ _ _ Hc Hf1 Eb) by done.
  unfold s1. cbn [wr set_wr]. rewrite !rHeader_set_header. apply Header_Get_Set.
Qed.

Lemma Handshake_refuses ws s :
  handshook ws = false → ¬ wants_websocket (req s) → ∃ e, Handshake ws s = (Err e, s).
Proof.
  intros Hh Hn. unfold Handshake. rewrite Hh. unfold mbind, GoM_bind, get_req.
  destruct (String.eqb_spec (ToLower (Header_Get "Upgrade" (RHeader (req s)))) "websocket") as [E1|];
    cbn [negb]; [|by eexists].
  destruct (String.eqb_spec (Header_Get "Sec-Websocket-Version" (RHeader (req s))) Websocket.requiredVersion)
    as [E2|]; cbn [negb]; [|by eexists].
  destruct (String.eqb_spec (Header_Get "Sec-Websocket-Key" (RHeader (req s))) "") as [E3|E3]; [by eexists|].
  by destruct Hn.
Qed.

(** Both ends of [WebSocketEcho]. *)
Lemma echo_upgrade s :
  startable s →
  (∃ ws s', WebSocketEcho h s = (Ok (Some ws), s') ∧ wants_websocket (req s) ∧ handshook ws = true ∧
     limits_ok (ws_limits ws) ∧ status (wr s') = Some 101 ∧ link s' = link s ∧
     Header_Get "Sec-Websocket-Accept" (sent (wr s'))
     = acceptKey (Header_Get "Sec-Websocket-Key" (RHeader (req s)))) ∨
  (∃ s', WebSocketEcho h s = (Ok None, s') ∧ answered 400 s s' ∧
     (wants_websocket (req s) → is_ok (echoLimits h (Query (URL (req s))) s).1 = false)).
Proof.
  intros Hs. unfold WebSocketEcho, try_, mbind, GoM_bind, get_req.
  assert (∀ e, ∃ s', writeError 400 (Some e) s = (Ok tt, s') ∧ answered 400 s s') as Herr.
  { intros e. apply writeError_fresh; [by apply final_200|by apply startable_fresh]. }
  pose proof (echoLimits_ok (Query (URL (req s))) s) as Hl.
  destruct (echoLimits h (Query (URL (req s))) s) as [[l|e|w] s1]; [| |done].
  - destruct Hl as [-> Hl].
    assert (Decision (wants_websocket (req s))) as [Hw|Hw] by (unfold wants_websocket; apply _).
    + destruct (Handshake_accepts (New l) s eq_refl Hs Hw) as (s' & -> & Hst & Hk & Hacc).
      left. by exists (MkWebSocket l true), s'.
    + destruct (Handshake_refuses (New l) s eq_refl Hw) as (e & ->).
      destruct (Herr e) as (s' & -> & Ha). right. exists s'.
      split; [done|]. by split.
  - subst s1. destruct (Herr e) as (s' & -> & Ha). right. exists s'.
    split; [done|]. by split.
Qed.

(** (C39) [WebSocketEcho] answers a request that asks for version 13 with a key by 101
    and the accept key of RFC 6455 (the base64 of the SHA-1 of the key and the GUID of the
    protocol), and serves with limits that are ordered and within
    the maximal body size; any other request, or limits out of range, is answered with
    400, and nothing is served. *)
Theorem WebSocketEcho_spec s :
  startable s →
  let key := Header_Get "Sec-Websocket-Key" (RHeader (req s)) in
  (∃ ws s', WebSocketEcho h s = (Ok (Some ws), s') ∧ wants_websocket (req s) ∧
     handshook ws = true ∧ limits_ok (ws_limits ws) ∧ status (wr s') = Some 101 ∧
     Header_Get "Sec-Websocket-Accept" (sent (wr s'))
     = EncodeToString StdEncoding (sha1_Sum (to_bytes (key +:+ "258EAFA5-E914-47DA-95CA-C5AB0DC85B11")))) ∨
  (∃ s', WebSocketEcho h s = (Ok None, s') ∧ answered 400 s s' ∧
     (wants_websocket (req s) → is_ok (echoLimits h (Query (URL (req s))) s).1 = false)).
Proof.
  intros Hs key. destruct (echo_upgrade s Hs) as [(ws & s' & E & Hw & Hh & Hl & Hst & _ & Hk)|Hr]; [left|by right].
  by exists ws, s'.
Qed.
End Spec.

From S2P Require Import Samples.

Definition ws_request : World :=
  sample_world (set_RHeader
    (Header_Set "Upgrade" "WebSocket" (Header_Set "Sec-Websocket-Version" "13"
      (Header_Set "Sec-Websocket-Key" "abc" ∅)))
    (sample_request "GET" "/websocket/echo" "max_message_size=100&max_fragment_size=10")).

Lemma WebSocketEcho_spec_witness :
  ∃ ws s', WebSocketEcho sample_bin ws_request = (Ok (Some ws), s') ∧ handshook ws = true ∧
    limits_ok sample_bin (ws_limits ws) ∧ status (wr s') = Some 101.
Proof.
  destruct (WebSocketEcho_spec sample_bin ltac:(by_computation) ws_request ltac:(by split))
    as [(ws & s' & E1 & _ & E2 & E3 & E4 & _)|(s' & _ & _ & E)].
  - exists ws, s'. split; [exact E1|]. split; [exact E2|]. split; [exact E3|exact E4].
  - assert (wants_websocket (req ws_request)) as Hw
      by (split; [vm_compute; reflexivity|split; [vm_compute; reflexivity|vm_compute; discriminate]]).
    specialize (E Hw). vm_compute in E. discriminate E.
Defined.
