(* ===== verification/Hijack.v ===== *)
(** * Hijack: handlers that take over the connection

    [Hijack] through the wrappers of the response writer ([middleware.go],
    [pipeline.go]), the handler [Close], and [Serve] of [websocket.go] up to its loop.
    What happens on a connection that serves a websocket is [Handshake.Serve]. *)

From S2P Require Import Prelude GoStrings GoNum GoFmt Json GoURL Http HttpLaws Handles Bodies.
From S2P Require Import Delay ClientIP Bin Handlers Streams StreamsSpec Handshake.
From S2P Require Websocket.

(** Whether a writer implements [http.Hijacker]: the wrappers always do. *)
Definition is_hijacker (l : transport) (w : writer) : bool :=
  match w with Base _ => match l with Multiplexed => false | _ => true end | _ => true end.

Definition notHijacker : string := "interface conversion: http.ResponseWriter is not http.Hijacker: missing method Hijack".
Definition ErrHijacked : gerror := GoFmt.New "http: connection has been hijacked".

Fixpoint w_Hijack (l : transport) (w : writer) : outcome gerror unit :=
  match w with
  | Base _ => match l with
              | Kept => Ok tt
              | Multiplexed => Panic notHijacker
              | _ => Err ErrHijacked
              end
  | MetaRW w _ _ | HeadRW w _ _ => if is_hijacker l w then w_Hijack l w else Panic notHijacker
  | OverrideRW w _ _ =>
      if is_hijacker l w then w_Hijack l w
      else Err (Errorf "underlying writer does not support hijacking" [])
  end.

Definition hijackable : M bool := λ s, (Ok (is_hijacker (link s) (wr s)), s).
Definition Hijack : M unit := λ s, (w_Hijack (link s) (wr s), s).
Definition take_over (l : transport) : M unit := λ s, (Ok tt, set_link l s).

Definition CRLF : string := str1 CR +:+ str1 LF.

(** What is sent before the connection is closed. *)
Definition closeHead : string := "HTTP/1.1 200 OK" +:+ CRLF +:+ "Content-Type: text/plain" +:+ CRLF.
Definition closeRaw (after : string) : string :=
  if String.eqb after "headers" then closeHead +:+ CRLF
  else if String.eqb after "partial"
  then closeHead +:+ "Content-Length: 1024" +:+ CRLF +:+ CRLF +:+ "partial data..."
  else "".

(** The connection under TLS is no [net.TCPConn]. *)
Definition closeReset (mode : string) (r : Request) : bool := String.eqb mode "reset" && negb (TLS r).

Section Close.
Context `{GoStd, Runtime} (h : HTTPBin).

Definition Close : HandlerFunc :=
  ok ← hijackable;
  if negb ok then writeError 500 (Some (Errorf "server does not support hijacking" [])) else
  r ← get_req;
  let q := Query (URL r) in
  try_ Hijack (λ e, writeError 500 (Some e)) (λ _,
  take_over (Closed (closeRaw (Values_Get "after" q)) (closeReset (Values_Get "mode" q) r))).

Definition serveWebSocket (ws : WebSocket) : HandlerFunc :=
  if negb (handshook ws) then panic "websocket: serve: handshake not completed" else
  ok ← hijackable;
  if negb ok then panic "websocket: serve: server does not support hijacking" else
  try_ Hijack (λ e, panic ("websocket: serve: hijack failed: " +:+ Error e)) (λ _,
  let l := ws_limits ws in
  take_over (Upgraded (Websocket.MaxDuration l) (Websocket.MaxFragmentSize l) (Websocket.MaxMessageSize l))).

(** [WebSocketEcho] to its end. *)
Definition WebSocketEchoHandler : HandlerFunc :=
  ws ← WebSocketEcho h;
  match ws with Some ws => serveWebSocket ws | None => mret tt end.
End Close.

(** ** What the client gets *)

#[export] Instance Handles_hijackable : Handles hijackable.
Proof. by intros s. Qed.
#[export] Instance Handles_Hijack : Handles Hijack.
Proof. by intros s. Qed.
#[export] Instance Handles_take_over l : Handles (take_over l).
Proof. by intros s. Qed.

Lemma w_Hijack_kept w : w_Hijack Kept w = Ok tt.
Proof. induction w as [r|w IH st n|w IH st n|w IH c d]; [done|..]; cbn; by destruct w. Qed.

(** Over HTTP/2, the writer of the server is the only one that admits it. *)
Lemma w_Hijack_multiplexed w : is_ok (w_Hijack Multiplexed w) = false.
Proof. induction w as [r|w IH st n|w IH st n|w IH c d]; [done|..]; cbn; by destruct w. Qed.

Section Spec.
Context `{GoStd, Runtime} (h : HTTPBin).

(** The bytes that a client reads are never a complete response: there is no status line
    at all, a header that promises more than the connection, which is closed at once,
    delivers, or a header of a body that only ends with the connection. *)
Lemma closeRaw_incomplete after :
  closeRaw after = "" ∨ closeRaw after = closeHead +:+ CRLF ∨
  ∃ b, closeRaw after = closeHead +:+ "Content-Length: 1024" +:+ CRLF +:+ CRLF +:+ b ∧ slen b < 1024.
Proof.
  unfold closeRaw. destruct (String.eqb after "headers"); [by right; left|].
  destruct (String.eqb after "partial"); [|by left]. right; right. by exists "partial data...".
Qed.

(** /close writes no response: the connection of HTTP/1 is closed after the bytes that
    the parameter [after] asks for, with a reset when [mode] asks for one and the
    connection is plain TCP. *)
Theorem Close_closes s :
  link s = Kept →
  let q := Query (URL (req s)) in
  Close s = (Ok tt, set_link (Closed (closeRaw (Values_Get "after" q)) (closeReset (Values_Get "mode" q) (req s))) s).
Proof.
  intros Hl q. unfold Close, hijackable, mbind, GoM_bind. rewrite Hl.
  assert (is_hijacker Kept (wr s) = true) as -> by by destruct (wr s). cbn [negb].
  unfold get_req, try_, Hijack. by rewrite Hl, w_Hijack_kept.
Qed.

(** Over HTTP/2 it answers 500; but behind a [metaResponseWriter] (an observed server, or
    the method HEAD) it panics. *)
Theorem Close_multiplexed s :
  link s = Multiplexed → fresh s →
  match wr s with
  | Base _ => ∃ s', Close s = (Ok tt, s') ∧ answered 500 s s'
  | MetaRW (Base _) _ _ | HeadRW (Base _) _ _ => (Close s).1 = Panic notHijacker
  | _ => True
  end.
Proof.
  intros Hl Hs. destruct (wr s) as [r|[]| []|] eqn:E; try done;
    unfold Close, hijackable, mbind, GoM_bind; rewrite Hl, E; cbn [is_hijacker negb].
  - by apply writeError_fresh; [by apply final_200|].
  - unfold get_req, try_, Hijack. by rewrite Hl, E.
  - unfold get_req, try_, Hijack. by rewrite Hl, E.
Qed.

(** A websocket that is accepted takes over the connection with the limits of the
    request. *)
Theorem WebSocketEchoHandler_upgrades s :
  2 ≤ MaxBodySize h ≤ maxInt64 → startable s → link s = Kept →
  ∃ s', WebSocketEchoHandler h s = (Ok tt, s') ∧
    ((status (wr s') = Some 101 ∧ wants_websocket (req s) ∧
      ∃ l, limits_ok h l ∧
        link s' = Upgraded (Websocket.MaxDuration l) (Websocket.MaxFragmentSize l) (Websocket.MaxMessageSize l)) ∨
     (link s' = Kept ∧ answered 400 s s')).
Proof.
  intros Hmax Hs Hl. unfold WebSocketEchoHandler, mbind, GoM_bind.
  destruct (echo_upgrade h Hmax s Hs) as [(ws & s1 & -> & Hw & Hh & Hlim & Hst & Hk & _)|(s1 & -> & Ha & _)].
  - unfold serveWebSocket. rewrite Hh. cbn [negb]. unfold hijackable, mbind, GoM_bind. rewrite Hk, Hl.
    assert (is_hijacker Kept (wr s1) = true) as -> by by destruct (wr s1). cbn [negb].
    unfold try_, Hijack. rewrite Hk, Hl, w_Hijack_kept. eexists. split; [reflexivity|]. left.
    split; [done|]. split; [done|]. by exists (ws_limits ws).
  - exists s1. split; [done|]. right. by rewrite (ans_link _ _ _ Ha).
Qed.
End Spec.
