(* ===== verification/ServeMux.v ===== *)
(** * ServeMux: the router of [net/http]

    [http.ServeMux] with the patterns that a server of this program uses: an optional
    method and a path whose segments are literals, wildcards for one segment, a trailing
    slash or the end of the path.  The tree of patterns is the list of the patterns with
    what is left of their segments.  [http.Redirect] is here as well. *)

From S2P Require Import Prelude GoStrings GoNum GoTime GoFmt Json GoURL GoURLParse GoMime Http GoNet RateLimit.
From S2P Require Import ClientIP Bin Middleware.

(** ** Patterns *)

(** The end of the path, [{$}], is the literal slash, as in Go. *)
Inductive segment := Lit (s : string) | Wild (name : string) | Multi.

#[export] Instance segment_eq_dec : EqDecision segment.
Proof. solve_decision. Defined.

Record pattern := MkPattern { p_method : string; p_segments : list segment }.

#[export] Instance pattern_eq_dec : EqDecision pattern.
Proof. solve_decision. Defined.

(** [cleanPath] *)
Definition cleanPath (p : string) : string :=
  if String.eqb p "" then "/"
  else
    let p := if HasPrefix p "/" then p else "/" +:+ p in
    let np := Clean p in
    if HasSuffix p "/" && negb (String.eqb np "/") then np +:+ "/" else np.

Definition pathUnescape (s : string) : string := default s (unescape false s).

Definition is_letter_ (c : ascii) : bool := is_letter c || Ascii.eqb c "_".
Definition isValidWildcardName (s : string) : bool :=
  match s with
  | "" => false
  | String c s' => is_letter_ c && string_forall (λ c, is_letter_ c || is_digit c) s'
  end.

(** The segments after the first slash; nothing for a pattern that is refused. *)
Fixpoint parseSegments (seen : list string) (pieces : list string) : option (list segment) :=
  match pieces with
  | [] => Some []
  | seg :: rest =>
      if String.eqb seg "" && bool_decide (rest = []) then Some [Multi]
      else if negb (contains_char "{" seg) then
        segs ← parseSegments seen rest; Some (Lit (pathUnescape seg) :: segs)
      else if negb (HasPrefix seg "{" && HasSuffix seg "}") then None
      else
        let name := stake (String.length seg - 2) (sdrop 1 seg) in
        if String.eqb name "$" then (if bool_decide (rest = []) then Some [Lit "/"] else None)
        else if negb (isValidWildcardName name) || bool_decide (name ∈ seen) then None
        else segs ← parseSegments (name :: seen) rest; Some (Wild name :: segs)
  end.

(** [parsePattern] for patterns without a host and without named rests. *)
Definition parsePattern (s : string) : option pattern :=
  let '(method, path, found) := Cut " " s in
  let '(method, path) := if (found : bool) then (method, path) else ("", method) in
  if negb (HasPrefix path "/") then None
  else if nonempty method && negb (String.eqb path (cleanPath path)) then None
  else segs ← parseSegments [] (Split "/" (sdrop 1 path)); Some (MkPattern method segs).

Definition last_multi (segs : list segment) : bool := bool_decide (last segs = Some Multi).

(** ** Conflicts *)

Inductive relationship := equivalent | moreGeneral | moreSpecific | disjoint | overlaps.

#[export] Instance relationship_eq_dec : EqDecision relationship.
Proof. solve_decision. Defined.

Definition combineRelationships (r1 r2 : relationship) : relationship :=
  match r1, r2 with
  | equivalent, _ => r2
  | disjoint, _ => disjoint
  | overlaps, disjoint => disjoint
  | overlaps, _ => overlaps
  | _, equivalent => r1
  | moreGeneral, moreSpecific | moreSpecific, moreGeneral => overlaps
  | _, _ => r2
  end.

Definition compareMethods (m1 m2 : string) : relationship :=
  if String.eqb m1 m2 then equivalent
  else if String.eqb m1 "" then moreGeneral
  else if String.eqb m2 "" then moreSpecific
  else if String.eqb m1 "GET" && String.eqb m2 "HEAD" then moreGeneral
  else if String.eqb m2 "GET" && String.eqb m1 "HEAD" then moreSpecific
  else disjoint.

Definition compareSegments (s1 s2 : segment) : relationship :=
  match s1, s2 with
  | Multi, Multi => equivalent
  | Multi, _ => moreGeneral
  | _, Multi => moreSpecific
  | Wild _, Wild _ => equivalent
  | Wild _, Lit s => if String.eqb s "/" then disjoint else moreGeneral
  | Lit s, Wild _ => if String.eqb s "/" then disjoint else moreSpecific
  | Lit a, Lit b => if String.eqb a b then equivalent else disjoint
  end.

Fixpoint compareSegs (rel : relationship) (l1 l2 : list segment) : relationship :=
  match l1, l2 with
  | [], [] => rel
  | [], _ => combineRelationships rel moreGeneral
  | _, [] => combineRelationships rel moreSpecific
  | s1 :: l1, s2 :: l2 =>
      match combineRelationships rel (compareSegments s1 s2) with
      | disjoint => disjoint
      | rel => compareSegs rel l1 l2
      end
  end.

Definition comparePaths (l1 l2 : list segment) : relationship :=
  if negb (length l1 =? length l2)%nat && negb (last_multi l1) && negb (last_multi l2) then disjoint
  else if (length l1 <? length l2)%nat && negb (last_multi l1) then disjoint
  else if (length l2 <? length l1)%nat && negb (last_multi l2) then disjoint
  else compareSegs equivalent l1 l2.

Definition conflictsWith (p1 p2 : pattern) : bool :=
  match combineRelationships (compareMethods (p_method p1) (p_method p2))
          (comparePaths (p_segments p1) (p_segments p2)) with
  | equivalent | overlaps => true
  | _ => false
  end.

(** ** Matching *)

(** The segments of a path that starts with a slash: a slash at its end is one. *)
Fixpoint segmentsOf (pieces : list string) : list string :=
  match pieces with
  | [] => []
  | [p] => [if String.eqb p "" then "/" else pathUnescape p]
  | p :: pieces => pathUnescape p :: segmentsOf pieces
  end.
Definition pathSegments (path : string) : list string :=
  if String.eqb path "" then [] else segmentsOf (Split "/" (sdrop 1 path)).

Section Mux.
Context {A : Type}.

(** What is left of the segments of a registered pattern, and the pattern. *)
Abbreviation cand := (list segment * (pattern * A))%type.

Definition child (seg : string) (cs : list cand) : list cand :=
  omap (λ c : cand, match c.1 with
                    | Lit s :: rest => if String.eqb s seg then Some (rest, c.2) else None
                    | _ => None
                    end) cs.
Definition emptyChild (cs : list cand) : list cand :=
  omap (λ c : cand, match c.1 with Wild _ :: rest => Some (rest, c.2) | _ => None end) cs.
Definition here (cs : list cand) : option (pattern * A) :=
  head (omap (λ c : cand, match c.1 with [] => Some c.2 | _ => None end) cs).
Definition multiChild (cs : list cand) : option (pattern * A) :=
  head (omap (λ c : cand, match c.1 with [Multi] => Some c.2 | _ => None end) cs).
Definition findChild (seg : string) (cs : list cand) : list cand :=
  if String.eqb seg "" then emptyChild cs else child seg cs.

(** Literals first, then wildcards, then the rest of the path. *)
Fixpoint matchPath (segs : list string) (cs : list cand) (matches : list string)
    : option (pattern * A * list string) :=
  match segs with
  | [] => match here cs with Some r => Some (r, matches) | None => None end
  | seg :: rest =>
      match matchPath rest (findChild seg cs) matches with
      | Some r => Some r
      | None =>
          match (if String.eqb seg "/" then None
                 else matchPath rest (emptyChild cs) (matches ++ [seg])) with
          | Some r => Some r
          | None => match multiChild cs with Some r => Some (r, matches) | None => None end
          end
      end
  end.

Variable routes : list (pattern * A).

(** The routes of a method. *)
Definition method_routes (m : string) : list cand :=
  map (λ r, (p_segments r.1, r)) (filter (λ r, p_method r.1 = m) routes).

Definition match_ (method path : string) : option (pattern * A * list string) :=
  let segs := pathSegments path in
  let try m := matchPath segs (method_routes m) [] in
  match (if String.eqb method "" then None else try method) with
  | Some r => Some r
  | None =>
      match (if String.eqb method "HEAD" then try "GET" else None) with
      | Some r => Some r
      | None => try ""
      end
  end.

Definition exactMatch (r : option (pattern * A * list string)) (path : string) : bool :=
  match r with
  | None => false
  | Some (p, _, _) =>
      if negb (last_multi (p_segments p)) then true
      else if nonempty path && negb (HasSuffix path "/") then false
      else (length (p_segments p) =? count_char "/" path)%nat
  end.

Definition relativeURL (path query : string) : Url :=
  MkUrl "" "" None "" path "" false query "" "" false.

Definition matchOrRedirect (method path : string) (u : option Url)
    : option (pattern * A * list string) * option Url :=
  let n := match_ method path in
  match u with
  | Some u =>
      if negb (exactMatch n path) && negb (HasSuffix path "/") then
        let path := path +:+ "/" in
        let n2 := match_ method path in
        if exactMatch n2 path then (None, Some (relativeURL (cleanPath (Path u) +:+ "/") (RawQuery u)))
        else (n, None)
      else (n, None)
  | None => (n, None)
  end.

(** Whether a route of the method matches. *)
Definition reaches (path m : string) : bool :=
  match matchPath (pathSegments path) (method_routes m) [] with Some _ => true | None => false end.

(** The methods of the routes that match, in order. *)
Definition matchingMethods (path : string) : list string :=
  let ms := filter (λ m, nonempty m ∧ (reaches path m ∨ HasSuffix path "/" = false ∧ reaches (path +:+ "/") m))
              (map (λ r, p_method r.1) routes) in
  merge_sort key_le (remove_dups (ms ++ if bool_decide ("GET" ∈ ms) then ["HEAD"] else [])).

Inductive found :=
| Redirected (url : string)
| Route (p : pattern) (h : A) (matches : list string)
| NotAllowed (allowed : list string)
| Unknown.

Definition findHandler (r : Request) : found :=
  let escapedPath := EscapedPath (URL r) in
  let connect := String.eqb (Method r) "CONNECT" in
  let path := if connect then escapedPath else cleanPath escapedPath in
  match matchOrRedirect (Method r) path (Some (URL r)) with
  | (_, Some u) => Redirected (Url_String u)
  | (n, None) =>
      if negb connect && negb (String.eqb path escapedPath)
      then Redirected (Url_String (relativeURL path (RawQuery (URL r))))
      else
        match (if connect then (matchOrRedirect (Method r) path None).1 else n) with
        | Some (p, h, matches) => Route p h matches
        | None => match matchingMethods path with [] => Unknown | ms => NotAllowed ms end
        end
  end.
End Mux.
Arguments Redirected {A}.
Arguments Route {A}.
Arguments NotAllowed {A}.
Arguments Unknown {A}.

(** The names of the wildcards, in order. *)
Definition wildcards (segs : list segment) : list string :=
  omap (λ s, match s with Wild n => Some n | _ => None end) segs.

(** ** [http.Redirect] *)

Fixpoint hexEscapeNonASCII (s : string) : string :=
  match s with
  | "" => ""
  | String c s => (if 128 <=? code c then "%" +:+ hex_n 2 (code c) else str1 c) +:+ hexEscapeNonASCII s
  end.

(** The directory of [path.Split]. *)
Definition path_dir (p : string) : string := stake_Z (LastIndexByte p "/" + 1) p.

Definition redirectTarget (oldpath url : string) : string :=
  match url_Parse url with
  | Ok u =>
      if String.eqb (Scheme u) "" && String.eqb (UHost u) "" then
        let oldpath := if String.eqb oldpath "" then "/" else oldpath in
        let url := if HasPrefix url "/" then url else path_dir oldpath +:+ url in
        let '(url, query, found) := Cut "?" url in
        let query := if (found : bool) then "?" +:+ query else "" in
        let trailing := HasSuffix url "/" in
        let url := Clean url in
        (if trailing && negb (HasSuffix url "/") then url +:+ "/" else url) +:+ query
      else url
  | _ => url
  end.

Definition http_Redirect (url : string) (code : Z) : M unit :=
  r ← get_req;
  let url := redirectTarget (Path (URL r)) url in
  hs ← get_header;
  let hadCT := bool_decide (is_Some (hs !! "Content-Type")) in
  _ ← SetHeader "Location" (hexEscapeNonASCII url);
  _ ← (if negb hadCT && (String.eqb (Method r) "GET" || String.eqb (Method r) "HEAD")
       then SetHeader "Content-Type" htmlContentType else mret tt);
  _ ← WriteHeader code;
  if negb hadCT && String.eqb (Method r) "GET"
  then Write ("<a href=" +:+ DQUOTE +:+ EscapeString url +:+ DQUOTE +:+ ">" +:+ StatusText code +:+ "</a>." +:+ str1 LF +:+ str1 LF)
  else mret tt.

(** ** Serving *)

Definition set_PathValues (vs : gmap string string) (r : Request) : Request :=
  MkRequest (Method r) (URL r) (RequestURI_ r) (RHeader r) (Host r) (RemoteAddr r) (TLS r)
    (TransferEncoding r) (Body r) (BodyEnd r) vs.

(** [mux.ServeHTTP], for requests of HTTP/1.1 on.  A CONNECT request with an empty segment
    gets fewer values than its pattern has names: reading the last one panics. *)
Definition mux_ServeHTTP (routes : list (pattern * HandlerFunc)) : HandlerFunc :=
  r ← get_req;
  if String.eqb (RequestURI_ r) "*" then
    _ ← SetHeader "Connection" "close";
    WriteHeader 400
  else
    match findHandler routes r with
    | Redirected url => http_Redirect url 301
    | Route p h matches =>
        let names := wildcards (p_segments p) in
        if (length matches <? length names)%nat then panic "runtime error: index out of range"
        else
          _ ← modify_req (set_PathValues (list_to_map (zip names matches)));
          h
    | NotAllowed ms =>
        _ ← SetHeader "Allow" (Join ", " ms);
        http_Error (StatusText 405) 405
    | Unknown => NotFound
    end.
