(* ===== verification/ServeMuxSpec.v ===== *)
(** * ServeMuxSpec: which pattern a path is routed to

    [matchPath] finds a pattern when there is one, with the segments that its wildcards
    stand for, and of those that match the one that is most literal from the left. *)

From S2P Require Import Prelude GoStrings GoNum GoTime GoFmt Json GoURL GoURLParse GoPath GoMime Http HttpLaws Handles GoNet RateLimit.
From S2P Require Import ClientIP Bin Middleware ServeMux.

(** ** What it means to match *)

Inductive path_matches : list segment → list string → list string → Prop :=
| match_end : path_matches [] [] []
| match_lit s segs path vals : path_matches segs path vals → path_matches (Lit s :: segs) (s :: path) vals
| match_wild n seg segs path vals :
    seg ≠ "/" → path_matches segs path vals → path_matches (Wild n :: segs) (seg :: path) (seg :: vals)
| match_multi seg path : path_matches [Multi] (seg :: path) [].

(** The pattern with these segments matches the path. *)
Abbreviation matched segs path := (∃ vals, path_matches segs path vals).

(** More literal from the left. *)
Definition rank (s : segment) : nat := match s with Lit _ => 0 | Wild _ => 1 | Multi => 2 end.
Fixpoint lex_le (l1 l2 : list segment) : Prop :=
  match l1, l2 with
  | s1 :: l1, s2 :: l2 => (rank s1 < rank s2)%nat ∨ rank s1 = rank s2 ∧ lex_le l1 l2
  | _, _ => True
  end.

Section Mux.
Context {A : Type}.
Abbreviation cand := (list segment * (pattern * A))%type.
Implicit Type cs : list cand.

Lemma elem_child seg cs rest r : (rest, r) ∈ child seg cs ↔ (Lit seg :: rest, r) ∈ cs.
Proof.
  unfold child. rewrite list_elem_of_omap. split.
  - intros ([[|[s|n|] segs] r'] & Hc & E); try done. cbn in E.
    destruct (String.eqb_spec s seg) as [->|]; [by injection E as -> ->|done].
  - intros Hc. eexists. split; [exact Hc|]. cbn. by rewrite String.eqb_refl.
Qed.

Lemma elem_emptyChild cs rest r : (rest, r) ∈ emptyChild cs ↔ ∃ n, (Wild n :: rest, r) ∈ cs.
Proof.
  unfold emptyChild. rewrite list_elem_of_omap. split.
  - intros ([[|[s|n|] segs] r'] & Hc & E); try done. injection E as -> ->. by exists n.
  - intros (n & Hc). by eexists.
Qed.

Lemma head_omap {B C} (f : B → option C) l r : head (omap f l) = Some r → ∃ x, x ∈ l ∧ f x = Some r.
Proof. intros E. apply list_elem_of_omap. destruct (omap f l) as [|y k]; [done|]. injection E as ->. by left. Qed.

Lemma head_omap_None {B C} (f : B → option C) l : head (omap f l) = None → ∀ x, x ∈ l → f x = None.
Proof.
  intros E x Hx. destruct (f x) as [y|] eqn:Ef; [|done].
  assert (y ∈ omap f l) as Hy by (apply list_elem_of_omap; eauto). by destruct (omap f l); [apply elem_of_nil in Hy|].
Qed.

Lemma here_Some cs r : here cs = Some r → ([], r) ∈ cs.
Proof. intros ([[|] r'] & Hc & E)%head_omap; [|done]. by injection E as ->. Qed.
Lemma here_None cs r : here cs = None → ([], r) ∉ cs.
Proof. intros E Hc. by apply (head_omap_None _ _ E) in Hc. Qed.
Lemma multiChild_Some cs r : multiChild cs = Some r → ([Multi], r) ∈ cs.
Proof. intros ([[|[| |] [|]] r'] & Hc & E)%head_omap; try done. by injection E as ->. Qed.
Lemma multiChild_None cs r : multiChild cs = None → ([Multi], r) ∉ cs.
Proof. intros E Hc. by apply (head_omap_None _ _ E) in Hc. Qed.

(** No segment of a cleaned path is empty. *)
Abbreviation proper := (Forall (λ s : string, s ≠ "")).

Lemma findChild_child seg cs : seg ≠ "" → findChild seg cs = child seg cs.
Proof. intros Hs. apply String.eqb_neq in Hs. unfold findChild. by rewrite Hs. Qed.

Lemma matchPath_None path cs ms segs r :
  proper path → matchPath path cs ms = None → (segs, r) ∈ cs → ¬ matched segs path.
Proof.
  intros Hp. revert cs ms segs. induction Hp as [|seg path Hseg Hp IH]; intros cs ms segs; cbn [matchPath].
  { destruct (here cs) eqn:E; [done|]. intros _ Hc [vals Hm]. inversion Hm; subst. by apply (here_None _ _ E) in Hc. }
  rewrite findChild_child by done. destruct (matchPath path (child seg cs) ms) eqn:E1; [done|].
  destruct (if String.eqb seg "/" then None else _) eqn:E2; [done|].
  destruct (multiChild cs) eqn:E3; [done|]. intros _ Hc [vals Hm].
  inversion Hm as [|s l p v Hm2|n s l p v Hs Hm2|]; subst.
  - apply (IH _ _ _ E1 (proj2 (elem_child _ _ _ _) Hc)). by exists vals.
  - apply String.eqb_neq in Hs. rewrite Hs in E2. apply (IH _ _ l E2); [|by exists v].
    apply elem_emptyChild. by exists n.
  - by apply (multiChild_None _ _ E3) in Hc.
Qed.

(** What is found is a pattern that matches, with its values; every other pattern that
    matches is less literal. *)
Lemma matchPath_Some path cs ms r ms' :
  proper path → matchPath path cs ms = Some (r, ms') →
  ∃ segs vals, (segs, r) ∈ cs ∧ path_matches segs path vals ∧ ms' = ms ++ vals ∧
    ∀ segs' r', (segs', r') ∈ cs → matched segs' path → lex_le segs segs'.
Proof.
  intros Hp. revert cs ms. induction Hp as [|seg path Hseg Hp IH]; intros cs ms; cbn [matchPath].
  { destruct (here cs) as [r0|] eqn:E; [|done]. intros [= -> ->]. exists [], []. rewrite app_nil_r.
    split; [by apply here_Some|]. split; [constructor|done]. }
  rewrite findChild_child by done.
  destruct (matchPath path (child seg cs) ms) as [[r1 ms1]|] eqn:E1.
  { intros [= -> ->]. destruct (IH _ _ E1) as (segs & vals & Hc & Hm & -> & Hbest). apply elem_child in Hc.
    exists (Lit seg :: segs), vals. split; [done|]. split; [by constructor|]. split; [done|].
    intros segs' r' Hc' [vals' Hm']. inversion Hm' as [|s' l' p' v' Hm2| |]; subst; cbn; [|by left; lia..].
    right. split; [done|]. eapply Hbest; [apply elem_child; exact Hc'|by exists vals']. }
  assert (∀ segs' r' rest, (segs', r') ∈ cs → matched segs' (seg :: path) → segs' ≠ Lit seg :: rest) as Hno1.
  { intros segs' r' rest Hc' [vals' Hm'] ->. inversion Hm' as [|s' l' p' v' Hm2| |]; subst.
    apply (matchPath_None _ _ _ _ _ Hp E1 (proj2 (elem_child _ _ _ _) Hc')). by exists vals'. }
  destruct (if String.eqb seg "/" then None else _) as [[r1 ms1]|] eqn:E2.
  { intros [= -> ->]. destruct (String.eqb_spec seg "/") as [|Hs]; [done|].
    destruct (IH _ _ E2) as (segs & vals & Hc & Hm & -> & Hbest). apply elem_emptyChild in Hc as [n Hc].
    exists (Wild n :: segs), (seg :: vals). split; [done|]. split; [by constructor|]. split; [by rewrite <- app_assoc|].
    intros segs' r' Hc' [vals' Hm']. pose proof (Hno1 segs' r').
    inversion Hm' as [|s' l' p' v' Hm2|n' s' l' p' v' Hs' Hm2|]; subst; cbn; [|right|by left; lia].
    - by destruct (Hno1 _ _ l' Hc'); [by exists vals'|].
    - split; [done|]. eapply Hbest; [apply elem_emptyChild; by exists n'|by exists v']. }
  destruct (multiChild cs) as [r0|] eqn:E3; [|done]. intros [= -> ->]. exists [Multi], []. rewrite app_nil_r.
  split; [by apply multiChild_Some|]. split; [constructor|]. split; [done|].
  intros segs' r' Hc' [vals' Hm']. inversion Hm' as [|s' l' p' v' Hm2|n' s' l' p' v' Hs' Hm2|]; subst.
  - by destruct (Hno1 _ _ l' Hc'); [by exists vals'|].
  - apply String.eqb_neq in Hs'. rewrite Hs' in E2.
    destruct (matchPath_None _ _ _ l' r' Hp E2); [apply elem_emptyChild; by exists n'|by exists v'].
  - right. done.
Qed.

(** A candidate that matches is found, or a more literal one is. *)
Lemma matchPath_finds path cs ms segs r :
  proper path → (segs, r) ∈ cs → matched segs path → is_Some (matchPath path cs ms).
Proof.
  intros Hp Hc Hm. destruct (matchPath path cs ms) eqn:E; [by eexists|]. by destruct (matchPath_None _ _ _ _ _ Hp E Hc).
Qed.

(** Whatever the path, only candidates are found. *)
Lemma matchPath_elem path cs ms r ms' : matchPath path cs ms = Some (r, ms') → ∃ segs, (segs, r) ∈ cs.
Proof.
  assert (∀ seg cs rest r, (rest, r) ∈ findChild seg cs → ∃ s, (s, r) ∈ cs) as Hchild.
  { intros seg cs' rest r'. unfold findChild. destruct (String.eqb seg "").
    - intros [n ?]%elem_emptyChild. eauto.
    - intros ?%elem_child. eauto. }
  revert cs ms. induction path as [|seg path IH]; intros cs ms; cbn [matchPath].
  { destruct (here cs) eqn:E; [|done]. intros [= -> ->]. exists []. by apply here_Some. }
  destruct (matchPath path (findChild seg cs) ms) as [[r1 ms1]|] eqn:E1.
  { intros [= -> ->]. apply IH in E1 as [segs Hs]. eauto. }
  destruct (if String.eqb seg "/" then None else _) as [[r1 ms1]|] eqn:E2.
  { intros [= -> ->]. destruct (String.eqb seg "/"); [done|]. apply IH in E2 as [segs [n Hs]%elem_emptyChild]. eauto. }
  destruct (multiChild cs) eqn:E3; [|done]. intros [= -> ->]. exists [Multi]. by apply multiChild_Some.
Qed.

(** ** The routes of a mux *)

Variable routes : list (pattern * A).

Lemma elem_method_routes m segs r :
  (segs, r) ∈ method_routes routes m ↔ r ∈ routes ∧ p_method r.1 = m ∧ segs = p_segments r.1.
Proof.
  unfold method_routes. rewrite list_elem_of_fmap. split.
  - intros (x & [= -> ->] & Hx). rewrite list_elem_of_filter in Hx. naive_solver.
  - intros (Hr & Hm & ->). exists r. split; [done|]. by apply list_elem_of_filter.
Qed.

(** The methods of the patterns that are tried for a method, in order. *)
Definition tried (method : string) : list string :=
  (if String.eqb method "" then [] else [method]) ++ (if String.eqb method "HEAD" then ["GET"] else []) ++ [""].

Lemma match_tried method path :
  match_ routes method path =
    foldr (λ m k, match matchPath (pathSegments path) (method_routes routes m) [] with Some r => Some r | None => k end)
      None (tried method).
Proof.
  unfold match_, tried. destruct (String.eqb method ""), (String.eqb method "HEAD"); cbn [app foldr];
    repeat destruct (matchPath _ _ _); done.
Qed.

Lemma match_elem method path p a vals : match_ routes method path = Some (p, a, vals) → (p, a) ∈ routes.
Proof.
  rewrite match_tried. induction (tried method) as [|m ms IH]; [done|]. cbn [foldr].
  destruct (matchPath _ _ _) as [[r v]|] eqn:E; [|exact IH]. intros [= -> _].
  apply matchPath_elem in E as (segs & Hin). by apply elem_method_routes in Hin as (Hr & _).
Qed.

Lemma findHandler_elem r p a vals : findHandler routes r = Route p a vals → (p, a) ∈ routes.
Proof.
  unfold findHandler, matchOrRedirect. cbv zeta. intros E.
  repeat (case_match; simplify_eq; try done); by eapply match_elem.
Qed.

(** The methods that a method is tried with. *)
Definition method_ok (p : pattern) (m : string) : Prop :=
  p_method p = "" ∨ p_method p = m ∨ p_method p = "GET" ∧ m = "HEAD".

Lemma tried_ok r m : p_method r ∈ tried m → method_ok r m.
Proof. unfold tried, method_ok. destruct (String.eqb m ""), (String.eqb_spec m "HEAD"); set_solver. Qed.

Lemma match_none method path :
  proper (pathSegments path) →
  (∀ r, r ∈ routes → method_ok r.1 method → ¬ matched (p_segments r.1) (pathSegments path)) →
  match_ routes method path = None.
Proof.
  intros Hp Hno. rewrite match_tried.
  assert (∀ m, m ∈ tried method → matchPath (pathSegments path) (method_routes routes m) [] = None) as Hm.
  { intros m Hm. destruct (matchPath _ _ _) as [[r v]|] eqn:E; [|done].
    apply matchPath_Some in E as (segs & vals & Hin & Hmat & _); [|done].
    apply elem_method_routes in Hin as (Hr & Hmeth & ->). destruct (Hno r Hr); [|by exists vals].
    apply tried_ok. by rewrite Hmeth. }
  induction (tried method) as [|m ms IH]; [done|]. cbn [foldr]. rewrite Hm by by left. apply IH.
  intros m' Hm'. apply Hm. by right.
Qed.

(** The methods that are allowed are those of the patterns of the path, and HEAD with GET,
    each once and in order. *)
Lemma elem_matchingMethods path m :
  proper (pathSegments path) →
  (HasSuffix path "/" = false → proper (pathSegments (path +:+ "/")) ∧
     ∀ r, r ∈ routes → ¬ matched (p_segments r.1) (pathSegments (path +:+ "/"))) →
  m ∈ matchingMethods routes path ↔
  ∃ r, r ∈ routes ∧ p_method r.1 ≠ "" ∧ matched (p_segments r.1) (pathSegments path) ∧
    (p_method r.1 = m ∨ p_method r.1 = "GET" ∧ m = "HEAD").
Proof.
  intros Hp Hslash.
  assert (∀ path m, proper (pathSegments path) →
    reaches routes path m ↔ ∃ r, r ∈ routes ∧ p_method r.1 = m ∧ matched (p_segments r.1) (pathSegments path)) as Hfound.
  { intros q m' Hq. unfold reaches. destruct (matchPath _ _ _) as [[r v]|] eqn:E.
    - apply matchPath_Some in E as (segs & vals & Hin & Hmat & _); [|done].
      apply elem_method_routes in Hin as (Hr & Hmeth & ->). split; [|done]. intros _. exists r. eauto.
    - split; [done|]. intros (r & Hr & Hmeth & Hmat).
      by destruct (matchPath_None _ _ _ (p_segments r.1) r Hq E); [apply elem_method_routes|]. }
  unfold matchingMethods. rewrite (merge_sort_Permutation key_le), elem_of_remove_dups.
  set (ms := filter _ _).
  assert (∀ m, m ∈ ms ↔ ∃ r, r ∈ routes ∧ p_method r.1 ≠ "" ∧ matched (p_segments r.1) (pathSegments path) ∧ p_method r.1 = m)
    as Hms.
  { intros m'. unfold ms. rewrite list_elem_of_filter, Hfound by done. split.
    - intros [[Hne [(r & Hr & Hm' & Hmat)|[Hs Hr]]] _];
        [|destruct (Hslash Hs) as [Hp2 Hno]; apply Hfound in Hr as (r & Hr & _ & Hmat); [|done]; by destruct (Hno r Hr)].
      exists r. split; [done|]. split; [|done]. rewrite Hm'. by destruct m'.
    - intros (r & Hr & Hne & Hmat & <-). split; [|by apply (list_elem_of_fmap_2 (λ r, p_method r.1))].
      split; [by destruct (p_method r.1)|]. left. eauto. }
  rewrite elem_of_app, Hms. destruct (bool_decide_reflect ("GET" ∈ ms)) as [Hg|Hg].
  - rewrite list_elem_of_singleton. apply Hms in Hg. naive_solver.
  - rewrite elem_of_nil. split; [naive_solver|]. intros (r & Hr & Hne & Hmat & [Hm|[Hm ->]]); [left; eauto|].
    destruct Hg. apply Hms. eauto.
Qed.

Lemma matchingMethods_sorted path : Sorted key_le (matchingMethods routes path) ∧ NoDup (matchingMethods routes path).
Proof.
  unfold matchingMethods. split; [apply Sorted_merge_sort; apply _|].
  rewrite (merge_sort_Permutation key_le). apply NoDup_remove_dups.
Qed.

(** The pattern that a path is routed to, when it matches and those that match as well
    and are tried before are none. *)
Lemma match_routed method path p a vals before after :
  proper (pathSegments path) → (p, a) ∈ routes → tried method = before ++ p_method p :: after →
  path_matches (p_segments p) (pathSegments path) vals →
  (∀ r, r ∈ routes → p_method r.1 ∈ before → ¬ matched (p_segments r.1) (pathSegments path)) →
  (∀ r, r ∈ routes → p_method r.1 = p_method p → matched (p_segments r.1) (pathSegments path) →
     lex_le (p_segments r.1) (p_segments p) → r = (p, a)) →
  (∀ vals', path_matches (p_segments p) (pathSegments path) vals' → vals' = vals) →
  match_ routes method path = Some (p, a, vals).
Proof.
  intros Hp Hin Ht Hm Hbefore Hbest Hvals. rewrite match_tried, Ht. clear Ht.
  induction before as [|m before IH]; cbn [app foldr].
  - destruct (matchPath_finds (pathSegments path) (method_routes routes (p_method p)) [] (p_segments p) (p, a))
      as [[r ms] E]; [done|by apply elem_method_routes|by exists vals|].
    rewrite E. apply matchPath_Some in E as (segs & vals' & Hc & Hm' & -> & Hlex); [|done].
    apply elem_method_routes in Hc as (Hr & Hmeth & ->).
    assert (r = (p, a)) as ->.
    { apply Hbest; [done|done|by exists vals'|]. apply (Hlex _ (p, a)); [by apply elem_method_routes|by exists vals]. }
    by rewrite (Hvals _ Hm').
  - destruct (matchPath _ _ _) as [[r ms]|] eqn:E; [|apply IH; set_solver].
    apply matchPath_Some in E as (segs & vals' & Hc & Hm' & _); [|done].
    apply elem_method_routes in Hc as (Hr & Hmeth & ->).
    destruct (Hbefore r Hr); [rewrite Hmeth; by left|by exists vals'].
Qed.
End Mux.

(** ** The segments of a clean path *)

(** The pieces between the slashes: elements, and nothing after the last slash. *)
Definition clean_pieces (pieces : list string) : Prop :=
  ∃ l, Forall elem_ok l ∧ (pieces = l ∧ l ≠ [] ∨ pieces = l ++ [""]).

Lemma path_of_slash l : path_of (l ++ [""]) = path_of l +:+ "/".
Proof. by rewrite path_of_app. Qed.

Lemma clean_path p :
  HasPrefix p "/" = true → cleanPath p = p → ∃ pieces, clean_pieces pieces ∧ p = path_of pieces.
Proof.
  intros Hp. unfold cleanPath. destruct (String.eqb_spec p ""); [by subst|]. rewrite Hp, Clean_rooted by done.
  pose proof (elems_ok p) as Hl. destruct (elems p) as [|e l].
  - rewrite andb_false_r. intros <-. exists [""]. split; [|done]. exists []. split; [done|by right].
  - set (l' := e :: l) in *. destruct (_ && _); intros <-.
    + exists (l' ++ [""]). split; [|by rewrite path_of_slash]. exists l'. split; [done|by right].
    + exists l'. split; [|done]. exists l'. split; [done|by left].
Qed.

Lemma clean_no_slash pieces x : clean_pieces pieces → x ∈ pieces → contains_char "/" x = false.
Proof.
  intros (l & Hl & Hp) Hx. rewrite Forall_forall in Hl.
  destruct Hp as [[-> _]| ->]; [by apply Hl|]. apply elem_of_app in Hx as [Hx|Hx]; [by apply Hl|].
  by apply list_elem_of_singleton in Hx as ->.
Qed.

Lemma clean_nonempty pieces : clean_pieces pieces → pieces ≠ [].
Proof. intros (l & _ & [[-> Hl]| ->]); [done|]. by destruct l. Qed.

Lemma Split_path pieces :
  clean_pieces pieces → Split "/" (path_of pieces) = "" :: pieces ∧ Split "/" (sdrop 1 (path_of pieces)) = pieces.
Proof.
  intros Hc. pose proof (clean_nonempty _ Hc) as Hn. rewrite path_of_Join by done.
  assert (Split "/" (Join "/" pieces) = pieces) as E.
  { apply (Split_Join "/"); [done|]. intros x. by apply clean_no_slash. }
  split; [|exact E]. change ("/" +:+ ?s) with ("" +:+ str1 "/" +:+ s). rewrite Split_app by done. by rewrite E.
Qed.

Lemma count_path pieces : clean_pieces pieces → count_char "/" (path_of pieces) = length pieces.
Proof. intros Hc. unfold count_char. destruct (Split_path _ Hc) as [-> _]. done. Qed.

Lemma segmentsOf_elems l : Forall elem_ok l → segmentsOf l = map pathUnescape l.
Proof.
  induction 1 as [|e l He Hl IH]; [done|]. cbn [segmentsOf map]. destruct l as [|e' l]; [|by rewrite IH].
  destruct (String.eqb_spec e ""); [by destruct He|done].
Qed.

Lemma segmentsOf_slash l : segmentsOf (l ++ [""]) = map pathUnescape l ++ ["/"].
Proof.
  induction l as [|e l IH]; [done|]. cbn [app segmentsOf map].
  destruct (l ++ [""]) as [|x k] eqn:E; [by destruct l|]. by rewrite <- E, <- IH, E.
Qed.

Lemma pathSegments_path pieces : clean_pieces pieces → pathSegments (path_of pieces) = segmentsOf pieces.
Proof.
  intros Hc. unfold pathSegments. destruct (Split_path _ Hc) as [_ ->].
  rewrite path_of_Join by by apply clean_nonempty. done.
Qed.

Lemma segmentsOf_length pieces : length (segmentsOf pieces) = length pieces.
Proof. induction pieces as [|x [|y l] IH]; [done..|]. cbn [segmentsOf length] in *. by rewrite IH. Qed.

Lemma pathUnescape_nonempty s : s ≠ "" → pathUnescape s ≠ "".
Proof.
  destruct s as [|c s]; [done|]. intros _. unfold pathUnescape. cbn [unescape].
  repeat case_match; cbn; try done; destruct (unescape _ _); done.
Qed.

Lemma clean_proper pieces : clean_pieces pieces → Forall (λ s, s ≠ "") (segmentsOf pieces).
Proof.
  assert (∀ l, Forall elem_ok l → Forall (λ s, s ≠ "") (map pathUnescape l)) as Hmap.
  { intros l Hl. apply Forall_map. eapply Forall_impl; [exact Hl|]. intros e He. apply pathUnescape_nonempty, He. }
  intros (l & Hl & [[-> _]| ->]).
  - rewrite segmentsOf_elems by done. by apply Hmap.
  - rewrite segmentsOf_slash. apply Forall_app. split; [by apply Hmap|by repeat constructor].
Qed.

(** ** No redirection *)

(** The shapes of the patterns of the program: the root, a subtree under one segment, or a
    path without subtrees. *)
Definition plain_segment (s : segment) : bool :=
  match s with Lit s => negb (String.eqb s "/") | Wild _ => true | Multi => false end.
Definition regular (segs : list segment) : bool :=
  match segs with
  | [Lit s] => true
  | [Lit s; Multi] => negb (String.eqb s "/")
  | _ => negb (bool_decide (segs = [])) && forallb plain_segment segs
  end.

Lemma plain_no_slash segs path vals :
  forallb plain_segment segs = true → path_matches segs path vals → last path ≠ Some "/".
Proof.
  intros Hs Hm. induction Hm as [|s segs path vals Hm IH|n seg segs path vals Hn Hm IH|]; [done|..|done];
    cbn [forallb] in Hs; apply andb_true_iff in Hs as [Hh Hs].
  - destruct path as [|y path]; [|by apply IH]. cbn in *. apply negb_true_iff, String.eqb_neq in Hh. congruence.
  - destruct path as [|y path]; [|by apply IH]. cbn. congruence.
Qed.

Lemma regular_multi segs : regular segs = true → last_multi segs = true → ∃ s, segs = [Lit s; Multi].
Proof.
  intros Hr Hm. unfold last_multi in Hm. rewrite bool_decide_eq_true in Hm.
  assert (forallb plain_segment segs = true → False) as Hno.
  { intros Hf. apply last_Some_elem_of in Hm. rewrite forallb_forall in Hf.
    apply list_elem_of_In, Hf in Hm. done. }
  destruct segs as [|[s|n|] [|[t|n'|] [|u k]]]; cbn in Hr, Hm; try done; try (by exists s);
    by destruct Hno.
Qed.

(** Patterns that end in a slash match few paths that do. *)
Lemma regular_slash segs path vals :
  regular segs = true → path_matches segs path vals → last path = Some "/" →
  segs = [Lit "/"] ∧ path = ["/"] ∨ last_multi segs = true.
Proof.
  intros Hr Hm Hl. destruct (last_multi segs) eqn:E; [by right|]. left.
  assert (forallb plain_segment segs = true → False) as Hno by (intros Hf; by eapply plain_no_slash).
  destruct segs as [|[s|n|] [|[t|n'|] [|u k]]]; cbn in Hr; try done; try (by destruct Hno).
  inversion Hm as [|s' l p v Hm2| |]; subst. inversion Hm2; subst. by injection Hl as ->.
Qed.

Section Found.
Context {A : Type} (routes : list (pattern * A)).
Context (Hregular : Forall (λ r, regular (p_segments r.1) = true) routes).

Lemma match_sound method pieces p a vals :
  clean_pieces pieces → match_ routes method (path_of pieces) = Some (p, a, vals) →
  (p, a) ∈ routes ∧ regular (p_segments p) = true ∧ path_matches (p_segments p) (segmentsOf pieces) vals.
Proof.
  intros Hc. rewrite match_tried. induction (tried method) as [|m ms IH]; [done|]. cbn [foldr].
  destruct (matchPath _ _ _) as [[r v]|] eqn:E; [|exact IH]. intros [= -> ->]. rewrite pathSegments_path in E by done.
  apply matchPath_Some in E as (segs & vals' & Hin & Hm & -> & _); [|by apply clean_proper].
  apply elem_method_routes in Hin as (Hr & _ & ->). split; [done|]. split; [|done].
  rewrite Forall_forall in Hregular. by apply (Hregular (p, a)).
Qed.

(** A path that is routed is not redirected to the same path with a slash. *)
Lemma routed_here method pieces p a vals u :
  clean_pieces pieces → match_ routes method (path_of pieces) = Some (p, a, vals) →
  matchOrRedirect routes method (path_of pieces) (Some u) = (Some (p, a, vals), None).
Proof.
  intros Hc E. unfold matchOrRedirect. rewrite E.
  destruct (exactMatch (Some (p, a, vals)) _) eqn:Ex; [done|]. cbn [negb andb].
  destruct (HasSuffix (path_of pieces) "/") eqn:Es; [done|]. cbn [negb].
  destruct (match_sound _ _ _ _ _ Hc E) as (_ & Hr & Hm). unfold exactMatch in Ex.
  destruct (last_multi (p_segments p)) eqn:El; [cbn [negb] in Ex|done].
  destruct (regular_multi _ Hr El) as [s Hsegs]. rewrite Hsegs in Hm.
  assert (2 ≤ length pieces)%nat as Hlen.
  { rewrite <- segmentsOf_length. inversion Hm as [|s' l p' v Hm2| |]; subst. inversion Hm2; subst. cbn. lia. }
  assert (clean_pieces (pieces ++ [""])) as Hc2.
  { destruct Hc as (l & Hl & [[-> Hn]| ->]); [by exists l; split; [|right]|].
    rewrite path_of_slash, HasSuffix_app in Es. done. }
  rewrite <- path_of_slash. destruct (exactMatch (match_ routes method _) _) eqn:Ex2; [|done]. exfalso. revert Ex2.
  destruct (match_ routes method (path_of (pieces ++ [""]))) as [[[p2 a2] v2]|] eqn:E2; [|done].
  destruct (match_sound _ _ _ _ _ Hc2 E2) as (_ & Hr2 & Hm2). rewrite segmentsOf_slash in Hm2. intros Ex2.
  destruct (regular_slash _ _ _ Hr2 Hm2) as [[_ Hone]|El2]; [by rewrite last_snoc|..].
  - apply (f_equal length) in Hone. rewrite length_app, length_map in Hone. cbn in Hone. lia.
  - unfold exactMatch in Ex2. rewrite El2 in Ex2. cbn [negb] in Ex2.
    rewrite path_of_slash, HasSuffix_app, andb_false_r, <- path_of_slash in Ex2.
    destruct (regular_multi _ Hr2 El2) as [s2 Es2]. rewrite Es2, count_path, length_app in Ex2 by done.
    apply Nat.eqb_eq in Ex2. cbn in Ex2. lia.
Qed.

(** The handler of a request whose path is clean is that of the pattern of its path. *)
Lemma findHandler_routed r p a vals :
  Method r ≠ "CONNECT" → HasPrefix (EscapedPath (URL r)) "/" = true → cleanPath (EscapedPath (URL r)) = EscapedPath (URL r) →
  match_ routes (Method r) (EscapedPath (URL r)) = Some (p, a, vals) →
  findHandler routes r = Route p a vals.
Proof.
  intros Hm Hp Hc E. unfold findHandler. apply String.eqb_neq in Hm. rewrite Hm, Hc.
  destruct (clean_path _ Hp Hc) as (pieces & Hpc & Ep). rewrite Ep in *. rewrite (routed_here _ _ _ _ _ _ Hpc E).
  by rewrite String.eqb_refl.
Qed.
End Found.

(** ** Which patterns can match the same path *)

(** The patterns have a path in common, as far as the literals say. *)
Fixpoint compatible (l1 l2 : list segment) : bool :=
  match l1, l2 with
  | [], [] => true
  | [Multi], _ :: _ | _ :: _, [Multi] => true
  | Lit a :: l1, Lit b :: l2 => String.eqb a b && compatible l1 l2
  | Lit a :: l1, Wild _ :: l2 | Wild _ :: l1, Lit a :: l2 => negb (String.eqb a "/") && compatible l1 l2
  | Wild _ :: l1, Wild _ :: l2 => compatible l1 l2
  | _, _ => false
  end.

Lemma compatible_matches l1 l2 path v1 v2 :
  path_matches l1 path v1 → path_matches l2 path v2 → compatible l1 l2 = true.
Proof.
  intros H1. revert l2 v2. induction H1 as [|s segs path vals Hm IH|n seg segs path vals Hn Hm IH|seg path];
    intros l2 v2 H2; inversion H2 as [|s' l' p' v' Hm'|n' s' l' p' v' Hn' Hm'|s' p']; subst; cbn.
  - done.
  - rewrite String.eqb_refl. cbn. eauto.
  - apply String.eqb_neq in Hn'. rewrite Hn'. cbn. eauto.
  - by destruct segs.
  - apply String.eqb_neq in Hn. rewrite Hn. cbn. eauto.
  - eauto.
  - by destruct segs.
  - done.
  - done.
  - done.
Qed.

(** Matching, decided. *)
Fixpoint matchesb (segs : list segment) (path : list string) : bool :=
  match segs, path with
  | [], [] => true
  | Lit s :: segs, x :: path => String.eqb s x && matchesb segs path
  | Wild _ :: segs, x :: path => negb (String.eqb x "/") && matchesb segs path
  | [Multi], _ :: _ => true
  | _, _ => false
  end.

Lemma matched_matchesb segs path : matched segs path → matchesb segs path = true.
Proof.
  intros [vals Hm]. induction Hm as [|s segs path vals Hm IH|n x segs path vals Hx Hm IH|]; cbn [matchesb]; [done|..|done].
  - by rewrite String.eqb_refl.
  - apply String.eqb_neq in Hx. by rewrite Hx.
Qed.

Fixpoint lex_leb (l1 l2 : list segment) : bool :=
  match l1, l2 with
  | s1 :: l1, s2 :: l2 => (rank s1 <? rank s2)%nat || (rank s1 =? rank s2)%nat && lex_leb l1 l2
  | _, _ => true
  end.

Lemma lex_le_leb l1 l2 : lex_le l1 l2 → lex_leb l1 l2 = true.
Proof.
  revert l2. induction l1 as [|s1 l1 IH]; intros [|s2 l2]; cbn [lex_le lex_leb]; try done.
  intros [Hlt|[Heq Hle]].
  - apply Nat.ltb_lt in Hlt. by rewrite Hlt.
  - apply Nat.eqb_eq in Heq. rewrite Heq, (IH _ Hle). by rewrite orb_true_r.
Qed.

Lemma path_matches_vals segs path v1 v2 : path_matches segs path v1 → path_matches segs path v2 → v1 = v2.
Proof.
  intros H1. revert v2. induction H1; intros v2 H2; inversion H2; subst; try done; eauto. f_equal. eauto.
Qed.
