(* ===== verification/Server.v ===== *)
(** * Server: the table of routes, the registry of terminals, and [New]

    [httpbin.go]: every endpoint at its pattern, behind the middleware; [pipeline.go]:
    the handlers a pipeline can end with.  The tools that are installed and the time are
    what [New] finds. *)

From coqutil Require Import Datatypes.RecordSetters.
From S2P Require Import Prelude GoStrings GoNum GoTime GoFmt Json GoURL Cache Http GoNet ClientIP RateLimit.
From S2P Require Import Converters HeaderFilter Bin Options Middleware GoMime GoRand Digest Delay Mix Handlers RequestBody GoTemplate StaticAssets.
From S2P Require Import Pdf Auth Redirects Images Streams ServeContent Handshake Hijack ServeMux.
From S2P Require Cookies RedirectTo Pipeline.
Import TriangleBracketNotations.

(** ** Registration *)

(** [mux.HandleFunc], which panics on a pattern that is refused or conflicts. *)
Definition HandleFunc (r : string * HandlerFunc) (mux : list (pattern * HandlerFunc))
    : outcome gerror (list (pattern * HandlerFunc)) :=
  match parsePattern r.1 with
  | None => Panic ("parsing " +:+ r.1)
  | Some p =>
      if existsb (λ r', conflictsWith p r'.1) mux then Panic ("pattern " +:+ r.1 +:+ " conflicts")
      else Ok (mux ++ [(p, r.2)])
  end.

Fixpoint HandleFuncs (table : list (string * HandlerFunc)) (mux : list (pattern * HandlerFunc))
    : outcome gerror (list (pattern * HandlerFunc)) :=
  match table with
  | [] => Ok mux
  | r :: table => mux ← HandleFunc r mux; HandleFuncs table mux
  end.

(** What a new server finds. *)
Record surroundings := MkSurroundings {
  execLookPath : string → bool;
  startTime : Z;
}.

Section Server.
Context `{GoStd, Runtime, Hashes, Codecs, Rand, ImageCodecs, HttpTime}.

Section Table.
Context (h : HTTPBin).

(** What the special terminals of a pipeline call. *)
#[local] Instance targets : Pipeline.PipelineTargets := {|
  Pipeline.ImageAccept := ImageAcceptHandler h;
  Pipeline.Image := ImageHandler h;
  Pipeline.doImage := doImageHandler;
  Pipeline.Links := LinksHandler h;
  Pipeline.Cache := CacheHandler h;
  Pipeline.CacheControl := CacheControlHandler h;
  Pipeline.Base64 := Base64Handler h;
  Pipeline.DigestAuth := DigestAuth |}.

Definition buildTerminalHandlers : gmap string HandlerFunc := list_to_map [
  ("get", Get h);
  ("head", Get h);
  ("post", RequestWithBody h);
  ("put", RequestWithBody h);
  ("delete", RequestWithBody h);
  ("patch", RequestWithBody h);
  ("status", Status h);
  ("bytes", BytesHandler h);
  ("stream", Stream h);
  ("stream-bytes", StreamBytes h);
  ("etag", ETag h);
  ("range", Range h);
  ("basic-auth", BasicAuth);
  ("hidden-basic-auth", HiddenBasicAuth);
  ("gzip", Gzip h);
  ("deflate", Deflate h);
  ("html", HTML);
  ("json", JSON);
  ("xml", XML);
  ("robots.txt", Robots);
  ("deny", Deny);
  ("ip", IP h);
  ("headers", Headers h);
  ("user-agent", UserAgent);
  ("uuid", UUID);
  ("hostname", Hostname h);
  ("bearer", Bearer);
  ("cookies", Cookies.Cookies);
  ("cookies/set", Cookies.SetCookies h);
  ("cookies/delete", Cookies.DeleteCookies h);
  ("encoding/utf8", UTF8);
  ("forms/post", FormsPost h);
  ("dump/request", DumpRequest);
  ("drip", Drip h);
  ("sse", SSE h);
  ("unstable", Unstable);
  ("anything", Anything h);
  ("env", Env h);
  ("pdf", PDF);
  ("trailers", Trailers h);
  ("version", Version h);
  ("problem", ProblemDetails);
  ("negotiate", Negotiate);
  ("echo", Echo h);
  ("redirect-to", RedirectTo.RedirectTo h);
  ("response-headers", ResponseHeaders h);
  ("close", Close);
  ("upload", RequestWithBodyDiscard h)].

Definition PipelineHandler : HandlerFunc := Pipeline.Pipeline h.

Definition routeTable : list (string * HandlerFunc) := [
  ("DELETE /delete", RequestWithBody h);
  ("GET /{$}", Index h);
  ("GET /encoding/utf8", UTF8);
  ("GET /forms/post", FormsPost h);
  ("GET /get", Get h);
  ("GET /websocket/echo", WebSocketEchoHandler h);
  ("HEAD /head", Get h);
  ("PATCH /patch", RequestWithBody h);
  ("POST /post", RequestWithBody h);
  ("PUT /put", RequestWithBody h);

  ("/absolute-redirect/{numRedirects}", AbsoluteRedirect h);
  ("/anything", Anything h);
  ("/anything/", Anything h);
  ("/base64/{data}", Base64Handler h);
  ("/base64/{operation}/{data}", Base64Handler h);
  ("/basic-auth/{user}/{password}", BasicAuth);
  ("/bearer", Bearer);
  ("/bytes/{numBytes}", BytesHandler h);
  ("/cache", CacheHandler h);
  ("/cache/{numSeconds}", CacheControlHandler h);
  ("/cookies", Cookies.Cookies);
  ("/cookies/delete", Cookies.DeleteCookies h);
  ("/cookies/set", Cookies.SetCookies h);
  ("/deflate", Deflate h);
  ("/delay/{duration}", Delay_ h);
  ("/deny", Deny);
  ("/digest-auth/{qop}/{user}/{password}", DigestAuth);
  ("/digest-auth/{qop}/{user}/{password}/{algorithm}", DigestAuth);
  ("/drip", Drip h);
  ("/dump/request", DumpRequest);
  ("/env", Env h);
  ("/etag/{etag}", ETag h);
  ("/gzip", Gzip h);
  ("/headers", Headers h);
  ("/hidden-basic-auth/{user}/{password}", HiddenBasicAuth);
  ("/hostname", Hostname h);
  ("/html", HTML);
  ("/image", ImageAcceptHandler h);
  ("/image/{kind}", ImageHandler h);
  ("/ip", IP h);
  ("/json", JSON);
  ("/links/{numLinks}", LinksHandler h);
  ("/links/{numLinks}/{offset}", LinksHandler h);
  ("/range/{numBytes}", Range h);
  ("/redirect-to", RedirectTo.RedirectTo h);
  ("/redirect/{numRedirects}", Redirect h);
  ("/relative-redirect/{numRedirects}", RelativeRedirect h);
  ("/response-headers", ResponseHeaders h);
  ("/robots.txt", Robots);
  ("/sse", SSE h);
  ("/status/{code}", Status h);
  ("/stream-bytes/{numBytes}", StreamBytes h);
  ("/stream/{numLines}", Stream h);
  ("/trailers", Trailers h);
  ("/unstable", Unstable);
  ("POST /upload", RequestWithBodyDiscard h);
  ("PUT /upload", RequestWithBodyDiscard h);
  ("PATCH /upload", RequestWithBodyDiscard h);
  ("/user-agent", UserAgent);
  ("/uuid", UUID);
  ("/xml", XML);

  ("/close", Close);
  ("/negotiate", Negotiate);
  ("/pdf", PDF);
  ("/problem", ProblemDetails);
  ("/version", Version h);
  ("POST /echo", Echo h);
  ("PUT /echo", Echo h);
  ("PATCH /echo", Echo h);

  ("/mix/", Mix h);

  ("/delay/", PipelineHandler);
  ("/response_delay/", PipelineHandler);
  ("/image/", PipelineHandler);
  ("/redirect/", PipelineHandler);
  ("/absolute-redirect/", PipelineHandler);
  ("/relative-redirect/", PipelineHandler);
  ("/status/", PipelineHandler);
  ("/header/", PipelineHandler);
  ("/body/", PipelineHandler);
  ("/no-cache/", PipelineHandler);
  ("/nocache/", PipelineHandler);

  ("/brotli", notImplementedHandler)].

(** The router behind the middleware. *)
Definition Handler : outcome gerror (SM unit) :=
  mux ← HandleFuncs routeTable [];
  Ok (serverHandler h (mux_ServeHTTP mux)).
End Table.

(** ** New *)

Definition new_bin : HTTPBin := {|
  MaxBodySize := DefaultMaxBodySize;
  MaxDuration := DefaultMaxDuration;
  DefaultParams_ := DefaultDefaultParams;
  hostname := DefaultHostname;
  AllowedRedirectDomains := []; unsafeAllowDangerousResponses := false; env := None;
  forbiddenRedirectError := ""; prefix := ""; statusSpecialCases := λ _, None;
  excludeHeadersProcessor := None; maxSSECount := 0; trustedProxies := [];
  trustedProxiesConfigured := false; version := ""; indexHTML := ""; formsPostHTML := "";
  maxConcurrentRequests := 0; rateLimiter := None; rateLimitUseSubnets := false;
  observed := false; imageConverters := ∅; terminalHandlers := ∅ |}.

(** The server's configuration, its caches, and its handler. *)
Record httpbin := MkHttpbin { bin : HTTPBin; emptyCaches : Caches; handler : SM unit }.

(** What is written to a [bytes.Buffer]. *)
Definition buffered (m : M unit) : string :=
  let r := MkRequest "" (relativeURL "" "") "" ∅ "" "" false [] "" None ∅ in
  rBody (base (wr (m (MkWorld r (Base new_response) 0 None (λ _, 0) 0 (MkCaches (newImageCache 0) (newPDFCache 0)) Kept)).2)).

(** What is computed once the options are known. *)
Definition precompute (sur : surroundings) (index forms : string) (h : HTTPBin) : HTTPBin :=
  let h := h <| indexHTML := index |>
             <| formsPostHTML := forms |>
             <| statusSpecialCases := createSpecialCases (prefix h) |> in
  let h := h <| maxSSECount := Z.quot (MaxBodySize h) (slen (buffered (writeServerSentEvent 999 (startTime sur) ""))) |>
             <| imageConverters := detectImageConverters (execLookPath sur) |> in
  h <| terminalHandlers := buildTerminalHandlers h |>.

Definition New (sur : surroundings) (opts : list OptionFunc) : outcome gerror httpbin :=
  h ← apply_options opts new_bin;
  index ← mustRenderTemplate "index.html.tmpl" (tmplData (prefix h) (version h));
  forms ← mustRenderTemplate "forms-post.html.tmpl" (tmplData (prefix h) (version h));
  let h := precompute sur index forms h in
  handler ← Handler h;
  Ok (MkHttpbin h (MkCaches (newImageCache 64) (newPDFCache 64)) handler).

Definition ServeHTTP (s : httpbin) : SM unit := handler s.
End Server.
