(* ===== verification/EndpointsHandle.v ===== *)
(** * EndpointsHandle: every endpoint reaches the client through its writer only

    The instances of [Handles] for the endpoints that other files do not have, and for the
    router itself. *)

From S2P Require Import Prelude GoStrings GoNum GoTime GoFmt Json GoURL GoPath Cache Http HttpLaws Handles Bodies GoNet ClientIP RateLimit.
From S2P Require Import Bin Pipeline PipelineHandler.
From S2P Require Import Converters HeaderFilter Options Middleware MiddlewareSpec GoMime GoRand Digest Delay Mix MixSpec Handlers HandlersSpec RequestBody.
From S2P Require Import Pdf Auth Redirects RedirectsSpec Images Streams StreamsSpec ServeContent Handshake Hijack ServeMux ServeMuxSpec Server.
From S2P Require Cookies RedirectTo.

#[export] Typeclasses Opaque Index Env FormsPost UTF8 notImplementedHandler RequestWithBodyDiscard IP UserAgent
  Headers Redirect RelativeRedirect AbsoluteRedirect HTML Robots Deny XML JSON Hostname Version doImageHandler
  BytesHandler StreamBytes Trailers RequestWithBody Anything Gzip Deflate DumpRequest Delay_ RedirectTo.RedirectTo
  Range ETag ServeContent ImageHandler ImageAcceptHandler PDF Close WebSocketEcho serveWebSocket
  WebSocketEchoHandler http_Redirect Cookies.Cookies Cookies.SetCookies Cookies.DeleteCookies
  WriteAll CopyN copyParts serveRanges serveError writeNotModified time_Sleep sizedImage
  writeCompressed runTool convertImage imgCache_get imgCache_put seedOf Handshake echoLimits.

Section Endpoints.
Context `{GoStd, Runtime, Hashes, Codecs, Rand, ImageCodecs, HttpTime} (h : HTTPBin).

#[export] Instance Handles_notImplementedHandler : Handles notImplementedHandler.
Proof. unfold notImplementedHandler. handler. Qed.
#[export] Instance Handles_Index : Handles (Index h).
Proof. unfold Index. handler. Qed.
#[export] Instance Handles_Env : Handles (Env h).
Proof. unfold Env. handler. Qed.
#[export] Instance Handles_FormsPost : Handles (FormsPost h).
Proof. unfold FormsPost. handler. Qed.
#[export] Instance Handles_UTF8 : Handles UTF8.
Proof. unfold UTF8. handler. Qed.
#[export] Instance Handles_RequestWithBodyDiscard : Handles (RequestWithBodyDiscard h).
Proof. unfold RequestWithBodyDiscard. handler. Qed.
#[export] Instance Handles_IP : Handles (IP h).
Proof. unfold IP. handler. Qed.
#[export] Instance Handles_UserAgent : Handles UserAgent.
Proof. unfold UserAgent. handler. Qed.
#[export] Instance Handles_Headers : Handles (Headers h).
Proof. unfold Headers. handler. Qed.
#[export] Instance Handles_Redirect : Handles (Redirect h).
Proof. unfold Redirect. handler. Qed.
#[export] Instance Handles_RelativeRedirect : Handles (RelativeRedirect h).
Proof. unfold RelativeRedirect. handler. Qed.
#[export] Instance Handles_AbsoluteRedirect : Handles (AbsoluteRedirect h).
Proof. unfold AbsoluteRedirect. handler. Qed.
#[export] Instance Handles_HTML : Handles HTML.
Proof. unfold HTML. handler. Qed.
#[export] Instance Handles_Robots : Handles Robots.
Proof. unfold Robots. handler. Qed.
#[export] Instance Handles_Deny : Handles Deny.
Proof. unfold Deny. handler. Qed.
#[export] Instance Handles_XML : Handles XML.
Proof. unfold XML. handler. Qed.
#[export] Instance Handles_JSON : Handles JSON.
Proof. unfold JSON. handler. Qed.
#[export] Instance Handles_Hostname : Handles (Hostname h).
Proof. unfold Hostname. handler. Qed.
#[export] Instance Handles_Version : Handles (Version h).
Proof. unfold Version. handler. Qed.
#[export] Instance Handles_doImageHandler k : Handles (doImageHandler k).
Proof. unfold doImageHandler. handler. Qed.
#[export] Instance Handles_BytesHandler : Handles (BytesHandler h).
Proof. unfold BytesHandler. handler. Qed.
#[export] Instance Handles_StreamBytes : Handles (StreamBytes h).
Proof. unfold StreamBytes. handler. Qed.

(** ** Bodies *)

#[export] Instance Handles_RequestWithBody : Handles (RequestWithBody h).
Proof. unfold RequestWithBody. handler. Qed.
#[export] Instance Handles_Anything : Handles (Anything h).
Proof. unfold Anything. handler. Qed.
#[export] Instance Handles_writeCompressed enc f v : Handles (writeCompressed enc f v).
Proof. unfold writeCompressed. handler. Qed.
#[export] Instance Handles_Gzip : Handles (Gzip h).
Proof. unfold Gzip, compressedResponse. handler. Qed.
#[export] Instance Handles_Deflate : Handles (Deflate h).
Proof. unfold Deflate, compressedResponse. handler. Qed.
#[export] Instance Handles_DumpRequest : Handles DumpRequest.
Proof. unfold DumpRequest. handler. Qed.
#[export] Instance Handles_Delay_ : Handles (Delay_ h).
Proof. unfold Delay_, Pipeline.drawDelay. handler. Qed.

#[export] Instance Handles_SetTrailer k vs : Handles (SetTrailer k vs).
Proof. induction vs; cbn [SetTrailer]; handler. Qed.
#[export] Instance Handles_SetTrailers q ks : Handles (SetTrailers q ks).
Proof. induction ks; cbn [SetTrailers]; handler. Qed.
#[export] Instance Handles_Trailers : Handles (Trailers h).
Proof. unfold Trailers. handler. Qed.

(** ** Cookies and redirects *)

#[export] Instance Handles_Cookies : Handles Cookies.Cookies.
Proof. unfold Cookies.Cookies. handler. Qed.
#[export] Instance Handles_setCookies f ks : Handles (Cookies.setCookies f ks).
Proof. induction ks; cbn [Cookies.setCookies]; unfold Cookies.SetCookie; handler. Qed.
#[export] Instance Handles_SetCookies : Handles (Cookies.SetCookies h).
Proof. unfold Cookies.SetCookies. handler. Qed.
#[export] Instance Handles_DeleteCookies : Handles (Cookies.DeleteCookies h).
Proof. unfold Cookies.DeleteCookies. handler. Qed.
#[export] Instance Handles_RedirectTo : Handles (RedirectTo.RedirectTo h).
Proof. unfold RedirectTo.RedirectTo. handler. Qed.

(** ** Ranges *)

Section Content.
Context {S : Type} (rs : ReadSeeker S).

#[export] Instance Handles_WriteCount b : Handles (WriteCount b).
Proof.
  intros s. unfold WriteCount. destruct (w_Write b (wr s)) as [[n w]| |] eqn:E; [|done..].
  eapply w_body; [exact E|]. reflexivity.
Qed.
#[export] Instance Handles_WriteAll b : Handles (WriteAll b).
Proof. unfold WriteAll. handler. Qed.
#[export] Instance Handles_time_Sleep d : Handles (time_Sleep d).
Proof. by intros s. Qed.
#[export] Instance Handles_copyN fuel left st : Handles (copyN rs fuel left st).
Proof. revert left st. induction fuel as [|fuel IH]; intros left st; cbn [copyN]; handler. Qed.
#[export] Instance Handles_CopyN n st : Handles (CopyN rs n st).
Proof. apply Handles_copyN. Qed.
#[export] Instance Handles_copyParts first b t size ranges st : Handles (copyParts rs first b t size ranges st).
Proof. revert first st. induction ranges as [|r ranges IH]; intros first st; cbn [copyParts]; handler. Qed.
#[export] Instance Handles_serveError t c : Handles (serveError t c).
Proof. unfold serveError. handler. Qed.
#[export] Instance Handles_writeNotModified : Handles writeNotModified.
Proof. unfold writeNotModified. handler. Qed.
#[export] Instance Handles_sendContent c n b m : Handles m → Handles (sendContent c n b m).
Proof. unfold sendContent. handler. Qed.
#[export] Instance Handles_serveRanges ranges size st : Handles (serveRanges rs ranges size st).
Proof. unfold serveRanges. handler; apply Handles_sendContent; handler. Qed.
#[export] Instance Handles_ServeContent t st : Handles (ServeContent rs t st).
Proof. unfold ServeContent. handler. Qed.
End Content.

#[export] Instance Handles_Range : Handles (Range h).
Proof. unfold Range. handler. Qed.
#[export] Instance Handles_ETag : Handles (ETag h).
Proof. unfold ETag. handler. Qed.

(** ** Images and documents *)

#[export] Instance Handles_imgCache_get k : Handles (imgCache_get k).
Proof. by intros s. Qed.
#[export] Instance Handles_imgCache_put k e : Handles (imgCache_put k e).
Proof. by intros s. Qed.
#[export] Instance Handles_pdfCache_get k : Handles (pdfCache_get k).
Proof. by intros s. Qed.
#[export] Instance Handles_pdfCache_put k e : Handles (pdfCache_put k e).
Proof. by intros s. Qed.
#[export] Instance Handles_runTool c d : Handles (runTool c d).
Proof. by intros s. Qed.
#[export] Instance Handles_seedOf b : Handles (seedOf b).
Proof. unfold seedOf. handler. Qed.
#[export] Instance Handles_convertImage k i : Handles (convertImage h k i).
Proof. unfold convertImage. handler. Qed.
#[export] Instance Handles_sizedImage k b g n : Handles (sizedImage h k b g n).
Proof. unfold sizedImage. handler. Qed.
#[export] Instance Handles_ImageHandler : Handles (ImageHandler h).
Proof. unfold ImageHandler. handler. Qed.
#[export] Instance Handles_ImageAcceptHandler : Handles (ImageAcceptHandler h).
Proof. unfold ImageAcceptHandler. handler. Qed.
#[export] Instance Handles_PDF : Handles PDF.
Proof. unfold PDF. handler. Qed.

(** ** Connections that are taken over *)

#[export] Instance Handles_Close : Handles Close.
Proof. unfold Close. handler. Qed.
#[export] Instance Handles_sizeLimit n r d : Handles (sizeLimit h n r d).
Proof. unfold sizeLimit, optional, wrap_err. handler. Qed.
#[export] Instance Handles_echoLimits q : Handles (echoLimits h q).
Proof. unfold echoLimits. handler. Qed.
#[export] Instance Handles_Handshake ws : Handles (Handshake ws).
Proof. unfold Handshake. handler. Qed.
#[export] Instance Handles_WebSocketEcho : Handles (WebSocketEcho h).
Proof. unfold WebSocketEcho. handler. Qed.
#[export] Instance Handles_serveWebSocket ws : Handles (serveWebSocket ws).
Proof. unfold serveWebSocket. handler. Qed.
#[export] Instance Handles_WebSocketEchoHandler : Handles (WebSocketEchoHandler h).
Proof. unfold WebSocketEchoHandler. handler. Qed.

(** ** Pipelines *)

(** The registry of terminals, when it is the one that [New] builds. *)
Lemma terminal_Handles n m : buildTerminalHandlers h !! n = Some m → Handles m.
Proof.
  unfold buildTerminalHandlers. intros Hm%elem_of_list_to_map_2.
  repeat (apply elem_of_cons in Hm as [[= -> ->]|Hm]; [typeclasses eauto|]). by apply elem_of_nil in Hm.
Qed.

(** A server whose registry is complete. *)
Definition built : Prop := ∃ h', terminalHandlers h = buildTerminalHandlers h'.
End Endpoints.

Section Mux.
Context `{GoStd, Runtime, Hashes, Codecs, Rand, ImageCodecs, HttpTime} (h : HTTPBin).

Lemma built_targets : built h → @TargetsHandle (targets h) h.
Proof.
  intros [h' E]. split; cbn; try typeclasses eauto. intros n m. rewrite E. apply terminal_Handles.
Qed.

Lemma Handles_PipelineHandler : built h → Handles (PipelineHandler h).
Proof. intros Hb. apply Handles_Pipeline. by apply built_targets. Qed.

Lemma table_Handles str a : built h → (str, a) ∈ routeTable h → Handles a.
Proof.
  intros Hb Hin. pose proof (Handles_PipelineHandler Hb). unfold routeTable in Hin.
  repeat (apply elem_of_cons in Hin as [[= -> ->]|Hin]; [typeclasses eauto|]). by apply elem_of_nil in Hin.
Qed.

#[export] Instance Handles_http_Redirect u c : Handles (http_Redirect u c).
Proof. unfold http_Redirect. handler. Qed.

Lemma mux_Handles routes : (∀ p a, (p, a) ∈ routes → Handles a) → Handles (mux_ServeHTTP routes).
Proof.
  intros Hr. unfold mux_ServeHTTP. handler. eapply Hr, findHandler_elem. eassumption.
Qed.
End Mux.
