(* ===== verification/ServerSpec.v ===== *)
(** * ServerSpec: a new server and where its requests go

    Registration succeeds, a request goes to the handler of the pattern of its path with
    the values of the wildcards, and everything a client can do is within the promises of
    the middleware. *)

From coqutil Require Import Datatypes.RecordSetters.
From S2P Require Import Prelude GoStrings GoNum GoFloat GoTime GoFmt Json GoURL GoPath Cache Http HttpLaws Handles GoNet ClientIP RateLimit.
From S2P Require Import Converters HeaderFilter Bin Options Middleware GoMime GoRand Digest Delay Mix Handlers RequestBody GoTemplate StaticAssets.
From S2P Require Import Pdf Auth Redirects Images Streams ServeContent Handshake Hijack ServeMux ServeMuxSpec Server EndpointsHandle MiddlewareSpec BodySpec ServeContentSpec StreamsSpec Samples.
From S2P Require Cookies RedirectTo Pipeline.
Import TriangleBracketNotations.

(** ** Registration *)

Lemma HandleFuncs_Ok t mux mux' :
  HandleFuncs t mux = Ok mux' →
  ∃ ps, map parsePattern (map fst t) = map Some ps ∧ mux' = mux ++ zip ps (map snd t).
Proof.
  revert mux. induction t as [|[s a] t IH]; intros mux; cbn [HandleFuncs map fst snd].
  { intros [= <-]. exists []. by rewrite app_nil_r. }
  intros (mux1 & E1 & E)%outcome_bind_Ok. unfold HandleFunc in E1. cbn [fst snd] in E1.
  destruct (parsePattern s) as [p|] eqn:Ep; [|done]. destruct (existsb _ _); [done|]. injection E1 as <-.
  apply IH in E as (ps & Eps & ->). exists (p :: ps). split; [cbn [map]; by rewrite Eps|].
  by rewrite <- app_assoc.
Qed.

Section Server.
Context `{GoStd, Runtime, Hashes, Codecs, Rand, ImageCodecs, HttpTime}.

Definition mux_of (h : HTTPBin) : list (pattern * HandlerFunc) :=
  match HandleFuncs (routeTable h) [] with Ok mux => mux | _ => [] end.

Lemma routes_register h : HandleFuncs (routeTable h) [] = Ok (mux_of h).
Proof.
  unfold mux_of. assert (is_ok (HandleFuncs (routeTable h) []) = true) as E by (vm_compute; reflexivity).
  revert E. by destruct (HandleFuncs (routeTable h) []).
Qed.

Definition patterns (h : HTTPBin) : list pattern := map fst (mux_of h).

Lemma mux_of_table h str a p : (str, a) ∈ routeTable h → parsePattern str = Some p → (p, a) ∈ mux_of h.
Proof.
  intros Hin Hp. destruct (HandleFuncs_Ok _ _ _ (routes_register h)) as (ps & Eps & ->).
  change ([] ++ ?l) with l. revert ps Eps Hin. generalize (routeTable h) as t.
  induction t as [|[s b] t IH]; intros ps Eps; [by intros ?%elem_of_nil|]. intros [[= <- <-]|Hin]%elem_of_cons.
  - destruct ps as [|q ps]; [done|]. cbn [map fst] in Eps. rewrite Hp in Eps. injection Eps as <- _. by left.
  - destruct ps as [|q ps]; [done|]. cbn [map fst snd zip] in *. injection Eps as _ Eps. right. by apply IH.
Qed.

(** ** Competition between patterns *)

(** The methods that are tried before that of a pattern. *)
Definition precedes (m : string) (p : pattern) : bool :=
  negb (String.eqb m (p_method p)) &&
  (String.eqb (p_method p) "" || String.eqb (p_method p) "GET" && String.eqb m "HEAD").

Definition competes (r p : pattern) : bool :=
  compatible (p_segments r) (p_segments p) &&
  (precedes (p_method r) p ||
   String.eqb (p_method r) (p_method p) && lex_leb (p_segments r) (p_segments p)).

(** Only patterns of single paths can take a path from the pattern of a subtree. *)
Definition uncontested (ps : list pattern) : bool :=
  forallb (λ p, forallb (λ r, bool_decide (p = r) || negb (competes r p)
                           || last_multi (p_segments p) && negb (last_multi (p_segments r))) ps) ps.

Lemma patterns_uncontested h : uncontested (patterns h) = true.
Proof. vm_compute. reflexivity. Qed.
Lemma patterns_regular h : forallb (λ p, regular (p_segments p)) (patterns h) = true.
Proof. vm_compute. reflexivity. Qed.
Lemma patterns_NoDup h : NoDup (patterns h).
Proof. apply (bool_decide_unpack _). vm_compute. exact I. Qed.

#[local] Opaque mux_of.

Lemma elem_patterns h r : r ∈ mux_of h → r.1 ∈ patterns h.
Proof. unfold patterns. apply list_elem_of_fmap_2. Qed.

Lemma mux_regular h : Forall (λ r, regular (p_segments r.1) = true) (mux_of h).
Proof.
  apply Forall_forall. intros r Hr. pose proof (patterns_regular h) as E. rewrite forallb_forall in E.
  by apply E, list_elem_of_In, elem_patterns.
Qed.

Lemma mux_NoDup h r p a : r ∈ mux_of h → (p, a) ∈ mux_of h → r.1 = p → r = (p, a).
Proof.
  pose proof (patterns_NoDup h) as Hn. unfold patterns in Hn. revert Hn. generalize (mux_of h) as mux.
  induction mux as [|x mux IH]; [by intros _ ?%elem_of_nil|]. cbn [map]. intros [Hx Hn]%NoDup_cons.
  intros [->|Hr]%elem_of_cons [<-|Hp]%elem_of_cons Ep; [done|..|by apply IH].
  - destruct Hx. rewrite Ep. apply (list_elem_of_fmap_2 fst _ (p, a) Hp).
  - destruct Hx. cbn [fst]. rewrite <- Ep. by apply list_elem_of_fmap_2.
Qed.

Lemma mux_competes h r p a :
  r ∈ mux_of h → (p, a) ∈ mux_of h → (last_multi (p_segments p) = true → last_multi (p_segments r.1) = true) →
  competes r.1 p = true → r = (p, a).
Proof.
  intros Hr Hp Hmulti Hc. apply (mux_NoDup h); [done|done|]. pose proof (patterns_uncontested h) as E.
  unfold uncontested in E. rewrite forallb_forall in E.
  assert (p ∈ patterns h) as Hp2 by apply (elem_patterns h _ Hp).
  apply list_elem_of_In, E in Hp2. rewrite forallb_forall in Hp2.
  assert (r.1 ∈ patterns h) as Hr2 by by apply elem_patterns.
  apply list_elem_of_In, Hp2 in Hr2. rewrite Hc in Hr2. cbn [negb] in Hr2. rewrite orb_false_r in Hr2.
  apply orb_true_iff in Hr2 as [Hr2|Hr2]; [by apply bool_decide_eq_true in Hr2|].
  apply andb_true_iff in Hr2 as [H1' H2']. rewrite (Hmulti H1') in H2'. done.
Qed.

(** ** Routing *)

Lemma admits_tried p m :
  m ≠ "" → method_ok p m →
  ∃ before after, tried m = before ++ p_method p :: after ∧ Forall (λ m', precedes m' p = true) before.
Proof.
  intros Hm Ha. unfold tried. apply String.eqb_neq in Hm. rewrite Hm.
  apply String.eqb_neq in Hm. unfold precedes.
  destruct Ha as [->|[->|[-> ->]]].
  - destruct (String.eqb_spec m "HEAD") as [->|].
    + exists ["HEAD"; "GET"], []. split; [done|by repeat constructor].
    + exists [m], []. split; [done|]. apply String.eqb_neq in Hm. apply Forall_singleton. by rewrite Hm.
  - by eexists [], _.
  - exists ["HEAD"], [""]. split; [done|by repeat constructor].
Qed.

(** What a request must be for its path to be looked up as it is. *)
Record routable (r : Request) : Prop := {
  rt_method : Method r ≠ "" ∧ Method r ≠ "CONNECT";
  rt_target : RequestURI_ r ≠ "*";
  rt_rooted : HasPrefix (EscapedPath (URL r)) "/" = true;
  rt_clean : cleanPath (EscapedPath (URL r)) = EscapedPath (URL r);
}.

(** The path is below a subtree, but has no pattern of its own. *)
Definition unclaimed (h : HTTPBin) (path : string) : Prop :=
  ∀ r, r ∈ mux_of h → last_multi (p_segments r.1) = false → ¬ matched (p_segments r.1) (pathSegments path).

Lemma path_matches_length segs path vals : path_matches segs path vals → length vals = length (wildcards segs).
Proof. induction 1; cbn [wildcards omap list_omap length] in *; rewrite ?IHpath_matches; done. Qed.

Lemma mux_routed h s p a vals :
  (p, a) ∈ mux_of h → routable (req s) → method_ok p (Method (req s)) →
  let path := EscapedPath (URL (req s)) in
  path_matches (p_segments p) (pathSegments path) vals →
  (last_multi (p_segments p) = true → unclaimed h path) →
  mux_ServeHTTP (mux_of h) s =
    a (set_req (set_PathValues (list_to_map (zip (wildcards (p_segments p)) vals)) (req s)) s).
Proof.
  intros Hin [[Hm Hc] Ht Hr Hcl] Ha path Hm1 Hun.
  destruct (clean_path _ Hr Hcl) as (pieces & Hpc & Ep). fold path in Ep.
  destruct (admits_tried _ _ Hm Ha) as (before & after & Etried & Hbefore).
  assert (match_ (mux_of h) (Method (req s)) path = Some (p, a, vals)) as E.
  { apply (match_routed _ _ _ _ _ _ before after); [|done|done|done|..].
    - rewrite Ep, pathSegments_path by done. by apply clean_proper.
    - intros r Hin' Hmeth [v Hv]. assert (r = (p, a)) as ->.
      { apply (mux_competes h); [done|done| |].
        - intros Hl. apply not_false_is_true. intros Hf. apply (Hun Hl r Hin' Hf). by exists v.
        - unfold competes. rewrite (compatible_matches _ _ _ _ _ Hv Hm1). rewrite Forall_forall in Hbefore.
          by rewrite (Hbefore _ Hmeth). }
      rewrite Forall_forall in Hbefore. specialize (Hbefore _ Hmeth). unfold precedes in Hbefore. cbn [fst] in Hbefore.
      by rewrite String.eqb_refl in Hbefore.
    - intros r Hin' Hmeth [v Hv] Hlex. apply (mux_competes h); [done|done| |].
      + intros Hl. apply not_false_is_true. intros Hf. apply (Hun Hl r Hin' Hf). by exists v.
      + unfold competes. rewrite (compatible_matches _ _ _ _ _ Hv Hm1), Hmeth, String.eqb_refl, (lex_le_leb _ _ Hlex).
        by rewrite orb_true_r.
    - intros v Hv. by apply (path_matches_vals _ _ _ _ Hv). }
  unfold mux_ServeHTTP, mbind, GoM_bind, get_req. apply String.eqb_neq in Ht. rewrite Ht.
  rewrite (findHandler_routed _ (mux_regular h) _ p a vals) by done.
  rewrite (path_matches_length _ _ _ Hm1), Nat.ltb_irrefl. done.
Qed.

(** (C11) Registration succeeds, and a request whose path is clean goes to the handler of
    the pattern that matches the path: a pattern for single paths whatever else is
    registered, the pattern of a subtree when no such pattern matches.  The handler finds
    the segments under the names of the wildcards. *)
Theorem requests_routed h s str a p vals :
  (str, a) ∈ routeTable h → parsePattern str = Some p → routable (req s) → method_ok p (Method (req s)) →
  let path := EscapedPath (URL (req s)) in
  path_matches (p_segments p) (pathSegments path) vals →
  (last_multi (p_segments p) = true → unclaimed h path) →
  ∃ mux, HandleFuncs (routeTable h) [] = Ok mux ∧
    mux_ServeHTTP mux s =
      a (set_req (set_PathValues (list_to_map (zip (wildcards (p_segments p)) vals)) (req s)) s).
Proof.
  intros Hin Hp Hr Hm path Hmatch Hun. exists (mux_of h). split; [apply routes_register|].
  apply mux_routed; [by eapply mux_of_table|done..].
Qed.

(** ** Requests without a handler *)

Lemma Allow_kept : CanonicalHeaderKey "Allow" ∉ ["Content-Length"; "Content-Type"; "X-Content-Type-Options"].
Proof. apply (bool_decide_unpack _). vm_compute. exact I. Qed.

(** A request for a path that has no pattern, even with a slash after it, is answered
    with 404; one for a path with patterns for other methods only, with 405 and those
    methods (and HEAD with GET), in order. *)
Lemma mux_refused h s :
  routable (req s) → blank s →
  let path := EscapedPath (URL (req s)) in
  (∀ r, r ∈ mux_of h → method_ok r.1 (Method (req s)) → ¬ matched (p_segments r.1) (pathSegments path)) →
  (HasSuffix path "/" = false → ∀ r, r ∈ mux_of h → ¬ matched (p_segments r.1) (pathSegments (path +:+ "/"))) →
  ∃ s' ms, mux_ServeHTTP (mux_of h) s = (Ok tt, s') ∧ Sorted key_le ms ∧ NoDup ms ∧
    (∀ m, m ∈ ms ↔ ∃ r, r ∈ mux_of h ∧ p_method r.1 ≠ "" ∧ matched (p_segments r.1) (pathSegments path) ∧
       (p_method r.1 = m ∨ p_method r.1 = "GET" ∧ m = "HEAD")) ∧
    match ms with
    | [] => answers 404 ("404 page not found" +:+ str1 LF) s'
    | _ => answers 405 ("Method Not Allowed" +:+ str1 LF) s' ∧ Header_Get "Allow" (sent (wr s')) = Join ", " ms
    end.
Proof.
  intros [[Hm Hc] Ht Hr Hcl] Hb path Hno Hslash.
  destruct (clean_path _ Hr Hcl) as (pieces & Hpc & Ep). fold path in Ep.
  assert (Forall (λ s, s ≠ "") (pathSegments path)) as Hp by (rewrite Ep, pathSegments_path by done; by apply clean_proper).
  assert (HasSuffix path "/" = false → Forall (λ s, s ≠ "") (pathSegments (path +:+ "/"))) as Hp2.
  { intros Hs. destruct Hpc as (l & Hl & [[-> Hne]| ->]); [|by rewrite Ep, path_of_slash, HasSuffix_app in Hs].
    assert (clean_pieces (l ++ [""])) as Hcp by (exists l; split; [done|by right]).
    rewrite Ep, <- path_of_slash, pathSegments_path by done. by apply clean_proper. }
  pose proof (matchingMethods_sorted (mux_of h) path) as [Hsort Hdup].
  pose proof (λ m, elem_matchingMethods (mux_of h) path m Hp (λ Hs, conj (Hp2 Hs) (Hslash Hs))) as Hms.
  assert (findHandler (mux_of h) (req s) =
    match matchingMethods (mux_of h) path with [] => Unknown | ms => NotAllowed ms end) as E.
  { unfold findHandler. apply String.eqb_neq in Hc. rewrite Hc. fold path. fold path in Hcl. rewrite Hcl.
    unfold matchOrRedirect. rewrite (match_none _ _ _ Hp Hno). cbn [exactMatch negb andb].
    destruct (HasSuffix path "/") eqn:Esuf; cbn [negb].
    - by rewrite String.eqb_refl.
    - rewrite match_none; [|by apply Hp2|intros r Hr' _; by apply Hslash]. cbn [exactMatch].
      by rewrite String.eqb_refl. }
  unfold mux_ServeHTTP, mbind, GoM_bind, get_req. apply String.eqb_neq in Ht. rewrite Ht, E.
  destruct (matchingMethods (mux_of h) path) as [|m ms] eqn:Ems.
  - destruct (http_Error_answers "404 page not found" 404 s) as (s' & E' & Ha & _); [by apply final_200|reflexivity|exact Hb|].
    exists s', []. exact (conj E' (conj Hsort (conj Hdup (conj Hms Ha)))).
  - rewrite SetHeader_run. set (s1 := set_wr _ s). assert (blank s1) as Hb1 by by apply blank_header.
    destruct (http_Error_answers (StatusText 405) 405 s1) as (s' & E' & Ha & Hh); [by apply final_200|reflexivity|exact Hb1|].
    exists s', (m :: ms). refine (conj E' (conj Hsort (conj Hdup (conj Hms (conj Ha _))))).
    rewrite (Hh "Allow" Allow_kept). unfold s1. cbn [wr set_wr]. by rewrite rHeader_set_header, Header_Get_Set.
Qed.

(** The paths that are served for certain methods only, with the methods. *)
Definition fixed : list (list string * list string) :=
  [(["/"], ["GET"; "HEAD"]); (["get"], ["GET"; "HEAD"]); (["encoding"; "utf8"], ["GET"; "HEAD"]);
   (["forms"; "post"], ["GET"; "HEAD"]); (["websocket"; "echo"], ["GET"; "HEAD"]); (["head"], ["HEAD"]);
   (["delete"], ["DELETE"]); (["patch"], ["PATCH"]); (["post"], ["POST"]); (["put"], ["PUT"]);
   (["upload"], ["PATCH"; "POST"; "PUT"]); (["echo"], ["PATCH"; "POST"; "PUT"])].

(** The first segments of all the others, which are served for every method. *)
Definition open_paths : list string :=
  ["absolute-redirect"; "anything"; "base64"; "basic-auth"; "bearer"; "body"; "brotli"; "bytes"; "cache"; "close";
   "cookies"; "deflate"; "delay"; "deny"; "digest-auth"; "drip"; "dump"; "env"; "etag"; "gzip"; "header"; "headers";
   "hidden-basic-auth"; "hostname"; "html"; "image"; "ip"; "json"; "links"; "mix"; "negotiate"; "no-cache"; "nocache";
   "pdf"; "problem"; "range"; "redirect"; "redirect-to"; "relative-redirect"; "response-headers"; "response_delay";
   "robots.txt"; "sse"; "status"; "stream"; "stream-bytes"; "trailers"; "unstable"; "user-agent"; "uuid"; "version"; "xml"].

Definition opens (p : pattern) : bool :=
  match p_segments p with Lit x :: _ => bool_decide (x ∈ open_paths) | _ => false end.
Definition serves_fixed (e : list string * list string) (p : pattern) : bool :=
  bool_decide (p_segments p = map Lit e.1 ∧ p_method p ∈ e.2 ∧ p_method p ≠ "").

(** Every pattern of the table is in one of the lists, and every method of [fixed] has one. *)
Lemma table_listed h : forallb (λ p, opens p || existsb (λ e, serves_fixed e p) fixed) (patterns h) = true.
Proof. vm_compute. reflexivity. Qed.
Lemma fixed_listed h :
  forallb (λ e, forallb (λ m, existsb (λ p, serves_fixed e p &&
    bool_decide (p_method p = m ∨ p_method p = "GET" ∧ m = "HEAD")) (patterns h)) e.2) fixed = true.
Proof. vm_compute. reflexivity. Qed.
Lemma fixed_methods :
  forallb (λ e, bool_decide (Sorted key_le e.2 ∧ NoDup e.2 ∧ ("GET" ∈ e.2 → "HEAD" ∈ e.2))) fixed = true.
Proof. vm_compute. reflexivity. Qed.

Lemma matched_literals l path : matched (map Lit l) path ↔ path = l.
Proof.
  split.
  - intros [vals Hm]. revert path vals Hm. induction l as [|x l IH]; intros path vals Hm; inversion Hm; [done|].
    f_equal. by eapply IH.
  - intros ->. exists []. induction l as [|x l IH]; [apply match_end|by apply match_lit].
Qed.

(** A pattern that matches a path outside of [open_paths] is one of a path of [fixed]. *)
Lemma matched_fixed h r segs :
  r ∈ mux_of h → (∀ x, head segs = Some x → x ∉ open_paths) → matched (p_segments r.1) segs →
  ∃ e, e ∈ fixed ∧ segs = e.1 ∧ p_method r.1 ∈ e.2 ∧ p_method r.1 ≠ "".
Proof.
  intros Hr Hx Hm. pose proof (table_listed h) as E. rewrite forallb_forall in E.
  specialize (E r.1 (proj1 (list_elem_of_In _ _) (elem_patterns h r Hr))). apply orb_true_iff in E as [E|E].
  - unfold opens in E. destruct (p_segments r.1) as [|[x| |] l]; [done| |done..].
    apply bool_decide_eq_true in E. destruct Hm as [vals Hm]. inversion Hm. subst. by destruct (Hx x).
  - apply existsb_exists in E as (e & He & (Es & Hmeth & Hn)%bool_decide_eq_true).
    exists e. split; [by apply list_elem_of_In|]. rewrite Es in Hm. by apply matched_literals in Hm.
Qed.

Lemma fixed_unique e e' : e ∈ fixed → e' ∈ fixed → e.1 = e'.1 → e = e'.
Proof.
  assert (forallb (λ e, forallb (λ e', bool_decide (e.1 = e'.1 → e = e')) fixed) fixed = true) as E
    by (vm_compute; reflexivity).
  rewrite forallb_forall in E. intros He%list_elem_of_In He'%list_elem_of_In. specialize (E e He).
  rewrite forallb_forall in E. specialize (E e' He'). by rewrite bool_decide_eq_true in E.
Qed.

(** The methods that are allowed for a path of [fixed]. *)
Lemma fixed_allowed h e m :
  e ∈ fixed → (∀ x, head e.1 = Some x → x ∉ open_paths) →
  m ∈ e.2 ↔ ∃ r, r ∈ mux_of h ∧ p_method r.1 ≠ "" ∧ matched (p_segments r.1) e.1 ∧
    (p_method r.1 = m ∨ p_method r.1 = "GET" ∧ m = "HEAD").
Proof.
  intros He Hx. split.
  - intros Hm. pose proof (fixed_listed h) as E. rewrite forallb_forall in E. apply list_elem_of_In in He, Hm.
    specialize (E e He). rewrite forallb_forall in E. specialize (E m Hm).
    apply existsb_exists in E as (p & Hp & [Hs Hpm]%andb_true_iff).
    unfold serves_fixed in Hs. rewrite bool_decide_eq_true in Hs. rewrite bool_decide_eq_true in Hpm. destruct Hs as (Hs & _ & Hn).
    apply list_elem_of_In, list_elem_of_fmap in Hp as (r & -> & Hr). exists r. split; [done|]. split; [done|].
    split; [|done]. rewrite Hs. by apply matched_literals.
  - intros (r & Hr & _ & Hm & Hrm). destruct (matched_fixed h r e.1 Hr Hx Hm) as (e' & He' & Ep & Hin & _).
    rewrite (fixed_unique e e' He He' Ep). destruct Hrm as [<-|[Eg ->]]; [done|].
    pose proof fixed_methods as E. rewrite forallb_forall in E. apply list_elem_of_In in He'.
    specialize (E e' He'). apply bool_decide_eq_true in E as (_ & _ & Hh). apply Hh. by rewrite <- Eg.
Qed.

(** With another slash, no pattern takes such a path. *)
Lemma fixed_slash h path :
  HasPrefix path "/" = true → cleanPath path = path → (∀ x, head (pathSegments path) = Some x → x ∉ open_paths) →
  HasSuffix path "/" = false → ∀ r, r ∈ mux_of h → ¬ matched (p_segments r.1) (pathSegments (path +:+ "/")).
Proof.
  intros Hr Hcl Hx Hs r Hin Hm. destruct (clean_path _ Hr Hcl) as (pieces & Hpc & Ep).
  destruct Hpc as (l & Hl & [[-> Hne]| ->]); [|by rewrite Ep, path_of_slash, HasSuffix_app in Hs].
  assert (pathSegments path = map pathUnescape l) as E1.
  { rewrite Ep, pathSegments_path by (exists l; split; [done|by left]). by apply segmentsOf_elems. }
  assert (pathSegments (path +:+ "/") = map pathUnescape l ++ ["/"]) as E2.
  { rewrite Ep, <- path_of_slash, pathSegments_path by (exists l; split; [done|by right]). apply segmentsOf_slash. }
  rewrite E2 in Hm. rewrite E1 in Hx. destruct l as [|x l]; [done|]. cbn [map app] in *.
  destruct (matched_fixed h r (pathUnescape x :: map pathUnescape l ++ ["/"]) Hin Hx Hm) as (e & He & Ee & _).
  assert (forallb (λ e, bool_decide (last e.1 = Some "/" → e.1 = ["/"])) fixed = true) as E by (vm_compute; reflexivity).
  rewrite forallb_forall in E. apply list_elem_of_In in He. specialize (E e He). rewrite bool_decide_eq_true in E.
  rewrite <- Ee in E. assert (last ((pathUnescape x :: map pathUnescape l) ++ ["/"]) = Some "/") as El by apply last_snoc.
  specialize (E El). by destruct l.
Qed.

(** (C13) Registration succeeds, and what it gives refuses requests as follows.  The twelve
    paths of [fixed] answer another method than theirs with 405 and exactly their methods
    under Allow; every other path that starts with none of the segments of [open_paths]
    is answered with 404, for every method. *)
Theorem requests_refused h s :
  routable (req s) → blank s →
  let segs := pathSegments (EscapedPath (URL (req s))) in
  (∀ x, head segs = Some x → x ∉ open_paths) →
  ∃ mux, HandleFuncs (routeTable h) [] = Ok mux ∧
    (∀ allowed, (segs, allowed) ∈ fixed → Method (req s) ∉ allowed →
       ∃ s', mux_ServeHTTP mux s = (Ok tt, s') ∧ answers 405 ("Method Not Allowed" +:+ str1 LF) s' ∧
         Header_Get "Allow" (sent (wr s')) = Join ", " allowed) ∧
    (segs ∉ map fst fixed →
       ∃ s', mux_ServeHTTP mux s = (Ok tt, s') ∧ answers 404 ("404 page not found" +:+ str1 LF) s').
Proof.
  intros Hrt Hb segs Hx. exists (mux_of h). split; [apply routes_register|].
  pose proof (mux_refused h s Hrt Hb) as Href. cbv zeta in Href. fold segs in Href.
  pose proof (λ Hno, Href Hno (fixed_slash h _ (rt_rooted _ Hrt) (rt_clean _ Hrt) Hx)) as Href'. clear Href. split.
  - intros allowed Hin Hm. pose proof (λ m, fixed_allowed h (segs, allowed) m Hin Hx) as Hall. cbn [fst snd] in Hall.
    destruct Href' as (s' & ms & E & Hsort & Hdup & Hms & Ha).
    { intros r Hr Hmeth Hmr. apply Hm, Hall. destruct (matched_fixed h r segs Hr Hx Hmr) as (e & He & Ee & Hme & Hn).
      exists r. split; [done|]. split; [done|]. split; [done|]. destruct Hmeth as [E|[E|E]]; tauto. }
    assert (ms = allowed) as ->.
    { pose proof fixed_methods as Ef. rewrite forallb_forall in Ef. apply list_elem_of_In in Hin.
      specialize (Ef _ Hin). rewrite bool_decide_eq_true in Ef. destruct Ef as (Es & Ed & _).
      apply (Sorted_unique key_le); [done|done|]. apply NoDup_Permutation; [done|done|].
      intros m. by rewrite Hms, Hall. }
    exists s'. split; [done|]. destruct allowed as [|m l]; [|exact Ha].
    assert (forallb (λ e, bool_decide (e.2 ≠ [])) fixed = true) as En by (vm_compute; reflexivity).
    rewrite forallb_forall in En. apply list_elem_of_In in Hin. specialize (En _ Hin). by rewrite bool_decide_eq_true in En.
  - intros Hnin. assert (∀ r, r ∈ mux_of h → ¬ matched (p_segments r.1) segs) as Hno.
    { intros r Hr Hm. destruct (matched_fixed h r segs Hr Hx Hm) as (e & He & Ee & _). destruct Hnin.
      rewrite Ee. by apply list_elem_of_fmap_2. }
    destruct Href' as (s' & ms & E & _ & _ & Hms & Ha); [by auto|].
    exists s'. split; [done|]. destruct ms as [|m ms]; [done|].
    destruct (proj1 (Hms m)) as (r & Hr & _ & Hm & _); [by left|]. by destruct (Hno r Hr).
Qed.

(** ** A new server *)

Lemma mux_of_elem h p a : (p, a) ∈ mux_of h → ∃ str, (str, a) ∈ routeTable h.
Proof.
  destruct (HandleFuncs_Ok _ _ _ (routes_register h)) as (ps & _ & ->). change ([] ++ ?l) with l.
  intros Hin%elem_of_zip_r. apply list_elem_of_fmap in Hin as ([str a'] & -> & Hin). by exists str.
Qed.

(** The page that a template gives for the prefix and the version of the server. *)
Definition rendered (name : string) (h : HTTPBin) (page : string) : Prop :=
  ∃ t, staticAsset name = Some (text_of t) ∧ Execute (tmplData (prefix h) (version h)) t = Some page.

Context (Htmpl : templates_embedded).

Lemma New_run sur opts h :
  apply_options opts new_bin = Ok h →
  ∃ index forms, rendered "index.html.tmpl" h index ∧ rendered "forms-post.html.tmpl" h forms ∧
    let h' := precompute sur index forms h in
    New sur opts = Ok (MkHttpbin h' (MkCaches (newImageCache 64) (newPDFCache 64)) (serverHandler h' (mux_ServeHTTP (mux_of h')))).
Proof.
  intros E. pose proof Htmpl as [(t1 & A1 & T1 & F1) [(t2 & A2 & T2 & F2) _]%Forall_cons]%Forall_cons.
  destruct (mustRenderTemplate_ok _ (prefix h) (version h) t1 A1 T1 F1) as (index & Ei & Mi).
  destruct (mustRenderTemplate_ok _ (prefix h) (version h) t2 A2 T2 F2) as (forms & Ef & Mf).
  exists index, forms. split; [by exists t1|]. split; [by exists t2|]. intros h'.
  unfold New. rewrite E. cbn [mbind outcome_bind]. rewrite Ei, Ef. cbn [mbind outcome_bind]. fold h'.
  unfold Handler. by rewrite routes_register.
Qed.

Lemma new_mux_Handles sur index forms h : Handles (mux_ServeHTTP (mux_of (precompute sur index forms h))).
Proof.
  apply mux_Handles. intros p a [str Hin]%mux_of_elem. apply (table_Handles (precompute sur index forms h) str); [|done].
  by eexists.
Qed.

(** (C6) A server is made whatever the options, unless one of them panics; its pages are
    the templates with the prefix and the version of the options; and whatever a client sends, it gives the slot of the request back, tells the observer, if there is
    one, exactly once when the request was served and not at all when it panicked, and the
    size it tells is the number of bytes that the response received. *)
Theorem New_serves sur opts h :
  apply_options opts new_bin = Ok h →
  ∃ srv, New sur opts = Ok srv ∧
    rendered "index.html.tmpl" h (indexHTML (bin srv)) ∧
    rendered "forms-post.html.tmpl" h (formsPostHTML (bin srv)) ∧ ∀ s r0, wr (world s) = Base r0 →
    let '(o, s') := ServeHTTP srv s in
    slots s' = slots s ∧
    match o with
    | Ok _ => ∃ rs, results s' = results s ++ rs ∧
        if Bin.observed (bin srv)
        then ∃ r, rs = [r] ∧ (R_Size r - (slen (body (wr (world s'))) - slen (rBody r0))) mod 2 ^ 64 = 0
        else rs = []
    | _ => results s' = results s
    end.
Proof.
  intros E. destruct (New_run sur opts h E) as (index & forms & Hi & Hf & En).
  eexists. split; [exact En|]. split; [exact Hi|]. split; [exact Hf|]. intros s r0 Hw. unfold ServeHTTP. cbn [handler bin].
  pose proof (new_mux_Handles sur index forms h) as Hmux. revert Hmux Hw. clear.
  generalize (precompute sur index forms h) as h'. intros h' Hmux Hw.
  destruct (Serves_inner h' _ Hmux) as (m & Hm & ->). destruct (Bin.observed h').
  - pose proof (observe_serves (h_getClientIP h') m s r0 Hm Hw) as Ho.
    destruct (observe _ m s) as [[u| |] s']; [|done..]. destruct Ho as [Hs (r & Hr & Hsize)].
    split; [done|]. exists [r]. split; [done|]. by exists r.
  - pose proof (Hm s) as [_ Hs Hr]. destruct (m s) as [[u| |] s']; [|done..].
    split; [done|]. exists []. by rewrite app_nil_r.
Qed.
End Server.

(** ** A sample server *)

From S2P Require Import ImagesSpec.

#[export] Instance sample_hashes : Hashes := {| md5_Sum := id; sha256_Sum256 := id |}.

Definition sample_surroundings : surroundings := {|
  execLookPath _ := false; startTime := 0 |}.

Lemma sample_templates : templates_embedded.
Proof.
  assert (∀ t, contains_char "{" t = false → text_ok t ∧ until_open t = (t, None)) as Hp by exact plain_text_ok.
  constructor; [|constructor; [|constructor]].
  - exists (Then "<a href=" "Prefix" (Cond "/>" "Version" (Then "" "Version" (Done "")) (Done "</a>"))).
    split; [reflexivity|]. split; [cbn; repeat split; try discriminate; by apply Hp|]. repeat constructor; set_solver.
  - exists (Then "<form action=" "Prefix" (Done "/post>")).
    split; [reflexivity|]. split; [cbn; repeat split; try discriminate; by apply Hp|]. repeat constructor; set_solver.
Qed.

Lemma requests_routed_witness :
  let s := GET "/base64/encode/aGk" in
  ∃ mux, HandleFuncs (routeTable sample_bin) [] = Ok mux ∧
    mux_ServeHTTP mux s =
      Base64Handler sample_bin
        (set_req (set_PathValues (list_to_map [("operation", "encode"); ("data", "aGk")]) (req s)) s).
Proof.
  intros s. apply (requests_routed sample_bin s "/base64/{operation}/{data}" _
    (MkPattern "" [Lit "base64"; Wild "operation"; Wild "data"]) ["encode"; "aGk"]).
  - apply (list_elem_of_lookup_2 _ 14). reflexivity.
  - reflexivity.
  - split; [split; discriminate|discriminate|reflexivity|reflexivity].
  - by left.
  - replace (pathSegments _) with ["base64"; "encode"; "aGk"] by (vm_compute; reflexivity).
    apply match_lit, match_wild, match_wild, match_end; discriminate.
  - discriminate.
Defined.

Lemma requests_refused_witness :
  let s := GET "/upload" in
  ∃ mux s', HandleFuncs (routeTable sample_bin) [] = Ok mux ∧ mux_ServeHTTP mux s = (Ok tt, s') ∧
    answers 405 ("Method Not Allowed" +:+ str1 LF) s' ∧ Header_Get "Allow" (sent (wr s')) = "PATCH, POST, PUT".
Proof.
  intros s. destruct (requests_refused sample_bin s) as (mux & E & Hfixed & _).
  - split; [split; discriminate|discriminate|reflexivity|reflexivity].
  - done.
  - intros x Hx. vm_compute in Hx. injection Hx as <-. apply (bool_decide_unpack _). vm_compute. exact I.
  - destruct (Hfixed ["PATCH"; "POST"; "PUT"]) as (s' & E' & Ha & Hh).
    + do 10 right. left.
    + apply (bool_decide_unpack _). reflexivity.
    + exists mux, s'. exact (conj E (conj E' (conj Ha Hh))).
Defined.

Lemma New_serves_witness :
  ∃ srv, New sample_surroundings [WithObserver; WithMaxConcurrentRequests 2] = Ok srv ∧
    let '(o, s') := ServeHTTP srv (MkServer (GET "/get") (newIPRateLimiter (MkRateLimiterConfig (of_Z 1) 1 1 1 1 false)) 0 []) in
    slots s' = 0.
Proof.
  destruct (New_serves sample_templates sample_surroundings [WithObserver; WithMaxConcurrentRequests 2] _ eq_refl)
    as (srv & E & _ & _ & Hsrv).
  exists srv. split; [exact E|]. set (s := MkServer _ _ _ _). specialize (Hsrv s new_response eq_refl).
  destruct (ServeHTTP srv s) as [o s']. apply Hsrv.
Defined.
