(* ===== verification/Main.v ===== *)
(** * Main: the command, from its arguments to its exit code

    [mainImpl] of [cmd/cmd.go]: the configuration becomes options, the options a server,
    and the server a process that listens until it is told to stop. *)

From S2P Require Import Prelude GoStrings GoNum GoFloat GoTime GoFmt GoFlag Json GoURL Http GoNet ClientIP RateLimit.
From S2P Require Import Converters HeaderFilter Bin Options Middleware GoRand Digest Handlers RequestBody Images ServeContent Server.
From S2P Require Config.

(** ** The logger *)

Record Logger := MkLogger { l_json : bool; l_level : Z; l_discarded : bool }.

Definition setupLogger (logFormat : string) (level : Z) : Logger :=
  MkLogger (String.eqb logFormat "json") level (level =? Config.logLevelOff).

(** ** The server process *)

Record HttpServer := MkHttpServer {
  Addr : string;
  app_handler : SM unit;
  MaxHeaderBytes : Z;
  ReadHeaderTimeout : Z;
  ReadTimeout : Z;
  WriteTimeout : Z;
  IdleTimeout : Z;
}.

(** [net.JoinHostPort] *)
Definition JoinHostPort (host port : string) : string :=
  if contains_char ":" host || contains_char "%" host then "[" +:+ host +:+ "]:" +:+ port
  else host +:+ ":" +:+ port.

(** What [mainImpl] has come to when it listens, or its exit code and what it printed. *)
Inductive started :=
| Exit (code : Z) (out : string)
| Listen (srv : HttpServer) (cfg : Config.config) (logger : Logger).

(** The certificate and the key, if the server uses TLS. *)
Definition tlsFiles (cfg : Config.config) : option (string * string) :=
  if nonempty (Config.TLSCertFile cfg) && nonempty (Config.TLSKeyFile cfg)
  then Some (Config.TLSCertFile cfg, Config.TLSKeyFile cfg) else None.

Section Main.
Context `{GoStd, Runtime, Hashes, Codecs, Rand, ImageCodecs, HttpTime, Regexp}.
Context (sur : surroundings) (Version : string).
Context (getEnvVal : string → string) (getEnviron : list string) (getHostname : outcome gerror string).

Definition trustedOptions (cfg : Config.config) : outcome gerror (list OptionFunc) :=
  if nonempty (Config.rawTrustedProxies cfg) then
    '(cidrs, configured) ← ParseTrustedProxies (Config.rawTrustedProxies cfg);
    Ok (if configured : bool then [WithTrustedProxies cidrs] else [])
  else Ok [].

Definition limiterConfig (cfg : Config.config) : RateLimiterConfig :=
  MkRateLimiterConfig (Config.RateLimitRate cfg) (Config.RateLimitBurst cfg) (Config.RateLimitMaxIPs cfg)
    (Config.RateLimitEntryTTL cfg) (Config.RateLimitCleanupInterval cfg) (Config.RateLimitUseSubnets cfg).

Definition mainOptions (cfg : Config.config) (trusted : list OptionFunc) : list OptionFunc :=
  [WithEnv (Config.Env cfg);
   WithMaxBodySize (Config.MaxBodySize cfg);
   WithMaxDuration (Config.MaxDuration cfg);
   WithObserver;
   WithExcludeHeaders (Config.ExcludeHeaders cfg);
   WithVersion Version]
  ++ (if nonempty (Config.Prefix cfg) then [WithPrefix (Config.Prefix cfg)] else [])
  ++ (if nonempty (Config.RealHostname cfg) then [WithHostname (Config.RealHostname cfg)] else [])
  ++ (if (0 <? length (Config.AllowedRedirectDomains cfg))%nat
      then [WithAllowedRedirectDomains (Config.AllowedRedirectDomains cfg)] else [])
  ++ (if Config.UnsafeAllowDangerousResponses cfg then [WithUnsafeAllowDangerousResponses] else [])
  ++ trusted
  ++ (if fltb fzero (Config.RateLimitRate cfg) then [WithRateLimiter (limiterConfig cfg)] else [])
  ++ (if 0 <? Config.MaxConcurrentRequests cfg
      then [WithMaxConcurrentRequests (Config.MaxConcurrentRequests cfg)] else []).

(** A panic of an option is one of the process. *)
Definition startServer (cfg : Config.config) : outcome gerror started :=
  let logger := setupLogger (Config.LogFormat cfg) (Config.LogLevel cfg) in
  match trustedOptions cfg with
  | Err e => Ok (Exit 1 ("error: invalid trusted proxies: " +:+ Error e))
  | Panic w => Panic w
  | Ok trusted =>
      app ← New sur (mainOptions cfg trusted);
      handler ← Handler (bin app);
      Ok (Listen (MkHttpServer (JoinHostPort (Config.ListenHost cfg) (Itoa (Config.ListenPort cfg))) handler
                    (Config.SrvMaxHeaderBytes cfg) (Config.SrvReadHeaderTimeout cfg) (Config.SrvReadTimeout cfg)
                    (Config.SrvWriteTimeout cfg) (Config.SrvIdleTimeout cfg)) cfg logger)
  end.

Definition mainStart (args : list string) : outcome gerror started :=
  match Config.loadConfig getEnvVal getEnviron getHostname args with
  | Ok cfg => startServer cfg
  | Err (Config.ConfigError ErrHelp usage) => Ok (Exit 0 usage)
  | Err (Config.ConfigError (FlagFailed e) usage) =>
      Ok (Exit 2 ("error: " +:+ Error e +:+ str1 LF +:+ str1 LF +:+ usage))
  | Err (Config.OtherError e) => Ok (Exit 1 ("error: " +:+ Error e))
  | Panic w => Panic w
  end.

(** The exit code, when [listenAndServeGracefully] returns what it does. *)
Definition mainImpl (listenAndServeGracefully : HttpServer → Config.config → option gerror) (args : list string)
    : outcome gerror Z :=
  st ← mainStart args;
  Ok (match st with
      | Exit code _ => code
      | Listen srv cfg _ => match listenAndServeGracefully srv cfg with Some _ => 1 | None => 0 end
      end).
End Main.

(** ** The lifetime of the process

    The goroutine of [listenAndServeGracefully] that waits for a signal and shuts the
    server down, and the one that serves.  [Shutdown] and [ListenAndServe] are those of
    [net/http]: the first makes the second return at once and itself returns when no
    request is being served (it polls for that, which takes no time here), or at the
    deadline of its context, which time does not pass before it does.  Nothing bounds the
    time that a request takes. *)

Inductive mainState := Listening | WaitingDone | Returned (err : option gerror).
Inductive sigState := AwaitSignal | Stopping (deadline : Z) | Reported.

Record process := MkProcess {
  serving : mainState;
  signals : sigState;
  doneCh : option (option gerror);        (* the value in the channel *)
  inflight : gmap nat Z;                  (* the requests, and when they arrived *)
  clock : Z;
}.

Definition DeadlineExceeded : gerror := GoFmt.New "context deadline exceeded".

Section Lifetime.
(** The maximal duration of the configuration. *)
Context (MaxDuration : Z).

Definition grace : Z := MaxDuration + 1 * Second.

Inductive process_step : process → process → Prop :=
| request_arrives i p :
    serving p = Listening → signals p = AwaitSignal → inflight p !! i = None →
    process_step p (MkProcess Listening AwaitSignal (doneCh p) (<[i := clock p]> (inflight p)) (clock p))
| request_ends i p :
    process_step p (MkProcess (serving p) (signals p) (doneCh p) (delete i (inflight p)) (clock p))
| time_passes d p :
    0 < d → (∀ deadline, signals p = Stopping deadline → clock p + d ≤ deadline) →
    process_step p (MkProcess (serving p) (signals p) (doneCh p) (inflight p) (clock p + d))
| signalled p :
    signals p = AwaitSignal →
    process_step p (MkProcess (serving p) (Stopping (clock p + grace)) (doneCh p) (inflight p) (clock p))
| shutdown_clean deadline p :
    signals p = Stopping deadline → inflight p = ∅ →
    process_step p (MkProcess (serving p) Reported (Some None) (inflight p) (clock p))
| shutdown_late deadline p :
    signals p = Stopping deadline → inflight p ≠ ∅ → deadline ≤ clock p →
    process_step p (MkProcess (serving p) Reported (Some (Some DeadlineExceeded)) (inflight p) (clock p))
| serve_closed p :
    serving p = Listening → signals p ≠ AwaitSignal →
    process_step p (MkProcess WaitingDone (signals p) (doneCh p) (inflight p) (clock p))
| serve_failed e p :
    serving p = Listening → e ≠ DeadlineExceeded →
    process_step p (MkProcess (Returned (Some e)) (signals p) (doneCh p) (inflight p) (clock p))
| received r p :
    serving p = WaitingDone → doneCh p = Some r →
    process_step p (MkProcess (Returned r) (signals p) None (inflight p) (clock p)).

Definition launched (t : Z) : process := MkProcess Listening AwaitSignal None ∅ t.
End Lifetime.
