(* ===== verification/MainSpec.v ===== *)
(** * MainSpec: what the command starts and how it ends *)

From coqutil Require Import Datatypes.RecordSetters.
From S2P Require Import Prelude GoStrings GoNum GoFloat GoTime GoFmt GoFlag Json GoURL Http GoNet ClientIP RateLimit.
From S2P Require Import Converters HeaderFilter Bin Options Middleware GoRand Digest Handlers RequestBody GoTemplate StaticAssets Images ServeContent.
From S2P Require Import ServeMux Server EndpointsHandle ImagesSpec ServeContentSpec ServerSpec Main Samples.
From S2P Require Config ConfigSpec.
Import TriangleBracketNotations.

(** ** The end of the process *)

Section Lifetime.
Context (MaxDuration : Z) (t : Z).
Abbreviation step := (process_step MaxDuration).

(** In the past of [p] a request had been served for longer than the grace period. *)
Definition overran (p : process) : Prop :=
  ∃ q i arrived, rtc step (launched t) q ∧ rtc step q p ∧
    inflight q !! i = Some arrived ∧ arrived + (MaxDuration + 1 * Second) ≤ clock q.

Lemma overran_step p p' : step p p' → overran p → overran p'.
Proof. intros Hs (q & i & a & H1 & H2 & H3). exists q, i, a. split; [done|]. split; [by eapply rtc_r|done]. Qed.

(** What [Shutdown] returns, and what is then true. *)
Definition verdict (r : option gerror) (p : process) : Prop :=
  match r with None => inflight p = ∅ | Some e => e = DeadlineExceeded ∧ overran p end.

(** The listener failed. *)
Definition failed (r : option gerror) : Prop := ∃ e, r = Some e ∧ e ≠ DeadlineExceeded.

Definition stopping (p : process) : Prop :=
  match signals p with
  | AwaitSignal => doneCh p = None ∧ match serving p with WaitingDone => False | Returned r => failed r | _ => True end
  | Stopping deadline =>
      map_Forall (λ _ a, a + grace MaxDuration ≤ deadline) (inflight p) ∧ doneCh p = None ∧
      match serving p with Returned r => failed r | _ => True end
  | Reported => ∃ r, verdict r p ∧
      match serving p with Listening | WaitingDone => doneCh p = Some r | Returned r' => r' = r ∨ failed r' end
  end.

Record process_ok (p : process) : Prop := {
  ok_reached : rtc step (launched t) p;
  ok_times : map_Forall (λ _ a, a ≤ clock p) (inflight p);
  ok_stopping : stopping p;
}.

Lemma verdict_step r p p' :
  step p p' → verdict r p → (inflight p = ∅ → inflight p' = ∅) → verdict r p'.
Proof. intros Hs Hv Hi. destruct r; [split; [apply Hv|by apply (overran_step p), Hv]|by apply Hi]. Qed.

Lemma step_ok p p' : step p p' → process_ok p → process_ok p'.
Proof.
  intros Hs [Hr Ht Hp]. assert (rtc step (launched t) p') as Hr' by (by eapply rtc_r).
  pose proof (verdict_step None _ _ Hs) as Hv0. pose proof (λ e, verdict_step (Some e) _ _ Hs) as Hv1.
  assert (∀ r, verdict r p → (inflight p = ∅ → inflight p' = ∅) → verdict r p') as Hv by (intros [e|]; auto).
  clear Hv0 Hv1. unfold stopping in Hp.
  destruct Hs as [i p Hl Ha Hi|i p|d p Hd Hb|p Ha|dl p Ha Hi|dl p Ha Hi Hc|p Hl Ha|e p Hl Hne|r p Hw Hd];
    split; try done; unfold stopping; cbn [inflight clock signals doneCh serving] in *.
  - apply map_Forall_insert; [done|]. by split.
  - by rewrite Ha, Hl in Hp.
  - by apply map_Forall_delete.
  - destruct (signals p); [done|..].
    + destruct Hp as (H1 & H2). split; [by apply map_Forall_delete|done].
    + destruct Hp as (r & H1 & H2). exists r. split; [apply Hv; [done|]|done]. intros ->. apply delete_empty.
  - intros i a Hi. specialize (Ht i a Hi). cbn in *. lia.
  - destruct (signals p); [done..|]. destruct Hp as (r & H1 & H2). exists r. by split; [apply Hv|].
  - rewrite Ha in Hp. destruct Hp as [Hd Hsv]. split; [|by destruct (serving p)].
    intros i a Hi. specialize (Ht i a Hi). cbn in *. lia.
  - rewrite Ha in Hp. exists None. split; [done|]. destruct Hp as (_ & _ & Hsv). destruct (serving p); auto.
  - rewrite Ha in Hp. destruct Hp as (Hdl & _ & Hsv). exists (Some DeadlineExceeded).
    split; [split; [done|]|destruct (serving p); auto]. apply map_choose in Hi as (i & a & Hi).
    exists p, i, a. split; [done|]. split; [by apply rtc_once, (shutdown_late _ dl); [..|intros E; rewrite E in Hi|]|].
    split; [done|]. specialize (Hdl i a Hi). unfold grace in Hdl. cbn in Hdl. lia.
  - rewrite Hl in Hp. destruct (signals p); [done|done|]. destruct Hp as (r & H1 & H2). exists r. by split; [apply Hv|].
  - rewrite Hl in Hp. assert (failed (Some e)) as Hf by (by exists e).
    destruct (signals p); [naive_solver..|]. destruct Hp as (r & H1 & H2). exists r. split; [by apply Hv|by right].
  - rewrite Hw in Hp. destruct (signals p) as [|dl|]; [by destruct Hp| |].
    + destruct Hp as (_ & Hd' & _). by rewrite Hd' in Hd.
    + destruct Hp as (r' & H1 & H2). rewrite Hd in H2. injection H2 as <-. exists r. split; [by apply Hv|by left].
Qed.

Lemma steps_ok p : rtc step (launched t) p → process_ok p.
Proof.
  revert p. apply (rtc_ind_r process_ok); [|intros p p' _ Hs Hp; by apply (step_ok p)].
  split; [reflexivity|apply map_Forall_empty|done].
Qed.

Lemma reported_returns p r :
  signals p = Reported → doneCh p = Some r → serving p = Listening ∨ serving p = WaitingDone →
  ∃ p', rtc step p p' ∧ serving p' = Returned r ∧ inflight p' = inflight p ∧ clock p' = clock p.
Proof.
  intros Hsig Hd [Hl|Hw].
  - eexists. split.
    + eapply rtc_l; [apply serve_closed; [done|by rewrite Hsig]|].
      eapply rtc_l; [by apply received|reflexivity].
    + done.
  - eexists. split; [eapply rtc_l; [by apply received|reflexivity]|done].
Qed.

(** A process that is stopping comes to its report, by its deadline at the latest,
    although no request ends. *)
Lemma stopping_reports p deadline :
  signals p = Stopping deadline →
  ∃ p' r, rtc step p p' ∧ signals p' = Reported ∧ doneCh p' = Some r ∧ serving p' = serving p ∧
    inflight p' = inflight p ∧ clock p' ≤ Z.max (clock p) deadline.
Proof.
  intros Hsig. destruct (decide (inflight p = ∅)) as [Hi|Hi].
  { do 2 eexists. split; [by eapply rtc_once, shutdown_clean|]. cbn. repeat split. lia. }
  destruct (decide (deadline ≤ clock p)) as [Hd|Hd].
  { do 2 eexists. split; [by eapply rtc_once, shutdown_late|]. cbn. repeat split. lia. }
  do 2 eexists. split.
  { eapply rtc_l; [apply (time_passes _ (deadline - clock p)); [lia|]|].
    - intros dl E. rewrite Hsig in E. injection E as <-. lia.
    - eapply rtc_once, (shutdown_late _ deadline); cbn; [done|done|lia]. }
  cbn. repeat split. lia.
Qed.

End Lifetime.

(** A request that takes twice the maximal duration, as one with a "response_delay" to
    /delay may, when the signal arrives with it: the process returns the error of the
    deadline and leaves the request unserved. *)
Definition signalled_with_request : process :=
  MkProcess Listening (Stopping (grace (10 * Second))) None {[1%nat := 0]} 0.

Lemma signalled_reached : rtc (process_step (10 * Second)) (launched 0) signalled_with_request.
Proof.
  eapply rtc_l; [by apply (request_arrives _ 1%nat)|]. apply rtc_once.
  exact (signalled (10 * Second) (MkProcess Listening AwaitSignal None {[1%nat := 0]} 0) eq_refl).
Qed.

Example long_request_cut_off :
  ∃ p, rtc (process_step (10 * Second)) (launched 0) p ∧
    serving p = Returned (Some DeadlineExceeded) ∧ inflight p !! 1%nat = Some 0 ∧ clock p < 20 * Second.
Proof.
  eexists. split; [etrans; [exact signalled_reached|]|].
  - eapply rtc_l; [apply (time_passes _ (11 * Second)); [done|by intros dl [= <-]]|].
    eapply rtc_l; [by eapply shutdown_late|]. eapply rtc_l; [by apply serve_closed|].
    eapply rtc_l; [by apply received|reflexivity].
  - repeat split; vm_compute; reflexivity.
Qed.


(** ** The server that the command makes *)

Section Main.
Context `{GoStd, Runtime, Hashes, Codecs, Rand, ImageCodecs, HttpTime, Regexp}.
Context (sur : surroundings) (Version : string).
Context (getEnvVal : string → string) (getEnviron : list string) (getHostname : outcome gerror string).

(** Options that only set fields. *)
Definition sets (o : OptionFunc) (f : HTTPBin → HTTPBin) : Prop := ∀ h, o h = Ok (f h).

Lemma apply_sets opts fs h : Forall2 sets opts fs → apply_options opts h = Ok (foldl (λ h f, f h) h fs).
Proof.
  intros Hs. revert h. induction Hs as [|o f opts fs Ho _ IH]; intros h; [done|]. cbn. rewrite Ho. apply IH.
Qed.

Lemma sets_if (b : bool) o f : sets o f → Forall2 sets (if b then [o] else []) (if b then [f] else []).
Proof. intros Hs. destruct b; by repeat constructor. Qed.

Lemma sets_field f : sets (set_field f) f.
Proof. by intros h. Qed.

Lemma sets_exclude x r :
  createFullExcludeRegex x = Ok r →
  sets (WithExcludeHeaders x) (λ h, match r with
    | Some re => h <| excludeHeadersProcessor := Some (createExcludeHeadersProcessor re) |> | None => h end).
Proof. intros Er h. unfold WithExcludeHeaders, setExcludeHeaders. rewrite Er. by destruct r. Qed.

(** The settings of a server are those of a configuration. *)
Record configured (cfg : Config.config) (h : HTTPBin) : Prop := {
  cf_body : MaxBodySize h = Config.MaxBodySize cfg;
  cf_duration : MaxDuration h = Config.MaxDuration cfg;
  cf_env : env h = Config.Env cfg;
  cf_prefix : prefix h = Config.Prefix cfg;
  cf_domains : AllowedRedirectDomains h = Config.AllowedRedirectDomains cfg;
  cf_hostname : hostname h = if nonempty (Config.RealHostname cfg) then Config.RealHostname cfg else DefaultHostname;
  cf_version : version h = Version;
  cf_observed : Bin.observed h = true;
  cf_dangerous : unsafeAllowDangerousResponses h = Config.UnsafeAllowDangerousResponses cfg;
  cf_limited : rateLimiter h = if fltb fzero (Config.RateLimitRate cfg)
                               then Some (newIPRateLimiter (limiterConfig cfg)) else None;
  cf_concurrent : maxConcurrentRequests h = Z.max 0 (Config.MaxConcurrentRequests cfg);
  cf_proxies : trustedProxies h = [] ∧ trustedProxiesConfigured h = false;
}.

Definition allowDomains (hosts : list string) (h : HTTPBin) : HTTPBin :=
  match WithAllowedRedirectDomains hosts h with Ok h => h | _ => h end.

(** The options of a configuration without trusted proxies, as changes of the fields. *)
Definition option_fields (cfg : Config.config) (r : option (string → bool)) : list (HTTPBin → HTTPBin) :=
  [λ h, h <| env := Config.Env cfg |>;
   λ h, h <| MaxBodySize := Config.MaxBodySize cfg |>;
   λ h, h <| MaxDuration := Config.MaxDuration cfg |>;
   λ h, h <| Bin.observed := true |>;
   λ h, match r with Some re => h <| excludeHeadersProcessor := Some (createExcludeHeadersProcessor re) |> | None => h end;
   λ h, h <| version := Version |>]
  ++ (if nonempty (Config.Prefix cfg) then [λ h, h <| prefix := Config.Prefix cfg |>] else [])
  ++ (if nonempty (Config.RealHostname cfg) then [λ h, h <| hostname := Config.RealHostname cfg |>] else [])
  ++ (if (0 <? length (Config.AllowedRedirectDomains cfg))%nat
      then [allowDomains (Config.AllowedRedirectDomains cfg)] else [])
  ++ (if Config.UnsafeAllowDangerousResponses cfg then [λ h, h <| unsafeAllowDangerousResponses := true |>] else [])
  ++ (if fltb fzero (Config.RateLimitRate cfg)
      then [λ h, h <| rateLimiter := Some (newIPRateLimiter (limiterConfig cfg)) |>
                   <| rateLimitUseSubnets := Config.RateLimitUseSubnets cfg |>] else [])
  ++ (if 0 <? Config.MaxConcurrentRequests cfg
      then [λ h, h <| maxConcurrentRequests := Config.MaxConcurrentRequests cfg |>] else []).

Lemma mainOptions_sets cfg r :
  createFullExcludeRegex (Config.ExcludeHeaders cfg) = Ok r →
  Forall2 sets (mainOptions Version cfg []) (option_fields cfg r).
Proof.
  intros Er. unfold mainOptions, option_fields. rewrite app_nil_l.
  repeat lazymatch goal with
  | |- Forall2 _ (?a ++ ?b) (?c ++ ?d) => apply (Forall2_app (l1 := a) (l2 := b) (l1' := c) (l2' := d))
  | |- Forall2 _ (if _ then _ else _) _ => apply sets_if, sets_field
  end.
  repeat (constructor; [first [exact (sets_exclude _ _ Er)|apply sets_field]|]). constructor.
Qed.

Lemma mainOptions_configured cfg r :
  createFullExcludeRegex (Config.ExcludeHeaders cfg) = Ok r →
  ∃ h, apply_options (mainOptions Version cfg []) new_bin = Ok h ∧ configured cfg h ∧
    excludeHeadersProcessor h = option_map createExcludeHeadersProcessor r.
Proof.
  intros Er. exists (foldl (λ h f, f h) new_bin (option_fields cfg r)).
  split; [by apply apply_sets, mainOptions_sets|]. clear Er. unfold option_fields.
  rewrite !foldl_app.
  destruct (nonempty (Config.Prefix cfg)) eqn:Ep, (nonempty (Config.RealHostname cfg)) eqn:Eh,
    (0 <? length (Config.AllowedRedirectDomains cfg))%nat eqn:Ed, (Config.UnsafeAllowDangerousResponses cfg) eqn:Eu,
    (fltb fzero (Config.RateLimitRate cfg)) eqn:El, (0 <? Config.MaxConcurrentRequests cfg) eqn:Ec;
    (split; [split|destruct r; reflexivity]); rewrite ?Eh, ?Eu, ?El;
    try (destruct r; reflexivity); try (destruct r; split; reflexivity).
  all: first
    [ transitivity EmptyString; [by destruct r|by destruct (Config.Prefix cfg)]
    | transitivity (@nil string); [by destruct r|by destruct (Config.AllowedRedirectDomains cfg)]
    | apply Z.ltb_ge in Ec; transitivity 0; [by destruct r|lia]
    | apply Z.ltb_lt in Ec; transitivity (Config.MaxConcurrentRequests cfg); [by destruct r|lia] ].
Qed.

Lemma trustedOptions_none args cfg :
  Config.loadConfig getEnvVal getEnviron getHostname args = Ok cfg → trustedOptions cfg = Ok [].
Proof.
  intros (_ & _ & _ & Htrust)%ConfigSpec.loadConfig_raw. unfold trustedOptions. by rewrite Htrust.
Qed.

Context (Htmpl : templates_embedded).

Lemma mainStart_Listen args cfg r :
  Config.loadConfig getEnvVal getEnviron getHostname args = Ok cfg →
  createFullExcludeRegex (Config.ExcludeHeaders cfg) = Ok r →
  ∃ h index forms, configured cfg h ∧ excludeHeadersProcessor h = option_map createExcludeHeadersProcessor r ∧
    rendered "index.html.tmpl" h index ∧ rendered "forms-post.html.tmpl" h forms ∧
    let h' := precompute sur index forms h in
    mainStart sur Version getEnvVal getEnviron getHostname args
    = Ok (Listen (MkHttpServer (JoinHostPort (Config.ListenHost cfg) (Itoa (Config.ListenPort cfg)))
                    (serverHandler h' (mux_ServeHTTP (mux_of h')))
                    (Config.SrvMaxHeaderBytes cfg) (Config.SrvReadHeaderTimeout cfg) (Config.SrvReadTimeout cfg)
                    (Config.SrvWriteTimeout cfg) (Config.SrvIdleTimeout cfg)) cfg
            (setupLogger (Config.LogFormat cfg) (Config.LogLevel cfg))).
Proof.
  intros Hcfg Hr. destruct (mainOptions_configured cfg r Hr) as (h & Hopts & Hconf & Hex).
  destruct (New_run Htmpl sur _ _ Hopts) as (index & forms & Hi & Hf & En).
  exists h, index, forms. repeat (split; [done|]). intros h'. unfold mainStart. rewrite Hcfg.
  unfold startServer.
  rewrite (trustedOptions_none _ _ Hcfg). cbv iota beta.
  rewrite En. cbn [mbind outcome_bind bin]. fold h'. unfold Handler.
  by rewrite routes_register.
Qed.

(** The exit code of an error of the configuration: none for a request for help, 2 for
    unusable arguments, 1 for everything else. *)
Definition config_exit (e : Config.loadError) : Z :=
  match e with Config.ConfigError ErrHelp _ => 0 | Config.ConfigError (FlagFailed _) _ => 2 | Config.OtherError _ => 1 end.

(** (C14) The command listens when its configuration is accepted: with the address, the
    limits and the handler of a server whose settings are those of the configuration,
    except that no proxy is ever trusted, and exits with 0 when the server stops in an
    orderly way and with 1 otherwise.  A configuration that is not accepted gives an exit
    code of its own and no server; the command panics only for header patterns that
    are not a regular expression. *)
Theorem main_configures listen args :
  let code := mainImpl sur Version getEnvVal getEnviron getHostname listen args in
  match Config.loadConfig getEnvVal getEnviron getHostname args with
  | Ok cfg =>
      match createFullExcludeRegex (Config.ExcludeHeaders cfg) with
      | Ok r => ∃ h index forms, configured cfg h ∧
          excludeHeadersProcessor h = option_map createExcludeHeadersProcessor r ∧
          rendered "index.html.tmpl" h index ∧ rendered "forms-post.html.tmpl" h forms ∧
          let h' := precompute sur index forms h in
          let srv := MkHttpServer (JoinHostPort (Config.ListenHost cfg) (Itoa (Config.ListenPort cfg)))
            (serverHandler h' (mux_ServeHTTP (mux_of h')))
            (Config.SrvMaxHeaderBytes cfg) (Config.SrvReadHeaderTimeout cfg) (Config.SrvReadTimeout cfg)
            (Config.SrvWriteTimeout cfg) (Config.SrvIdleTimeout cfg) in
          code = Ok (match listen srv cfg with Some _ => 1 | None => 0 end)
      | _ => ∃ w, code = Panic w
      end
  | Err e => code = Ok (config_exit e)
  | Panic w => code = Panic w
  end.
Proof.
  unfold mainImpl. destruct (Config.loadConfig _ _ _ args) as [cfg|[[|x] usage|x]|w] eqn:Ec;
    [|unfold mainStart; by rewrite Ec..].
  destruct (createFullExcludeRegex _) as [r|x|w] eqn:Er.
  - destruct (mainStart_Listen _ _ _ Ec Er) as (h & index & forms & Hconf & Hex & Hi & Hf & E).
    exists h, index, forms. split; [exact Hconf|]. split; [exact Hex|]. split; [exact Hi|]. split; [exact Hf|].
    cbn zeta in *. by rewrite E.
  - unfold createFullExcludeRegex in Er. destruct (excludePatterns _); [done|]. by destruct (Compile _).
  - exists w. unfold mainStart. rewrite Ec. unfold startServer.
    rewrite (trustedOptions_none _ _ Ec). cbv iota beta.
    unfold New. assert (apply_options (mainOptions Version cfg []) new_bin = Panic w) as ->; [|done].
    unfold mainOptions. cbn [apply_options app foldl]. cbn. unfold WithExcludeHeaders, setExcludeHeaders. by rewrite Er.
Qed.
End Main.

(** ** A sample command *)

Lemma main_configures_witness :
  let args := ["--port=8080"; "-max-duration"; "3m"] in
  let loaded := Config.loadConfig ConfigSpec.sample_env ["HTTPBIN_ENV_A=1=2"; "PATH=/bin"] (Ok "h") args in
  templates_embedded ∧
  match loaded with
  | Ok cfg => ∃ h, configured "v1" cfg h ∧
      mainImpl (H6 := engine) sample_surroundings "v1" ConfigSpec.sample_env ["HTTPBIN_ENV_A=1=2"; "PATH=/bin"] (Ok "h")
        (λ _ _, None) args = Ok 0
  | _ => False
  end.
Proof.
  intros args loaded. split; [exact sample_templates|].
  pose proof (main_configures (H6 := engine) sample_surroundings "v1" ConfigSpec.sample_env
    ["HTTPBIN_ENV_A=1=2"; "PATH=/bin"] (Ok "h") sample_templates (λ _ _, None) args) as Hmain.
  cbv zeta in Hmain. fold loaded in Hmain. unfold loaded, args. rewrite ConfigSpec.sample_config_ok.
  unfold loaded, args in Hmain. rewrite ConfigSpec.sample_config_ok in Hmain.
  replace (createFullExcludeRegex (Config.ExcludeHeaders ConfigSpec.sample_config)) with (Ok (A := option (string → bool)) (E := gerror) None) in Hmain
    by (vm_compute; reflexivity).
  destruct Hmain as (h & index & forms & Hconf & _ & _ & _ & Hcode). exists h. exact (conj Hconf Hcode).
Defined.
