(* ===== verification/ServerRun.v ===== *)
(** * ServerRun: a client that follows the redirects of a server

    The parts of the server together: a request goes through the middleware
    ([serverHandler]), is routed ([mux_ServeHTTP]) to the pipeline handler, which
    validates, waits, and redirects; the client reads the Location and asks again, until
    the count of the redirect has run out. *)

From coqutil Require Import Datatypes.RecordSetters.
From S2P Require Import Prelude GoStrings GoNum GoFloat GoTime GoFmt Json GoURL GoPath Cache Http HttpLaws Handles GoNet ClientIP RateLimit.
From S2P Require Import Converters HeaderFilter Bin Options Middleware GoMime GoRand Digest Delay Mix Handlers RequestBody GoTemplate StaticAssets.
From S2P Require Import Pdf Auth Redirects Images Streams ServeContent Handshake Hijack ServeMux ServeMuxSpec Server EndpointsHandle MiddlewareSpec BodySpec ServeContentSpec StreamsSpec Samples.
From S2P Require Import Pipeline PipelineParse PipelineSpec PipelineHandler ImagesSpec ServerSpec.

(** ** Responses that have started *)

(** The writer of a request, inside the observer's wrapper or not: the response [r], the
    status that the wrapper has seen. *)
Definition observed_writer (obs : bool) (st : Z) (r : Http.response) : writer :=
  if obs then MetaRW (Base r) st 0 else Base r.

Lemma observed_header f obs st r :
  ∃ r', set_header f (observed_writer obs st r) = observed_writer obs st r' ∧
    rStatus r' = rStatus r ∧ rHeader r' = f (rHeader r).
Proof. destruct obs; by eexists. Qed.

(** The client sees the status [c] and the Location [loc]. *)
Record redirects (c : Z) (loc : string) (r : Http.response) : Prop := {
  red_status : rStatus r = Some c;
  red_location : Header_Get "Location" (sentHeader r) = loc;
}.

Lemma doRedirect_starts h path s obs r :
  wr s = observed_writer obs 0 r → rStatus r = None →
  HasPrefix path "/" = true → HasPrefix path "//" = false →
  ∃ s' r', doRedirect h path 302 s = (Ok tt, s') ∧ wr s' = observed_writer obs 302 r' ∧
    redirects 302 (prefix h +:+ path) r' ∧ now s' = now s.
Proof.
  intros Hw Hr H1 H2. unfold doRedirect. rewrite H1, H2. cbn [negb andb].
  set (loc := prefix h +:+ path). unfold mbind, GoM_bind. rewrite SetHeader_run, Hw.
  destruct (observed_header (Header_Set "Location" loc) obs 0 r) as (r1 & -> & Hs1 & Hh1).
  assert (rStatus r1 = None) as Hn by by rewrite Hs1.
  destruct (base_WriteHeader_final 302 r1) as (r2 & E2 & Hr2); [by apply final_200|done|].
  assert (redirects 302 loc r2) as Hred.
  { split; [done|]. rewrite (base_WriteHeader_header 302 r1 r2); [|by apply final_200|done|done|done].
    by rewrite Hh1, Header_Get_Set. }
  unfold WriteHeader. cbn [wr set_wr]. unfold observed_writer.
  destruct obs; cbn [w_WriteHeader]; rewrite E2; cbn [mbind outcome_bind]; eexists _, _; (split; [reflexivity|]);
    (split; [reflexivity|done]).
Qed.

(** ** The pipeline handler *)

Section Phases.
Context `{GoStd, PipelineTargets} (h : HTTPBin).

(** What the modifiers come to does not depend on the request. *)
Lemma validateStep_value m v s1 s2 : (validateStep h m v s1).1 = (validateStep h m v s2).1.
Proof.
  destruct m as [name [|a args]]; unfold validateStep, validateDelay, validateHeader, validateStatus;
    unfold mbind, GoM_bind, arg0, lift, modify_req; cbn; repeat (case_match; cbn; try done).
Qed.

Lemma validateAll_value ms v s1 s2 : (validateAll h ms v s1).1 = (validateAll h ms v s2).1.
Proof.
  revert v s1 s2. induction ms as [|m ms IH]; [done|]. intros v s1 s2. cbn [validateAll].
  unfold mbind, GoM_bind. pose proof (validateStep_value m v s1 s2) as E.
  destruct (validateStep h m v s1) as [o1 t1], (validateStep h m v s2) as [o2 t2]. cbn [fst] in E. subst o2.
  destruct o1; [apply IH|done..].
Qed.

(** A client that stays is waited for. *)
Lemma drawDelay_gone d s : gone (drawDelay d s).2 = gone s.
Proof. unfold drawDelay, Int63n, mbind, GoM_bind. by repeat case_match; simplify_eq/=. Qed.

Lemma applyDelays_stays ds a s o s' : gone s = None → applyDelays ds a s = (Ok o, s') → o ≠ None.
Proof.
  revert a s. induction ds as [|d ds IH]; intros a s Hg; cbn [applyDelays]; [by intros [= <- _]|].
  unfold mbind, GoM_bind. pose proof (drawDelay_gone d s) as Hd.
  destruct (drawDelay d s) as [[x| |] s1]; [|done..]. cbn [snd] in Hd.
  destruct (0 <? x); [|apply IH; congruence]. unfold Sleep. rewrite Hd, Hg. apply IH. cbn. congruence.
Qed.

Definition no_values : validated := MkValidated 0 [] [] None.

(** The modifiers are acceptable and come to [v]. *)
Definition modifiers_are (ms : list pipelineStep) (v : validated) : Prop :=
  (∀ s, (validateAll h ms no_values s).1 = Ok v) ∧ v_totalDelay v ≤ MaxDuration h.

Context (Hmax : 0 ≤ MaxDuration h ≤ 2 ^ 58).

(** The client waits for the delays, and only the query of the request may change. *)
Record after_delays (s s' : World) : Prop := {
  del_wr : wr s' = wr s;
  del_now : now s ≤ now s' ≤ now s + MaxDuration h;
  del_req : ∃ q, req s' = set_URL (set_RawQuery q (URL (req s))) (req s);
}.

Lemma Pipeline_responds s r v :
  HasPrefix (Path (URL (req s))) "/" = true → parsePipeline (Path (URL (req s))) = Ok r →
  gone s = None → modifiers_are (modifiers r) v →
  ∃ a s', Pipeline h s = respond h v r a s' ∧ after_delays s s'.
Proof.
  intros Hp Hr Hg [Hv Ht]. destruct (parsePipeline_facts _ _ Hp Hr) as [Hms Hlen].
  pose proof (modifiers_length r) as Hl. unfold maxPipelineSegments in Hlen. specialize (Hv s).
  destruct (validateAll_ok h Hmax (modifiers r) 0 no_values s) as [Hu Hok]; [lia|done|by split|].
  unfold Pipeline, try_, lift, mbind, GoM_bind, get_req. rewrite Hr. fold no_values.
  destruct (validateAll h (modifiers r) no_values s) as [o s1]. cbn [fst snd] in *. subst o.
  destruct Hok as [Hsum Hc Hd _ _], Hu as [Hw Hn Hg1 _ [q Hq]]. ztest. pose proof (sum_max_bound _ _ (proj1 Hmax) Hd).
  destruct (applyDelays_ok h Hmax (v_delays v) 0 s1 Hd) as (o & s2 & t & Ha & [Ww Wr _ _ Wn] & Hb & _); [lia..|].
  rewrite Ha. destruct o as [a|]; [|by apply applyDelays_stays in Ha; [|congruence]].
  exists a, s2. split; [done|]. split; [congruence|lia|]. exists q. congruence.
Qed.

Lemma applyHeaders_observed hs s obs r :
  wr s = observed_writer obs 0 r →
  ∃ r', applyHeaders hs s = (Ok tt, set_wr (observed_writer obs 0 r') s) ∧ rStatus r' = rStatus r.
Proof.
  intros Hw. destruct (applyHeaders_only hs s) as [f ->]. rewrite Hw.
  destruct (observed_header f obs 0 r) as (r' & -> & Hs & _). by exists r'.
Qed.

Lemma respond_redirects v ms ty arg dest n a s obs r :
  ty ∈ relative_types → Atoi arg = Ok n → 1 ≤ n ≤ 20 → v_status v = None →
  wr s = observed_writer obs 0 r → rStatus r = None →
  let path := redirectPath ty n dest (buildModifierPrefix ms) in
  HasPrefix path "/" = true → HasPrefix path "//" = false →
  ∃ s' r', respond h v (MkPipelineResult ms (MkStep ty (arg :: dest))) a s = (Ok tt, s') ∧
    wr s' = observed_writer obs 302 r' ∧ redirects 302 (prefix h +:+ path) r' ∧ now s' = now s.
Proof.
  intros Hty Ha Hn Hst Hw Hr path H1 H2. unfold respond. cbn [terminal modifiers step_name].
  set (timing := if 0 <? a then _ else _).
  assert (∃ r1, timing s = (Ok tt, set_wr (observed_writer obs 0 r1) s) ∧ rStatus r1 = None) as (r1 & E1 & Hr1).
  { unfold timing. destruct (0 <? a).
    - rewrite SetHeader_run, Hw. destruct (observed_header (Header_Set "Server-Timing" (encodeServerTimings
        [MkServerTiming "pipeline_delay" a "pipeline delay"])) obs 0 r) as (r1 & -> & Hs & _).
      exists r1. by rewrite Hs.
    - exists r. rewrite <- Hw, set_wr_id. done. }
  unfold mbind at 1, GoM_bind at 1. rewrite E1.
  destruct (applyHeaders_observed (v_headers v) (set_wr (observed_writer obs 0 r1) s) obs r1 eq_refl) as (r2 & E2 & Hr2).
  unfold mbind at 1, GoM_bind at 1. rewrite E2. unfold mbind at 1, GoM_bind at 1, get_req.
  assert (default no_methods (pipelineTerminals ty) = variadic) as Htd.
  { unfold relative_types in Hty. repeat (apply elem_of_cons in Hty as [->|Hty]; [done|]). by apply elem_of_nil in Hty. }
  set (s2 := set_wr (observed_writer obs 0 r2) _) in *.
  pose proof (dispatch_redirect h ty arg dest (buildModifierPrefix ms) n s2 Hty Ha Hn) as Ed.
  rewrite Htd in Ed |- *. rewrite Hst. cbn [methods variadic length Nat.ltb Nat.leb andb]. rewrite Ed. fold path.
  by apply (doRedirect_starts h path s2 obs r2); [|by rewrite Hr2|..].
Qed.
End Phases.

(** ** The route of a pipeline *)

(** The first segments behind which the rest of the path is a pipeline. *)
Definition pipeline_heads : list string :=
  ["delay"; "response_delay"; "header"; "status"; "no-cache"; "nocache"; "redirect"; "relative-redirect"].

Lemma matched_length segs path vals :
  path_matches segs path vals → last_multi segs = false → length segs = length path.
Proof.
  induction 1 as [|s segs path vals _ IH|n seg segs path vals _ _ IH|]; [done|..|done];
    intros Hl; cbn [length]; f_equal; apply IH; by destruct segs.
Qed.

(** A character that stands for itself in the path of a URL. *)
Definition path_char (c : ascii) : bool := negb (shouldEscape c encodePath).

Lemma path_char_plain c : path_char c = true → plain_char c = true.
Proof. by destruct c as [[] [] [] [] [] [] [] []]. Qed.

Lemma escape_path s : string_forall path_char s = true → escape s encodePath = s.
Proof.
  induction s as [|c s IH]; [done|]. cbn. intros [Hc Hs]%andb_true_iff. apply negb_true_iff in Hc.
  by rewrite Hc, IH.
Qed.

Lemma unescape_path s : string_forall path_char s = true → unescape false s = Some s.
Proof. intros Hs. by eapply unescape_plain, string_forall_impl; [exact path_char_plain|]. Qed.

Lemma HasSuffix_elem a x : elem_ok x → HasSuffix (a +:+ x) "/" = false.
Proof.
  intros [Hne _ _ Hx]. apply not_true_is_false. intros [_ E%String.eqb_eq]%andb_true_iff.
  assert (∀ n, sdrop (String.length a + n) (a +:+ x) = sdrop n x) as Hd by (clear; intros n; induction a as [|d a IH]; [done|exact IH]).
  assert (∀ n, contains_char "/" (sdrop n x) = true → contains_char "/" x = true) as Hc.
  { clear. induction x as [|c x IH]; intros [|n]; cbn; try done. intros Hn. by rewrite (IH _ Hn), orb_true_r. }
  destruct x as [|c x]; [done|]. rewrite slength_app in E.
  replace (String.length a + String.length (String c x) - String.length "/")%nat with (String.length a + String.length x)%nat in E
    by (cbn; lia). rewrite Hd in E. rewrite (Hc (String.length x)) in Hx; [done|]. by rewrite E.
Qed.

Lemma cleanPath_path_of l : Forall elem_ok l → l ≠ [] → cleanPath (path_of l) = path_of l.
Proof.
  intros Hl Hn. unfold cleanPath. pose proof (path_of_rooted l Hn) as Hr.
  destruct (String.eqb_spec (path_of l) "") as [E|_]; [by rewrite E in Hr|]. rewrite Hr.
  rewrite Clean_rooted, elems_path_of by done. destruct l as [|y k]; [done|]. clear Hn Hr.
  destruct (exists_last (l := y :: k)) as (l' & x & E); [done|]. rewrite E in Hl |- *.
  apply Forall_app in Hl as [_ [Hx _]%Forall_cons].
  replace (path_of (l' ++ [x])) with ((path_of l' +:+ "/") +:+ x)
    by (rewrite path_of_app, path_of_cons, sapp_nil_r, sapp_assoc; reflexivity).
  by rewrite HasSuffix_elem.
Qed.

Lemma segments_path_of l :
  Forall elem_ok l → l ≠ [] → Forall (λ x, string_forall path_char x = true) l → pathSegments (path_of l) = l.
Proof.
  intros Hl Hn Hp. rewrite pathSegments_path by (exists l; split; [done|by left]). rewrite segmentsOf_elems by done.
  induction Hp as [|x l Hx _ IH]; [done|]. apply Forall_cons in Hl as [_ Hl]. cbn [map].
  unfold pathUnescape at 1. rewrite unescape_path by done. cbn. f_equal. destruct l as [|y l]; [done|by apply IH].
Qed.

Section Routes.
Context `{GoStd, Runtime, Hashes, Codecs, Rand, ImageCodecs, HttpTime}.

Lemma pipeline_registered h x :
  x ∈ pipeline_heads → (MkPattern "" [Lit x; Multi], PipelineHandler h) ∈ mux_of h.
Proof.
  intros Hx. apply (mux_of_table h ("/" +:+ x +:+ "/")).
  - unfold pipeline_heads in Hx. revert Hx. unfold routeTable.
    intros Hx. repeat (apply elem_of_cons in Hx as [->|Hx]; [
      repeat (first [by left|right])|]). by apply elem_of_nil in Hx.
  - unfold pipeline_heads in Hx.
    repeat (apply elem_of_cons in Hx as [->|Hx]; [vm_compute; reflexivity|]). by apply elem_of_nil in Hx.
Qed.

Lemma pipeline_unclaimed h x path :
  x ∈ pipeline_heads → (2 ≤ length path)%nat →
  ∀ r, r ∈ mux_of h → last_multi (p_segments r.1) = false → ¬ matched (p_segments r.1) (x :: path).
Proof.
  intros Hx Hlen r Hr Hl [vals Hm].
  assert (forallb (λ p, last_multi (p_segments p) || (length (p_segments p) <=? 2)%nat ||
    match p_segments p with Lit s :: _ => negb (bool_decide (s ∈ pipeline_heads)) | _ => false end) (patterns h) = true)
    as Hall by (vm_compute; reflexivity).
  rewrite forallb_forall in Hall. specialize (Hall r.1 (proj1 (list_elem_of_In _ _) (elem_patterns h r Hr))).
  rewrite Hl in Hall. apply orb_true_iff in Hall as [Hs%Nat.leb_le|Hs].
  - apply matched_length in Hm; [|done]. cbn in Hm. lia.
  - destruct (p_segments r.1) as [|[s|n|] segs]; try done. inversion Hm; subst.
    by rewrite bool_decide_eq_true_2 in Hs.
Qed.

(** The path of a pipeline goes to the handler of pipelines. *)
Lemma pipeline_routed h s x l :
  Method (req s) ≠ "" → Method (req s) ≠ "CONNECT" → RequestURI_ (req s) ≠ "*" → RawPath (URL (req s)) = "" →
  Path (URL (req s)) = path_of (x :: l) → Forall elem_ok (x :: l) →
  Forall (λ e, string_forall path_char e = true) (x :: l) → x ∈ pipeline_heads → (2 ≤ length l)%nat →
  mux_ServeHTTP (mux_of h) s = PipelineHandler h (set_req (set_PathValues ∅ (req s)) s).
Proof.
  intros Hm Hc Ht Hraw Hp Hok Hch Hx Hl.
  assert (EscapedPath (URL (req s)) = path_of (x :: l)) as He.
  { unfold EscapedPath. rewrite Hraw, Hp. cbn [String.eqb negb andb].
    assert (string_forall path_char (path_of (x :: l)) = true) as Hpc by by apply path_of_forall.
    rewrite escape_path by done. case_match eqn:Es; [|done]. apply String.eqb_eq in Es. rewrite <- Es.
    pose proof (path_of_rooted (x :: l)) as Hr. rewrite Es in Hr. by discriminate Hr. }
  rewrite (mux_routed h s (MkPattern "" [Lit x; Multi]) (PipelineHandler h) []).
  - done.
  - by apply pipeline_registered.
  - split; [done|done|rewrite He; by apply path_of_rooted|rewrite He; by apply cleanPath_path_of].
  - by left.
  - rewrite He, segments_path_of by done. destruct l as [|y l]; [cbn in Hl; lia|]. apply match_lit, match_multi.
  - intros _ r Hr Hlm. rewrite He, segments_path_of by done. by apply (pipeline_unclaimed h).
Qed.
End Routes.

(** ** The middleware of an ordinary request *)

Section Ordinary.
Context `{GoStd} (h : HTTPBin) (mux : HandlerFunc).

(** Neither HEAD nor a preflight, no delay of its own, and a body within the limit. *)
Record ordinary (r : Request) : Prop := {
  ord_method : Method r ≠ "HEAD" ∧ Method r ≠ "OPTIONS";
  ord_delay : Values_Get "response_delay" (Query (URL r)) = "";
  ord_size : slen (Body r) ≤ MaxBodySize h;
}.

Lemma SetHeader_observed k v s obs r :
  wr s = observed_writer obs 0 r →
  ∃ r', SetHeader k v s = (Ok tt, set_wr (observed_writer obs 0 r') s) ∧ rStatus r' = rStatus r.
Proof.
  intros Hw. rewrite SetHeader_run, Hw. destruct (observed_header (Header_Set k v) obs 0 r) as (r' & -> & Hs & _).
  by exists r'.
Qed.

(** The router sees the request as it came, and a response with two headers. *)
Lemma requestHandler_ordinary s obs r0 :
  ordinary (req s) → wr s = observed_writer obs 0 r0 →
  ∃ r1, requestHandler h mux s = mux (set_wr (observed_writer obs 0 r1) s) ∧ rStatus r1 = rStatus r0.
Proof.
  intros [[H1 H2] Hd Hb] Hw. apply String.eqb_neq in H1, H2.
  unfold requestHandler, autohead. unfold mbind at 1, GoM_bind at 1, get_req at 1. rewrite H1. unfold preflight.
  unfold mbind at 1, GoM_bind at 1, get_req at 1. rewrite H2.
  set (origin := Header_Get "Origin" _). set (o := if nonempty origin then _ else _).
  destruct (SetHeader_observed "Access-Control-Allow-Origin" o s obs r0 Hw) as (r1 & E1 & S1).
  unfold mbind at 1, GoM_bind at 1. rewrite E1.
  destruct (SetHeader_observed "Access-Control-Allow-Credentials" "true" (set_wr (observed_writer obs 0 r1) s) obs r1 eq_refl)
    as (r2 & E2 & S2).
  unfold mbind at 1, GoM_bind at 1. rewrite E2. unfold responseDelay.
  unfold mbind at 1, GoM_bind at 1, get_req at 1. cbn [req set_wr]. rewrite Hd. cbn [nonempty negb String.eqb].
  unfold limitRequestSize, mbind, GoM_bind, modify_req. exists r2. split; [|congruence].
  unfold MaxBytesReader. cbn [req set_wr]. rewrite (proj2 (Z.leb_le _ _)) by lia. by destruct s.
Qed.

(** What the middlewares pass on: the path without the prefix. *)
Definition stripped (p : string) (r : Request) : Request := set_URL (set_Path p (URL r)) r.

(** Nothing stops the request: there is no limiter and a slot is free. *)
Definition admits (st : Server) : Prop :=
  rateLimiter h = None ∧ (0 < maxConcurrentRequests h → slots st < maxConcurrentRequests h).

(** What a served request leaves: its slot is free again, and the observer has been told
    its status. *)
Record finished (c : Z) (st st' : Server) : Prop := {
  fin_slots : slots st' = slots st;
  fin_limiter : limiter st' = limiter st;
  fin_results : ∃ rs, results st' = results st ++ rs ∧
    if Bin.observed h then ∃ r, rs = [r] ∧ R_Status r = c else rs = [];
}.

Lemma strip_steps m st w w' p :
  Path (URL (req w)) = prefix h +:+ p → RawPath (URL (req w)) = "" →
  (∀ st0, slots st0 = slots st → world st0 = set_req (stripped p (req w)) w → m st0 = (Ok tt, set_world w' st0)) →
  ∃ w'', wr w'' = wr w' ∧ now w'' = now w' ∧ ∀ st0, slots st0 = slots st → world st0 = w →
    (if nonempty (prefix h) then StripPrefix (prefix h) m else m) st0 = (Ok tt, set_world w'' st0).
Proof.
  intros Hp Hraw Hm. destruct (nonempty (prefix h)) eqn:En.
  - exists (set_req (set_RHeader (RHeader (req w')) (req w)) w'). split; [done|]. split; [done|].
    intros st0 Hs Hw. unfold StripPrefix. unfold nonempty in En. apply negb_true_iff in En. rewrite En.
    unfold mbind, GoM_bind, on_world, get_req. unfold strippedURL. cbn [set_world world]. rewrite Hw.
    rewrite Hp, Hraw, TrimPrefix_app, slen_app. apply String.eqb_neq in En.
    assert (0 < slen (prefix h)) as Hlen by (destruct (prefix h); [done|unfold slen; cbn; lia]). ztest.
    cbn [String.eqb orb andb]. unfold with_request. cbn [world set_world].
    assert (slots (set_world (set_req (stripped p (req w)) w) st0) = slots st) as Hs0 by done.
    replace (set_world _ (set_world _ st0)) with (set_world (set_req (stripped p (req w)) w) st0).
    { rewrite (Hm _ Hs0 eq_refl). done. }
    unfold set_world. cbn. f_equal. f_equal. unfold stripped, set_Path. f_equal.
    replace (TrimPrefix "" (prefix h)) with "" by by destruct (prefix h). rewrite <- Hraw at 1. by destruct (URL (req w)).
  - unfold nonempty in En. apply negb_false_iff, String.eqb_eq in En. rewrite En in Hp.
    exists w'. split; [done|]. split; [done|]. intros st0 Hs Hw. apply Hm; [done|]. rewrite Hw.
    change ("" +:+ p) with p in Hp. subst p. destruct w as [r ? ? ? ? ? ? ?]. unfold set_req, stripped. cbn.
    f_equal. destruct r as [? u ? ? ? ? ? ? ? ? ?]. unfold set_URL. cbn. f_equal. by destruct u.
Qed.

Lemma pool_steps m st w w' :
  admits st → (∀ st0, world st0 = w → m st0 = (Ok tt, set_world w' st0)) →
  ∀ st0, slots st0 = slots st → world st0 = w →
  (if 0 <? maxConcurrentRequests h then maxConcurrent (maxConcurrentRequests h) m else m) st0 = (Ok tt, set_world w' st0).
Proof.
  intros [_ Hn] Hm st0 Hs Hw. destruct (Z.ltb_spec 0 (maxConcurrentRequests h)) as [H0|]; [|by apply Hm].
  specialize (Hn H0). unfold maxConcurrent, acquire. rewrite Hs. ztest. rewrite Hm by done. unfold release. cbn.
  by rewrite Z.add_simpl_r, <- Hs.
Qed.

(** The whole middleware, when the router answers with the status [c]: what the router is
    given, and what becomes of its answer. *)
Lemma serverHandler_ordinary st r0 p :
  admits st → ordinary (req (world st)) → wr (world st) = Base r0 →
  Path (URL (req (world st))) = prefix h +:+ p → RawPath (URL (req (world st))) = "" →
  ∃ r1, rStatus r1 = rStatus r0 ∧
    let s := set_wr (observed_writer (Bin.observed h) 0 r1) (set_req (stripped p (req (world st))) (world st)) in
    ∀ s' r' c, c ≠ 0 → mux s = (Ok tt, s') → wr s' = observed_writer (Bin.observed h) c r' →
    ∃ st', serverHandler h mux st = (Ok tt, st') ∧ wr (world st') = Base r' ∧ now (world st') = now s' ∧
      finished c st st'.
Proof.
  intros Ha Ho Hw Hp Hraw. set (r := req (world st)) in *.
  set (w0 := set_wr (observed_writer (Bin.observed h) 0 r0) (world st)).
  assert (ordinary (stripped p r)) as Ho' by (destruct Ho as [Hm Hd Hb]; by split).
  destruct (requestHandler_ordinary (set_req (stripped p r) w0) (Bin.observed h) r0 Ho' eq_refl) as (r1 & E & S).
  exists r1. split; [done|]. intros s s' r' c Hc Es Hr'.
  assert (∀ st0, world st0 = set_req (stripped p r) w0 →
    on_world (requestHandler h mux) st0 = (Ok tt, set_world s' st0)) as L0.
  { intros st0 Hst0. unfold on_world. rewrite Hst0, E. change (set_wr _ (set_req _ w0)) with s. by rewrite Es. }
  pose proof (pool_steps _ st _ _ Ha L0) as L1.
  assert (rateLimited h = false) as Hrl by (unfold rateLimited; by rewrite (proj1 Ha)).
  destruct (strip_steps _ st w0 s' p Hp Hraw L1) as (w2 & Ew & En & L2).
  unfold serverHandler. rewrite Hrl. set (m := if nonempty _ then _ else _) in *.
  destruct (Bin.observed h) eqn:Eo.
  - unfold observe. rewrite Hw. change (MetaRW (Base r0) 0 0) with (observed_writer true 0 r0). fold w0.
    rewrite (L2 (set_world w0 st)) by done. eexists. split; [reflexivity|]. unfold observation, unwrapped. cbn.
    rewrite Ew, Hr'. cbn. split; [done|]. split; [done|]. split; [done..|].
    eexists. split; [reflexivity|]. rewrite Eo. eexists. split; [reflexivity|]. cbn. by apply Z.eqb_neq in Hc as ->.
  - assert (world st = w0) as E0 by (unfold w0; change (observed_writer false 0 r0) with (Base r0); rewrite <- Hw; by destruct (world st)).
    rewrite (L2 st eq_refl E0). eexists. split; [reflexivity|]. cbn. rewrite Ew, Hr'. split; [done|]. split; [done|].
    split; [done..|]. exists []. rewrite app_nil_r, Eo. done.
Qed.
End Ordinary.

(** ** Following redirects *)

Lemma Forall_two {A} (P : A → Prop) x y l : Forall P (x :: y :: l) → P x ∧ P y ∧ Forall P l.
Proof. by intros [? [? ?]%Forall_cons]%Forall_cons. Qed.

Section Follow.
Context `{GoStd, Runtime, Hashes, Codecs, Rand, ImageCodecs, HttpTime}.

(** The client asks for a path: a GET request, with headers of its own. *)
Context (ask : string → Request).
Context (Hget : ∀ p, Method (ask p) = "GET" ∧ URL (ask p) = relativeURL p "" ∧ RequestURI_ (ask p) ≠ "*" ∧ Body (ask p) = "").

(** The next request of the client on the same connection, at the present instant. *)
Definition visit (p : string) (st : Server) : Server :=
  let w := world st in
  set_world (MkWorld (ask p) (Base new_response) (now w) None (rnd w) (rndi w) (caches w) (link w)) st.

(** [n] times, the client is answered with 302 and asks for the Location. *)
Inductive follows (serve : SM unit) : nat → string → Server → string → Server → Prop :=
| follows_end p st : follows serve 0 p st p st
| follows_hop n p st st1 r p1 q st2 :
    serve (visit p st) = (Ok tt, st1) → wr (world st1) = Base r → rStatus r = Some 302 →
    client_path (Header_Get "Location" (sentHeader r)) = Some p1 →
    follows serve n p1 st1 q st2 → follows serve (S n) p st q st2.

Lemma modifier_head m : mod_ok m → step_name m ∈ pipeline_heads.
Proof.
  unfold mod_ok, pipelineModifierDefs. intros Hm%assoc_elem. unfold modifier_table in Hm.
  repeat (apply elem_of_cons in Hm as [[= -> _]|Hm]; [by apply (bool_decide_unpack _)|]).
  by apply elem_of_nil in Hm.
Qed.

Context (h : HTTPBin) (Hmax : 0 ≤ MaxDuration h ≤ 2 ^ 58) (Hsize : 0 ≤ MaxBodySize h).

Lemma New_handler sur opts srv :
  New sur opts = Ok srv → handler srv = serverHandler (bin srv) (mux_ServeHTTP (mux_of (bin srv))).
Proof.
  unfold New, Handler. intros (h0 & _ & (i & _ & (f & _ & (s & E & [= <-])%outcome_bind_Ok)%outcome_bind_Ok)%outcome_bind_Ok)%outcome_bind_Ok.
  rewrite routes_register in E. by injection E as <-.
Qed.

(** The segments of a pipeline that ends in a redirect. *)
Definition redirect_segments (ms : list pipelineStep) (ty arg : string) (dest : list string) : list string :=
  concat (map mod_segments ms) ++ ty :: arg :: dest.

(** Good segments, at most twenty, which need no escaping; a bare [/redirect/n] goes to
    another handler. *)
Record redirect_pipeline (ms : list pipelineStep) (ty arg : string) (dest : list string) : Prop := {
  rp_type : ty ∈ relative_types;
  rp_mods : Forall mod_ok ms;
  rp_elems : Forall elem_ok (redirect_segments ms ty arg dest);
  rp_chars : Forall (λ e, string_forall path_char e = true) (redirect_segments ms ty arg dest);
  rp_length : (length (redirect_segments ms ty arg dest) ≤ maxPipelineSegments)%nat;
  rp_nonempty : ms ≠ [] ∨ dest ≠ [];
}.

Lemma redirect_pipeline_parse ms ty arg dest :
  redirect_pipeline ms ty arg dest →
  parsePipeline (path_of (redirect_segments ms ty arg dest)) = Ok (MkPipelineResult ms (MkStep ty (arg :: dest))).
Proof.
  intros [Hty Hm He _ Hl _]. destruct (redirect_terminal ty (arg :: dest) (relative_redirect_types ty Hty)).
  by apply parsePipeline_build.
Qed.

Lemma redirect_pipeline_head ms ty arg dest :
  redirect_pipeline ms ty arg dest →
  ∃ x l, redirect_segments ms ty arg dest = x :: l ∧ x ∈ pipeline_heads ∧ (2 ≤ length l)%nat.
Proof.
  intros [Hty Hm _ _ _ Hn]. unfold redirect_segments. destruct ms as [|m ms].
  - exists ty, (arg :: dest). split; [done|]. split.
    + unfold relative_types, pipeline_heads in *. set_solver.
    + destruct dest; [by destruct Hn|cbn; lia].
  - apply Forall_cons in Hm as [Hm _]. eexists _, _. split; [reflexivity|]. split; [by apply modifier_head|].
    rewrite length_app, length_app. cbn. lia.
Qed.

(** Where the redirect leads: the same pipeline with one redirect less. *)
Lemma redirect_pipeline_next ms ty arg dest n :
  redirect_pipeline ms ty arg dest → 1 < n →
  redirect_pipeline ms ty (Itoa (n - 1)) dest ∧
  redirectPath ty n dest (buildModifierPrefix ms) = path_of (redirect_segments ms ty (Itoa (n - 1)) dest).
Proof.
  intros [Hty Hm He Hc Hl Hn] Hn1. split.
  - unfold redirect_segments in *.
    apply Forall_app in He as [He1 (He2 & _ & He3)%Forall_two], Hc as [Hc1 (Hc2 & _ & Hc3)%Forall_two].
    split; [done|done| | | |done].
    + apply Forall_app. split; [done|]. repeat (constructor; [done||(apply digits_elem_ok; lia)|]). done.
    + apply Forall_app. split; [done|]. constructor; [done|]. constructor; [|done].
      destruct (Itoa_digits (n - 1)) as [_ Hd]; [lia|].
      eapply string_forall_impl; [|exact Hd]. intros [[] [] [] [] [] [] [] []]; vm_compute; done.
    + unfold redirect_segments. rewrite length_app in Hl |- *. exact Hl.
  - apply redirectPath_next; [by apply relative_redirect_types|done|].
    eapply Forall_impl; [exact Hm|]. intros m Hm'. by eapply modifier_no_slash.
Qed.

(** Where the last redirect leads. *)
Lemma redirect_pipeline_last ms ty arg dest :
  redirect_pipeline ms ty arg dest →
  let l := concat (map mod_segments ms) ++ destination dest in
  redirectPath ty 1 dest (buildModifierPrefix ms) = path_of l ∧ l ≠ [] ∧ Forall elem_ok l ∧
  Forall (λ e, string_forall path_char e = true) l.
Proof.
  intros [Hty Hm He Hc _ _] l. unfold redirect_segments in *.
  apply Forall_app in He as [He1 (_ & _ & He3)%Forall_two], Hc as [Hc1 (_ & _ & Hc3)%Forall_two].
  split; [|split; [|split]].
  - apply redirectPath_last. eapply Forall_impl; [exact Hm|]. intros m Hm'. by eapply modifier_no_slash.
  - unfold l. by destruct (concat _), dest.
  - apply Forall_app. split; [done|]. destruct dest; [by repeat constructor|done].
  - apply Forall_app. split; [done|]. destruct dest; [by repeat constructor|done].
Qed.

Lemma redirect_pipeline_path ms ty arg dest n :
  redirect_pipeline ms ty arg dest → 1 ≤ n →
  let path := redirectPath ty n dest (buildModifierPrefix ms) in
  HasPrefix path "/" = true ∧ HasPrefix path "//" = false ∧ string_forall path_char path = true.
Proof.
  intros Hrp Hn path. unfold path. assert (∃ l, redirectPath ty n dest (buildModifierPrefix ms) = path_of l ∧
    l ≠ [] ∧ Forall elem_ok l ∧ Forall (λ e, string_forall path_char e = true) l) as (l & -> & Hl & He & Hc).
  { destruct (decide (n = 1)) as [->|].
    - eexists. by apply (redirect_pipeline_last _ _ arg).
    - destruct (redirect_pipeline_next _ _ _ _ n Hrp) as [[] E]; [lia|]. eexists. split; [exact E|].
      split; [|done]. unfold redirect_segments. by destruct (concat _). }
  split; [by apply path_of_rooted|]. split; [by apply path_of_not_double|by apply path_of_forall].
Qed.

(** One request. *)
Lemma redirect_served st ms ty arg dest n v :
  redirect_pipeline ms ty arg dest → Atoi arg = Ok n → 1 ≤ n ≤ 20 →
  modifiers_are h ms v → v_status v = None → admits h st →
  ∃ st' r', serverHandler h (mux_ServeHTTP (mux_of h)) (visit (prefix h +:+ path_of (redirect_segments ms ty arg dest)) st) = (Ok tt, st') ∧
    wr (world st') = Base r' ∧
    redirects 302 (prefix h +:+ redirectPath ty n dest (buildModifierPrefix ms)) r' ∧
    now (world st) ≤ now (world st') ≤ now (world st) + MaxDuration h ∧ finished h 302 st st'.
Proof.
  intros Hrp Ha Hn Hv Hst Hadm. set (p := path_of _). set (vst := visit _ st).
  destruct (Hget (prefix h +:+ p)) as (Hm & Hu & Ht & Hb).
  destruct (serverHandler_ordinary h (mux_ServeHTTP (mux_of h)) vst new_response p) as (r1 & Hr1 & Hrun).
  - done.
  - split; unfold vst, visit; cbn [req world set_world]; rewrite ?Hm, ?Hu, ?Hb; [done|reflexivity|done].
  - done.
  - unfold vst, visit. cbn [req world set_world]. by rewrite Hu.
  - unfold vst, visit. cbn [req world set_world]. by rewrite Hu.
  - cbn zeta in Hrun. set (s := set_wr _ _) in Hrun.
    assert (req s = stripped p (ask (prefix h +:+ p))) as Hreq by done.
    destruct (redirect_pipeline_head _ _ _ _ Hrp) as (x & l & Es & Hx & Hl).
    assert (mux_ServeHTTP (mux_of h) s = PipelineHandler h (set_req (set_PathValues ∅ (req s)) s)) as Emux.
    { assert (Method (req s) = "GET") as Hm' by exact Hm. assert (RequestURI_ (req s) ≠ "*") as Ht' by exact Ht.
      assert (RawPath (URL (req s)) = "" ∧ Path (URL (req s)) = p) as [Hraw Hp] by (by rewrite Hreq; cbn; rewrite Hu).
      destruct Hrp as [_ _ He Hc _ _]. unfold p in Hp. rewrite Es in He, Hc, Hp.
      by apply (pipeline_routed h s x l); rewrite ?Hm'. }
    set (s1 := set_req _ s) in Emux.
    assert (Path (URL (req s1)) = p) as Hp by done. pose proof (redirect_pipeline_parse _ _ _ _ Hrp) as Hparse.
    assert (HasPrefix p "/" = true) as Hrooted by (unfold p; rewrite Es; by apply path_of_rooted).
    destruct (redirect_pipeline_path _ _ _ _ n Hrp) as (P1 & P2 & _); [lia|].
    destruct (@Pipeline_responds _ (targets h) h Hmax s1 (MkPipelineResult ms (MkStep ty (arg :: dest))) v) as (a & s2 & E & [Dw Dn Dq]).
    { by rewrite Hp. } { by rewrite Hp. } { done. } { done. }
    destruct (@respond_redirects _ (targets h) h v ms ty arg dest n a s2 (Bin.observed h) r1) as (s3 & r3 & E3 & W3 & R3 & N3).
    { apply Hrp. } { done. } { done. } { done. } { by rewrite Dw. } { done. } { done. } { done. }
    destruct (Hrun s3 r3 302) as (st' & E4 & W4 & N4 & F4); [done| |done|].
    { rewrite Emux. unfold PipelineHandler. by rewrite E. }
    exists st', r3. split; [exact E4|]. split; [done|]. split; [done|]. split; [|by destruct F4; split].
    rewrite N4, N3. exact Dn.
Qed.

(** What [n] redirects leave: the slots as they were, and [n] observations. *)
Record trail (n : nat) (st st' : Server) : Prop := {
  tr_slots : slots st' = slots st;
  tr_results : ∃ rs, results st' = results st ++ rs ∧ Forall (λ r, R_Status r = 302) rs ∧
    length rs = if Bin.observed h then n else O;
  tr_now : now (world st) ≤ now (world st') ≤ now (world st) + Z.of_nat n * MaxDuration h;
}.

Lemma trail_refl st : trail 0 st st.
Proof. split; [done| |lia]. exists []. rewrite app_nil_r. repeat split; [constructor|]. by destruct (Bin.observed h). Qed.

Lemma trail_hop n st st1 st2 :
  finished h 302 st st1 → now (world st) ≤ now (world st1) ≤ now (world st) + MaxDuration h →
  trail n st1 st2 → trail (S n) st st2.
Proof.
  intros [Hs _ (rs1 & E1 & H1')] Hn [Hs2 (rs2 & E2 & F2 & L2) Hn2]. split; [congruence| |lia].
  exists (rs1 ++ rs2). rewrite E2, E1, app_assoc. split; [done|]. rewrite length_app.
  destruct (Bin.observed h).
  - destruct H1' as (r & -> & Hr). split; [by constructor|]. cbn. lia.
  - subst rs1. by split.
Qed.

Context (Hprefix : string_forall path_char (prefix h) = true).

Lemma redirect_hop st ms ty arg dest n v :
  redirect_pipeline ms ty arg dest → Atoi arg = Ok n → 1 ≤ n ≤ 20 →
  modifiers_are h ms v → v_status v = None → admits h st →
  ∃ st1, (∀ k q st2,
      follows (serverHandler h (mux_ServeHTTP (mux_of h))) k
        (prefix h +:+ redirectPath ty n dest (buildModifierPrefix ms)) st1 q st2 →
      follows (serverHandler h (mux_ServeHTTP (mux_of h))) (S k)
        (prefix h +:+ path_of (redirect_segments ms ty arg dest)) st q st2) ∧
    (∀ k st2, trail k st1 st2 → trail (S k) st st2) ∧ admits h st1.
Proof.
  intros Hrp Ha Hn Hv Hst Hadm.
  destruct (redirect_served st ms ty arg dest n v Hrp Ha Hn Hv Hst Hadm) as (st1 & r & E & W & [R1 R2] & N & F).
  destruct (redirect_pipeline_path ms ty arg dest n Hrp) as (_ & _ & Hc); [lia|].
  exists st1. split; [|split].
  - intros k q st2. apply (follows_hop _ _ _ _ _ r); [done..|]. rewrite R2.
    apply client_path_plain, (string_forall_impl path_char); [exact path_char_plain|].
    by rewrite string_forall_app, Hprefix.
  - intros k st2. by apply trail_hop.
  - destruct F as [Hs _ _], Hadm as [Hl Hslot]. split; [done|]. by rewrite Hs.
Qed.

End Follow.

(** ** A client of a sample server *)

Definition sample_ask (p : string) : Request :=
  MkRequest "GET" (relativeURL p "") ("http://localhost" +:+ p) ∅ "localhost" "192.0.2.1:1234" false [] "" None ∅.

Lemma sample_ask_gets p :
  Method (sample_ask p) = "GET" ∧ URL (sample_ask p) = relativeURL p "" ∧ RequestURI_ (sample_ask p) ≠ "*" ∧
  Body (sample_ask p) = "".
Proof. done. Qed.

