(* ===== verification/Concurrent.v ===== *)
(** * Concurrent: requests that share a server

    [serverHandler] serves one request.  Here many are served at once: each is a thread
    that passes the middlewares of [Handler] one after the other, and every access to what
    the requests share (the map of the limiter, the channel of slots, the caches, the
    observer) is a step of its own, between which the others may run.  A request on its own takes the
    steps of [serverHandler]; for every interleaving, no slot is lost or given twice, no
    request waits for another, each is observed as it should be and answered as it would
    be alone, and when no more requests arrive all of them come to an end.  The requests
    that one client makes in turn show what the limiter counts. *)

From S2P Require Import Prelude GoStrings GoNum GoFloat GoTime GoFmt Json GoURL GoNet.
From S2P Require Import RateLimit RateLimitSpec Cache Http HttpLaws Handles Delay ClientIP Bin Middleware MiddlewareSpec Samples.

(** ** Threads *)

(** Where a request is: before which middleware, or behind the last. *)
Inductive stage :=
| Entering
| Limiting
| Acquiring
| Inside (slot : bool)                   (* in the router, with a slot or without limit *)
| Leaving (o : outcome gerror unit)      (* the handler has returned or panicked *)
| Ended (o : outcome gerror unit).

Record thread := MkThread {
  t_stage : stage;
  t_world : World;
  t_began : Z;
  t_outer : option Request;              (* the request that [StripPrefix] has replaced *)
}.

Record net := MkNet {
  n_limiter : ipRateLimiter;
  n_slots : Z;
  n_results : list Result;
  n_caches : Caches;
  n_threads : gmap nat thread;
}.

Section Steps.
Context `{GoStd} (h : HTTPBin).

(** A request arrives: [observe] wraps its writer and takes the time. *)
Definition arrival (w : World) : thread :=
  MkThread Entering (if Bin.observed h then set_wr (MetaRW (wr w) 0 0) w else w) (now w) None.

Definition answer (m : M unit) (t : thread) : thread :=
  let '(o, w) := m (t_world t) in MkThread (Leaving o) w (t_began t) (t_outer t).

Definition move (s : stage) (t : thread) : thread := MkThread s (t_world t) (t_began t) (t_outer t).

Definition enter (t : thread) : thread :=
  if nonempty (prefix h) then
    let r := req (t_world t) in
    match strippedURL (prefix h) (URL r) with
    | Some u => MkThread Limiting (set_req (set_URL u r) (t_world t)) (t_began t) (Some r)
    | None => answer NotFound t
    end
  else move Limiting t.

Definition rateKey (r : Request) : string := normalizeIPForRateLimit (h_getClientIP h r) (rateLimitUseSubnets h).

Definition tooMany : M unit := _ ← SetHeader "Retry-After" "1"; writeError 429 None.

(** The answer of the limiter to the thread. *)
Definition limited (ok : bool) (t : thread) : thread := if ok then move Acquiring t else answer tooMany t.

(** The answer of the semaphore to the thread, and the slots. *)
Definition acquired (slots : Z) (t : thread) : thread * Z :=
  if 0 <? maxConcurrentRequests h then
    match acquire (maxConcurrentRequests h) slots with
    | Some k => (move (Inside true) t, k)
    | None => (answer (writeError 503 None) t, slots)
    end
  else (move (Inside false) t, slots).

(** [StripPrefix] returns the request that it was given, with its headers. *)
Definition restored (t : thread) : World :=
  match t_outer t with
  | Some r => set_req (set_RHeader (RHeader (req (t_world t))) r) (t_world t)
  | None => t_world t
  end.

(** The end of the request, and what the observer is told. *)
Definition ended (o : outcome gerror unit) (t : thread) : thread :=
  let w := restored t in
  MkThread (Ended o) (if Bin.observed h then unwrapped w else w) (t_began t) (t_outer t).
Definition told (o : outcome gerror unit) (t : thread) : list Result :=
  match o with
  | Ok _ => if Bin.observed h then [observation (h_getClientIP h) (t_began t) (restored t)] else []
  | _ => []
  end.

(** What the router, and the middleware inside of the semaphore, may do to a request. *)
Context (inner : World → outcome gerror unit → World → Prop).

(** The requests that arrive. *)
Context (arrives : Request → Prop).

(** The thread [i] takes a step. *)
Inductive net_step (i : nat) : net → net → Prop :=
| step_arrive l k rs cs ts w :
    ts !! i = None → arrives (req w) →
    net_step i (MkNet l k rs cs ts) (MkNet l k rs cs (<[i := arrival (set_caches cs w)]> ts))
| step_enter l k rs cs ts t :
    ts !! i = Some t → t_stage t = Entering →
    net_step i (MkNet l k rs cs ts) (MkNet l k rs cs (<[i := enter t]> ts))
| step_unlimited l k rs cs ts t :
    ts !! i = Some t → t_stage t = Limiting → rateLimited h = false →
    net_step i (MkNet l k rs cs ts) (MkNet l k rs cs (<[i := limited true t]> ts))
| step_limit l k rs cs ts t order ok l' :
    ts !! i = Some t → t_stage t = Limiting → rateLimited h = true → covers order (buckets l) →
    allow order (rateKey (req (t_world t))) (now (t_world t)) l = (ok, l') →
    net_step i (MkNet l k rs cs ts) (MkNet l' k rs cs (<[i := limited ok t]> ts))
| step_acquire l k rs cs ts t t' k' :
    ts !! i = Some t → t_stage t = Acquiring → acquired k t = (t', k') →
    net_step i (MkNet l k rs cs ts) (MkNet l k' rs cs (<[i := t']> ts))
| step_leave l k rs cs ts t slot o w :
    ts !! i = Some t → t_stage t = Inside slot → inner (set_caches cs (t_world t)) o w →
    net_step i (MkNet l k rs cs ts)
      (MkNet l (if slot then release k else k) rs (caches w) (<[i := MkThread (Leaving o) w (t_began t) (t_outer t)]> ts))
| step_end l k rs cs ts t o :
    ts !! i = Some t → t_stage t = Leaving o →
    net_step i (MkNet l k rs cs ts) (MkNet l k (rs ++ told o t) cs (<[i := ended o t]> ts)).

(** The goroutine of the limiter removes what has expired at the instant [t]. *)
Inductive swept : net → net → Prop :=
| step_sweep t l k rs cs ts :
    rateLimited h = true → swept (MkNet l k rs cs ts) (MkNet (evictExpiredLocked t l) k rs cs ts).

Definition steps (c c' : net) : Prop := (∃ i, net_step i c c') ∨ swept c c'.
End Steps.

(** ** Answers *)

(** A computation that touches nothing but the writer. *)
Class Replies {A} (m : M A) : Prop := replies : ∀ s, (m s).2 = set_wr (wr (m s).2) s.

#[export] Instance Replies_bind {A B} (m : M A) (k : A → M B) :
  Replies m → (∀ a, Replies (k a)) → Replies (m ≫= k).
Proof.
  intros Hm Hk s. unfold mbind, GoM_bind. specialize (Hm s). destruct (m s) as [[a| |] s1]; cbn [snd] in *; [|done..].
  rewrite (Hk a s1) at 1. rewrite Hm at 2. done.
Qed.
#[export] Instance Replies_header f : Replies (header_op f).
Proof. by intros s. Qed.
#[export] Instance Replies_WriteHeader c : Replies (WriteHeader c).
Proof. intros s. unfold WriteHeader. destruct (w_WriteHeader _ _); [done|by destruct s..]. Qed.
#[export] Instance Replies_Write b : Replies (Write b).
Proof. intros s. unfold Write. destruct (w_Write _ _) as [[]| |]; [done|by destruct s..]. Qed.
#[export] Instance Replies_writeError `{GoStd} c e : Replies (writeError c e).
Proof. unfold writeError, writeJSON, mustMarshalJSON, SetHeader. apply _. Qed.
#[export] Instance Replies_NotFound : Replies NotFound.
Proof. unfold NotFound, http_Error, SetHeader. apply _. Qed.
#[export] Instance Replies_tooMany `{GoStd} : Replies tooMany.
Proof. unfold tooMany, SetHeader. apply _. Qed.

Lemma set_caches_id w : set_caches (caches w) w = w.
Proof. by destruct w. Qed.

Lemma replies_caches {A} (m : M A) `{!Replies m} s : caches (m s).2 = caches s.
Proof. by rewrite replies. Qed.

(** ** The limiter *)

(** [rateLimitMiddleware] asks the limiter once, and refuses or goes on. *)
Lemma rateLimit_run `{GoStd} (h : HTTPBin) m s :
  ∃ order, covers order (buckets (limiter s)) ∧
    rateLimitMiddleware (h_getClientIP h) (rateLimitUseSubnets h) m s =
      let '(ok, l) := allow order (rateKey h (req (world s))) (now (world s)) (limiter s) in
      if ok then m (set_limiter l s) else on_world tooMany (set_limiter l s).
Proof.
  exists (iteration_order (rnd (world s) (rndi (world s))) (buckets (limiter s))).
  split; [intros k Hk; by apply iteration_order_elem|].
  unfold rateLimitMiddleware, on_world, get_req, mbind, GoM_bind at 1. cbn [set_world world].
  fold (rateKey h (req (world s))). unfold GoM_bind at 1, limiter_allow. cbn [world set_world limiter].
  destruct (allow _ _ _ _) as [ok l]. replace (set_limiter l (set_world (world s) s)) with (set_limiter l s) by by destruct s.
  destruct ok; [done|]. cbn [negb]. unfold tooMany, mbind, GoM_bind. rewrite SetHeader_run.
  cbn [world set_world set_limiter]. by destruct (writeError 429 None _).
Qed.

(** ** One request on its own *)

Section Alone.
Context `{GoStd} (h : HTTPBin) (mux : HandlerFunc) (i : nat) (ts : gmap nat thread).

(** The router and the middleware inside of the semaphore. *)
Definition routed (w : World) (o : outcome gerror unit) (w' : World) : Prop := requestHandler h mux w = (o, w').

(** Any request may arrive. *)
Definition anyone (r : Request) : Prop := True.

(** The server with the thread [i] and threads that stand still. *)
Definition net_of (s : Server) (t : thread) : net :=
  MkNet (limiter s) (slots s) (results s) (caches (world s)) (<[i := t]> ts).

Abbreviation alone := (rtc (net_step h routed anyone i)).

(** From the stage [g] on, the thread does what the computation does. *)
Definition runs (g : stage) (m : SM unit) : Prop := ∀ s t,
  t_stage t = g → t_world t = world s →
  let '(o, s') := m s in
  ∃ t', alone (net_of s t) (net_of s' t') ∧ t_stage t' = Leaving o ∧ t_world t' = world s' ∧
    t_began t' = t_began t ∧ t_outer t' = t_outer t.

Lemma one_step s t s' t' :
  (∀ ts', ts' !! i = Some t →
    net_step h routed anyone i (MkNet (limiter s) (slots s) (results s) (caches (world s)) ts') (MkNet (limiter s') (slots s') (results s') (caches (world s')) (<[i := t']> ts'))) →
  alone (net_of s t) (net_of s' t').
Proof.
  intros Hs. apply rtc_once. unfold net_of. specialize (Hs (<[i := t]> ts) (lookup_insert_eq _ _ _)).
  by rewrite insert_insert_eq in Hs.
Qed.

(** A thread that is answered by a middleware leaves. *)
Lemma answer_spec (m : M unit) `{!Replies m} t :
  let '(o, w) := m (t_world t) in
  t_stage (answer m t) = Leaving o ∧ t_world (answer m t) = w ∧ t_began (answer m t) = t_began t ∧
  t_outer (answer m t) = t_outer t ∧ caches w = caches (t_world t).
Proof. unfold answer. pose proof (replies_caches m (t_world t)). by destruct (m (t_world t)). Qed.

Lemma runs_router slot s t :
  t_stage t = Inside slot → t_world t = world s →
  let '(o, s') := on_world (requestHandler h mux) s in
  ∃ t', alone (net_of s t) (net_of (if slot then set_slots (release (slots s')) s' else s') t') ∧
    t_stage t' = Leaving o ∧ t_world t' = world s' ∧ t_began t' = t_began t ∧ t_outer t' = t_outer t.
Proof.
  intros Hs Hw. unfold on_world. destruct (requestHandler h mux (world s)) as [o w] eqn:E.
  exists (MkThread (Leaving o) w (t_began t) (t_outer t)). split; [|done].
  assert (routed (set_caches (caches (world s)) (t_world t)) o w) as Hin by (unfold routed; by rewrite Hw, set_caches_id).
  apply one_step. intros ts' Ht.
  pose proof (step_leave h routed anyone i (limiter s) (slots s) (results s) (caches (world s)) ts' t slot o w Ht Hs Hin) as Hstep.
  by destruct slot.
Qed.

Lemma runs_pool :
  runs Acquiring (if 0 <? maxConcurrentRequests h
    then maxConcurrent (maxConcurrentRequests h) (on_world (requestHandler h mux)) else on_world (requestHandler h mux)).
Proof.
  intros s t Hs Hw. pose proof (λ t' k' ts' Ht, step_acquire h routed anyone i (limiter s) (slots s) (results s) (caches (world s)) ts' t t' k' Ht Hs) as Hstep.
  unfold acquired in Hstep. destruct (0 <? maxConcurrentRequests h).
  - unfold maxConcurrent. destruct (acquire _ (slots s)) as [k|] eqn:Ea.
    + pose proof (runs_router true (set_slots k s) (move (Inside true) t) eq_refl Hw) as Hr.
      destruct (on_world _ (set_slots k s)) as [o s']. destruct Hr as (t' & Hr & Ht'). exists t'. split; [|done].
      etrans; [|exact Hr]. apply one_step. intros ts' Ht. by apply Hstep.
    + pose proof (answer_spec (writeError 503 None) t) as Ha. rewrite Hw in Ha. unfold on_world.
      destruct (writeError 503 None (world s)) as [o w]. destruct Ha as (A1 & A2 & A3 & A4 & A5).
      exists (answer (writeError 503 None) t). split; [|done].
      apply (one_step s t (set_world w s)). intros ts' Ht. cbn [world set_world]. rewrite A5. by apply Hstep.
  - pose proof (runs_router false s (move (Inside false) t) eq_refl Hw) as Hr.
    destruct (on_world _ s) as [o s']. destruct Hr as (t' & Hr & Ht'). exists t'. split; [|done].
    etrans; [|exact Hr]. apply one_step. intros ts' Ht. by apply Hstep.
Qed.

Lemma runs_limiter m :
  runs Acquiring m →
  runs Limiting (if rateLimited h then rateLimitMiddleware (h_getClientIP h) (rateLimitUseSubnets h) m else m).
Proof.
  intros Hm s t Hs Hw. destruct (rateLimited h) eqn:Er.
  - destruct (rateLimit_run h m s) as (order & Hc & ->). rewrite <- Hw.
    destruct (allow order _ _ _) as [ok l] eqn:Ea.
    assert (alone (net_of s t) (net_of (set_limiter l s) (limited ok t))) as Hfirst.
    { apply one_step. intros ts' Ht. cbn [world set_limiter]. by apply (step_limit h routed anyone i) with order. }
    destruct ok.
    + pose proof (Hm (set_limiter l s) (move Acquiring t) eq_refl Hw) as Hr.
      destruct (m (set_limiter l s)) as [o s']. destruct Hr as (t' & Hr & Ht'). exists t'. split; [|done].
      etrans; [exact Hfirst|exact Hr].
    + pose proof (answer_spec tooMany t) as Ha. unfold on_world. cbn [world set_limiter]. rewrite <- Hw.
      destruct (tooMany (t_world t)) as [o w]. destruct Ha as (A1 & A2 & A3 & A4 & A5).
      exists (answer tooMany t). split; [|done]. unfold net_of in *. cbn [world set_limiter set_world] in *.
      rewrite A5, Hw. exact Hfirst.
  - pose proof (Hm s (move Acquiring t) eq_refl Hw) as Hr. destruct (m s) as [o s'].
    destruct Hr as (t' & Hr & Ht'). exists t'. split; [|done]. etrans; [|exact Hr].
    apply one_step. intros ts' Ht. by apply (step_unlimited h routed anyone i).
Qed.

Lemma runs_prefix m s t :
  runs Limiting m → t_stage t = Entering → t_outer t = None → t_world t = world s →
  let '(o, s') := (if nonempty (prefix h) then StripPrefix (prefix h) m else m) s in
  ∃ t', alone (net_of s t) (net_of (set_world (t_world t') s') t') ∧ t_stage t' = Leaving o ∧
    restored t' = world s' ∧ t_began t' = t_began t.
Proof.
  intros Hm Hs Ho Hw.
  assert (alone (net_of s t) (net_of s (enter h t))) as Henter
    by (apply one_step; intros ts' Ht; by apply step_enter).
  unfold enter in Henter. destruct (nonempty (prefix h)) eqn:Ep.
  - unfold StripPrefix. unfold nonempty in Ep. apply negb_true_iff in Ep. rewrite Ep.
    unfold mbind, GoM_bind, on_world at 1, get_req. cbn [set_world world]. rewrite Hw in Henter.
    destruct (strippedURL (prefix h) (URL (req (world s)))) as [u|] eqn:Eu.
    + unfold with_request. cbn [world set_world]. set (s1 := set_world (set_req _ _) _).
      set (t1 := MkThread Limiting _ _ _) in Henter.
      pose proof (Hm s1 t1 eq_refl eq_refl) as Hr. destruct (m s1) as [o s'].
      destruct Hr as (t' & Hr & Ht & Hw' & Hb & Hout). exists t'. rewrite Hw'.
      split; [|split; [done|split]].
      * etrans; [exact Henter|]. exact Hr.
      * unfold restored. by rewrite Hout, Hw'.
      * by rewrite Hb.
    + pose proof (answer_spec NotFound t) as Ha. rewrite Hw in Ha. unfold on_world. cbn [world set_world].
      destruct (NotFound (world s)) as [o w]. destruct Ha as (A1 & A2 & A3 & A4 & A5).
      exists (answer NotFound t). rewrite A2. unfold net_of in *. cbn [world set_world] in *. rewrite A5. split; [exact Henter|]. split; [done|]. split; [|done].
      unfold restored. by rewrite A4, Ho, A2.
  - pose proof (Hm s (move Limiting t) eq_refl Hw) as Hr. destruct (m s) as [o s'].
    destruct Hr as (t' & Hr & Ht & Hw' & Hb & Hout). exists t'. rewrite Hw'.
    split; [|split; [done|split]].
    + etrans; [exact Henter|]. by destruct s'.
    + unfold restored. change (t_outer (move Limiting t)) with (t_outer t) in Hout. by rewrite Hout, Ho, Hw'.
    + by rewrite Hb.
Qed.

(** (C7) A request that has the server to itself takes, step by step, the effects of
    [serverHandler]: the same outcome and response, and the same limiter, slots, caches and
    observations. *)
Theorem serverHandler_steps s :
  ts !! i = None →
  let '(o, s') := serverHandler h mux s in
  ∃ t', alone (MkNet (limiter s) (slots s) (results s) (caches (world s)) ts) (MkNet (limiter s') (slots s') (results s') (caches (world s')) (<[i := t']> ts)) ∧
    t_stage t' = Ended o ∧ t_world t' = world s'.
Proof.
  intros Hi. set (t := arrival h (world s)). set (s0 := set_world (t_world t) s).
  assert (alone (MkNet (limiter s) (slots s) (results s) (caches (world s)) ts) (net_of s0 t)) as Harrive.
  { apply rtc_once. pose proof (step_arrive h routed anyone i (limiter s) (slots s) (results s) (caches (world s)) ts (world s) Hi I) as Hstep.
    rewrite set_caches_id in Hstep. assert (caches (t_world t) = caches (world s)) as Ec by (unfold t, arrival; by destruct (Bin.observed h)).
    unfold net_of, s0. cbn [world set_world]. by rewrite Ec. }
  unfold serverHandler. cbn zeta. set (m := if nonempty (prefix h) then _ else _).
  pose proof (runs_prefix _ s0 t (runs_limiter _ runs_pool) eq_refl eq_refl eq_refl) as Hr.
  fold m in Hr. destruct (m s0) as [o s'] eqn:Em. destruct Hr as (t1 & Hr & Ht & Hw & Hb).
  assert (caches (t_world t1) = caches (world s')) as Ec by (rewrite <- Hw; unfold restored; by destruct (t_outer t1)).
  unfold net_of in Hr at 2. cbn [world set_world] in Hr. rewrite Ec in Hr.
  assert (alone (MkNet (limiter s) (slots s) (results s) (caches (world s)) ts)
    (MkNet (limiter s') (slots s') (results s' ++ told h o t1) (caches (world s')) (<[i := ended h o t1]> ts))) as Hall.
  { etrans; [exact Harrive|]. etrans; [exact Hr|]. apply rtc_once.
    pose proof (step_end h routed anyone i (limiter s') (slots s') (results s') (caches (world s')) (<[i := t1]> ts) t1 o (lookup_insert_eq _ _ _) Ht) as He.
    by rewrite insert_insert_eq in He. }
  unfold told in Hall. destruct (Bin.observed h) eqn:Eo.
  - unfold observe. assert (s0 = set_world (set_wr (MetaRW (wr (world s)) 0 0) (world s)) s) as <-.
    { unfold s0, t, arrival. by rewrite Eo. }
    rewrite Em. assert (t_began t1 = now (world s)) as Hbegan by done. unfold ended in Hall. rewrite Eo, Hw, Hbegan in Hall.
    destruct o as [u|e|w]; rewrite ?app_nil_r in Hall; eexists; (split; [exact Hall|]); [|done..].
    split; [by destruct u|done].
  - assert (s0 = s) as E0 by (unfold s0, t, arrival; rewrite Eo; by destruct s). rewrite E0 in Em. rewrite Em.
    unfold ended in Hall. rewrite Eo, Hw in Hall.
    destruct o as [u|e|w]; rewrite app_nil_r in Hall; eexists; (split; [exact Hall|]); done.
Qed.
End Alone.

(** ** Requests one after the other *)

(** The server serves the requests that arrive in the worlds [ws] in turn: the answers. *)
Fixpoint in_turn (m : SM unit) (ws : list World) (s : Server) : list (outcome gerror unit * World) :=
  match ws with
  | [] => []
  | w :: ws' => let '(o, s') := m (set_world w s) in (o, world s') :: in_turn m ws' s'
  end.

Section Burst.
Context `{GoStd} (h : HTTPBin) (mux : HandlerFunc).

(** What is inside of the limiter. *)
Definition unlimited : SM unit :=
  if 0 <? maxConcurrentRequests h
  then maxConcurrent (maxConcurrentRequests h) (on_world (requestHandler h mux)) else on_world (requestHandler h mux).

(** It does not touch the limiter. *)
Lemma unlimited_limiter l s :
  unlimited (set_limiter l s) = let '(o, s') := unlimited s in (o, set_limiter l s').
Proof.
  unfold unlimited. destruct (0 <? _).
  - unfold maxConcurrent. cbn [slots set_limiter]. destruct (acquire _ _) as [k|].
    + unfold on_world. cbn [world set_limiter set_slots]. by destruct (requestHandler h mux (world s)) as [o w].
    + unfold on_world. cbn [world set_limiter]. by destruct (writeError 503 None (world s)) as [o w].
  - unfold on_world. cbn [world set_limiter]. by destruct (requestHandler h mux (world s)) as [o w].
Qed.

Lemma unlimited_keeps l s o s' : unlimited (set_limiter l s) = (o, s') → limiter s' = l.
Proof. rewrite unlimited_limiter. destruct (unlimited s) as [o1 s1]. by intros [= _ <-]. Qed.

Abbreviation served := (rateLimitMiddleware (h_getClientIP h) (rateLimitUseSubnets h) unlimited).

(** *** An abstract limiter

    The state [A] of an abstract limiter, and what it makes of a request. *)
Section Abstract.
Context {A : Type} (ask : A → World → bool * A).

Fixpoint in_turn_as (a : A) (ws : list World) (s : Server) : list (outcome gerror unit * World) :=
  match ws with
  | [] => []
  | w :: ws' =>
      let '(ok, a') := ask a w in
      let '(o, s') := (if ok then unlimited else on_world tooMany) (set_world w s) in
      (o, world s') :: in_turn_as a' ws' s'
  end.

Context (sim : A → ipRateLimiter → Prop) (may : A → World → Prop).

(** The requests that the limiter understands. *)
Fixpoint may_all (a : A) (ws : list World) : Prop :=
  match ws with [] => True | w :: ws' => may a w ∧ may_all (ask a w).2 ws' end.

Context (simulates : ∀ a l order w, sim a l → may a w →
  let '(ok, l') := allow order (rateKey h (req w)) (now w) l in ok = (ask a w).1 ∧ sim (ask a w).2 l').

Lemma in_turn_as_limiter a ws l s : in_turn_as a ws (set_limiter l s) = in_turn_as a ws s.
Proof.
  revert a s. induction ws as [|w ws IH]; intros a s; [done|]. cbn [in_turn_as].
  destruct (ask a w) as [ok a']. change (set_world w (set_limiter l s)) with (set_limiter l (set_world w s)). destruct ok.
  - rewrite unlimited_limiter. destruct (unlimited (set_world w s)) as [o s']. f_equal. apply IH.
  - unfold on_world. cbn [world set_limiter set_world]. destruct (tooMany w) as [o w']. f_equal. exact (IH a' (set_world w' (set_world w s))).
Qed.

(** The limiter does what the abstract one does. *)
Lemma served_simulates a ws s :
  sim a (limiter s) → may_all a ws → in_turn served ws s = in_turn_as a ws s.
Proof.
  revert a s. induction ws as [|w ws IH]; intros a s Hs Hws; [done|]. destruct Hws as [Hw Hws].
  cbn [in_turn in_turn_as].
  destruct (rateLimit_run h unlimited (set_world w s)) as (order & _ & ->). cbn [world set_world limiter].
  pose proof (simulates a (limiter s) order w Hs Hw) as Ha.
  destruct (allow order _ _ (limiter s)) as [ok l]. destruct Ha as [-> Hl].
  destruct (ask a w) as [ok a']. cbn [fst snd] in *. destruct ok.
  - destruct (unlimited (set_limiter l (set_world w s))) as [o s'] eqn:Eu.
    pose proof (unlimited_keeps _ _ _ _ Eu) as Hlim. rewrite unlimited_limiter in Eu.
    destruct (unlimited (set_world w s)) as [o1 s1]. injection Eu as -> <-. f_equal.
    rewrite (IH a') by (done || by rewrite Hlim). apply in_turn_as_limiter.
  - unfold on_world. cbn [world set_limiter set_world]. destruct (tooMany w) as [o w']. f_equal.
    rewrite (IH a') by done. exact (in_turn_as_limiter a' ws l (set_world w' (set_world w s))).
Qed.
End Abstract.

(** *** At one instant *)

(** So many are left. *)
Definition countdown (n : Z) (w : World) : bool * Z := (1 <=? n, if 1 <=? n then n - 1 else n).

Lemma in_turn_countdown n ws s :
  0 ≤ n → in_turn_as countdown n ws s = in_turn unlimited (take (Z.to_nat n) ws) s ++ map tooMany (drop (Z.to_nat n) ws).
Proof.
  revert n s. induction ws as [|w ws IH]; intros n s Hn; [by rewrite take_nil, drop_nil|].
  cbn [in_turn_as countdown]. destruct (Z.leb_spec 1 n).
  - replace (Z.to_nat n) with (S (Z.to_nat (n - 1))) by lia. cbn [take drop in_turn app].
    destruct (unlimited (set_world w s)) as [o s']. cbn [app]. f_equal. apply IH. lia.
  - replace (Z.to_nat n) with 0%nat by lia. cbn [take drop in_turn app map]. unfold on_world. cbn [world set_world].
    destruct (tooMany w) as [o w']. f_equal. rewrite IH by done. replace (Z.to_nat n) with 0%nat by lia. by rewrite take_0, drop_0.
Qed.

(** Of the requests that a new client makes at one instant the first [B], for a burst of
    [B] below 2^53 and every rate, are served as if there were no limiter; each of the others is
    answered with 429 and [Retry-After: 1] and reaches neither the semaphore nor the router. *)
Lemma burst_served key t B ws s :
  new_client key B (limiter s) → finite_rate (rate (limiter s)) → 1 ≤ B < 2 ^ 53 →
  Forall (λ w, now w = t ∧ rateKey h (req w) = key) ws →
  in_turn served ws s = in_turn unlimited (take (Z.to_nat B) ws) s ++ map tooMany (drop (Z.to_nat B) ws).
Proof.
  intros Hn Hr HB Hws. rewrite <- in_turn_countdown by lia.
  apply (served_simulates countdown (λ n l, 0 ≤ n ≤ B ∧ may_ask key t n B l) (λ _ w, now w = t ∧ rateKey h (req w) = key)).
  - intros n l order w [Hrange Hl] [-> ->]. pose proof (allow_same_instant order key t n B l Hl Hrange HB) as Ha.
    destruct (allow order key t l) as [ok l']. destruct Ha as [-> Ha]. split; [done|]. split; [|done].
    cbn [countdown snd]. destruct (Z.leb_spec 1 n); lia.
  - split; [lia|]. split; [done|by right].
  - clear Hn Hr. generalize B at 1. induction Hws as [|w ws Hw _ IH]; intros n; [done|]. split; [done|apply IH].
Qed.

(** *** At whole seconds *)

(** A bucket of [B] tokens, into which [R] fall in a second: what is left, and when that was. *)
Definition tokenCount (R B : Z) (c : Z * Z) (w : World) : bool * (Z * Z) :=
  let n := refilled R B c.1 ((now w - c.2) / Second) in
  (1 <=? n, (if 1 <=? n then n - 1 else n, now w)).

(** The requests of a client: each a number of seconds, at most [K], after the one before it. *)
Fixpoint paced (K : Z) (key : string) (last : Z) (ws : list World) : Prop :=
  match ws with
  | [] => True
  | w :: ws' =>
      (∃ k, 0 ≤ k ≤ K ∧ now w = last + k * Second) ∧ rateKey h (req w) = key ∧ paced K key (now w) ws'
  end.

(** (C36) Where the rate [R] and the burst [B] are integers and a new client makes its requests
    at whole seconds, the limiter is a counter: it starts with [B], gains [R] in every second
    up to [B], and loses one for each request that is served, which is served as if there were
    no limiter; when it is 0, the request is answered with 429 and [Retry-After: 1].
    The arithmetic of the floats is exact as long as [B + K * R] is below 2^53. *)
Theorem rate_served R B K key t ws s :
  new_client key B (limiter s) → rate (limiter s) = of_Z R → 1 ≤ B → 0 ≤ R < 2 ^ 53 →
  K * Second ≤ maxInt64 → B + K * R < 2 ^ 53 → paced K key t ws →
  in_turn served ws s = in_turn_as (tokenCount R B) (B, t) ws s.
Proof.
  intros Hn Hr HB HR HK HBK Hws.
  apply (served_simulates (tokenCount R B) (λ c l, 0 ≤ c.1 ≤ B ∧ may_ask_at key c.2 c.1 R B l)
    (λ c w, (∃ k, 0 ≤ k ≤ K ∧ now w = c.2 + k * Second) ∧ rateKey h (req w) = key)).
  - intros [n last] l order w [Hrange Hl] [(k & Hk & Hw) ->]. cbn [fst snd] in *.
    pose proof (allow_whole_seconds order key last n R B k l Hl Hrange HB HR ltac:(lia) ltac:(unfold Second in *; nia) ltac:(nia)) as Ha.
    unfold tokenCount. cbn [fst snd]. rewrite Hw.
    replace (last + k * Second - last) with (k * Second) by lia. rewrite Z.div_mul by done.
    destruct (allow order key _ l) as [ok l']. destruct Ha as [-> Ha]. split; [done|]. split; [|done].
    cbn [fst snd]. unfold refilled. destruct (Z.leb_spec 1 (Z.min B (n + k * R))); nia.
  - split; [cbn; lia|]. split; [done|by right].
  - clear Hn Hr. revert t Hws. generalize B at 2. induction ws as [|w ws IH]; intros n t Hws; [done|].
    destruct Hws as (Hw & Hk & Hws). split; [done|]. by apply IH.
Qed.
End Burst.

(** ** All the requests *)

(** The sum of a number over the threads, and how many threads have a property. *)
Definition tally (f : thread → Z) (ts : gmap nat thread) : Z := map_fold (λ _ t n, f t + n) 0 ts.
Definition count (f : thread → bool) : gmap nat thread → Z := tally (λ t, if f t then 1 else 0).

Lemma tally_insert f i t ts : ts !! i = None → tally f (<[i := t]> ts) = f t + tally f ts.
Proof. intros Hi. unfold tally. rewrite map_fold_insert_L; [done| |done]. intros. lia. Qed.

Lemma tally_update f i t t' ts : ts !! i = Some t → tally f (<[i := t']> ts) = f t' - f t + tally f ts.
Proof.
  intros Hi. rewrite <- insert_delete_eq, tally_insert by apply lookup_delete_eq.
  rewrite <- (insert_id ts i t Hi) at 2. rewrite <- insert_delete_eq, tally_insert by apply lookup_delete_eq. lia.
Qed.

Lemma tally_bounds f m ts : (∀ t, 0 ≤ f t ≤ m) → 0 ≤ tally f ts ≤ m * Z.of_nat (size ts).
Proof.
  intros Hf. induction ts as [|i t ts Hi IH] using map_ind.
  - unfold tally. rewrite map_fold_empty, map_size_empty. lia.
  - rewrite tally_insert, map_size_insert_None by done. specialize (Hf t). lia.
Qed.

Lemma count_insert f i t ts : ts !! i = None → count f (<[i := t]> ts) = (if f t then 1 else 0) + count f ts.
Proof. apply tally_insert. Qed.

Lemma count_update f i t t' ts :
  ts !! i = Some t → count f (<[i := t']> ts) = (if f t' then 1 else 0) - (if f t then 1 else 0) + count f ts.
Proof. intros Hi. by apply (tally_update (λ t, if f t then 1 else 0)). Qed.

Lemma count_none f ts : map_Forall (λ _ t, f t = false) ts → count f ts = 0.
Proof.
  induction ts as [|i t ts Hi IH] using map_ind; intros Hall.
  - unfold count, tally. by rewrite map_fold_empty.
  - apply map_Forall_insert in Hall as [Ht Hts]; [|done]. rewrite count_insert, Ht by done. by rewrite (IH Hts).
Qed.

Definition holds_slot (t : thread) : bool := match t_stage t with Inside true => true | _ => false end.
Definition is_returned (t : thread) : bool := match t_stage t with Ended (Ok _) => true | _ => false end.

(** How far a thread has come. *)
Definition progress (g : stage) : Z :=
  match g with Entering => 0 | Limiting => 1 | Acquiring => 2 | Inside _ => 3 | Leaving _ => 4 | Ended _ => 5 end.

Section All.
Context `{GoStd} (h : HTTPBin) (inner : World → outcome gerror unit → World → Prop) (arrives : Request → Prop).
Abbreviation n := (maxConcurrentRequests h).

(** A middleware that answers holds no slot and has not returned. *)
Lemma answer_stage m t : ∃ o, t_stage (answer m t) = Leaving o.
Proof. unfold answer. destruct (m (t_world t)) as [o w]. by exists o. Qed.

Lemma answer_counts m t : holds_slot (answer m t) = false ∧ is_returned (answer m t) = false.
Proof. destruct (answer_stage m t) as [o E]. unfold holds_slot, is_returned. by rewrite E. Qed.

(** Every step takes its thread further. *)
Lemma answer_progress m t : progress (t_stage (answer m t)) = 4.
Proof. by destruct (answer_stage m t) as [o ->]. Qed.

Lemma enter_progress t : 0 < progress (t_stage (enter h t)).
Proof.
  unfold enter. destruct (nonempty _); [|done]. destruct (strippedURL _ _); [done|]. by rewrite answer_progress.
Qed.

Lemma limited_progress ok t : 1 < progress (t_stage (limited ok t)).
Proof. destruct ok; [done|]. unfold limited. by rewrite answer_progress. Qed.

Lemma acquired_progress k t t' k' : acquired h k t = (t', k') → 2 < progress (t_stage t').
Proof.
  unfold acquired. destruct (0 <? n); [destruct (acquire n k)|]; intros [= <- <-]; [done| |done]. by rewrite answer_progress.
Qed.

Lemma enter_counts t : holds_slot (enter h t) = false ∧ is_returned (enter h t) = false.
Proof.
  unfold enter. destruct (nonempty _); [|done]. destruct (strippedURL _ _); [done|]. apply answer_counts.
Qed.

Lemma limited_counts ok t : holds_slot (limited ok t) = false ∧ is_returned (limited ok t) = false.
Proof. destruct ok; [done|]. apply answer_counts. Qed.

Lemma acquired_counts k t t' k' :
  acquired h k t = (t', k') →
  is_returned t' = false ∧ (0 < n → k ≤ n → k' = k + (if holds_slot t' then 1 else 0) ∧ k' ≤ n).
Proof.
  unfold acquired. destruct (Z.ltb_spec 0 n); [|by intros [= <- <-]; split; [|lia]].
  unfold acquire. destruct (Z.ltb_spec k n); intros [= <- <-].
  - split; [done|]. cbn. lia.
  - destruct (answer_counts (writeError 503 None) t) as [-> ->]. split; [done|]. lia.
Qed.

(** Every client has an address: the empty key escapes the bound of the limiter. *)
Definition addressed : Prop := ∀ r, arrives r → rateKey h r ≠ "".

Definition keyed (t : thread) : Prop := rateKey h (req (t_world t)) ≠ "" ∨ 1 < progress (t_stage t).

Definition bounded (cfg : RateLimiterConfig) (l : ipRateLimiter) : Prop :=
  entries l ≤ maxEntries l ∧ maxEntries l = MaxTrackedIPs cfg ∧ no_empty_key l.

(** What holds at every moment. *)
Record net_ok (cfg : RateLimiterConfig) (c : net) : Prop := {
  nok_slots : 0 < n → n_slots c = count holds_slot (n_threads c) ∧ n_slots c ≤ n;
  nok_results : Z.of_nat (length (n_results c)) = if Bin.observed h then count is_returned (n_threads c) else 0;
  nok_limiter : addressed → bounded cfg (n_limiter c) ∧ map_Forall (λ _, keyed) (n_threads c);
}.

(** A step replaces one thread. *)
Lemma replace_ok cfg l k rs cs ts i t l' k' rs' cs' t' :
  net_ok cfg (MkNet l k rs cs ts) → ts !! i = Some t →
  (addressed → bounded cfg l → keyed t → bounded cfg l' ∧ keyed t') →
  (0 < n → k ≤ n → k' - k = (if holds_slot t' then 1 else 0) - (if holds_slot t then 1 else 0) ∧ k' ≤ n) →
  Z.of_nat (length rs') - Z.of_nat (length rs) =
    (if Bin.observed h then (if is_returned t' then 1 else 0) - (if is_returned t then 1 else 0) else 0) →
  net_ok cfg (MkNet l' k' rs' cs' (<[i := t']> ts)).
Proof.
  intros [Hs Hr Hl] Hi Hkey Hslot Hres. cbn [n_slots n_results n_limiter n_threads] in *.
  split; cbn [n_slots n_results n_limiter n_threads].
  - intros Hn. specialize (Hs Hn). rewrite (count_update _ i t) by done. specialize (Hslot Hn). lia.
  - rewrite (count_update _ i t) by done. destruct (Bin.observed h); lia.
  - intros Had. destruct (Hl Had) as [Hb Ht]. destruct (Hkey Had Hb (Ht i t Hi)) as [Hb' Hk'].
    split; [done|]. by apply map_Forall_insert_2.
Qed.

Lemma answer_keyed m t : keyed (answer m t).
Proof. right. destruct (answer_stage m t) as [o ->]. cbn. lia. Qed.

Lemma enter_keyed t : rateKey h (req (t_world t)) ≠ "" → keyed (enter h t).
Proof.
  intros Hk. unfold enter. destruct (nonempty _); [|by left]. destruct (strippedURL _ _); [by left|apply answer_keyed].
Qed.

Lemma net_step_ok cfg c c' : 1 ≤ MaxTrackedIPs cfg → steps h inner arrives c c' → net_ok cfg c → net_ok cfg c'.
Proof.
  intros Hcfg [[i Hs]|Hs] Hok;
    [|destruct Hs as [t l k rs cs ts _], Hok as [Hs Hr Hl]; split; [exact Hs|exact Hr|];
      cbn [n_limiter n_threads] in *; intros Had; destruct (Hl Had) as [(He & Hm & Hne) Ht]; split; [|exact Ht];
      destruct (evictExpired_bounds t l) as (He' & Hm' & Hne'); unfold bounded; rewrite Hm'; split; [lia|by split; [|apply Hne']]].
  destruct Hs as [l k rs cs ts w Hi Hw|l k rs cs ts t Hi Hg|l k rs cs ts t Hi Hg Hr|l k rs cs ts t order ok l' Hi Hg Hr Hc Ha|
    l k rs cs ts t t' k' Hi Hg Ha|l k rs cs ts t slot o w Hi Hg Hin|l k rs cs ts t o Hi Hg];
    try (assert (keyed t → rateKey h (req (t_world t)) ≠ "" ∨ 1 < progress (t_stage t)) as Hkeyed by done;
         rewrite Hg in Hkeyed; cbn [progress] in Hkeyed).
  - destruct Hok as [Hs Hr Hl]. cbn [n_slots n_results n_limiter n_threads] in *.
    split; cbn [n_slots n_results n_limiter n_threads].
    + intros Hn. rewrite count_insert by done. exact (Hs Hn).
    + rewrite count_insert by done. exact Hr.
    + intros Had. destruct (Hl Had) as [Hb Ht]. split; [done|]. apply map_Forall_insert_2; [|done].
      left. unfold arrival. cbn [t_world]. specialize (Had _ Hw). by destruct (Bin.observed h).
  - destruct (enter_counts t) as [E1 E2]. eapply replace_ok; [exact Hok|exact Hi| | |].
    + intros _ Hb Hk. split; [done|]. apply enter_keyed. destruct (Hkeyed Hk); [done|lia].
    + rewrite E1. unfold holds_slot. rewrite Hg. lia.
    + rewrite E2. unfold is_returned. rewrite Hg. destruct (Bin.observed h); lia.
  - eapply replace_ok; [exact Hok|exact Hi|intros _ Hb _; split; [done|right; cbn; lia]| |];
      unfold holds_slot, is_returned; rewrite Hg; cbn; [lia|destruct (Bin.observed h); lia].
  - eapply replace_ok; [exact Hok|exact Hi| | |].
    + intros _ (He & Hm & Hne) Hk. split.
      * pose proof (allow_bounded order (rateKey h (req (t_world t))) (now (t_world t)) l) as Hb. rewrite Ha in Hb.
        destruct Hb as (H1 & H2 & H3); [done|done|destruct (Hkeyed Hk); [done|lia]|lia|done|]. cbn [snd] in *.
        split; [done|]. split; [by rewrite H2|done].
      * destruct ok; [right; cbn; lia|apply answer_keyed].
    + destruct (limited_counts ok t) as [-> _]. unfold holds_slot. rewrite Hg. lia.
    + destruct (limited_counts ok t) as [_ ->]. unfold is_returned. rewrite Hg. destruct (Bin.observed h); lia.
  - destruct (acquired_counts k t t' k' Ha) as [Hret Hslot]. eapply replace_ok; [exact Hok|exact Hi| | |].
    + intros _ Hb _. split; [done|]. right. unfold acquired in Ha.
      destruct (0 <? n); [destruct (acquire n k)|]; injection Ha as <- <-; [cbn; lia| |cbn; lia].
      destruct (answer_stage (writeError 503 None) t) as [o ->]. cbn. lia.
    + unfold holds_slot at 2. rewrite Hg. intros Hn Hle. specialize (Hslot Hn Hle). lia.
    + rewrite Hret. unfold is_returned. rewrite Hg. destruct (Bin.observed h); lia.
  - eapply replace_ok; [exact Hok|exact Hi|intros _ Hb _; split; [done|right; cbn; lia]| |].
    + intros Hn Hle. unfold holds_slot. rewrite Hg. cbn. unfold release. destruct slot; lia.
    + unfold is_returned. rewrite Hg. cbn. destruct (Bin.observed h); lia.
  - eapply replace_ok; [exact Hok|exact Hi|intros _ Hb _; split; [done|right; cbn; lia]| |].
    + intros Hn Hle. unfold holds_slot. rewrite Hg. cbn. lia.
    + rewrite length_app. unfold is_returned, told, ended. rewrite Hg. cbn. destruct o, (Bin.observed h); cbn; lia.
Qed.

(** A server without requests, as [New] makes it. *)
Definition idle (cfg : RateLimiterConfig) : net :=
  MkNet (newIPRateLimiter cfg) 0 [] (MkCaches (newImageCache 64) (newPDFCache 64)) ∅.

Lemma idle_ok cfg : 1 ≤ MaxTrackedIPs cfg → net_ok cfg (idle cfg).
Proof.
  intros Hc. split; cbn [idle n_slots n_results n_limiter n_threads].
  - intros Hn. rewrite count_none by apply map_Forall_empty. lia.
  - rewrite count_none by apply map_Forall_empty. by destruct (Bin.observed h).
  - intros _. split; [|apply map_Forall_empty]. split; [|done]. change (0 ≤ MaxTrackedIPs cfg). lia.
Qed.

(** What every request keeps of the caches that it finds holds at every moment. *)
Lemma caches_keep (P : Caches → Prop) cfg c :
  (∀ w o w', inner w o w' → P (caches w) → P (caches w')) → P (n_caches (idle cfg)) →
  rtc (steps h inner arrives) (idle cfg) c → P (n_caches c).
Proof.
  intros Hkeep Hidle Hrun. eapply (rtc_preserves (λ c, P (n_caches c))); [|exact Hrun|exact Hidle].
  intros c1 c2 [[i Hs]|Hs] Hp; [|by destruct Hs]. destruct Hs as [| | | | |l k rs cs ts t slot o w Hi Hg Hin|]; [done..| |done].
  eapply Hkeep; [exact Hin|exact Hp].
Qed.

(** No request waits for another: every one that has not ended can take a step. *)
Lemma thread_progress c i t :
  (∀ w, ∃ o w', inner w o w') → n_threads c !! i = Some t → (∀ o, t_stage t ≠ Ended o) →
  ∃ c' t', net_step h inner arrives i c c' ∧ n_threads c' !! i = Some t' ∧ progress (t_stage t) < progress (t_stage t').
Proof.
  intros Htotal Hi Hne. destruct c as [l k rs cs ts]. cbn [n_threads] in *.
  destruct (t_stage t) as [| | |slot|o|o] eqn:Hg; [..|by destruct (Hne o)].
  - eexists _, _. split; [by apply step_enter|]. split; [apply lookup_insert_eq|apply enter_progress].
  - destruct (rateLimited h) eqn:Er.
    + destruct (allow (iteration_order 0 (buckets l)) (rateKey h (req (t_world t))) (now (t_world t)) l) as [ok l'] eqn:Ea.
      eexists _, _. split; [eapply step_limit; [done..| |exact Ea]|].
      * intros x Hx. by apply iteration_order_elem.
      * split; [apply lookup_insert_eq|apply limited_progress].
    + eexists _, _. split; [by apply step_unlimited|]. split; [apply lookup_insert_eq|done].
  - destruct (acquired h k t) as [t' k'] eqn:Ea. eexists _, _. split; [by eapply step_acquire|].
    split; [apply lookup_insert_eq|by eapply acquired_progress].
  - destruct (Htotal (set_caches cs (t_world t))) as (o & w & Hin). eexists _, _. split; [by eapply step_leave|].
    split; [apply lookup_insert_eq|done].
  - eexists _, _. split; [by apply step_end|]. split; [apply lookup_insert_eq|done].
Qed.

(** (C8) However requests arrive, run, panic and end, at most [n] of them are in the router
    at a time, the channel counts them exactly, and one is refused exactly when [n] are:
    no slot is lost or given twice.  The observer has been told once of every request that
    has returned, and of no other; the limiter is within its bound, unless a client has no
    address; and no request waits for another: each that has not ended can take its next
    step, whatever the others do. *)
Theorem requests_interleave cfg c :
  1 ≤ MaxTrackedIPs cfg → (∀ w, ∃ o w', inner w o w') → rtc (steps h inner arrives) (idle cfg) c →
  (0 < n → let running := count holds_slot (n_threads c) in
     n_slots c = running ∧ running ≤ n ∧ (acquire n (n_slots c) = None ↔ running = n)) ∧
  Z.of_nat (length (n_results c)) = (if Bin.observed h then count is_returned (n_threads c) else 0) ∧
  (addressed → entries (n_limiter c) ≤ MaxTrackedIPs cfg) ∧
  ∀ i t, n_threads c !! i = Some t → (∀ o, t_stage t ≠ Ended o) →
    ∃ c' t', net_step h inner arrives i c c' ∧ n_threads c' !! i = Some t' ∧ progress (t_stage t) < progress (t_stage t').
Proof.
  intros Hcfg Htotal Hsteps. assert (net_ok cfg c) as [Hs Hr Hl].
  { eapply (rtc_preserves (net_ok cfg)); [|exact Hsteps|by apply idle_ok]. intros c1 c2. by apply net_step_ok. }
  split; [|split; [done|split]].
  - intros Hn. destruct (Hs Hn) as [E Hle]. rewrite E in Hle |- *. split; [done|]. split; [done|].
    unfold acquire. destruct (Z.ltb_spec (count holds_slot (n_threads c)) n); split; try done; lia.
  - intros Had. destruct (Hl Had) as [(He & Hm & _) _]. lia.
  - intros i t. by apply thread_progress.
Qed.
End All.

(** ** The last requests *)

Definition is_ended (t : thread) : bool := match t_stage t with Ended _ => true | _ => false end.
Definition all_ended (c : net) : Prop := map_Forall (λ _ t, is_ended t = true) (n_threads c).

Section Drain.
Context `{GoStd} (h : HTTPBin) (inner : World → outcome gerror unit → World → Prop).
Context (Htotal : ∀ w, ∃ o w', inner w o w').

(** No request arrives. *)
Definition nobody (r : Request) : Prop := False.

(** A thread takes a step, after the limiter has been swept any number of times. *)
Definition drain (c c' : net) : Prop := ∃ i c1, rtc (swept h) c c1 ∧ net_step h inner nobody i c1 c'.

Lemma swept_threads c c' : rtc (swept h) c c' → n_threads c' = n_threads c.
Proof. induction 1 as [|c c1 c' Hs _ IH]; [done|]. rewrite IH. by destruct Hs. Qed.

(** The steps that the threads have before them, at most. *)
Definition remaining (c : net) : Z := tally (λ t, 5 - progress (t_stage t)) (n_threads c).

Lemma remaining_bounds c : 0 ≤ remaining c ≤ 5 * Z.of_nat (size (n_threads c)).
Proof. apply tally_bounds. intros t. by destruct (t_stage t). Qed.

(** A step takes one of the threads further. *)
Lemma drain_moves c c' :
  drain c c' → ∃ i t t', n_threads c !! i = Some t ∧ n_threads c' = <[i := t']> (n_threads c) ∧
    progress (t_stage t) < progress (t_stage t').
Proof.
  intros (i & c1 & Hsw & Hs). rewrite <- (swept_threads c c1 Hsw).
  destruct Hs as [l k rs cs ts w Hi Hw|l k rs cs ts t Hi Hg|l k rs cs ts t Hi Hg Hr|l k rs cs ts t order ok l' Hi Hg Hr Hc Ha|
    l k rs cs ts t t' k' Hi Hg Ha|l k rs cs ts t slot o w Hi Hg Hin|l k rs cs ts t o Hi Hg];
    [done|exists i, t..]; (eexists; split; [exact Hi|split; [reflexivity|]]); rewrite Hg.
  - apply enter_progress.
  - done.
  - apply limited_progress.
  - by eapply acquired_progress.
  - done.
  - done.
Qed.

Lemma drain_remaining c c' : drain c c' → remaining c' < remaining c.
Proof.
  intros Hs. destruct (drain_moves c c' Hs) as (i & t & t' & Hi & E & Hlt). unfold remaining.
  rewrite E, (tally_update _ i t) by done. lia.
Qed.

Lemma drain_bound k c c' : nsteps drain k c c' → Z.of_nat k ≤ remaining c - remaining c'.
Proof. induction 1 as [|k c c1 c' Hs _ IH]; [lia|]. apply drain_remaining in Hs. lia. Qed.

Lemma drain_ends c : sn drain c.
Proof.
  remember (Z.to_nat (remaining c)) as m eqn:Em. revert c Em.
  induction m as [m IH] using lt_wf_ind. intros c ->. constructor. intros c' Hs.
  apply drain_remaining in Hs. pose proof (remaining_bounds c'). eapply IH; [|reflexivity]. lia.
Qed.

Lemma drain_dom c c' : rtc drain c c' → dom (n_threads c') = dom (n_threads c).
Proof.
  induction 1 as [|c c1 c' Hs _ IH]; [done|]. rewrite IH.
  destruct (drain_moves c c1 Hs) as (i & t & t' & Hi & -> & _). by apply dom_insert_lookup_L.
Qed.

(** The server stands still when all the requests have ended, and only then. *)
Lemma drain_stuck c : nf drain c ↔ all_ended c.
Proof.
  split.
  - intros Hn. destruct (decide (all_ended c)) as [|Hall]; [done|]. unfold all_ended in Hall.
    apply map_not_Forall in Hall as (i & t & Hi & Ht); [|apply _].
    destruct (thread_progress h inner nobody c i t Htotal Hi) as (c' & _ & Hs & _).
    { intros o Ho. unfold is_ended in Ht. by rewrite Ho in Ht. }
    destruct Hn. exists c', i, c. split; [apply rtc_refl|done].
  - intros Hall [c' Hs]. destruct (drain_moves c c' Hs) as (i & t & t' & Hi & _ & Hlt).
    apply Hall in Hi. unfold is_ended in Hi. destruct (t_stage t); try done. by destruct (t_stage t').
Qed.

Lemma drain_any arrives c c' : drain c c' → rtc (steps h inner arrives) c c'.
Proof.
  intros (i & c1 & Hsw & Hs). etrans.
  - eapply (rtc_congruence id); [|exact Hsw]. intros c2 c3. by right.
  - apply rtc_once. left. exists i. destruct Hs as [l k rs cs ts w Hi Hw| | | | | |]; [done|econstructor; eassumption..].
Qed.

Lemma all_ended_no_slot c : all_ended c → count holds_slot (n_threads c) = 0.
Proof.
  intros Hall. apply count_none. intros i t Hi. apply Hall in Hi. unfold is_ended in Hi. unfold holds_slot.
  by destruct (t_stage t) as [| | |[]| |].
Qed.

(** (C10) From the moment on when no request arrives, every order in which the others take
    their steps ends, after at most five steps for each of them, however often the limiter
    is swept between them; the order cannot end before, so that no request is left; at
    the end all the slots are free, and the observer knows of every request that has returned. *)
Theorem requests_drain arrives cfg c :
  1 ≤ MaxTrackedIPs cfg → rtc (steps h inner arrives) (idle cfg) c →
  sn drain c ∧
  (∀ k c', nsteps drain k c c' → Z.of_nat k ≤ 5 * Z.of_nat (size (n_threads c))) ∧
  (∀ c', rtc drain c c' → dom (n_threads c') = dom (n_threads c) ∧ (nf drain c' ↔ all_ended c') ∧
    (all_ended c' → (0 < maxConcurrentRequests h → n_slots c' = 0) ∧
      (Bin.observed h = true → Z.of_nat (length (n_results c')) = count is_returned (n_threads c')))).
Proof.
  intros Hcfg Hc. split; [apply drain_ends|split].
  - intros k c' Hk. apply drain_bound in Hk. pose proof (remaining_bounds c). pose proof (remaining_bounds c'). lia.
  - intros c' Hd. split; [by apply drain_dom|]. split; [apply drain_stuck|]. intros Hall.
    assert (net_ok h arrives cfg c') as [Hs Hr _].
    { eapply (rtc_preserves (net_ok h arrives cfg)); [| |by apply idle_ok].
      - intros c1 c2. apply (net_step_ok h inner arrives cfg c1 c2 Hcfg).
      - etrans; [exact Hc|]. clear Hc. induction Hd as [|c1 c2 c3 Hs1 _ IH]; [apply rtc_refl|].
        etrans; [by apply drain_any|exact (IH Hall)]. }
    split.
    + intros Hn. destruct (Hs Hn) as [-> _]. by apply all_ended_no_slot.
    + intros Ho. by rewrite Ho in Hr.
Qed.
End Drain.

(** ** Each request for itself *)

Section Isolated.
Context `{GoStd} (h : HTTPBin) (mux : HandlerFunc) (arrives : Request → Prop).

(** What the limiter, the semaphore, the router and the end of the request make of a thread
    that is before them. *)
Definition verdict (l : ipRateLimiter) (t : thread) : bool :=
  if rateLimited h then fst (allow [] (rateKey h (req (t_world t))) (now (t_world t)) l) else true.

Definition check (l : ipRateLimiter) (t : thread) : thread :=
  match t_stage t with Limiting => limited (verdict l t) t | _ => t end.
Definition take (k : Z) (t : thread) : thread :=
  match t_stage t with Acquiring => fst (acquired h k t) | _ => t end.
Definition route (t : thread) : thread :=
  match t_stage t with Inside _ => answer (requestHandler h mux) t | _ => t end.
Definition conclude (t : thread) : thread :=
  match t_stage t with Leaving o => ended h o t | _ => t end.

(** The request that arrives in the world [w], when the limiter is [l] as it asks for its
    leave, and [k] slots are taken as it asks for one. *)
Definition entered (w : World) : thread := enter h (arrival h w).
Definition checked (l : ipRateLimiter) (w : World) : thread := check l (entered w).
Definition pooled (l : ipRateLimiter) (k : Z) (w : World) : thread := take k (checked l w).
Definition handled (l : ipRateLimiter) (k : Z) (w : World) : thread := route (pooled l k w).
Definition concluded (l : ipRateLimiter) (k : Z) (w : World) : thread := conclude (handled l k w).

(** The verdict of the limiter does not depend on the order in which it looks for the
    oldest entries. *)
Lemma allow_verdict order order' key t l : fst (allow order key t l) = fst (allow order' key t l).
Proof. unfold allow. destruct (buckets l !! key); [|done]. by destruct (bucket_allow _ _). Qed.

(** A thread is where that takes it. *)
Definition follows_from (l : ipRateLimiter) (k : Z) (w : World) (t : thread) : Prop :=
  match t_stage t with
  | Entering => t = arrival h w
  | Limiting => t = entered w
  | Acquiring => t = checked l w
  | Inside _ => t = pooled l k w
  | Leaving _ => t = handled l k w
  | Ended _ => t = concluded l k w
  end.

(** After each middleware the thread is before the next one, or it has been answered. *)
Lemma entered_stage w : t_stage (entered w) = Limiting ∨ ∃ o, t_stage (entered w) = Leaving o.
Proof.
  unfold entered, enter. destruct (nonempty _); [|by left]. destruct (strippedURL _ _); [by left|].
  right. apply answer_stage.
Qed.

Lemma checked_stage l w : t_stage (checked l w) = Acquiring ∨ ∃ o, t_stage (checked l w) = Leaving o.
Proof.
  unfold checked, check. destruct (entered_stage w) as [Hg|[o Hg]]; rewrite Hg; [|right; by exists o].
  destruct (verdict _ _); [by left|]. right. apply answer_stage.
Qed.

Lemma pooled_stage l k w : (∃ b, t_stage (pooled l k w) = Inside b) ∨ ∃ o, t_stage (pooled l k w) = Leaving o.
Proof.
  unfold pooled, take. destruct (checked_stage l w) as [Hg|[o Hg]]; rewrite Hg; [|right; by exists o].
  unfold acquired. destruct (0 <? _); [destruct (acquire _ _)|]; [left; by exists true| |left; by exists false].
  right. apply answer_stage.
Qed.

Lemma handled_stage l k w : ∃ o, t_stage (handled l k w) = Leaving o.
Proof.
  unfold handled, route. destruct (pooled_stage l k w) as [[b Hg]|[o Hg]]; rewrite Hg; [apply answer_stage|by exists o].
Qed.

Lemma follows_enter l k w : follows_from l k w (entered w).
Proof.
  unfold follows_from. destruct (entered_stage w) as [Hg|[o Hg]]; rewrite Hg; [done|].
  unfold handled, pooled, checked, check, take, route. by rewrite !Hg.
Qed.

Lemma follows_limit l k w : follows_from l k w (checked l w).
Proof.
  unfold follows_from. destruct (checked_stage l w) as [Hg|[o Hg]]; rewrite Hg; [done|].
  unfold handled, pooled, take, route. by rewrite !Hg.
Qed.

Lemma follows_acquire l k w : follows_from l k w (pooled l k w).
Proof.
  unfold follows_from. destruct (pooled_stage l k w) as [[b Hg]|[o Hg]]; rewrite Hg; [done|].
  unfold handled, route. by rewrite !Hg.
Qed.

Lemma follows_leave l k w : follows_from l k w (handled l k w).
Proof. unfold follows_from. by destruct (handled_stage l k w) as [o ->]. Qed.

Lemma follows_end l k w : follows_from l k w (concluded l k w).
Proof. unfold follows_from, concluded, conclude. by destruct (handled_stage l k w) as [o ->]. Qed.

(** *** The middlewares in a row *)

(** The computation on a server of its own and the steps of the thread. *)
Definition agrees (m : SM unit) (l : ipRateLimiter) (k : Z) (f : thread → thread) (t : thread) : Prop :=
  let '(o, s') := m (MkServer (t_world t) l k []) in
  t_stage (f t) = Leaving o ∧ t_world (f t) = world s' ∧ t_outer (f t) = t_outer t.

Lemma answer_agrees m l k t : agrees (on_world m) l k (answer m) t.
Proof. unfold agrees, on_world, answer. cbn [world]. by destruct (m (t_world t)). Qed.

Lemma pool_agrees l k t :
  t_stage t = Acquiring →
  agrees (if 0 <? maxConcurrentRequests h
    then maxConcurrent (maxConcurrentRequests h) (on_world (requestHandler h mux)) else on_world (requestHandler h mux))
    l k (λ t, route (take k t)) t.
Proof.
  intros Hg. unfold agrees, take, acquired. rewrite Hg. destruct (0 <? _).
  - unfold maxConcurrent. cbn [slots]. destruct (acquire _ k) as [k'|].
    + cbn [fst]. pose proof (answer_agrees (requestHandler h mux) l k' (move (Inside true) t)) as Ha.
      unfold agrees in Ha. change (set_slots k' _) with (MkServer (t_world t) l k' []).
      change (t_world (move _ t)) with (t_world t) in Ha.
      by destruct (on_world _ _) as [o s'].
    + cbn [fst]. pose proof (answer_agrees (writeError 503 None) l k t) as Ha. unfold agrees in Ha.
      destruct (on_world _ _) as [o s']. unfold route. by rewrite (proj1 Ha).
  - cbn [fst]. exact (answer_agrees (requestHandler h mux) l k (move (Inside false) t)).
Qed.

(** A thread that has been answered passes by the other middlewares. *)
Lemma answered_passes k o t : t_stage t = Leaving o → route (take k t) = t.
Proof. intros Hg. unfold take, route. by rewrite !Hg. Qed.

Lemma limiter_agrees m l k t :
  t_stage t = Limiting → (∀ l' t', t_stage t' = Acquiring → agrees m l' k (λ t, route (take k t)) t') →
  agrees (if rateLimited h then rateLimitMiddleware (h_getClientIP h) (rateLimitUseSubnets h) m else m)
    l k (λ t, route (take k (check l t))) t.
Proof.
  intros Hg Hm. unfold agrees, check. rewrite Hg. unfold verdict. destruct (rateLimited h).
  - destruct (rateLimit_run h m (MkServer (t_world t) l k [])) as (order & _ & ->). cbn [world limiter].
    rewrite (allow_verdict [] order). destruct (allow _ _ _ _) as [ok l']. cbn [fst]. destruct ok; cbn [limited].
    + exact (Hm l' (move Acquiring t) eq_refl).
    + destruct (answer_stage tooMany t) as [o' Ho]. rewrite (answered_passes k o') by done.
      exact (answer_agrees tooMany l' k t).
  - exact (Hm l (move Acquiring t) eq_refl).
Qed.

Lemma prefix_agrees m l k t :
  t_stage t = Entering → t_outer t = None →
  (∀ t', t_stage t' = Limiting → agrees m l k (λ t, route (take k (check l t))) t') →
  let '(o, s') := (if nonempty (prefix h) then StripPrefix (prefix h) m else m) (MkServer (t_world t) l k []) in
  let t' := route (take k (check l (enter h t))) in t_stage t' = Leaving o ∧ restored t' = world s'.
Proof.
  intros Hg Ho Hm. unfold enter. destruct (nonempty (prefix h)) eqn:Ep.
  - unfold StripPrefix. unfold nonempty in Ep. apply negb_true_iff in Ep. rewrite Ep.
    unfold mbind, GoM_bind, on_world at 1, get_req. cbn [set_world world].
    destruct (strippedURL (prefix h) (URL (req (t_world t)))) as [u|].
    + unfold with_request. cbn [world set_world].
      pose proof (Hm (MkThread Limiting (set_req (set_URL u (req (t_world t))) (t_world t)) (t_began t) (Some (req (t_world t)))) eq_refl) as Ha.
      unfold agrees in Ha. cbn [t_world t_outer] in Ha. unfold set_world at 2. cbn [limiter slots results].
      destruct (m _) as [o s']. destruct Ha as (A1 & A2 & A3). split; [done|]. unfold restored. by rewrite A3, A2.
    + pose proof (answer_agrees NotFound l k t) as Ha. unfold agrees, on_world in *. cbn [world set_world] in *.
      destruct (NotFound (t_world t)) as [o w]. destruct Ha as (A1 & A2 & A3). unfold take, check, route. rewrite !A1.
      split; [done|]. unfold restored. by rewrite A3, Ho, A2.
  - pose proof (Hm (move Limiting t) eq_refl) as Ha. unfold agrees in Ha. cbn [t_world t_outer move] in Ha.
    destruct (m _) as [o s']. destruct Ha as (A1 & A2 & A3). split; [done|]. unfold restored. by rewrite A3, Ho, A2.
Qed.

(** What the steps make of the request is what [serverHandler] makes of it. *)
Lemma concluded_serverHandler l k w :
  let '(o, s') := serverHandler h mux (MkServer w l k []) in
  t_stage (concluded l k w) = Ended o ∧ t_world (concluded l k w) = world s'.
Proof.
  pose proof (prefix_agrees _ l k (arrival h w) eq_refl eq_refl
    (λ t' Ht, limiter_agrees _ l k t' Ht (λ l' t1 Ht1, pool_agrees l' k t1 Ht1))) as Ha.
  unfold serverHandler. cbn zeta. set (m := if nonempty (prefix h) then _ else _) in *.
  fold (entered w) (checked l w) (pooled l k w) (handled l k w) in Ha. cbn zeta in Ha. unfold concluded, conclude.
  destruct (Bin.observed h) eqn:Eo.
  - unfold observe. cbn [world]. unfold set_world at 1. cbn [limiter slots results].
    unfold arrival in Ha. rewrite Eo in Ha. cbn [t_world] in Ha. destruct (m _) as [o s']. destruct Ha as [A1 A2].
    rewrite A1. unfold ended. rewrite Eo, A2. by destruct o as [[]| |].
  - unfold arrival in Ha. rewrite Eo in Ha. cbn [t_world] in Ha. destruct (m _) as [o s']. destruct Ha as [A1 A2].
    rewrite A1. unfold ended. by rewrite Eo, A2.
Qed.

(** *** The caches

    They are shared: what a request finds in them is not what there was when it arrived. *)

Definition with_caches (cs : Caches) (t : thread) : thread :=
  MkThread (t_stage t) (set_caches cs (t_world t)) (t_began t) (t_outer t).

Lemma entered_caches cs w : t_stage (entered w) = Limiting → entered (set_caches cs w) = with_caches cs (entered w).
Proof.
  unfold entered, enter, arrival. cbn [t_world]. destruct (Bin.observed h); cbn [req set_wr set_caches].
  all: destruct (nonempty _); [|done]; destruct (strippedURL _ _); [done|].
  all: match goal with |- t_stage (answer ?m ?t) = _ → _ => by destruct (answer_stage m t) as [o ->] end.
Qed.

Lemma checked_caches l cs w : t_stage (checked l w) = Acquiring → checked l (set_caches cs w) = with_caches cs (checked l w).
Proof.
  destruct (entered_stage w) as [Hg|[o Hg]]; unfold checked, check; rewrite Hg; [|by rewrite Hg].
  rewrite (entered_caches cs w Hg). cbn [with_caches t_stage]. rewrite Hg. unfold verdict. cbn [with_caches t_world req now set_caches].
  destruct (if rateLimited h then _ else _); [done|]. unfold limited.
  by destruct (answer_stage tooMany (entered w)) as [o ->].
Qed.

Lemma pooled_caches l k cs w b :
  t_stage (pooled l k w) = Inside b → pooled l k (set_caches cs w) = with_caches cs (pooled l k w).
Proof.
  destruct (checked_stage l w) as [Hg|[o Hg]]; unfold pooled, take; rewrite Hg; [|by rewrite Hg].
  rewrite (checked_caches l cs w Hg). cbn [with_caches t_stage]. rewrite Hg. unfold acquired.
  destruct (0 <? _); [destruct (acquire _ _)|]; [done| |done].
  cbn [fst]. by destruct (answer_stage (writeError 503 None) (checked l w)) as [o ->].
Qed.

Lemma handled_caches l k cs w b :
  t_stage (pooled l k w) = Inside b →
  handled l k (set_caches cs w) = answer (requestHandler h mux) (with_caches cs (pooled l k w)).
Proof.
  intros Hg. unfold handled, route. rewrite (pooled_caches l k cs w b Hg). cbn [with_caches t_stage]. by rewrite Hg.
Qed.

(** *** Among the others *)

Section Among.
Context (cfg : RateLimiterConfig).
Abbreviation busy := (steps h (routed h mux) arrives).

(** On the way to [c] the server has had the limiter [l] and, not before that, [k] slots
    taken; and it has had the caches [cs]. *)
Definition met (c : net) (l : ipRateLimiter) (k : Z) (cs : Caches) : Prop :=
  (∃ c1 c2, rtc busy (idle cfg) c1 ∧ rtc busy c1 c2 ∧ rtc busy c2 c ∧ n_limiter c1 = l ∧ n_slots c2 = k) ∧
  ∃ c3, rtc busy (idle cfg) c3 ∧ rtc busy c3 c ∧ n_caches c3 = cs.

Definition explained (c : net) (t : thread) : Prop :=
  ∃ w l k, arrives (req w) ∧ met c l k (caches w) ∧ follows_from l k w t.

Definition tracked (c : net) : Prop :=
  rtc busy (idle cfg) c ∧ map_Forall (λ _, explained c) (n_threads c).

Lemma met_later c c' l k cs : busy c c' → met c l k cs → met c' l k cs.
Proof.
  intros Hs [(c1 & c2 & R1 & R2 & R3 & E1 & E2) (c3 & R4 & R5 & E3)]. split.
  - exists c1, c2. repeat split; try done. by eapply rtc_r.
  - exists c3. repeat split; try done. by eapply rtc_r.
Qed.

Lemma explained_later c c' t : busy c c' → explained c t → explained c' t.
Proof. intros Hs (w & l & k & Hw & Hm & Hf). exists w, l, k. split; [done|]. split; [by eapply met_later|done]. Qed.

(** What there is now, beside what there was. *)
Lemma met_now c : rtc busy (idle cfg) c → met c (n_limiter c) (n_slots c) (n_caches c).
Proof. intros Hc. split; [by exists c, c|by exists c]. Qed.

Lemma met_limiter c l k cs : rtc busy (idle cfg) c → met c l k cs → met c (n_limiter c) (n_slots c) cs.
Proof. intros Hc [_ Hcs]. split; [by exists c, c|done]. Qed.

Lemma met_slots c l k cs : met c l k cs → met c l (n_slots c) cs.
Proof.
  intros [(c1 & c2 & R1 & R2 & R3 & <- & E) Hcs]. split; [|done]. exists c1, c. repeat split; [done|by etrans|done].
Qed.

Lemma met_caches c l k cs : rtc busy (idle cfg) c → met c l k cs → met c l k (n_caches c).
Proof. intros Hc [Hlk _]. split; [done|]. by exists c. Qed.

(** What a step makes of its thread. *)
Lemma step_explained i c c' :
  net_step h (routed h mux) arrives i c c' → tracked c →
  ∃ t', n_threads c' = <[i := t']> (n_threads c) ∧ explained c t'.
Proof.
  intros Hs [Hrun Hall]. pose proof (met_now c Hrun) as Hnow.
  pose proof (λ l k cs, met_limiter c l k cs Hrun) as Hlim. pose proof (λ l k cs, met_caches c l k cs Hrun) as Hcs.
  assert (∀ t, n_threads c !! i = Some t → explained c t) as Hi by (intros t Ht; by apply (Hall i t)).
  destruct Hs as [l k rs cs ts w Hn Hw|l k rs cs ts t Ht Hg|l k rs cs ts t Ht Hg Hr|l k rs cs ts t order ok l' Ht Hg Hr Hc Ha|
    l k rs cs ts t t' k' Ht Hg Ha|l k rs cs ts t slot o w' Ht Hg Hin|l k rs cs ts t o Ht Hg];
    cbn [n_threads n_limiter n_slots n_caches] in *; (eexists; split; [reflexivity|]);
    [by exists (set_caches cs w), l, k|destruct (Hi t Ht) as (w & l0 & k0 & Hw & Hm & Hf); unfold follows_from in Hf; rewrite Hg in Hf; subst t..].
  - exists w, l0, k0. split; [done|]. split; [done|]. apply follows_enter.
  - exists w, l, k. split; [done|]. split; [by eapply Hlim|].
    pose proof (follows_limit l k w) as Hf. unfold checked, check, verdict in Hf. by rewrite Hg, Hr in Hf.
  - exists w, l, k. split; [done|]. split; [by eapply Hlim|]. pose proof (follows_limit l k w) as Hf.
    unfold checked, check, verdict in Hf. rewrite Hg, Hr, (allow_verdict [] order), Ha in Hf. exact Hf.
  - exists w, l0, k. split; [done|]. split; [exact (met_slots _ _ _ _ Hm)|].
    pose proof (follows_acquire l0 k w) as Hf. unfold pooled, take in Hf. by rewrite Hg, Ha in Hf.
  - exists (set_caches cs w), l0, k0. split; [done|]. split; [by eapply Hcs|].
    pose proof (follows_leave l0 k0 (set_caches cs w)) as Hf. rewrite (handled_caches l0 k0 cs w slot Hg) in Hf.
    unfold answer in Hf. cbn [with_caches t_world t_began t_outer] in Hf. unfold routed in Hin. by rewrite Hin in Hf.
  - exists w, l0, k0. split; [done|]. split; [done|]. pose proof (follows_end l0 k0 w) as Hf.
    unfold concluded, conclude in Hf. by rewrite Hg in Hf.
Qed.

Lemma busy_tracked c c' : busy c c' → tracked c → tracked c'.
Proof.
  intros Hb Htr. assert (rtc busy (idle cfg) c') as Hrun' by (eapply rtc_r; [apply Htr|done]).
  split; [done|]. destruct Hb as [[i Hs]|Hs].
  2: { intros j t Hj. assert (n_threads c' = n_threads c) as E by by destruct Hs.
       rewrite E in Hj. eapply explained_later; [by right|]. by eapply (proj2 Htr). }
  destruct (step_explained i c c' Hs Htr) as (t' & E & Ht'). destruct Htr as [Hrun Hall].
  assert (busy c c') as Hb by (left; by exists i). rewrite E. apply map_Forall_insert_2; [by eapply explained_later|].
  intros j t Hj. eapply explained_later; [exact Hb|]. by eapply Hall.
Qed.

(** (C9) However the requests interleave, each is answered as if it had the server to itself:
    its outcome and the response on its wire are those of [serverHandler] for the request that
    has arrived, with the limiter as it was when it asked for its leave, the slots as they
    were when it asked for one, and the caches as it found them; nothing else of what
    the others do reaches it. *)
Theorem requests_isolated c i t o :
  rtc busy (idle cfg) c → n_threads c !! i = Some t → t_stage t = Ended o →
  ∃ w l k, arrives (req w) ∧ met c l k (caches w) ∧
    let '(o', s') := serverHandler h mux (MkServer w l k []) in o' = o ∧ t_world t = world s'.
Proof.
  intros Hrun Hi Hg. assert (tracked c) as [_ Hall].
  { eapply (rtc_preserves tracked); [apply busy_tracked|exact Hrun|]. split; [apply rtc_refl|apply map_Forall_empty]. }
  destruct (Hall i t Hi) as (w & l & k & Hw & Hm & Hf). exists w, l, k. split; [done|]. split; [done|].
  unfold follows_from in Hf. rewrite Hg in Hf. pose proof (concluded_serverHandler l k w) as Hc.
  rewrite <- Hf in Hc. destruct (serverHandler h mux _) as [o' s']. destruct Hc as [Hc1 Hc2].
  rewrite Hg in Hc1. by injection Hc1 as ->.
Qed.
End Among.
End Isolated.

(** ** Witnesses *)

Definition sample_limits : RateLimiterConfig := MkRateLimiterConfig (of_Z 1) 1 1 1 1 false.

Lemma serverHandler_steps_witness :
  let s := MkServer (GET "/a/get") (newIPRateLimiter sample_limits) 0 [] in
  let '(o, s') := serverHandler small_bin hello s in
  ∃ t', rtc (net_step small_bin (routed small_bin hello) anyone 7%nat) (MkNet (limiter s) (slots s) (results s) (caches (world s)) ∅)
      (MkNet (limiter s') (slots s') (results s') (caches (world s')) (<[7%nat := t']> ∅)) ∧
    t_stage t' = Ended o ∧ t_world t' = world s'.
Proof.
  intros s. apply (serverHandler_steps small_bin hello 7%nat ∅ s). reflexivity.
Defined.

(** A request is in the router when another arrives: it would be refused. *)
Lemma requests_interleave_witness :
  ∃ c, rtc (steps small_bin (routed small_bin hello) anyone) (idle sample_limits) c ∧
    count holds_slot (n_threads c) = 1 ∧ n_slots c = 1 ∧ acquire 1 (n_slots c) = None.
Proof.
  assert (∃ c, rtc (steps small_bin (routed small_bin hello) anyone) (idle sample_limits) c ∧
    count holds_slot (n_threads c) = 1) as (c & Hc & Hone).
  { eexists. split.
    - eapply rtc_l; [left; exists 7%nat; apply (step_arrive _ _ _ _ _ _ _ _ _ (GET "/a/get")); [reflexivity|done]|].
      eapply rtc_l; [left; exists 7%nat; eapply step_enter; [apply lookup_insert_eq|reflexivity]|].
      eapply rtc_l; [left; exists 7%nat; eapply (step_limit _ _ _ _ _ _ _ _ _ _ []); [apply lookup_insert_eq|reflexivity|reflexivity| |reflexivity]|].
      { intros k [e He]. by vm_compute in He. }
      eapply rtc_l; [left; exists 7%nat; eapply step_acquire; [apply lookup_insert_eq|vm_compute; reflexivity|vm_compute; reflexivity]|].
      eapply rtc_l; [left; exists 8%nat; apply (step_arrive _ _ _ _ _ _ _ _ _ (GET "/a/get")); [reflexivity|done]|].
      apply rtc_refl.
    - vm_compute. reflexivity. }
  exists c. split; [exact Hc|]. split; [exact Hone|].
  destruct (requests_interleave small_bin (routed small_bin hello) anyone sample_limits c) as [Hslots _]; [done| |exact Hc|].
  { intros w. eexists _, _. apply surjective_pairing. }
  destruct (Hslots eq_refl) as (E & _ & Hnone). rewrite Hone in E, Hnone. split; [exact E|]. by apply Hnone.
Defined.

(** A request that runs to its end, and is answered. *)
Definition sample_answered (c : net) : bool :=
  match n_threads c !! 7%nat with
  | Some t => is_ended t && String.eqb (rBody (base (wr (t_world t)))) "hello"
  | None => false
  end.

Lemma sample_run :
  ∃ c, rtc (steps small_bin (routed small_bin hello) anyone) (idle sample_limits) c ∧ sample_answered c = true.
Proof.
  eexists. split.
  - eapply rtc_l; [left; exists 7%nat; apply (step_arrive _ _ _ _ _ _ _ _ _ (GET "/a/get")); [reflexivity|done]|].
    eapply rtc_l; [left; exists 7%nat; eapply step_enter; [apply lookup_insert_eq|reflexivity]|].
    eapply rtc_l; [left; exists 7%nat; eapply (step_limit _ _ _ _ _ _ _ _ _ _ []); [apply lookup_insert_eq|reflexivity|reflexivity| |reflexivity]|].
    { intros k [e He]. by vm_compute in He. }
    eapply rtc_l; [left; exists 7%nat; eapply step_acquire; [apply lookup_insert_eq|vm_compute; reflexivity|vm_compute; reflexivity]|].
    eapply rtc_l; [left; exists 7%nat; eapply step_leave; [apply lookup_insert_eq|reflexivity|apply surjective_pairing]|].
    eapply rtc_l; [left; exists 7%nat; eapply step_end; [apply lookup_insert_eq|vm_compute; reflexivity]|].
    apply rtc_refl.
  - vm_compute. reflexivity.
Qed.

Lemma requests_isolated_witness :
  ∃ t w l k, rBody (base (wr (t_world t))) = "hello" ∧
    let '(o, s') := serverHandler small_bin hello (MkServer w l k []) in t_stage t = Ended o ∧ t_world t = world s'.
Proof.
  destruct sample_run as (c & Hc & Hok). unfold sample_answered in Hok.
  destruct (n_threads c !! 7%nat) as [t|] eqn:Hi; [|discriminate Hok].
  apply andb_true_iff in Hok as [Hend Hbody]. apply String.eqb_eq in Hbody. unfold is_ended in Hend.
  destruct (t_stage t) as [| | |b|o|o] eqn:Hg; try discriminate Hend.
  destruct (requests_isolated small_bin hello anyone sample_limits c 7%nat t o Hc Hi Hg) as (w & l & k & _ & _ & Hs).
  exists t, w, l, k. split; [exact Hbody|]. destruct (serverHandler small_bin hello _) as [o' s'].
  destruct Hs as [-> Hs]. split; [exact Hg|exact Hs].
Defined.

(** Two requests have arrived and no other comes: ten steps at most. *)
Lemma requests_drain_witness :
  ∃ c, size (n_threads c) = 2%nat ∧ sn (drain small_bin (routed small_bin hello)) c ∧
    ∀ k c', nsteps (drain small_bin (routed small_bin hello)) k c c' → Z.of_nat k ≤ 10.
Proof.
  assert (∃ c, rtc (steps small_bin (routed small_bin hello) anyone) (idle sample_limits) c ∧ size (n_threads c) = 2%nat)
    as (c & Hc & Htwo).
  { eexists. split.
    - eapply rtc_l; [left; exists 7%nat; apply (step_arrive _ _ _ _ _ _ _ _ _ (GET "/a/get")); [reflexivity|done]|].
      eapply rtc_l; [left; exists 8%nat; apply (step_arrive _ _ _ _ _ _ _ _ _ (GET "/a/get")); [reflexivity|done]|].
      apply rtc_refl.
    - vm_compute. reflexivity. }
  exists c. split; [exact Htwo|].
  destruct (requests_drain small_bin (routed small_bin hello)) with (arrives := anyone) (cfg := sample_limits) (c := c)
    as (Hsn & Hk & _); [intros w; eexists _, _; apply surjective_pairing|done|exact Hc|].
  split; [exact Hsn|]. intros k c' Hn. specialize (Hk k c' Hn). rewrite Htwo in Hk. exact Hk.
Defined.

(** Four requests of a client, the third and the fourth a second after the others: it may make
    one at once, and one in a second. *)
Definition at_second (k : Z) (w : World) : World :=
  MkWorld (req w) (wr w) (now w + k * Second) (gone w) (rnd w) (rndi w) (caches w) (link w).

Lemma rate_served_witness :
  let s := MkServer (GET "/a/get") (newIPRateLimiter sample_limits) 0 [] in
  let ws := [GET "/a/get"; GET "/a/get"; at_second 1 (GET "/a/get"); at_second 1 (GET "/a/get")] in
  let answers := in_turn (rateLimitMiddleware (h_getClientIP small_bin) (rateLimitUseSubnets small_bin) (unlimited small_bin hello)) ws s in
  map (λ a, rStatus (base (wr a.2))) answers = [Some 200; Some 429; Some 200; Some 429] ∧
  answers = in_turn_as small_bin hello (tokenCount 1 1) (1, now (GET "/a/get")) ws s.
Proof.
  intros s ws answers. split; [vm_compute; reflexivity|].
  apply (rate_served small_bin hello 1 1 1 (rateKey small_bin (req (GET "/a/get"))) (now (GET "/a/get")));
    [split; reflexivity|reflexivity|lia|lia|discriminate|reflexivity|].
  repeat split; [exists 0|exists 0|exists 1|exists 0]; by vm_compute.
Defined.
